(* ===== verification/_CoqProject ===== *)
-Q . S2P
Prelude.v
Convert.v
FloatConvert.v
Securec.v
SecureMacros.v
Messages.v
Framing.v
Sending.v
Config.v
NodeManager.v
Scheduler.v
Collective.v
Requests.v
AbstractNode.v
Cluster.v
Threads.v
TcpServer.v
TcpClient.v
PsWorker.v
NodePrograms.v
LogConfig.v
LogWriter.v
ConsistentHash.v
HashPrograms.v
ThreadPool.v
Latch.v
Fsm.v
Http.v
HttpPrograms.v
MsgTcp.v
WorkQueue.v
EchoServer.v
Grpc.v
Asio.v
TlsEcho.v
Benchmark.v
Seastar.v
Rot13.v
Router.v
PingPong.v
Replies.v
ZHelpers.v
LogText.v
FileConfig.v
SmallPrograms.v
UnitTests.v
