(* ===== verification/Prelude.v ===== *)
(** * A verification development of the rpc repository

    The repository holds the communication layer of a parameter server
    (src/even-http/ps/core, C++ over libevent and protobuf), the worker that
    cuts embedding tables into shards (src/mindspore/ps), its logging and
    memory utilities (src/log/utils), and a number of smaller libraries and
    servers with their clients over libevent, gRPC, asio, seastar and ZeroMQ.
    A cluster is one scheduler, servers and workers.  Nodes register with the
    scheduler over TCP and get a rank, fetch the addresses of the servers, send
    heartbeats, and then send requests to servers and collective messages to
    each other.

    ** Files

    - Prelude.v: machine integers with their wrap-around, the monad [M S A] of
      methods on the fields [S] (return, exception, undefined behaviour, end of
      fuel), lists indexed by integers, C strings, tactics and hints.
    - Convert.v: the checked conversions of log/utils/convert_utils_base.h.
    - FloatConvert.v: the conversions of floats of the same file.
    - Securec.v: memcpy_s, memmove_s, memset_s and their unrolled variants;
      SecureMacros.v: the macros of their headers for lengths, overlap, strings
      and constant arguments.
    - Messages.v: the protobuf messages and the frame header; the generated
      encoder and decoder are the class [Protobuf] with its round-trip law.
    - Framing.v: TcpMessageHandler, the receiver of frames.
    - Sending.v: the SendMessage methods of TcpClient and TcpServer.
    - Config.v: ClusterConfig and CommUtil.
    - NodeManager.v: NodeManager, the scheduler's table of nodes.
    - Scheduler.v: SchedulerNode, as handlers and as a transition system.
    - Collective.v, Requests.v: the two tables of AbstractNode that match
      messages with the threads that wait for them, as transition systems.
    - AbstractNode.v: the rest of AbstractNode and Node.
    - Cluster.v: ServerNode and WorkerNode, and exchanges between nodes;
      NodePrograms.v: the pushes and pulls of node_manager_test.cpp.
    - Threads.v: the threads that Start of a node creates and Stop joins, with
      the event loops and timers they run, as interleavings.
    - TcpServer.v, TcpClient.v: connections and libevent callbacks.
    - PsWorker.v: Worker, its slicers, Util and the shard metadata.
    - LogConfig.v: the lexer and parser of log levels, log_adapter;
      LogWriter.v: the log statements of log_adapter.h, with glog and with slog.
    - ConsistentHash.v: consistent_hash_map; HashPrograms.v: its two programs.
    - ThreadPool.v, Latch.v: ThreadPool and CountDownLatch, as interleavings.
    - Fsm.v: the state machine of fsm.cpp.
    - Http.v: HttpMessageHandler, HttpClient, HttpServer, WorkerQueue, SSLUtil;
      HttpPrograms.v: the handlers of example_old.cpp.
    - MsgTcp.v: the parser, server and client of src/event-tcp.
    - WorkQueue.v: the work queue of src/libevent-example/multithread.
    - EchoServer.v: the threaded echo server of the same directory, with its
      clients as objects in memory and its jobs on the work queue.
    - Grpc.v: the greeter servers and clients of src/grpc.
    - Asio.v: the two echo servers of src/asio, as instances of one class, and
      their client; TlsEcho.v: the TLS echo server of src/seastar/include, a
      third instance, with its accept loop.
    - Benchmark.v: the loop the clients of src/grpc, src/brpc, src/zeromq and
      src/asio share, with their threads.
    - Seastar.v: the network test of src/seastar.
    - Rot13.v: the two rot13 servers of src/libevent-example/example.
    - Router.v: the message router of src/libevent-example/message.cpp.
    - PingPong.v, Replies.v: the other servers and clients of that directory.
    - ZHelpers.v: src/zeromq/zhelpers.hpp.
    - LogText.v: overload.h and ms_utils of log/utils.
    - FileConfig.v: FileConfiguration.
    - SmallPrograms.v: a blocking HTTP request, the retry helper, the builder of
      src/builder and a generator of identifiers.
    - UnitTests.v: the tests of src/tests, run on the definitions above.

    A class is a record of its fields and a method a definition with the name
    of the method; where two classes have a method of the same name the class
    comes first (HttpServer_Start).  Parts of a body that are a loop or a
    critical section are definitions of their own.  Fields the model adds, to
    record what is sent, called or printed, are named as such where the record
    is declared.

    ** What the theorems show

    - Framing and sending: what is sent on a connection arrives as the same
      sequence of messages however the stream is cut; the machine refines an
      abstract decoder; its loop ends; a message of length zero is an overrun.
    - Server and client: interleaved connections do not mix; a process runs its
      event loop once.
    - Scheduler and node manager, for all interleavings of the operations that
      the handlers, the timer thread and Stop make on the maps and flags: the
      ranks of the servers in the table are 0, 1, 2, ... without repetition, and
      so are those of the workers; when the cluster counts as ready, timed out
      or finished; that a server whose heartbeat comes before its registration
      is told the rank of another; and that a handler and the timer thread can
      reach the maps at the same time without a common lock, a data race that
      the other theorems leave out.
    - Requests and collective messages, for all interleavings of the threads:
      Wait returns only with all answers in place; the j-th receive gets the
      j-th message; a late response is ignored; a timeout while a callback runs
      leaves it with references to locals that are gone.
    - Cluster: registration, the fetch of the servers, a request with its answer
      and the end of the cluster, from the call on one node through the handlers
      of the other; a pull of the trial program gives back the message that was
      sent.
    - Threads: after Start has returned on a worker, or on a server whose loop
      has begun, Stop by the program never fails, can always go on to its end
      and has then joined all threads; a Stop that comes before the loop has
      begun, or from a callback of the client's loop, never returns.
    - PsWorker: the shards partition the rows, and the slicers send each item to
      the server that owns it.
    - LogConfig: a configuration of the documented form is parsed to its map,
      and on any other text the parser ends.
    - LogWriter: of a list of statements those are written, in their order, that
      reach the level configured for their module, each as the line with its
      heading; an exception is logged once and raised; the two back ends write
      the same texts.
    - Securec: the memory routines follow the table of their return values, and
      the unrolled variants agree with the plain ones; so do the macros, for
      blocks that are apart.
    - ConsistentHash, ThreadPool, Latch, WorkQueue: which keys move, and what
      share of them a node has; the order of tasks and progress; when waiting
      ends; jobs taken once, and the lock that a worker keeps when it ends.
    - Http, MsgTcp, FileConfig: the callbacks of the client store the bytes of a
      response that announces its length, and overrun the output otherwise; no
      request can be made after Init, which frees the DNS base; the parser does
      not depend on how the stream is cut, and gives back what was sent; the
      configuration file survives a restart; which requests the example answers.
    - EchoServer: in every interleaving each socket, buffer and event base has
      one owner, nothing is used after it was freed or freed twice, and what a
      client sends is queued back to it; accepting is all or nothing; a shutdown
      leaves the clients that wait open.
    - Grpc, Asio, Seastar, PingPong: client, network and server together, in
      every interleaving.  No call is answered twice or with the greeting of
      another; a call that is lost is reported as failed, and the server can then
      fail its assertion; each reply is the request, and no state is stuck
      unless the request is larger than the buffers; each test ends with the
      right counts; the block goes round for ever without loss.
    - TlsEcho, Benchmark: connections are served one after the other; the
      counter the threads share is the sum of their requests, and the result is
      that of one second more than the time it is divided by.
    - Router, Rot13, Replies: packets are passed on to the client they name, as
      long as 256 bytes or more wait; lines are answered with their image, and a
      turn of the select loop serves every connection by its own result alone,
      unless it accepts a descriptor outside its table; which texts overrun the
      arrays on the stack, and which objects are used after they were freed.
    - FloatConvert, ZHelpers, LogText: the range in which FloatToSize is
      defined; the dump of a message; that a random number reaches the bound it
      is documented to stay below; how long a temporary string lives.
    - UnitTests: which tests pass for every behaviour of the libraries that
      their documentation allows, and the three that do not: the interval of the
      heartbeat, the address of the HTTP server, and the scheduler without an
      address.

    ** Bounds and fuel

    Integers keep the width of the source ([u32], [i32], [u64] ...).  Loops
    that are not structural take fuel: the number of bytes of a chunk for the
    receiver (each turn consumes one at least), [measure] for the parser of
    MsgTcp.v, the length of the text for the log parser, the length of the
    input for the read loops over libevent buffers, the bytes still to be
    written for the select server, the frames that have arrived for s_dump.
    For each a lemma shows that this is enough, so that [Fuel] is not the
    result; s_dump alone ends in it when it waits for a frame that does not
    come.  The request counters of Collective.v are bounded by the hypothesis
    that fewer than 2^64 messages are exchanged with a rank.

    ** Parameters

    libevent, the sockets, OpenSSL, the protobuf generated code, the JSON
    library, the gRPC runtime, the clock, the random generator and the
    environment are arguments or step relations.  Where a theorem relies on what
    they document, this is a named law, and a witness instantiates it.

    ** Not modelled

    Sleeping, and what is measured and printed about time.  The main programs,
    which read arguments, call the modelled parts and print.  The trial programs
    that time library calls (function_test.cpp, protobuf_serialize_test.cpp)
    and those over ps-lite, which is not here.  parameter_server.cc has empty
    bodies only, backup.cpp is commented out as a whole, hello-world.cpp does not
    compile, and the examples that are left (hwserver.cpp, signal-test.cpp,
    server4.cpp, test.cpp of src/libevent-example) install a callback that
    prints.  The formatted output of securec, whose code is not here.  The tests
    that only start threads and sleep, the test of the network interfaces, and
    that of the HTTP client. *)

From Stdlib Require Export ZArith Lia.
From stdpp Require Export base numbers strings gmap sets list.

#[global] Open Scope Z_scope.

(** ** Machine integers

    A C++ integer of width [w] is a [Z]; every place where the source converts
    or computes in a width says so by one of these functions. *)
Definition uwrap (w z : Z) : Z := z mod 2 ^ w.
Definition swrap (w z : Z) : Z := (z + 2 ^ (w - 1)) mod 2 ^ w - 2 ^ (w - 1).

Abbreviation u8 := (uwrap 8).
Abbreviation u16 := (uwrap 16).
Abbreviation u32 := (uwrap 32).
Abbreviation u64 := (uwrap 64).
Abbreviation i32 := (swrap 32).
Abbreviation i64 := (swrap 64).

Definition in_u (w z : Z) : Prop := 0 <= z < 2 ^ w.
Definition in_s (w z : Z) : Prop := - 2 ^ (w - 1) <= z < 2 ^ (w - 1).

Lemma uwrap_small w z : in_u w z -> uwrap w z = z.
Proof. unfold in_u, uwrap. intros. by apply Z.mod_small. Qed.

Lemma uwrap_range w z : 0 <= w -> in_u w (uwrap w z).
Proof. intros. apply Z.mod_pos_bound. lia. Qed.

Lemma swrap_range w z : 0 < w -> in_s w (swrap w z).
Proof.
  intros Hw. unfold in_s, swrap.
  assert (2 ^ w = 2 * 2 ^ (w - 1)) as E by (rewrite <- Z.pow_succ_r by lia; f_equal; lia).
  pose proof (Z.mod_pos_bound (z + 2 ^ (w - 1)) (2 ^ w) ltac:(lia)). lia.
Qed.

Lemma swrap_small w z : 0 < w -> in_s w z -> swrap w z = z.
Proof.
  unfold in_s, swrap. intros Hw [Hl Hu].
  assert (2 ^ w = 2 * 2 ^ (w - 1)) as E.
  { rewrite <- Z.pow_succ_r by lia. f_equal. lia. }
  rewrite Z.mod_small; lia.
Qed.

(** ** Effects

    A C++ method on an object whose fields are the record [S] is a function of
    type [M S A].  [Throw] is a raised exception: the fields keep the value they
    had when it was raised, since C++ does not roll back.  [Undef] is undefined
    behaviour (an out-of-range access, a null dereference, a missing return).
    [Fuel] is a loop whose bound ran out; every loop of the development comes
    with a lemma that rules it out. *)
Inductive outcome (S A : Type) : Type :=
| Ret (a : A) (s : S)
| Throw (e : string) (s : S)
| Undef (why : string)
| Fuel.
Arguments Ret {S A} _ _.
Arguments Throw {S A} _ _.
Arguments Undef {S A} _.
Arguments Fuel {S A}.

Definition M (S A : Type) : Type := S -> outcome S A.

#[global] Instance M_ret S : MRet (M S) := fun A a s => Ret a s.
#[global] Instance M_bind S : MBind (M S) := fun A B k c s =>
  match c s with
  | Ret a s' => k a s'
  | Throw e s' => Throw e s'
  | Undef w => Undef w
  | Fuel => Fuel
  end.

Section effects.
Context {S : Type}.
Definition getS : M S S := fun s => Ret s s.
Definition gets {A} (f : S -> A) : M S A := fun s => Ret (f s) s.
Definition modify (f : S -> S) : M S unit := fun s => Ret tt (f s).
Definition throw {A} (e : string) : M S A := fun s => Throw e s.
Definition undef {A} (w : string) : M S A := fun _ => Undef w.
(** [MS_EXCEPTION_IF_NULL(ptr)] of log_adapter.h. *)
Definition exception_if_null (nonnull : bool) : M S unit :=
  if nonnull then mret tt else throw "The pointer is null."%string.
End effects.

(** What an outcome returned, when it returned. *)
Definition returned {S A} (o : outcome S A) : option (A * S) :=
  match o with Ret a s => Some (a, s) | _ => None end.

Lemma bind_Ret {S A B} (c : M S A) (k : A -> M S B) s a s' :
  c s = Ret a s' -> (c ≫= k) s = k a s'.
Proof. unfold mbind, M_bind. by intros ->. Qed.

Lemma bind_Throw {S A B} (c : M S A) (k : A -> M S B) s e s' :
  c s = Throw e s' -> (c ≫= k) s = Throw e s'.
Proof. unfold mbind, M_bind. by intros ->. Qed.

Lemma bind_assoc {S A B C} (c : M S A) (k : A -> M S B) (k' : B -> M S C) s :
  ((c ≫= k) ≫= k') s = (c ≫= fun a => k a ≫= k') s.
Proof. unfold mbind, M_bind. by destruct (c s). Qed.

Lemma bind_inv {S A B} (c : M S A) (k : A -> M S B) s b s' :
  (c ≫= k) s = Ret b s' -> exists a s1, c s = Ret a s1 /\ k a s1 = Ret b s'.
Proof.
  unfold mbind, M_bind. destruct (c s) as [a s1| | |]; [|discriminate..]. by exists a, s1.
Qed.

(** [c] keeps [P], also when it throws. *)
Definition keeps {S A} (P : S -> Prop) (c : M S A) : Prop :=
  forall s, P s -> match c s with Ret _ s' | Throw _ s' => P s' | _ => True end.

Section keeps.
Context {S : Type} (P : S -> Prop).
Lemma keeps_ret {A} (a : A) : keeps P (mret a).
Proof. by intros s Hs. Qed.
Lemma keeps_get : keeps P getS.
Proof. by intros s Hs. Qed.
Lemma keeps_throw {A} e : keeps P (throw (A := A) e).
Proof. by intros s Hs. Qed.
Lemma keeps_modify f : (forall s, P s -> P (f s)) -> keeps P (modify f).
Proof. intros Hf s Hs. by apply Hf. Qed.
Lemma keeps_bind {A B} (c : M S A) (k : A -> M S B) :
  keeps P c -> (forall a, keeps P (k a)) -> keeps P (c ≫= k).
Proof.
  intros Hc Hk s Hs. specialize (Hc s Hs). unfold mbind, M_bind. destruct (c s) as [a s'| | |]; try done.
  by apply Hk.
Qed.
(** A bind after [getS] may use that [P] holds of what it read. *)
Lemma keeps_get_bind {B} (k : S -> M S B) :
  (forall s, P s -> match k s s with Ret _ s' | Throw _ s' => P s' | _ => True end) -> keeps P (getS ≫= k).
Proof. intros Hk s Hs. by apply Hk. Qed.
Lemma keeps_Ret {A} (c : M S A) s a s' : keeps P c -> P s -> c s = Ret a s' -> P s'.
Proof. intros Hc Hs E. specialize (Hc s Hs). by rewrite E in Hc. Qed.
End keeps.

(** [step_inv] takes a computation that returned apart. *)
Ltac step_inv1 :=
  match goal with
  | E : (_ ≫= _) _ = Ret _ _ |- _ => apply bind_inv in E as (? & ? & ? & ?)
  | E : mret _ _ = Ret _ _ |- _ => first [injection E as <- <- | injection E as <-]
  | E : getS _ = Ret _ _ |- _ => first [injection E as <- <- | injection E as <-]
  | E : modify _ _ = Ret _ _ |- _ => first [injection E as <- <- | injection E as <-]
  | E : exception_if_null _ _ = Ret _ _ |- _ =>
      unfold exception_if_null in E; case_match; [|discriminate E]
  | E : throw _ _ = Ret _ _ |- _ => discriminate E
  | E : undef _ _ = Ret _ _ |- _ => discriminate E
  | E : (if ?b then _ else _) _ = Ret _ _ |- _ => destruct b
  | u : unit |- _ => destruct u
  end.
Ltac step_inv := repeat step_inv1.

(** [mrun] unfolds the monad one layer and computes. *)
Ltac mrun :=
  repeat (progress (unfold mbind, M_bind, mret, M_ret, getS, gets, modify, throw,
                      undef, exception_if_null in *; cbn in *)).

(** ** Bytes in memory *)
Definition byte_ok (b : Z) : Prop := 0 <= b < 256.
Definition bytes_ok (l : list Z) : Prop := Forall byte_ok l.

Definition bytes_of (s : string) : list Z :=
  map (fun c => Z.of_nat (Ascii.nat_of_ascii c)) (String.list_ascii_of_string s).
(** A string up to its first zero character. *)
Fixpoint c_string (l : list Z) : list Z :=
  match l with
  | [] => []
  | c :: l => if c =? 0 then [] else c :: c_string l
  end.

Lemma append_assoc (a b c : string) : ((a +:+ b) +:+ c = a +:+ (b +:+ c))%string.
Proof. induction a as [|x a IH]; [done|]. exact (f_equal (String x) IH). Qed.

Lemma append_nil_r (a : string) : (a +:+ "" = a)%string.
Proof. induction a as [|x a IH]; [done|]. exact (f_equal (String x) IH). Qed.

(** ** Events of a libevent bufferevent *)
Definition BEV_EVENT_EOF : Z := 16.
Definition BEV_EVENT_ERROR : Z := 32.
Definition BEV_EVENT_CONNECTED : Z := 128.
(** [events & flag] as a condition. *)
Definition has (events flag : Z) : bool := negb (Z.land events flag =? 0).

(** ** Lists with machine indices *)
Definition zlen {A} (l : list A) : Z := Z.of_nat (length l).
Definition ztake {A} (n : Z) (l : list A) : list A := take (Z.to_nat n) l.
Definition zdrop {A} (n : Z) (l : list A) : list A := drop (Z.to_nat n) l.
(** [l[i]] for a machine index; [None] is an access outside the object. *)
Definition zget {A} (l : list A) (i : Z) : option A :=
  if i <? 0 then None else l !! Z.to_nat i.
(** [l[i] = x]; [None] is an access outside the object. *)
Definition zset {A} (l : list A) (i : Z) (x : A) : option (list A) :=
  if (0 <=? i) && (i <? zlen l) then Some (<[Z.to_nat i := x]> l) else None.

(** The object representation of an unsigned integer of [n] bytes on the
    little-endian targets the code is built for. *)
Fixpoint le_bytes (n : nat) (z : Z) : list Z :=
  match n with
  | O => []
  | S n => z mod 256 :: le_bytes n (z / 256)
  end.

Fixpoint le_val (l : list Z) : Z :=
  match l with
  | [] => 0
  | b :: l => b + 256 * le_val l
  end.

Lemma length_le_bytes n z : length (le_bytes n z) = n.
Proof. revert z; induction n; intros; cbn; auto. Qed.

Lemma le_bytes_ok n z : bytes_ok (le_bytes n z).
Proof.
  revert z; induction n; intros; cbn; constructor; [|apply IHn].
  red. apply Z.mod_pos_bound. lia.
Qed.

Lemma le_val_le_bytes n z : le_val (le_bytes n z) = z mod 2 ^ (8 * Z.of_nat n).
Proof.
  revert z; induction n as [|n IH]; intros z; cbn [le_bytes le_val].
  { change (8 * Z.of_nat 0) with 0. by rewrite Z.pow_0_r, Z.mod_1_r. }
  rewrite IH.
  replace (8 * Z.of_nat (S n)) with (8 + 8 * Z.of_nat n) by lia.
  rewrite Z.pow_add_r by lia. change (2 ^ 8) with 256.
  rewrite Z.rem_mul_r; lia.
Qed.

Lemma le_val_le_bytes_small n z :
  in_u (8 * Z.of_nat n) z -> le_val (le_bytes n z) = z.
Proof. intros. rewrite le_val_le_bytes. by apply Z.mod_small. Qed.

Lemma le_val_bound l : bytes_ok l -> in_u (8 * zlen l) (le_val l).
Proof.
  unfold in_u, zlen. induction 1 as [|b l Hb Hl IH]; cbn [le_val length]; [cbn; lia|].
  replace (8 * Z.of_nat (S (length l))) with (8 + 8 * Z.of_nat (length l)) by lia.
  rewrite Z.pow_add_r by lia. change (2 ^ 8) with 256. red in Hb. lia.
Qed.

Lemma le_bytes_le_val l : bytes_ok l -> le_bytes (length l) (le_val l) = l.
Proof.
  induction 1 as [|b l Hb Hl IH]; cbn [length le_bytes le_val]; [done|].
  red in Hb.
  rewrite (Z.mul_comm 256), Z.mod_add, Z.mod_small by lia.
  rewrite Z.div_add, Z.div_small, Z.add_0_l, IH by lia. done.
Qed.

(** ** Generic lemmas on lists *)
Lemma zlen_nonneg {A} (l : list A) : 0 <= zlen l.
Proof. unfold zlen. lia. Qed.

Lemma zlen_app {A} (l k : list A) : zlen (l ++ k) = zlen l + zlen k.
Proof. unfold zlen. rewrite length_app. lia. Qed.

Lemma zlen_nil {A} : zlen (@nil A) = 0.
Proof. done. Qed.

Lemma zlen_cons {A} (x : A) l : zlen (x :: l) = 1 + zlen l.
Proof. unfold zlen. cbn [length]. lia. Qed.

Lemma zlen_snoc {A} (x : A) l : zlen (l ++ [x]) = zlen l + 1.
Proof. rewrite zlen_app. done. Qed.

Lemma zlen_0_nil {A} (l : list A) : zlen l = 0 -> l = [].
Proof. destruct l; [done|]. unfold zlen; cbn. lia. Qed.

Lemma zlen_replicate {A} n (x : A) : 0 <= n -> zlen (replicate (Z.to_nat n) x) = n.
Proof. unfold zlen. rewrite length_replicate. lia. Qed.

Lemma ztake_drop {A} n (l : list A) : ztake n l ++ zdrop n l = l.
Proof. apply take_drop. Qed.

Lemma zlen_ztake {A} n (l : list A) : 0 <= n <= zlen l -> zlen (ztake n l) = n.
Proof. unfold zlen, ztake. rewrite length_take. lia. Qed.

Lemma zlen_zdrop {A} n (l : list A) : 0 <= n <= zlen l -> zlen (zdrop n l) = zlen l - n.
Proof. unfold zlen, zdrop. rewrite length_drop. lia. Qed.

Lemma ztake_app_exact {A} n (l k : list A) : zlen l = n -> ztake n (l ++ k) = l.
Proof. unfold zlen, ztake. intros. apply take_app_length'. lia. Qed.

Lemma zdrop_app_exact {A} n (l k : list A) : zlen l = n -> zdrop n (l ++ k) = k.
Proof. unfold zlen, zdrop. intros. apply drop_app_length'. lia. Qed.

Lemma ztake_all {A} n (l : list A) : zlen l <= n -> ztake n l = l.
Proof. unfold zlen, ztake. intros. apply take_ge. lia. Qed.

Lemma ztake_0 {A} (l : list A) : ztake 0 l = [].
Proof. done. Qed.

Lemma zdrop_0 {A} (l : list A) : zdrop 0 l = l.
Proof. done. Qed.

Lemma zget_Some {A} (l : list A) i : 0 <= i < zlen l -> exists x, zget l i = Some x.
Proof.
  unfold zget, zlen. intros [H1 H2]. destruct (i <? 0) eqn:E; [lia|].
  destruct (l !! Z.to_nat i) eqn:E2; [eauto|]. apply lookup_ge_None in E2. lia.
Qed.

Lemma zget_app_r {A} (l k : list A) i :
  0 <= i -> zget (l ++ k) (zlen l + i) = zget k i.
Proof.
  unfold zget, zlen. intros.
  destruct (Z.ltb_spec (Z.of_nat (length l) + i) 0) as [|]; [lia|].
  destruct (Z.ltb_spec i 0) as [|]; [lia|].
  rewrite lookup_app_r by lia. f_equal. lia.
Qed.

Lemma zset_in {A} (l : list A) i x :
  0 <= i < zlen l -> zset l i x = Some (<[Z.to_nat i := x]> l).
Proof.
  unfold zset. intros [H1 H2].
  apply Z.leb_le in H1 as ->. apply Z.ltb_lt in H2 as ->. done.
Qed.

Lemma zdrop_zdrop {A} n m (l : list A) :
  0 <= n -> 0 <= m -> zdrop n (zdrop m l) = zdrop (m + n) l.
Proof. unfold zdrop. intros. rewrite drop_drop. f_equal. lia. Qed.

Lemma zdrop_all {A} n (l : list A) : zlen l <= n -> zdrop n l = [].
Proof. unfold zlen, zdrop. intros. apply drop_ge. lia. Qed.

Lemma zdrop_app_le {A} n (l k : list A) : n <= zlen l -> zdrop n (l ++ k) = zdrop n l ++ k.
Proof. unfold zlen, zdrop. intros. apply drop_app_le. lia. Qed.

Lemma ztake_app_le {A} n (l k : list A) : n <= zlen l -> ztake n (l ++ k) = ztake n l.
Proof. unfold zlen, ztake. intros. apply take_app_le. lia. Qed.

Lemma ztake_app_ge {A} n (l k : list A) :
  zlen l <= n -> ztake n (l ++ k) = l ++ ztake (n - zlen l) k.
Proof. unfold zlen, ztake. intros. rewrite take_app_ge by lia. do 2 f_equal. lia. Qed.

Lemma zdrop_app_ge {A} n (l k : list A) :
  zlen l <= n -> zdrop n (l ++ k) = zdrop (n - zlen l) k.
Proof. unfold zlen, zdrop. intros. rewrite drop_app_ge by lia. f_equal. lia. Qed.

Lemma zget_zdrop {A} (l : list A) i x k :
  0 <= i -> zdrop i l = x :: k -> zget l i = Some x /\ zdrop (i + 1) l = k.
Proof.
  intros Hi E. split.
  - unfold zget. destruct (Z.ltb_spec i 0); [lia|].
    rewrite <- (Nat.add_0_r (Z.to_nat i)), <- lookup_drop. unfold zdrop in E. by rewrite E.
  - rewrite <- zdrop_zdrop, E by lia. done.
Qed.

(** [perm] proves that two concatenations hold the same parts. *)
Ltac perm_norm :=
  repeat match goal with
  | |- context [?a :: ?b] => lazymatch b with [] => fail | _ => change (a :: b) with ([a] ++ b) end
  end;
  repeat first [rewrite <- app_assoc | rewrite app_nil_r | rewrite app_nil_l].
Ltac perm_step :=
  match goal with
  | |- ?x ≡ₚ ?x => reflexivity
  | |- ?x ++ _ ≡ₚ ?x ++ _ => apply Permutation_app_head
  | |- _ ≡ₚ ?y ++ ?b => transitivity (b ++ y); [rewrite <- ?app_assoc|apply Permutation_app_comm]
  end.
Ltac perm := perm_norm; do 60 (try perm_step); done.

(** The entries of a finite map as a list. *)
Section entries.
Context {A : Type}.
Implicit Types (m : gmap Z A) (l : list (Z * A)).

Lemma entries_lookup m i x l : map_to_list m ≡ₚ (i, x) :: l -> m !! i = Some x.
Proof. intros H. apply elem_of_map_to_list. rewrite H. by left. Qed.

Lemma entries_delete m i x l : map_to_list m ≡ₚ (i, x) :: l -> map_to_list (delete i m) ≡ₚ l.
Proof.
  intros H. pose proof (entries_lookup _ _ _ _ H) as Hi.
  apply (Permutation_cons_inv (a := (i, x))). by rewrite <- H, map_to_list_delete.
Qed.

Lemma entries_insert m i x l :
  m !! i = None -> map_to_list m ≡ₚ l -> map_to_list (<[i := x]> m) ≡ₚ (i, x) :: l.
Proof. intros Hi H. by rewrite map_to_list_insert, H. Qed.

Lemma entries_change m i x y l :
  map_to_list m ≡ₚ (i, x) :: l -> map_to_list (<[i := y]> m) ≡ₚ (i, y) :: l.
Proof.
  intros H. rewrite <- insert_delete_eq. apply entries_insert; [by rewrite lookup_delete_eq|].
  by eapply entries_delete.
Qed.

Lemma entries_alter m i x f l :
  map_to_list m ≡ₚ (i, x) :: l -> map_to_list (alter f i m) ≡ₚ (i, f x) :: l.
Proof.
  intros H. replace (alter f i m) with (<[i := f x]> m); [by eapply entries_change|].
  apply map_eq. intros j. destruct (decide (j = i)) as [->|Hn].
  - by rewrite lookup_insert_eq, lookup_alter_eq, (entries_lookup _ _ _ _ H).
  - by rewrite lookup_insert_ne, lookup_alter_ne by done.
Qed.
End entries.

(** ** Hint databases *)
Create HintDb rpc.
#[export] Hint Resolve length_le_bytes le_bytes_ok zlen_nonneg : rpc.
Create Rewrite HintDb zlist.
#[export] Hint Rewrite @zlen_app @zlen_nil @ztake_0 @zdrop_0 : zlist.
