(* ===== verification/Convert.v ===== *)
(** * Checked integer conversions

    The functions of src/log/utils/convert_utils_base.h that turn one machine
    integer into another and raise an exception when the value does not fit,
    and the multiplications with an overflow check.  They are used by the TCP
    layer (frame headers), by the node manager and by the worker.  The float
    conversions of that header are in FloatConvert.v. *)
From S2P Require Import Prelude.

Definition INT_MAX : Z := 2 ^ 31 - 1.
Definition UINT32_MAX : Z := 2 ^ 32 - 1.
Definition INT64_MAX : Z := 2 ^ 63 - 1.
Definition SIZE_MAX : Z := 2 ^ 64 - 1.

Section conversions.
Context {S : Type}.
Implicit Types u a b : Z.

Definition SizeToInt u : M S Z :=
  if u >? INT_MAX then throw "exceeds the maximum value of int." else mret (i32 u).

Definition SizeToUint u : M S Z :=
  if u >? UINT32_MAX then throw "exceeds the maximum value of uint32_t." else mret (u32 u).

Definition SizeToLong u : M S Z :=
  if u >? INT64_MAX then throw "exceeds the maximum value of int64_t." else mret (i64 u).

Definition SizeToUlong u : M S Z := mret (u64 u).

(** A negative value is only logged; the caller gets [SIZE_MAX]. *)
Definition IntToSize u : M S Z :=
  if u <? 0 then mret SIZE_MAX else mret (u64 u).

Definition LongToSize u : M S Z :=
  if u <? 0 then throw "is less than 0." else mret (u64 u).

Definition IntToUint u : M S Z :=
  if u <? 0 then throw "is less than 0." else mret (u32 u).

Definition UintToInt u : M S Z :=
  if u >? INT_MAX then throw "exceeds the maximum value of int32_t." else mret (i32 u).

Definition LongToUlong u : M S Z :=
  if u <? 0 then throw "is less than 0." else mret (u64 u).

(** Only the upper bound is tested. *)
Definition LongToInt u : M S Z :=
  if u >? INT_MAX then throw "exceeds the maximum value of int." else mret (i32 u).

Definition UlongToLong u : M S Z :=
  if u >? INT64_MAX then throw "exceeds the maximum value of int64_t." else mret (i64 u).

Definition UlongToUint u : M S Z :=
  if u >? UINT32_MAX then throw "exceeds the maximum value of unsigned int." else mret (u32 u).

(** Signed multiplication is undefined when the product does not fit. *)
Definition smul (w a b : Z) : M S Z :=
  if (- 2 ^ (w - 1) <=? a * b) && (a * b <? 2 ^ (w - 1)) then mret (a * b)
  else undef "signed integer overflow".

Definition IntMulWithOverflowCheck a b : M S Z :=
  out ← smul 32 a b;
  if negb (a =? 0)
  then if negb (Z.quot out a =? b) then throw "Mul result is overflow" else mret out
  else mret out.

Definition LongMulWithOverflowCheck a b : M S Z :=
  out ← smul 64 a b;
  if negb (a =? 0)
  then if negb (Z.quot out a =? b) then throw "Mul result is overflow" else mret out
  else mret out.

(** [size_t] multiplication wraps, so the test is meaningful. *)
Definition SizetMulWithOverflowCheck a b : M S Z :=
  let out := u64 (a * b) in
  if negb (a =? 0)
  then if negb (out / a =? b) then throw "Mul result is overflow" else mret out
  else mret out.

(** [address] is a pointer, 0 being null. *)
Definition AddressOffset (address offset : Z) : M S Z :=
  _ ← exception_if_null (negb (address =? 0));
  mret (address + offset).
End conversions.

(** ** What a conversion that returns, returns *)
Lemma IntToUint_fits {S} u (s : S) : 0 <= u <= INT_MAX -> IntToUint u s = Ret u s.
Proof.
  unfold IntToUint, INT_MAX. intros H. destruct (Z.ltb_spec u 0); [lia|].
  rewrite uwrap_small; [done|]. unfold in_u. lia.
Qed.

Lemma SizeToUint_fits {S} u (s : S) : in_u 32 u -> SizeToUint u s = Ret u s.
Proof.
  intros H. unfold SizeToUint, UINT32_MAX.
  destruct (Z.gtb_spec u (2 ^ 32 - 1)) as [G|G]; [red in H; lia|].
  unfold mret, M_ret. by rewrite uwrap_small.
Qed.

Lemma SizeToInt_fits {S} u (s : S) : 0 <= u <= INT_MAX -> SizeToInt u s = Ret u s.
Proof.
  unfold SizeToInt, INT_MAX. intros H.
  destruct (Z.gtb_spec u (2 ^ 31 - 1)) as [G|G]; [lia|].
  unfold mret, M_ret. rewrite swrap_small; [done|lia|]. red. cbn. lia.
Qed.

Lemma IntToSize_nonneg {S} u (s : S) : 0 <= u < 2 ^ 64 -> IntToSize u s = Ret u s.
Proof.
  intros H. unfold IntToSize. destruct (Z.ltb_spec u 0); [lia|].
  unfold mret, M_ret. by rewrite uwrap_small.
Qed.

(** A wrapped product divided by one factor gives the other one back exactly
    when the product did not wrap. *)
Lemma wrapped_product_div a b W :
  0 < a -> 0 <= b < W -> (a * b) mod W / a = b <-> a * b < W.
Proof.
  intros Ha Hb. split.
  - intros E. destruct (Z.lt_ge_cases (a * b) W) as [?|G]; [done|exfalso].
    assert ((a * b) mod W < a * b) as Hlt.
    { pose proof (Z.mod_pos_bound (a * b) W). lia. }
    assert ((a * b) mod W / a < b); [|lia].
    apply Z.div_lt_upper_bound; lia.
  - intros L. rewrite Z.mod_small by nia. by rewrite Z.mul_comm, Z.div_mul by lia.
Qed.

(** SizetMulWithOverflowCheck is exact: it returns the mathematical product
    when that fits in a [size_t], and raises in every other case. *)
Theorem SizetMul_exact {S} (a b : Z) (s : S) :
  in_u 64 a -> in_u 64 b ->
  SizetMulWithOverflowCheck a b s =
    if a * b <? 2 ^ 64 then Ret (a * b) s else Throw "Mul result is overflow" s.
Proof.
  intros Ha Hb. unfold SizetMulWithOverflowCheck, uwrap.
  destruct (Z.eqb_spec a 0) as [->|Hne]; cbn [negb]; [done|].
  red in Ha, Hb.
  pose proof (wrapped_product_div a b (2 ^ 64) ltac:(lia) Hb) as E.
  destruct (Z.eqb_spec ((a * b) mod 2 ^ 64 / a) b) as [Q|Q];
    destruct (Z.ltb_spec (a * b) (2 ^ 64)) as [L|L]; cbn [negb]; try tauto; [|lia].
  unfold mret, M_ret. rewrite Z.mod_small by nia. done.
Qed.

Lemma SizetMul_exact_witness :
  SizetMulWithOverflowCheck 6 7 tt = Ret 42 tt /\
  SizetMulWithOverflowCheck (2 ^ 33) (2 ^ 31) tt = Throw "Mul result is overflow" tt.
Proof.
  split; [apply (SizetMul_exact 6 7 tt) | apply (SizetMul_exact (2 ^ 33) (2 ^ 31) tt)];
    unfold in_u; lia.
Defined.
