(* ===== verification/FloatConvert.v ===== *)
(** * Float conversions

    The conversions between integers and floating point of
    src/log/utils/convert_utils_base.h.  A [float] is an IEEE binary32 value
    and a [double] a binary64 one, both as the [spec_float] of the Standard
    Library: a sign, a mantissa and an exponent.  An integer is converted by
    rounding to nearest; a float is converted to an integer by truncation, and
    the conversion is undefined when the truncated value does not fit. *)
From Stdlib Require Import SpecFloat.
From S2P Require Import Prelude Convert.

Definition float32 (v : Z) : spec_float := binary_normalize 24 128 v 0 false.
Definition float64 (v : Z) : spec_float := binary_normalize 53 1024 v 0 false.

(** The integer part of [m * 2 ^ e]. *)
Definition trunc (m : positive) (e : Z) : Z := Z.shiftl (Zpos m) e.

(** [static_cast<size_t>] of a float. *)
Definition cast_size {S} (u : spec_float) : M S Z :=
  match u with
  | S754_zero _ => mret 0
  | S754_finite s m e =>
      let v := if s then - trunc m e else trunc m e in
      if (0 <=? v) && (v <=? SIZE_MAX) then mret v
      else undef "float out of the range of size_t"
  | S754_infinity _ | S754_nan => undef "float out of the range of size_t"
  end.

Section conversions.
Context {S : Type}.

Definition FloatToSize (u : spec_float) : M S Z :=
  if SFltb u (float32 0) then throw "is less than 0."
  else if SFltb (float32 SIZE_MAX) u then throw "exceeds the maximum value of size_t."
  else cast_size u.

Definition IntToFloat (v : Z) : spec_float := float32 v.

Definition SizeToFloat (v : Z) : spec_float := float32 v.

Definition LongToDouble (v : Z) : spec_float := float64 v.

Definition FloatToDouble (v : spec_float) : spec_float :=
  match v with
  | S754_finite s m e => binary_normalize 53 1024 (if s then Zneg m else Zpos m) e s
  | _ => v
  end.
End conversions.

(** ** Canonical mantissas *)
Lemma digits2_bounds m :
  2 ^ (Zpos (digits2_pos m) - 1) <= Zpos m < 2 ^ Zpos (digits2_pos m).
Proof.
  induction m as [m IH|m IH|]; cbn [digits2_pos]; rewrite ?Pos2Z.inj_succ; [| |done];
    replace (Z.succ (Zpos (digits2_pos m)) - 1) with (Z.succ (Zpos (digits2_pos m) - 1)) by lia;
    rewrite !Z.pow_succ_r by lia; lia.
Qed.

Lemma digits2_unique m d :
  0 < d -> 2 ^ (d - 1) <= Zpos m < 2 ^ d -> Zpos (digits2_pos m) = d.
Proof.
  intros Hd [L U]. pose proof (digits2_bounds m) as [L' U'].
  assert (d - 1 < Zpos (digits2_pos m)) by (eapply Z.pow_lt_mono_r_iff with (a := 2); lia).
  assert (Zpos (digits2_pos m) - 1 < d) by (eapply Z.pow_lt_mono_r_iff with (a := 2); lia).
  lia.
Qed.

(** A binary32 value has a mantissa below [2 ^ 24], which is at least
    [2 ^ 23] unless the exponent is the smallest one. *)
Lemma bounded32 m e :
  bounded 24 128 m e = true ->
  Zpos m < 2 ^ 24 /\ -149 <= e <= 104 /\ (-149 < e -> 2 ^ 23 <= Zpos m).
Proof.
  unfold bounded, canonical_mantissa, fexp, emin. intros [C E]%andb_prop.
  apply Z.eqb_eq in C. apply Z.leb_le in E.
  pose proof (digits2_bounds m) as [L U].
  assert (2 ^ Zpos (digits2_pos m) <= 2 ^ 24) by (apply Z.pow_le_mono_r; lia).
  split; [lia|]. split; [lia|]. intros G.
  replace (Zpos (digits2_pos m) - 1) with 23 in L by lia. lia.
Qed.

(** ** Truncation *)
Lemma trunc_pos m e : 0 <= e -> trunc m e = Zpos m * 2 ^ e.
Proof. intros H. unfold trunc. by rewrite Z.shiftl_mul_pow2. Qed.

Lemma trunc_neg m e : e <= 0 -> trunc m e = Zpos m / 2 ^ (- e).
Proof. intros H. unfold trunc. by rewrite Z.shiftl_div_pow2. Qed.

Lemma trunc_nonneg m e : 0 <= trunc m e.
Proof. unfold trunc. apply Z.shiftl_nonneg. lia. Qed.

(** Comparing with [2 ^ 64], the float nearest to [SIZE_MAX]. *)
Lemma above_size m e :
  bounded 24 128 m e = true ->
  SFltb (float32 SIZE_MAX) (S754_finite false m e) = (2 ^ 64 <? trunc m e) /\
  (41 < e \/ e = 41 \/ trunc m e < 2 ^ 64).
Proof.
  intros B. apply bounded32 in B as (U & [_ E] & L).
  change (float32 SIZE_MAX) with (S754_finite false 8388608 41).
  unfold SFltb, SFcompare.
  destruct (Z.compare_spec 41 e) as [<-|H|H].
  - rewrite trunc_pos by lia. split; [|lia].
    change (PosDef.Pos.compare_cont Eq 8388608 m) with (Z.compare (2 ^ 23) (Zpos m)).
    symmetry. destruct (Z.compare_spec (2 ^ 23) (Zpos m)) as [<-| |]; [done|apply Z.ltb_lt; lia|apply Z.ltb_ge; lia].
  - rewrite trunc_pos by lia. split; [|lia]. symmetry. apply Z.ltb_lt.
    assert (2 ^ 42 <= 2 ^ e) by (apply Z.pow_le_mono_r; lia). nia.
  - assert (trunc m e < 2 ^ 64) as T; [|split; [symmetry; apply Z.ltb_ge|]; lia].
    destruct (Z.le_gt_cases 0 e).
    + rewrite trunc_pos by done.
      assert (2 ^ e <= 2 ^ 40) by (apply Z.pow_le_mono_r; lia). nia.
    + rewrite trunc_neg by lia.
      pose proof (Z.div_le_upper_bound (Zpos m) (2 ^ (- e)) (Zpos m)).
      assert (0 < 2 ^ (- e)) by (apply Z.pow_pos_nonneg; lia). nia.
Qed.

(** A nonnegative finite float. *)
Lemma FloatToSize_finite {S} m e (s : S) :
  bounded 24 128 m e = true ->
  FloatToSize (S754_finite false m e) s =
    if trunc m e <? 2 ^ 64 then Ret (trunc m e) s
    else if trunc m e =? 2 ^ 64 then Undef "float out of the range of size_t"
    else Throw "exceeds the maximum value of size_t." s.
Proof.
  intros V. pose proof (above_size m e V) as [A _]. unfold FloatToSize.
  change (SFltb (S754_finite false m e) (float32 0)) with false. cbv iota.
  rewrite A. unfold cast_size, SIZE_MAX. pose proof (trunc_nonneg m e).
  destruct (Z.ltb_spec (2 ^ 64) (trunc m e)), (Z.ltb_spec (trunc m e) (2 ^ 64)),
    (Z.eqb_spec (trunc m e) (2 ^ 64)), (Z.leb_spec 0 (trunc m e)),
    (Z.leb_spec (trunc m e) (2 ^ 64 - 1)); try lia; reflexivity.
Qed.

(** ** Integers that a float holds exactly *)
Lemma iter_xO m d : Zpos (Pos.iter xO m d) = Zpos m * 2 ^ Zpos d.
Proof.
  induction d as [|d IH] using Pos.peano_ind; [cbn; lia|].
  rewrite Pos.iter_succ, Pos2Z.inj_succ, Z.pow_succ_r by lia.
  change (Zpos (Pos.iter xO m d)~0) with (2 * Zpos (Pos.iter xO m d)). lia.
Qed.

Lemma round_aux_canonical m e :
  Zpos (digits2_pos m) = 24 -> -149 <= e <= 104 ->
  binary_round_aux 24 128 false (Zpos m) e loc_Exact = S754_finite false m e.
Proof.
  intros D E.
  assert (shr_fexp 24 128 (Zpos m) e loc_Exact =
          ({| shr_m := Zpos m; shr_r := false; shr_s := false |}, e)) as F.
  { unfold shr_fexp, Zdigits2, fexp, emin. rewrite D.
    replace (Z.max _ _ - e) with 0 by lia. reflexivity. }
  unfold binary_round_aux. rewrite F. cbn [shr_m loc_of_shr_record round_nearest_even].
  rewrite F. cbn [shr_m]. destruct (Z.leb_spec e (128 - 24)); [done|lia].
Qed.

(** An integer below [2 ^ 24] is shifted until it has 24 digits. *)
Lemma float32_exact m :
  Zpos m < 2 ^ 24 ->
  exists mz k, float32 (Zpos m) = S754_finite false mz (- k) /\ 0 <= k /\
    Zpos mz = Zpos m * 2 ^ k /\ bounded 24 128 mz (- k) = true.
Proof.
  intros U. pose proof (digits2_bounds m) as [L1 U1].
  set (d := Zpos (digits2_pos m)) in *.
  assert (d - 1 < 24) by (apply (Z.pow_lt_mono_r_iff 2); lia).
  set (k := 24 - d).
  assert (exists mz, shl_align m 0 (fexp 24 128 (d + 0)) = (mz, - k) /\
                     Zpos mz = Zpos m * 2 ^ k) as (mz & A & V).
  { unfold shl_align, fexp, emin.
    replace (Z.max (d + 0 - 24) (3 - 128 - 24) - 0) with (- k) by lia.
    replace (Z.max (d + 0 - 24) (3 - 128 - 24)) with (- k) by lia.
    assert (0 <= k) as K by lia. clearbody k. destruct k as [|q|]; [|exists (Pos.iter xO m q)|lia].
    - exists m. split; [done|cbn; lia].
    - split; [done|apply iter_xO]. }
  assert (Zpos (digits2_pos mz) = 24) as D.
  { apply digits2_unique; [lia|]. rewrite V. replace 24 with (k + d) by lia.
    replace (k + d - 1) with (k + (d - 1)) by lia. rewrite !Z.pow_add_r by lia.
    assert (0 < 2 ^ k) by (apply Z.pow_pos_nonneg; lia). nia. }
  exists mz, k. split; [|split; [lia|split; [done|]]].
  - unfold float32, binary_normalize, binary_round. fold d. rewrite A.
    apply round_aux_canonical; lia.
  - unfold bounded, canonical_mantissa, fexp, emin. rewrite D.
    apply andb_true_intro. split; [apply Z.eqb_eq|apply Z.leb_le]; lia.
Qed.

(** ** The range of the conversion *)
(** C37: FloatToSize on every binary32 value.  A negative value and a value above
    [2 ^ 64] raise; a value from 0 below [2 ^ 64] gives its integer part.  The
    bound the code compares with is [SIZE_MAX] rounded to a float, which is
    [2 ^ 64]: that one value passes the test and cannot be converted, and
    neither can NaN, for which both comparisons are false. *)
Theorem FloatToSize_cases {S} (u : spec_float) (s : S) :
  valid_binary 24 128 u = true ->
  FloatToSize u s =
    match u with
    | S754_nan => Undef "float out of the range of size_t"
    | S754_zero _ => Ret 0 s
    | S754_infinity true | S754_finite true _ _ => Throw "is less than 0." s
    | S754_infinity false => Throw "exceeds the maximum value of size_t." s
    | S754_finite false m e =>
        if trunc m e <? 2 ^ 64 then Ret (trunc m e) s
        else if trunc m e =? 2 ^ 64 then Undef "float out of the range of size_t"
        else Throw "exceeds the maximum value of size_t." s
    end.
Proof.
  intros V. destruct u as [b|[]| |[] m e]; try reflexivity.
  by apply FloatToSize_finite.
Qed.

Lemma FloatToSize_cases_witness :
  FloatToSize (S754_finite false 12582912 (-22)) tt = Ret 3 tt /\
  FloatToSize (SizeToFloat SIZE_MAX) tt = Undef "float out of the range of size_t" /\
  FloatToSize (SizeToFloat (2 ^ 64 + 2 ^ 41)) tt = Throw "exceeds the maximum value of size_t." tt.
Proof.
  split; [|split].
  - exact (FloatToSize_cases (S754_finite false 12582912 (-22)) tt eq_refl).
  - exact (FloatToSize_cases (S754_finite false 8388608 41) tt eq_refl).
  - exact (FloatToSize_cases (S754_finite false 8388609 41) tt eq_refl).
Defined.

(** A size below [2 ^ 24] survives the conversion to float and back. *)
Theorem SizeToFloat_roundtrip {S} (v : Z) (s : S) :
  0 <= v < 2 ^ 24 -> FloatToSize (SizeToFloat v) s = Ret v s.
Proof.
  intros [N U]. destruct v as [|m|]; [done| |lia].
  destruct (float32_exact m U) as (mz & k & E & K & V & B).
  unfold SizeToFloat. rewrite E, FloatToSize_finite by done.
  rewrite trunc_neg, Z.opp_involutive, V, Z.div_mul by
    (try lia; apply Z.pow_nonzero; lia).
  destruct (Z.ltb_spec (Zpos m) (2 ^ 64)); [done|lia].
Qed.

Lemma SizeToFloat_roundtrip_witness :
  FloatToSize (SizeToFloat 1000003) tt = Ret 1000003 tt.
Proof. apply (SizeToFloat_roundtrip 1000003 tt). lia. Defined.
