(* ===== verification/Securec.v ===== *)
(** * The bounded memory routines

    src/log/utils/memcpy_s.c, memmove_s.c and memset_s.c: the parameter
    checks, the error handlers with their resets, the default bodies (libc) and
    the optimised bodies ([memcpy_sOptAsm], [memcpy_sOptTc], [memset_sOptAsm],
    [memset_sOptTc]) with the unrolled copies they expand to.

    Memory is a function from addresses to bytes and a pointer is an address,
    0 being NULL.  Address arithmetic does not wrap: an object does not cross
    the end of the address space. *)
From S2P Require Import Prelude.

Definition mem : Type := Z -> Z.

(** Two memories are the same when every byte is. *)
Definition mem_eq (m m' : mem) : Prop := forall a, m a = m' a.
Infix "≡ₘ" := mem_eq (at level 70, no associativity).

#[global] Instance mem_eq_equivalence : Equivalence mem_eq.
Proof. split; repeat intro; congruence. Qed.

Definition NULL : Z := 0.
Definition SECUREC_MEM_MAX_LEN : Z := 2147483647. (* 0x7fffffffUL *)
Definition EOK : Z := 0.
Definition EINVAL : Z := 22.
Definition EINVAL_AND_RESET : Z := Z.lor 22 128.
Definition ERANGE : Z := 34.
Definition ERANGE_AND_RESET : Z := Z.lor 34 128.
Definition EOVERLAP_AND_RESET : Z := Z.lor 54 128.

(** ** The C library *)
Definition in_block (dest n a : Z) : bool := (dest <=? a) && (a <? dest + n).

Definition store (m : mem) (a b : Z) : mem := fun x => if x =? a then b else m x.

Definition memset (m : mem) (dest c n : Z) : mem :=
  fun a => if in_block dest n a then u8 c else m a.

(** [memcpy] on blocks that do not overlap, and [memmove] on any blocks: every
    byte of the destination gets the byte the source block had before. *)
Definition memmove (m : mem) (dest src n : Z) : mem :=
  fun a => if in_block dest n a then m (src + (a - dest)) else m a.
Abbreviation memcpy := memmove.

(** ** memcpy_s *)
Definition SECUREC_MEMORY_NO_OVERLAP (dest src count : Z) : bool :=
  ((src <? dest) && (src + count <=? dest)) || ((dest <? src) && (dest + count <=? src)).

Definition SecMemcpyError (m : mem) (dest destMax src count : Z) : Z * mem :=
  if (destMax =? 0) || (destMax >? SECUREC_MEM_MAX_LEN) then (ERANGE, m)
  else if (dest =? NULL) || (src =? NULL) then
    if negb (dest =? NULL) then (EINVAL_AND_RESET, memset m dest 0 destMax) else (EINVAL, m)
  else if count >? destMax then (ERANGE_AND_RESET, memset m dest 0 destMax)
  else if dest =? src then (EOK, m)
  else if ((dest >? src) && (dest <? src + count)) || ((src >? dest) && (src <? dest + count))
  then (EOVERLAP_AND_RESET, memset m dest 0 destMax)
  else (EOK, m).

Definition SECUREC_MEMCPY_PARAM_OK (dest destMax src count : Z) : bool :=
  (count <=? destMax) && negb (dest =? NULL) && negb (src =? NULL) &&
  (destMax <=? SECUREC_MEM_MAX_LEN) && (count >? 0) &&
  SECUREC_MEMORY_NO_OVERLAP dest src count.

Definition SecDoMemcpy (m : mem) (dest src count : Z) : mem := memcpy m dest src count.

Definition memcpy_s (m : mem) (dest destMax src count : Z) : Z * mem :=
  if SECUREC_MEMCPY_PARAM_OK dest destMax src count
  then (EOK, SecDoMemcpy m dest src count)
  else SecMemcpyError m dest destMax src count.

(** ** The optimised copy *)
Definition SECUREC_MEMCOPY_THRESHOLD_SIZE : Z := 64.

Definition SecIsAddrAligned8 (addr zeroAddr : Z) : Z := Z.land (addr - zeroAddr) 7.
Definition SECUREC_ADDR_ALIGNED_8 (addr : Z) : bool := SecIsAddrAligned8 addr NULL =? 0.

(** [*(SecStrBufN * )dest = *(const SecStrBufN * )src] for N = 1 .. 64; the
    structure is read whole before it is written; other sizes do nothing. *)
Definition aligned_copy (m : mem) (dest src count : Z) : mem :=
  if (1 <=? count) && (count <=? 64) then memmove m dest src count else m.

(** The chain of [*(tmpDest++) = *(tmpSrc++)] entered at [case count]. *)
Fixpoint fallthrough_copy (n : nat) (m : mem) (tmpDest tmpSrc : Z) : mem :=
  match n with
  | O => m
  | S n => fallthrough_copy n (store m tmpDest (m tmpSrc)) (tmpDest + 1) (tmpSrc + 1)
  end.

Definition unaligned_copy (m : mem) (dest src count : Z) : mem :=
  if (1 <=? count) && (count <=? 64) then fallthrough_copy (Z.to_nat count) m dest src else m.

Definition SECUREC_SMALL_MEM_COPY (m : mem) (dest src count : Z) : mem :=
  if SECUREC_ADDR_ALIGNED_8 dest && SECUREC_ADDR_ALIGNED_8 src
  then aligned_copy m dest src count
  else unaligned_copy m dest src count.

Definition SecDoMemcpyOpt (m : mem) (dest src count : Z) : mem :=
  if count >? SECUREC_MEMCOPY_THRESHOLD_SIZE then SecDoMemcpy m dest src count
  else SECUREC_SMALL_MEM_COPY m dest src count.

Definition memcpy_sOptAsm (m : mem) (dest destMax src count : Z) : Z * mem :=
  if SECUREC_MEMCPY_PARAM_OK dest destMax src count
  then (EOK, SecDoMemcpyOpt m dest src count)
  else SecMemcpyError m dest destMax src count.

Definition memcpy_sOptTc (m : mem) (dest destMax src count : Z) : Z * mem :=
  if (count <=? destMax) && negb (dest =? NULL) && negb (src =? NULL) && (count >? 0) &&
     (((dest >? src) && (src + count <=? dest)) || ((src >? dest) && (dest + count <=? src)))
  then (EOK, SecDoMemcpyOpt m dest src count)
  else SecMemcpyError m dest destMax src count.

(** ** memmove_s *)
(** [while (maxCount--)] upwards, then downwards. *)
Fixpoint copy_up (n : nat) (m : mem) (pDest pSrc : Z) : mem :=
  match n with
  | O => m
  | S n => copy_up n (store m pDest (m pSrc)) (pDest + 1) (pSrc + 1)
  end.

Fixpoint copy_down (n : nat) (m : mem) (pDest pSrc : Z) : mem :=
  match n with
  | O => m
  | S n => copy_down n (store m pDest (m pSrc)) (pDest - 1) (pSrc - 1)
  end.

Definition SecUtilMemmove (m : mem) (dst src count : Z) : mem :=
  if (dst <=? src) || (dst >=? src + count)
  then copy_up (Z.to_nat count) m dst src
  else copy_down (Z.to_nat count) m (dst + count - 1) (src + count - 1).

(** [use_libc] is [SECUREC_NOT_CALL_LIBC_CORE_API] being undefined. *)
Definition memmove_s (use_libc : bool) (m : mem) (dest destMax src count : Z) : Z * mem :=
  if (destMax =? 0) || (destMax >? SECUREC_MEM_MAX_LEN) then (ERANGE, m)
  else if (dest =? NULL) || (src =? NULL) then
    if negb (dest =? NULL) then (EINVAL_AND_RESET, memset m dest 0 destMax) else (EINVAL, m)
  else if count >? destMax then (ERANGE_AND_RESET, memset m dest 0 destMax)
  else if dest =? src then (EOK, m)
  else if count >? 0
  then (EOK, if use_libc then memmove m dest src count else SecUtilMemmove m dest src count)
  else (EOK, m).

(** ** memset_s *)
Definition SECUREC_MEMSET_PARAM_OK (dest destMax count : Z) : bool :=
  (count <=? destMax) && negb (dest =? NULL) && (destMax <=? SECUREC_MEM_MAX_LEN).

Definition SecMemsetError (m : mem) (dest destMax c count : Z) : Z * mem :=
  if (destMax =? 0) || (destMax >? SECUREC_MEM_MAX_LEN) then (ERANGE, m)
  else if dest =? NULL then (EINVAL, m)
  else if count >? destMax then (ERANGE_AND_RESET, memset m dest c destMax)
  else (EOK, m).

Definition SecDoMemset (m : mem) (dest c count : Z) : mem := memset m dest c count.

Definition memset_s (m : mem) (dest destMax c count : Z) : Z * mem :=
  if SECUREC_MEMSET_PARAM_OK dest destMax count
  then (EOK, SecDoMemset m dest c count)
  else SecMemsetError m dest destMax c count.

Definition SECUREC_MEMSET_THRESHOLD_SIZE : Z := 32.

Fixpoint fallthrough_set (n : nat) (m : mem) (pcDest c : Z) : mem :=
  match n with
  | O => m
  | S n => fallthrough_set n (store m pcDest (u8 c)) (pcDest + 1) c
  end.

Definition SECUREC_UNALIGNED_SET (m : mem) (dest c count : Z) : mem :=
  if (1 <=? count) && (count <=? 32) then fallthrough_set (Z.to_nat count) m dest c else m.

(** Assignment of the first [count] bytes of a constant structure ([g_allZero]
    or [g_allFF]) of which every byte is [b]. *)
Definition struct_set (m : mem) (dest b count : Z) : mem :=
  if (1 <=? count) && (count <=? 32) then (fun a => if in_block dest count a then b else m a)
  else m.

Definition SECUREC_ALIGNED_SET_OPT_ZERO_FF (m : mem) (dest c count : Z) : mem :=
  if c =? 0 then struct_set m dest 0 count
  else if c =? 255 then struct_set m dest 255 count
  else SECUREC_UNALIGNED_SET m dest c count.

Definition SecDoMemsetOpt (m : mem) (dest c count : Z) : mem :=
  if count >? SECUREC_MEMSET_THRESHOLD_SIZE then SecDoMemset m dest c count
  else if SECUREC_ADDR_ALIGNED_8 dest then SECUREC_ALIGNED_SET_OPT_ZERO_FF m dest c count
  else SECUREC_UNALIGNED_SET m dest c count.

Definition memset_sOptAsm (m : mem) (dest destMax c count : Z) : Z * mem :=
  if SECUREC_MEMSET_PARAM_OK dest destMax count
  then (EOK, SecDoMemsetOpt m dest c count)
  else SecMemsetError m dest destMax c count.

Definition memset_sOptTc (m : mem) (dest destMax c count : Z) : Z * mem :=
  if (count <=? destMax) && negb (dest =? NULL)
  then (EOK, SecDoMemsetOpt m dest c count)
  else SecMemsetError m dest destMax c count.

(** ** Lemmas *)
Lemma in_block_spec dest n a : reflect (dest <= a < dest + n) (in_block dest n a).
Proof. apply iff_reflect. unfold in_block. rewrite andb_true_iff, Z.leb_le, Z.ltb_lt. done. Qed.

(** [zcases] splits on every integer comparison of the goal. *)
Ltac zcases :=
  repeat match goal with
  | |- context [in_block ?d ?n ?a] => destruct (in_block_spec d n a)
  | |- context [?a =? ?b] => destruct (Z.eqb_spec a b)
  | |- context [?a <=? ?b] => destruct (Z.leb_spec a b)
  | |- context [?a <? ?b] => destruct (Z.ltb_spec a b)
  | |- context [?a >? ?b] => destruct (Z.gtb_spec a b)
  | |- context [?a >=? ?b] => destruct (Z.geb_spec a b)
  end; cbn [andb orb negb] in *.

(** A chain of single-byte copies moves the block when it never overwrites a
    byte it still has to read. *)
Lemma copy_up_spec n : forall m d s,
  d <= s \/ s + Z.of_nat n <= d ->
  copy_up n m d s ≡ₘ memmove m d s (Z.of_nat n).
Proof.
  induction n as [|n IH]; intros m d s H a; cbn [copy_up].
  { unfold memmove. zcases; [lia|done]. }
  rewrite IH by lia. unfold memmove, store.
  zcases; try lia; try (f_equal; lia).
Qed.

Lemma copy_down_spec n : forall m d s,
  s <= d ->
  copy_down n m (d + Z.of_nat n - 1) (s + Z.of_nat n - 1) ≡ₘ memmove m d s (Z.of_nat n).
Proof.
  induction n as [|n IH]; intros m d s H a; cbn [copy_down].
  { unfold memmove. zcases; [lia|done]. }
  replace (d + Z.of_nat (S n) - 1 - 1) with (d + Z.of_nat n - 1) by lia.
  replace (s + Z.of_nat (S n) - 1 - 1) with (s + Z.of_nat n - 1) by lia.
  rewrite IH by lia. unfold memmove, store.
  zcases; try lia; try (f_equal; lia).
Qed.

Lemma fallthrough_copy_up n : forall m d s, fallthrough_copy n m d s = copy_up n m d s.
Proof. induction n; intros; cbn; auto. Qed.

Lemma fallthrough_set_spec n : forall m d c,
  fallthrough_set n m d c ≡ₘ memset m d c (Z.of_nat n).
Proof.
  induction n as [|n IH]; intros m d c a; cbn [fallthrough_set].
  { unfold memset. zcases; [lia|done]. }
  rewrite IH. unfold memset, store. zcases; try lia; done.
Qed.

Lemma no_overlap_spec dest src count :
  SECUREC_MEMORY_NO_OVERLAP dest src count = true ->
  dest <> src /\ (src + count <= dest \/ dest + count <= src).
Proof. unfold SECUREC_MEMORY_NO_OVERLAP. zcases; intros; try done; lia. Qed.

Lemma SecDoMemcpyOpt_eq m dest src count :
  0 < count -> SECUREC_MEMORY_NO_OVERLAP dest src count = true ->
  SecDoMemcpyOpt m dest src count ≡ₘ SecDoMemcpy m dest src count.
Proof.
  intros Hc Ho. apply no_overlap_spec in Ho as [_ Ho].
  unfold SecDoMemcpyOpt, SECUREC_SMALL_MEM_COPY, SECUREC_MEMCOPY_THRESHOLD_SIZE.
  destruct (Z.gtb_spec count 64); [done|].
  unfold aligned_copy, unaligned_copy, SecDoMemcpy.
  assert ((1 <=? count) && (count <=? 64) = true) as -> by (zcases; lia || done).
  destruct (_ && _); [done|].
  rewrite fallthrough_copy_up. intros a.
  rewrite copy_up_spec by lia. by rewrite Z2Nat.id by lia.
Qed.

Lemma SecDoMemsetOpt_eq m dest c count :
  0 <= count -> SecDoMemsetOpt m dest c count ≡ₘ SecDoMemset m dest c count.
Proof.
  intros Hc a. unfold SecDoMemsetOpt, SECUREC_MEMSET_THRESHOLD_SIZE, SecDoMemset.
  destruct (Z.gtb_spec count 32); [done|].
  assert (SECUREC_UNALIGNED_SET m dest c count a = memset m dest c count a) as U.
  { unfold SECUREC_UNALIGNED_SET. destruct (_ && _) eqn:E.
    - rewrite fallthrough_set_spec, Z2Nat.id by lia. done.
    - unfold memset. revert E. zcases; intros; try done; lia. }
  destruct (SECUREC_ADDR_ALIGNED_8 dest); [|done].
  unfold SECUREC_ALIGNED_SET_OPT_ZERO_FF, struct_set.
  destruct (Z.eqb_spec c 0) as [->|]; [|destruct (Z.eqb_spec c 255) as [->|]; [|done]];
    unfold memset; zcases; try done; zcases; done || lia.
Qed.

(** ** Contracts *)

(** The table of return values in the comment of [memcpy_s] (memcpy_s.c:516-525),
    with what the comments on the codes say of the destination (securec.h:53-75):
    it must be reset, that is filled with zeroes, with the codes that end in
    AND_RESET, and cannot be reset with EINVAL and ERANGE.  The two sentences
    after the table are not part of this contract: "if an error occured, dest will
    be filled with 0" is not true of EINVAL and ERANGE, and the overlap that is
    called undefined there has a row in the table. *)
Inductive memcpy_contract (m : mem) (dest destMax src count : Z) : Z -> mem -> Prop :=
| doc_ERANGE m' :
    destMax > SECUREC_MEM_MAX_LEN \/ destMax = 0 -> m' ≡ₘ m ->
    memcpy_contract m dest destMax src count ERANGE m'
| doc_EINVAL m' :
    dest = NULL -> destMax <> 0 -> destMax <= SECUREC_MEM_MAX_LEN -> m' ≡ₘ m ->
    memcpy_contract m dest destMax src count EINVAL m'
| doc_EINVAL_AND_RESET m' :
    dest <> NULL -> src = NULL -> destMax <> 0 -> destMax <= SECUREC_MEM_MAX_LEN ->
    m' ≡ₘ memset m dest 0 destMax ->
    memcpy_contract m dest destMax src count EINVAL_AND_RESET m'
| doc_ERANGE_AND_RESET m' :
    count > destMax -> dest <> NULL -> src <> NULL -> destMax <> 0 ->
    destMax <= SECUREC_MEM_MAX_LEN -> m' ≡ₘ memset m dest 0 destMax ->
    memcpy_contract m dest destMax src count ERANGE_AND_RESET m'
| doc_EOVERLAP_AND_RESET m' a :
    dest <= a < dest + count -> src <= a < src + count -> dest <> src ->
    count <= destMax -> dest <> NULL -> src <> NULL -> destMax <> 0 ->
    destMax <= SECUREC_MEM_MAX_LEN -> m' ≡ₘ memset m dest 0 destMax ->
    memcpy_contract m dest destMax src count EOVERLAP_AND_RESET m'
| doc_EOK m' :
    (dest = src \/ forall a, dest <= a < dest + count -> ~ src <= a < src + count) ->
    count <= destMax -> dest <> NULL -> src <> NULL -> destMax <> 0 ->
    destMax <= SECUREC_MEM_MAX_LEN ->
    (forall i, 0 <= i < count -> m' (dest + i) = m (src + i)) ->
    (forall a, ~ dest <= a < dest + count -> m' a = m a) ->
    memcpy_contract m dest destMax src count EOK m'.

Lemma memmove_at m dest src count i :
  0 <= i < count -> memmove m dest src count (dest + i) = m (src + i).
Proof. intros. unfold memmove. zcases; [f_equal|]; lia. Qed.

Lemma memmove_out m dest src count a :
  ~ dest <= a < dest + count -> memmove m dest src count a = m a.
Proof. intros. unfold memmove. zcases; done. Qed.

Lemma memset_out m dest c count a :
  ~ dest <= a < dest + count -> memset m dest c count a = m a.
Proof. intros. unfold memset. zcases; done. Qed.

Lemma memcpy_param_ok dest destMax src count :
  SECUREC_MEMCPY_PARAM_OK dest destMax src count = true ->
  0 < count <= destMax /\ destMax <= SECUREC_MEM_MAX_LEN /\ dest <> NULL /\ src <> NULL /\
  SECUREC_MEMORY_NO_OVERLAP dest src count = true.
Proof.
  unfold SECUREC_MEMCPY_PARAM_OK. generalize (SECUREC_MEMORY_NO_OVERLAP dest src count).
  intros b. zcases; intros; done || (repeat split; lia || done).
Qed.

Lemma memcpy_param_bad dest destMax src count :
  SECUREC_MEMCPY_PARAM_OK dest destMax src count = false ->
  0 <= count <= destMax -> destMax <= SECUREC_MEM_MAX_LEN -> dest <> NULL -> src <> NULL ->
  dest <> src -> src + count <= dest \/ dest + count <= src -> count = 0.
Proof.
  unfold SECUREC_MEMCPY_PARAM_OK, SECUREC_MEMORY_NO_OVERLAP. zcases; intros; try done; lia.
Qed.

(** C34: memcpy_s follows its table of return values.  On every input it returns
    the code whose row applies; on EOK the destination holds a copy of the source
    and nothing else changed, on the codes that end in AND_RESET the whole
    destination is zero and nothing else changed, and on EINVAL and ERANGE the
    memory is as before, the destination included: for ERANGE this is what
    securec.h says of the code and not what the sentence below the table says,
    that the destination is filled with zeroes whenever an error occurred. *)
Theorem memcpy_s_table m dest destMax src count :
  0 <= destMax -> 0 <= count ->
  let '(r, m') := memcpy_s m dest destMax src count in
  memcpy_contract m dest destMax src count r m'.
Proof.
  intros Hd Hc. unfold memcpy_s.
  destruct (SECUREC_MEMCPY_PARAM_OK _ _ _ _) eqn:E.
  - apply memcpy_param_ok in E as (? & ? & ? & ? & [? ?]%no_overlap_spec).
    apply doc_EOK; try lia; [right; lia|..]; intros;
      [by apply memmove_at | by apply memmove_out].
  - pose proof (memcpy_param_bad _ _ _ _ E) as Hbad.
    unfold SecMemcpyError. zcases;
      first [ by apply doc_ERANGE; [lia|] | by apply doc_EINVAL
            | by apply doc_EINVAL_AND_RESET | by apply doc_ERANGE_AND_RESET; try lia
            | by apply (doc_EOVERLAP_AND_RESET _ _ _ _ _ _ (Z.max dest src)); try lia
            | idtac ]; try lia.
    all: apply doc_EOK; try lia; try done;
      try (left; done); try (right; lia); intros; try (f_equal; lia); lia.
Qed.

Lemma memcpy_s_table_witness :
  let m a := a mod 256 in
  memcpy_contract m 100 8 200 5 EOK (snd (memcpy_s m 100 8 200 5)) /\
  memcpy_contract m 100 8 103 5 EOVERLAP_AND_RESET (snd (memcpy_s m 100 8 103 5)) /\
  memcpy_contract m 100 0 200 5 ERANGE (snd (memcpy_s m 100 0 200 5)).
Proof.
  split_and!.
  - apply (memcpy_s_table (fun a => a mod 256) 100 8 200 5); lia.
  - apply (memcpy_s_table (fun a => a mod 256) 100 8 103 5); lia.
  - apply (memcpy_s_table (fun a => a mod 256) 100 0 200 5); lia.
Defined.

(** Results that agree: the same code and the same memory. *)
Definition result_eq (x y : Z * mem) : Prop := x.1 = y.1 /\ x.2 ≡ₘ y.2.
Infix "≡ᵣ" := result_eq (at level 70, no associativity).

#[global] Instance result_eq_equivalence : Equivalence result_eq.
Proof.
  split; unfold result_eq.
  - done.
  - by intros ?? [-> ->].
  - by intros ??? [-> ->].
Qed.

#[global] Instance pair_result_proper : Proper (eq ==> mem_eq ==> result_eq) (@pair Z mem).
Proof. by intros ?? -> ???. Qed.

Lemma OptTc_param_ok dest destMax src count :
  destMax <= SECUREC_MEM_MAX_LEN ->
  (count <=? destMax) && negb (dest =? NULL) && negb (src =? NULL) && (count >? 0) &&
  (((dest >? src) && (src + count <=? dest)) || ((src >? dest) && (dest + count <=? src)))
  = SECUREC_MEMCPY_PARAM_OK dest destMax src count.
Proof.
  intros ?. unfold SECUREC_MEMCPY_PARAM_OK, SECUREC_MEMORY_NO_OVERLAP.
  zcases; done || lia.
Qed.

Lemma memcpy_sOptAsm_eq m dest destMax src count :
  memcpy_sOptAsm m dest destMax src count ≡ᵣ memcpy_s m dest destMax src count.
Proof.
  unfold memcpy_sOptAsm, memcpy_s. destruct (SECUREC_MEMCPY_PARAM_OK _ _ _ _) eqn:E; [|done].
  apply memcpy_param_ok in E as (? & _ & _ & _ & ?).
  by rewrite SecDoMemcpyOpt_eq by (done || lia).
Qed.

Lemma memcpy_sOptTc_eq m dest destMax src count :
  destMax <= SECUREC_MEM_MAX_LEN ->
  memcpy_sOptTc m dest destMax src count ≡ᵣ memcpy_s m dest destMax src count.
Proof.
  intros Hmax. rewrite <- memcpy_sOptAsm_eq.
  unfold memcpy_sOptTc, memcpy_sOptAsm. by rewrite OptTc_param_ok.
Qed.

(** The optimised memcpy variants, with their aligned structure copies and
    unrolled byte copies, return and write exactly what memcpy_s does: the
    first on every input, the second whenever the trimmed size check holds. *)
Theorem memcpy_opt_equiv m dest destMax src count :
  memcpy_sOptAsm m dest destMax src count ≡ᵣ memcpy_s m dest destMax src count /\
  (destMax <= SECUREC_MEM_MAX_LEN ->
   memcpy_sOptTc m dest destMax src count ≡ᵣ memcpy_s m dest destMax src count).
Proof.
  split; [apply memcpy_sOptAsm_eq|apply memcpy_sOptTc_eq].
Qed.

Lemma memcpy_opt_equiv_witness :
  memcpy_sOptTc (fun a => a mod 256) 104 8 201 5 ≡ᵣ memcpy_s (fun a => a mod 256) 104 8 201 5.
Proof. apply (memcpy_opt_equiv (fun a => a mod 256) 104 8 201 5). vm_compute; discriminate. Defined.

Lemma SecUtilMemmove_spec m dst src count :
  0 <= count -> SecUtilMemmove m dst src count ≡ₘ memmove m dst src count.
Proof.
  intros Hc. rewrite <- (Z2Nat.id count) by done. unfold SecUtilMemmove. rewrite Nat2Z.id.
  destruct ((dst <=? src) || _) eqn:E.
  - apply copy_up_spec. revert E. zcases; intros; done || lia.
  - apply copy_down_spec. revert E. zcases; intros; done || lia.
Qed.

(** What [memmove_s] documents as a valid call. *)
Definition move_args_ok (dest destMax src count : Z) : Prop :=
  0 < destMax <= SECUREC_MEM_MAX_LEN /\ dest <> NULL /\ src <> NULL /\ count <= destMax.

(** Memmove_s, in the build that calls libc and in the build with its own
    byte loops, moves the block correctly for arbitrarily overlapping buffers:
    it succeeds exactly when the arguments are valid, and then every
    destination byte is the source byte as it was before the call and no other
    byte changes. *)
Theorem memmove_s_correct use_libc m dest destMax src count :
  0 <= destMax -> 0 <= count ->
  let '(r, m') := memmove_s use_libc m dest destMax src count in
  (r = EOK <-> move_args_ok dest destMax src count) /\
  (r = EOK ->
     (forall i, 0 <= i < count -> m' (dest + i) = m (src + i)) /\
     (forall a, ~ dest <= a < dest + count -> m' a = m a)).
Proof.
  intros Hd Hc. unfold memmove_s, move_args_ok.
  assert (forall b : bool, (if b then memmove m dest src count else SecUtilMemmove m dest src count)
          ≡ₘ memmove m dest src count) as Hb.
  { intros []; [done|by apply SecUtilMemmove_spec]. }
  zcases; (split; [split; intros; done || lia|]); intros; try done.
  - subst. done.
  - split; intros; rewrite Hb; [by apply memmove_at|by apply memmove_out].
  - split; intros; [lia|done].
Qed.

Lemma memmove_s_correct_witness :
  (memmove_s false (fun a => a mod 256) 102 10 100 8).1 = EOK /\
  (memmove_s false (fun a => a mod 256) 102 10 100 8).2 (102 + 7) = 107 /\
  (memmove_s false (fun a => a mod 256) 102 0 100 8).1 <> EOK.
Proof.
  destruct (memmove_s_correct false (fun a => a mod 256) 102 10 100 8) as [H1 H2]; [lia..|].
  destruct (memmove_s_correct false (fun a => a mod 256) 102 0 100 8) as [H3 _]; [lia..|].
  assert ((memmove_s false (fun a => a mod 256) 102 10 100 8).1 = EOK) as E.
  { apply H1. repeat split; try lia; done. }
  split; [exact E|]. split.
  - apply (proj1 (H2 E) 7). lia.
  - intros H. apply H3 in H. destruct H as [? _]. lia.
Defined.

(** Memset_s fills the block, refuses an oversized request after filling the
    whole destination, and its optimised variants agree with it for every
    value of the fill byte and every alignment. *)
Theorem memset_s_correct m dest destMax c count :
  0 <= destMax -> 0 <= count ->
  memset_s m dest destMax c count ≡ᵣ
    (if destMax >? SECUREC_MEM_MAX_LEN then (ERANGE, m)
     else if dest =? NULL then (if destMax =? 0 then ERANGE else EINVAL, m)
     else if count <=? destMax then (EOK, memset m dest c count)
     else if destMax =? 0 then (ERANGE, m)
     else (ERANGE_AND_RESET, memset m dest c destMax)) /\
  memset_sOptAsm m dest destMax c count ≡ᵣ memset_s m dest destMax c count /\
  (destMax <= SECUREC_MEM_MAX_LEN ->
   memset_sOptTc m dest destMax c count ≡ᵣ memset_s m dest destMax c count).
Proof.
  intros Hd Hc.
  unfold memset_s, memset_sOptAsm, memset_sOptTc, SECUREC_MEMSET_PARAM_OK, SecMemsetError.
  split_and!; intros; zcases; try done; try lia; by rewrite SecDoMemsetOpt_eq.
Qed.

Lemma memset_s_correct_witness :
  (memset_s (fun _ => 0) 64 16 255 9).2 (64 + 8) = 255 /\
  memset_sOptTc (fun _ => 0) 64 16 255 9 ≡ᵣ memset_s (fun _ => 0) 64 16 255 9.
Proof.
  destruct (memset_s_correct (fun _ => 0) 64 16 255 9) as (H1 & _ & H3); [lia..|].
  split.
  - destruct H1 as [_ H1]. apply (H1 72).
  - apply H3. vm_compute. discriminate.
Defined.

(** The table of [memset_s] says that [destMax] = 0 gives ERANGE; an empty
    request on a non-null destination returns EOK instead. *)
Lemma memset_s_zero_destMax m dest c :
  dest <> NULL -> (memset_s m dest 0 c 0).1 = EOK.
Proof. intros. unfold memset_s, SECUREC_MEMSET_PARAM_OK. zcases; done. Qed.

(** ** memcpy_s between two objects

    The callers copy between two distinct objects.  Objects are byte lists;
    [None] is an access outside one of them. *)
Definition buf_memcpy_s (dst : list Z) (off destMax : Z) (src : list Z) (soff count : Z)
    : option (Z * list Z) :=
  if (destMax =? 0) || (destMax >? SECUREC_MEM_MAX_LEN) then Some (ERANGE, dst)
  else if count >? destMax then
    if off + destMax <=? zlen dst
    then Some (ERANGE_AND_RESET,
               ztake off dst ++ replicate (Z.to_nat destMax) 0 ++ zdrop (off + destMax) dst)
    else None
  else if (off + count <=? zlen dst) && (soff + count <=? zlen src)
  then Some (EOK, ztake off dst ++ ztake count (zdrop soff src) ++ zdrop (off + count) dst)
  else None.

(** A copy of a whole object into a fresh one of its size. *)
Lemma buf_copy_all d :
  0 < zlen d <= SECUREC_MEM_MAX_LEN ->
  buf_memcpy_s (replicate (Z.to_nat (zlen d)) 0) 0 (zlen d) d 0 (zlen d) = Some (EOK, d).
Proof.
  intros Hd. unfold buf_memcpy_s. rewrite zlen_replicate by lia.
  destruct (Z.eqb_spec (zlen d) 0); [lia|].
  destruct (Z.gtb_spec (zlen d) SECUREC_MEM_MAX_LEN); [lia|].
  destruct (Z.gtb_spec (zlen d) (zlen d)); [lia|].
  destruct (Z.leb_spec (0 + zlen d) (zlen d)); [|lia]. cbn [orb andb].
  rewrite ztake_0, zdrop_0, ztake_all, zdrop_all, app_nil_r; [done| |done].
  rewrite zlen_replicate; lia.
Qed.

(** The object [l] lies at address [d]. *)
Definition block (m : mem) (d : Z) (l : list Z) : Prop :=
  forall i x, l !! i = Some x -> m (d + Z.of_nat i) = x.

#[global] Instance block_proper : Proper (mem_eq ==> eq ==> eq ==> iff) block.
Proof.
  intros m m' H ?? -> ?? ->. unfold block.
  split; intros Hb i x Hx; rewrite <- (Hb i x Hx); by rewrite H.
Qed.

Lemma block_load m d l :
  (fun i => m (d + Z.of_nat i)) <$> seq 0 (length l) = l -> block m d l.
Proof. intros <- i x. rewrite list_lookup_fmap_Some. by intros (j & -> & [-> _]%lookup_seq). Qed.

(** Overwriting a part of an object: the three pieces of the new contents. *)
Lemma block_splice m m' d l off mid n :
  block m d l -> zlen mid = n -> 0 <= off -> off + n <= zlen l ->
  (forall i x, mid !! i = Some x -> m' (d + off + Z.of_nat i) = x) ->
  (forall a, ~ d + off <= a < d + off + n -> m' a = m a) ->
  block m' d (ztake off l ++ mid ++ zdrop (off + n) l).
Proof.
  unfold zlen, ztake, zdrop. intros Hb <- Ho Hl Hm Hout i x.
  rewrite lookup_app_Some. intros [Hx|[Hi Hx]].
  - apply lookup_take_Some in Hx as [Hx ?]. rewrite Hout by lia. by apply Hb.
  - rewrite length_take in Hi, Hx. rewrite lookup_app_Some in Hx.
    destruct Hx as [Hx|[Hi2 Hx]].
    + rewrite <- (Hm _ _ Hx). f_equal. lia.
    + rewrite lookup_drop in Hx. rewrite Hout by lia. rewrite <- (Hb _ _ Hx). f_equal. lia.
Qed.

Lemma memcpy_s_disjoint m dest destMax src count :
  0 <= count <= destMax -> 0 < destMax <= SECUREC_MEM_MAX_LEN -> 0 < dest -> 0 < src ->
  src + count <= dest \/ dest + count <= src ->
  memcpy_s m dest destMax src count ≡ᵣ (EOK, memmove m dest src count).
Proof.
  intros Hc HM Hd Hs Hdis. unfold memcpy_s.
  destruct (SECUREC_MEMCPY_PARAM_OK _ _ _ _) eqn:E; [done|].
  assert (count = 0 \/ dest = src /\ count = 0) as Hz.
  { destruct (decide (dest = src)); [lia|]. left.
    apply (memcpy_param_bad dest destMax src); unfold NULL; lia || done. }
  assert (count = 0) as -> by lia.
  unfold SecMemcpyError, NULL. zcases; try lia.
  all: split; [done|]; intros a; cbn; unfold memmove; zcases; lia || done.
Qed.

Lemma memcpy_s_range m dest destMax src count :
  0 <= count -> destMax = 0 \/ destMax > SECUREC_MEM_MAX_LEN ->
  memcpy_s m dest destMax src count = (ERANGE, m).
Proof.
  intros Hc H. unfold memcpy_s. destruct (SECUREC_MEMCPY_PARAM_OK _ _ _ _) eqn:E.
  { apply memcpy_param_ok in E. lia. }
  unfold SecMemcpyError. zcases; done || lia.
Qed.

Lemma memcpy_s_too_long m dest destMax src count :
  0 < destMax <= SECUREC_MEM_MAX_LEN -> destMax < count -> 0 < dest -> 0 < src ->
  memcpy_s m dest destMax src count = (ERANGE_AND_RESET, memset m dest 0 destMax).
Proof.
  intros HM Hc ??. unfold memcpy_s. destruct (SECUREC_MEMCPY_PARAM_OK _ _ _ _) eqn:E.
  { apply memcpy_param_ok in E. lia. }
  unfold SecMemcpyError, NULL. zcases; done || lia.
Qed.

(** C36: on two distinct objects in memory, memcpy_s returns the code and leaves
    the destination contents that the byte-list version computes, and changes
    no byte outside the destination object. *)
Theorem buf_memcpy_s_refines m d dst s src off destMax soff count r dst' :
  block m d dst -> block m s src -> 0 < d -> 0 < s ->
  d + zlen dst <= s \/ s + zlen src <= d ->
  0 <= off <= zlen dst -> 0 <= soff <= zlen src -> 0 <= destMax -> 0 <= count ->
  buf_memcpy_s dst off destMax src soff count = Some (r, dst') ->
  let '(r', m') := memcpy_s m (d + off) destMax (s + soff) count in
  r' = r /\ block m' d dst' /\ (forall a, ~ d <= a < d + zlen dst -> m' a = m a).
Proof.
  intros Hd Hs Hd0 Hs0 Hdis Ho Hso HM Hc. unfold buf_memcpy_s.
  destruct (Z.eqb_spec destMax 0) as [->|];
    [|destruct (Z.gtb_spec destMax SECUREC_MEM_MAX_LEN)]; cbn [orb].
  1,2: intros [= <- <-]; rewrite memcpy_s_range by (unfold SECUREC_MEM_MAX_LEN in *; lia); done.
  destruct (Z.gtb_spec count destMax).
  - case_match eqn:E; [|done]. intros [= <- <-].
    rewrite memcpy_s_too_long by lia. split_and!; [done|..].
    + apply (block_splice m); [done|by apply zlen_replicate|lia|lia|..].
      * intros i x [-> ?]%lookup_replicate. unfold memset. zcases; done || lia.
      * intros a ?. by apply memset_out.
    + intros a ?. apply memset_out. lia.
  - destruct (andb _ _) eqn:E; [|done]. apply andb_prop in E as [E1%Z.leb_le E2%Z.leb_le].
    intros [= <- <-].
    pose proof (memcpy_s_disjoint m (d + off) destMax (s + soff) count) as [Hr Hm]; [lia..|].
    destruct (memcpy_s _ _ _ _ _) as [r' m']. cbn in Hr, Hm.
    assert (zlen (ztake count (zdrop soff src)) = count) as Hl.
    { apply zlen_ztake. rewrite zlen_zdrop; lia. }
    split_and!; [done|..].
    + rewrite Hm. apply (block_splice m); [done|done|lia|lia|..].
      * intros i x Hx. apply lookup_take_Some in Hx as [Hx ?]. unfold zdrop in Hx.
        rewrite lookup_drop in Hx. rewrite <- (Hs _ _ Hx), memmove_at by lia. f_equal. lia.
      * intros a ?. by apply memmove_out.
    + intros a ?. rewrite Hm. apply memmove_out. lia.
Qed.

Lemma buf_memcpy_s_refines_witness :
  let m a := a mod 256 in
  (memcpy_s m (100 + 2) 3 (200 + 1) 2).1 = EOK /\
  block (memcpy_s m (100 + 2) 3 (200 + 1) 2).2 100 [100; 101; 201; 202; 104].
Proof.
  destruct (buf_memcpy_s_refines (fun a => a mod 256) 100 [100; 101; 102; 103; 104]
    200 [200; 201; 202; 203] 2 3 1 2 EOK [100; 101; 201; 202; 104]) as (H1 & H2 & _).
  - apply block_load. reflexivity.
  - apply block_load. reflexivity.
  - lia.
  - lia.
  - unfold zlen; cbn; lia.
  - unfold zlen; cbn; lia.
  - unfold zlen; cbn; lia.
  - lia.
  - lia.
  - reflexivity.
  - split; [exact H1|exact H2].
Defined.
