(* ===== verification/SecureMacros.v ===== *)
(** * The macros of the bounded memory routines

    src/log/utils/securectype.h, securec.h, securecutil.h and securecutil.c: the
    tests for overlap, the length of a string up to a maximum with its unrolled
    variant, the structures for small copies, and the macros that copy and append
    strings and blocks when an argument is a constant of the compiler
    (SECUREC_WITH_PERFORMANCE_ADDONS).  Memory is that of Securec.  The string
    functions the macros fall back to (strcpy_error, strncpy_error, strcat_s,
    strncat_s) are not in the repository and are arguments.  An access that C
    leaves undefined gives [None]: memcpy between blocks that overlap, and
    strlen without a terminating zero within [fuel] bytes. *)
From S2P Require Import Prelude Securec.

#[local] Open Scope Z_scope.

(** ** Arithmetic of widths *)
Definition SECUREC_INT_MAX : Z := 2147483647.
Definition SECUREC_MUL_SIXTEEN (x : Z) : Z := Z.shiftl x 4.
Definition SECUREC_MUL_EIGHT (x : Z) : Z := Z.shiftl x 3.
Definition SECUREC_MUL_TEN (x : Z) : Z := Z.shiftl (Z.shiftl x 2 + x) 1.
Definition SECUREC_MAX_WIDTH_LEN_DIV_TEN : Z := 21474836.
Definition SECUREC_MAX_WIDTH_LEN : Z := SECUREC_MUL_TEN SECUREC_MAX_WIDTH_LEN_DIV_TEN.
Definition SECUREC_MUL_TEN_ADD_BEYOND_MAX (x : Z) : bool := x >? SECUREC_MAX_WIDTH_LEN_DIV_TEN.

(** ** Overlap *)
Definition SECUREC_MEMORY_IS_OVERLAP (dest src count : Z) : bool :=
  ((src <? dest) && (src + count >? dest)) || ((dest <? src) && (dest + count >? src)).
Definition SECUREC_STRING_NO_OVERLAP (dest src len : Z) : bool :=
  ((src <? dest) && (src + len <? dest)) || ((dest <? src) && (dest + len <? src)).
Definition SECUREC_STRING_IS_OVERLAP (dest src len : Z) : bool :=
  ((src <? dest) && (src + len >=? dest)) || ((dest <? src) && (dest + len >=? src)).
Definition SECUREC_CAT_STRING_IS_OVERLAP (dest destLen src srcLen : Z) : bool :=
  ((dest <? src) && (dest + destLen + srcLen >=? src)) || ((src <? dest) && (src + srcLen >=? dest)).

(** ** Lengths *)

(** [strnlen] of the C library. *)
Fixpoint strnlen (m : mem) (str : Z) (maxLen : nat) : Z :=
  match maxLen with
  | O => 0
  | S maxLen => if m str =? 0 then 0 else 1 + strnlen m (str + 1) maxLen
  end.

(** The loop that is used without strnlen: the end it comes to. *)
Fixpoint str_loop (m : mem) (strEnd : Z) (availableSize : nat) : Z :=
  match availableSize with
  | O => strEnd
  | S availableSize => if negb (m strEnd =? 0) then str_loop m (strEnd + 1) availableSize else strEnd
  end.
(** [have_strnlen] is SECUREC_HAVE_STRNLEN. *)
Definition SECUREC_CALC_STR_LEN (have_strnlen : bool) (m : mem) (str maxLen : Z) : Z :=
  if have_strnlen then strnlen m str (Z.to_nat maxLen)
  else str_loop m str (Z.to_nat maxLen) - str.

Definition SECUREC_CALC_STR_LEN_OPT (have_strnlen : bool) (m : mem) (str maxLen : Z) : Z :=
  if have_strnlen then
    if maxLen >? 8 then
      if m (str + 0) =? 0 then 0
      else if m (str + 1) =? 0 then 1
      else if m (str + 2) =? 0 then 2
      else if m (str + 3) =? 0 then 3
      else if m (str + 4) =? 0 then 4
      else if m (str + 5) =? 0 then 5
      else if m (str + 6) =? 0 then 6
      else if m (str + 7) =? 0 then 7
      else if m (str + 8) =? 0 then 8
      else 8 + strnlen m (str + 8) (Z.to_nat (maxLen - 8))
    else SECUREC_CALC_STR_LEN have_strnlen m str maxLen
  else SECUREC_CALC_STR_LEN have_strnlen m str maxLen.

(** Characters of four bytes. *)
Definition wchar_at (m : mem) (a : Z) : Z := le_val [m a; m (a + 1); m (a + 2); m (a + 3)].
Fixpoint wstr_loop (m : mem) (strEnd outLen : Z) (n : nat) : Z :=
  match n with
  | O => outLen
  | S n => if negb (wchar_at m strEnd =? 0) then wstr_loop m (strEnd + 4) (outLen + 1) n else outLen
  end.
Definition SECUREC_CALC_WSTR_LEN (m : mem) (str maxLen : Z) : Z := wstr_loop m str 0 (Z.to_nat maxLen).

Definition SecStrMinLen := SECUREC_CALC_STR_LEN.
Definition SecStrMinLenOpt := SECUREC_CALC_STR_LEN_OPT.

(** ** Structures of 1 to 64 bytes *)
Record SecStrBuf (n : nat) : Type := mkSecStrBuf { buf : list Z; buf_length : length buf = n }.
Arguments buf {n} _.
Arguments mkSecStrBuf {n} _ _.

Fixpoint load (m : mem) (a : Z) (n : nat) : list Z :=
  match n with O => [] | S n => m a :: load m (a + 1) n end.
Lemma length_load m a n : length (load m a n) = n.
Proof. revert a. induction n as [|n IH]; intros a; cbn; [done|]. by rewrite IH. Qed.
Fixpoint store_all (m : mem) (a : Z) (l : list Z) : mem :=
  match l with [] => m | b :: l => store_all (store m a b) (a + 1) l end.

(** [*(SecStrBufN * )dest = *(const SecStrBufN * )src] *)
Definition SecStrBuf_read (n : nat) (m : mem) (src : Z) : SecStrBuf n :=
  mkSecStrBuf (load m src n) (length_load m src n).
Definition SecStrBuf_assign {n : nat} (m : mem) (dest : Z) (s : SecStrBuf n) : mem := store_all m dest (buf s).

(** ** The version *)
Definition SECUREC_C_VERSION : Z := Z.shiftl 5 8.
Definition SECUREC_SPC_VERSION : Z := 7.
Definition SECUREC_VERSION_STR : string := "Huawei Secure C V100R001C01SPC007B002".
(** [verNumber] is the address of an unsigned short. *)
Definition GetHwSecureCVersion (m : mem) (verNumber : Z) : string * mem :=
  (SECUREC_VERSION_STR,
   if negb (verNumber =? NULL)
   then store_all m verNumber (le_bytes 2 (u16 (Z.lor SECUREC_C_VERSION SECUREC_SPC_VERSION))) else m).

(** ** Copies with constant arguments *)
Definition SECUREC_STRING_MAX_LEN : Z := 2147483647. (* 0x7fffffffUL *)
Definition SECUREC_TWO_MIN (a b : Z) : Z := if a <? b then a else b.

(** [(destMax & (unsigned long long)(-2))] *)
Definition without_low_bit (destMax : Z) : Z := Z.land destMax (2 ^ 64 - 2).

(** The library's memcpy and strlen where C defines them. *)
Definition memcpy_c (m : mem) (dest src n : Z) : option mem :=
  if (n =? 0) || SECUREC_MEMORY_NO_OVERLAP dest src n then Some (memcpy m dest src n) else None.
Fixpoint strlen (fuel : nat) (m : mem) (a : Z) : option Z :=
  match fuel with
  | O => None
  | S fuel => if m a =? 0 then Some 0 else Z.succ <$> strlen fuel m (a + 1)
  end.

Section macros.
Context (fuel : nat).
Context (strcpy_error strcat_s : mem -> Z -> Z -> Z -> Z * mem)
        (strncpy_error strncat_s : mem -> Z -> Z -> Z -> Z -> Z * mem).

Definition SECUREC_STRNCPY_SM (m : mem) (dest destMax src count : Z) : option (Z * mem) :=
  if negb (dest =? NULL) && negb (src =? NULL) && (destMax >? 0) &&
     (without_low_bit destMax <? SECUREC_STRING_MAX_LEN)
  then
    len ← strlen fuel m src;
    if u64 (SECUREC_TWO_MIN count len + 1) <=? destMax then
      if count <? len
      then m1 ← memcpy_c m dest src count; Some (EOK, store m1 (dest + count) 0)
      else m1 ← memcpy_c m dest src (len + 1); Some (EOK, m1)
    else Some (strncpy_error m dest destMax src count)
  else Some (strncpy_error m dest destMax src count).

Definition SECUREC_STRCPY_SM (m : mem) (dest destMax src : Z) : option (Z * mem) :=
  if negb (dest =? NULL) && negb (src =? NULL) && (destMax >? 0) &&
     (without_low_bit destMax <? SECUREC_STRING_MAX_LEN)
  then
    len ← strlen fuel m src;
    if u64 (len + 1) <=? destMax
    then m1 ← memcpy_c m dest src (len + 1); Some (EOK, m1)
    else Some (strcpy_error m dest destMax src)
  else Some (strcpy_error m dest destMax src).

(** The loop to the end of the string that is appended to: where it stops and
    what is left of the size. *)
Fixpoint cat_scan (m : mem) (catTmpDst : Z) (catRestSize : nat) : Z * Z :=
  match catRestSize with
  | O => (catTmpDst, 0)
  | S n => if negb (m catTmpDst =? 0) then cat_scan m (catTmpDst + 1) n
           else (catTmpDst, Z.of_nat (S n))
  end.

Definition SECUREC_STRCAT_SM (m : mem) (dest destMax src : Z) : option (Z * mem) :=
  if negb (dest =? NULL) && negb (src =? NULL) && (destMax >? 0) &&
     (without_low_bit destMax <? SECUREC_STRING_MAX_LEN)
  then
    let '(catTmpDst, catRestSize) := cat_scan m dest (Z.to_nat destMax) in
    '(catRet, m1) ←
      (if catRestSize =? 0 then Some (EINVAL, m)
       else
         len ← strlen fuel m src;
         if u64 (len + 1) <=? catRestSize
         then m1 ← memcpy_c m catTmpDst src (len + 1); Some (EOK, m1)
         else Some (ERANGE, m));
    Some (if negb (catRet =? EOK) then strcat_s m1 dest destMax src else (catRet, m1))
  else Some (strcat_s m dest destMax src).

Definition SECUREC_STRNCAT_SM (m : mem) (dest destMax src count : Z) : option (Z * mem) :=
  if negb (dest =? NULL) && negb (src =? NULL) && (destMax >? 0) &&
     (without_low_bit destMax <? SECUREC_STRING_MAX_LEN) &&
     (without_low_bit count <? SECUREC_STRING_MAX_LEN)
  then
    let '(ncatTmpDest, ncatRestSize) := cat_scan m dest (Z.to_nat destMax) in
    '(ncatRet, m1) ←
      (if ncatRestSize =? 0 then Some (EINVAL, m)
       else
         len ← strlen fuel m src;
         if u64 (SECUREC_TWO_MIN count len + 1) <=? ncatRestSize then
           if count <? len
           then m1 ← memcpy_c m ncatTmpDest src count; Some (EOK, store m1 (ncatTmpDest + count) 0)
           else m1 ← memcpy_c m ncatTmpDest src (len + 1); Some (EOK, m1)
         else Some (ERANGE, m));
    Some (if negb (ncatRet =? EOK) then strncat_s m1 dest destMax src count else (ncatRet, m1))
  else Some (strncat_s m dest destMax src count).
End macros.

Definition SECUREC_MEMCPY_SM (m : mem) (dest destMax src count : Z) : option (Z * mem) :=
  if negb ((destMax =? 0) || (without_low_bit destMax >? SECUREC_MEM_MAX_LEN) ||
           (count >? destMax) || (dest =? NULL) || (src =? NULL))
  then m1 ← memcpy_c m dest src count; Some (EOK, m1)
  else Some (memcpy_s m dest destMax src count).

Definition SECUREC_MEMSET_SM (m : mem) (dest destMax c count : Z) : Z * mem :=
  if negb ((destMax =? 0) || (without_low_bit destMax >? SECUREC_MEM_MAX_LEN) ||
           (dest =? NULL) || (count >? destMax))
  then (EOK, memset m dest c count)
  else memset_s m dest destMax c count.

(** [known_count] and [known_max] are __builtin_constant_p of the arguments. *)
Definition memcpy_sp (known_count known_max : bool) (m : mem) (dest destMax src count : Z)
    : option (Z * mem) :=
  if known_count then SECUREC_MEMCPY_SM m dest destMax src count
  else if known_max then
    if (destMax >? 0) && (without_low_bit destMax <? SECUREC_MEM_MAX_LEN)
    then Some (memcpy_sOptTc m dest destMax src count) else Some (ERANGE, m)
  else Some (memcpy_sOptAsm m dest destMax src count).

Definition memset_sp (known_count known_max : bool) (m : mem) (dest destMax c count : Z) : Z * mem :=
  if known_count then SECUREC_MEMSET_SM m dest destMax c count
  else if known_max then
    if (destMax >? 0) && (without_low_bit destMax <? SECUREC_MEM_MAX_LEN)
    then memset_sOptTc m dest destMax c count else (ERANGE, m)
  else memset_sOptAsm m dest destMax c count.

(** ** Lengths: properties *)
Lemma strnlen_range m str n : 0 <= strnlen m str n <= Z.of_nat n.
Proof.
  revert str. induction n as [|n IH]; intros str; cbn [strnlen]; [lia|].
  case_match; [lia|]. specialize (IH (str + 1)). lia.
Qed.

Lemma str_loop_eq m str n : str_loop m str n = str + strnlen m str n.
Proof.
  revert str. induction n as [|n IH]; intros str; cbn [str_loop strnlen]; [lia|].
  destruct (m str =? 0); cbn [negb]; [lia|]. rewrite IH. lia.
Qed.

Lemma wstr_loop_eq m a k n : wstr_loop m a k n = k + wstr_loop m a 0 n.
Proof.
  revert a k. induction n as [|n IH]; intros a k; cbn [wstr_loop]; [lia|].
  destruct (negb _); [|lia]. rewrite IH, (IH _ (0 + 1)). lia.
Qed.

(** The bytes before the end are not zero, and the length stops at the first
    zero or at the maximum. *)
Lemma strnlen_spec m str n :
  let len := strnlen m str n in
  (forall i, 0 <= i < len -> m (str + i) <> 0) /\ (len < Z.of_nat n -> m (str + len) = 0).
Proof.
  revert str. induction n as [|n IH]; intros str; cbn [strnlen]; [split; intros; lia|].
  destruct (Z.eqb_spec (m str) 0) as [E|E].
  - split; [intros; lia|]. intros _. by rewrite Z.add_0_r.
  - destruct (IH (str + 1)) as [H1 H2]. split.
    + intros i Hi. destruct (decide (i = 0)) as [->|]; [by rewrite Z.add_0_r|].
      replace (str + i) with (str + 1 + (i - 1)) by lia. apply H1. lia.
    + intros Hl. replace (str + (1 + strnlen m (str + 1) n)) with (str + 1 + strnlen m (str + 1) n) by lia.
      apply H2. lia.
Qed.

(** Only the bytes up to the terminating zero and below the maximum are read. *)
Lemma strnlen_local m m' str n :
  (forall i, 0 <= i < Z.of_nat n -> i <= strnlen m str n -> m' (str + i) = m (str + i)) ->
  strnlen m' str n = strnlen m str n.
Proof.
  revert str. induction n as [|n IH]; intros str Hag; [done|]. cbn [strnlen] in *.
  pose proof (strnlen_range m (str + 1) n) as Hr.
  pose proof (Hag 0) as H0. rewrite Z.add_0_r in H0.
  rewrite H0 by (destruct (m str =? 0); lia). destruct (m str =? 0); [done|]. f_equal. apply IH.
  intros i Hi Hle. replace (str + 1 + i) with (str + (i + 1)) by lia. apply Hag; lia.
Qed.

Lemma strnlen_S m str n :
  strnlen m str (S n) = if m str =? 0 then 0 else 1 + strnlen m (str + 1) n.
Proof. done. Qed.

Lemma CALC_STR_LEN_eq have_strnlen m str maxLen :
  SECUREC_CALC_STR_LEN have_strnlen m str maxLen = strnlen m str (Z.to_nat maxLen).
Proof. unfold SECUREC_CALC_STR_LEN. destruct have_strnlen; [done|]. rewrite str_loop_eq. lia. Qed.

Lemma CALC_STR_LEN_OPT_eq have_strnlen m str maxLen :
  SECUREC_CALC_STR_LEN_OPT have_strnlen m str maxLen = strnlen m str (Z.to_nat maxLen).
Proof.
  unfold SECUREC_CALC_STR_LEN_OPT. rewrite CALC_STR_LEN_eq. destruct have_strnlen; [|done].
  destruct (Z.gtb_spec maxLen 8) as [Hm|Hm]; [|done].
  replace (Z.to_nat maxLen) with (8 + Z.to_nat (maxLen - 8))%nat by lia.
  assert (0 < Z.to_nat (maxLen - 8))%nat as Hk by lia.
  destruct (Z.to_nat (maxLen - 8)) as [|k]; [lia|]. cbn [Nat.add].
  rewrite Z.add_0_r. do 10 rewrite strnlen_S.
  rewrite <- !Z.add_assoc.
  repeat match goal with
  | |- context [str + (?a + ?b)] =>
    let v := eval vm_compute in (a + b) in change (str + (a + b)) with (str + v)
  end.
  repeat (match goal with |- context [m ?a =? 0] => destruct (m a =? 0) end; [done|]); lia.
Qed.

(** The three ways to measure a string agree.  With strnlen, with the loop
    that replaces it and with the unrolled variant for short strings, the length
    is that of the bytes before the first zero, at most the maximum; and none of
    them depends on a byte after that zero or at the maximum and beyond. *)
Theorem str_len_variants_agree have_strnlen m str maxLen :
  let len := SECUREC_CALC_STR_LEN have_strnlen m str maxLen in
  0 <= maxLen ->
  SECUREC_CALC_STR_LEN_OPT have_strnlen m str maxLen = len /\
  SECUREC_CALC_STR_LEN (negb have_strnlen) m str maxLen = len /\
  0 <= len <= maxLen /\ (forall i, 0 <= i < len -> m (str + i) <> 0) /\
  (len < maxLen -> m (str + len) = 0) /\
  forall m', (forall i, 0 <= i < maxLen -> i <= len -> m' (str + i) = m (str + i)) ->
    SECUREC_CALC_STR_LEN_OPT have_strnlen m' str maxLen = len.
Proof.
  cbv zeta. intros Hm. rewrite !CALC_STR_LEN_eq, !CALC_STR_LEN_OPT_eq.
  pose proof (strnlen_range m str (Z.to_nat maxLen)) as Hr.
  destruct (strnlen_spec m str (Z.to_nat maxLen)) as [H1 H2].
  rewrite Z2Nat.id in Hr, H2 by done.
  split; [done|]. split; [done|]. split; [done|]. split; [done|]. split; [done|].
  intros m' Hag. rewrite CALC_STR_LEN_OPT_eq. apply strnlen_local. by rewrite Z2Nat.id.
Qed.

Lemma str_len_variants_agree_witness :
  SECUREC_CALC_STR_LEN_OPT true (fun a => if a <? 1011 then 65 else 0) 1000 20 =
  SECUREC_CALC_STR_LEN true (fun a => if a <? 1011 then 65 else 0) 1000 20 /\
  SECUREC_CALC_STR_LEN true (fun a => if a <? 1011 then 65 else 0) 1000 20 = 11.
Proof.
  split; [|reflexivity].
  destruct (str_len_variants_agree true (fun a => if a <? 1011 then 65 else 0) 1000 20) as [H _];
    [lia|exact H].
Defined.

(** ** Strings in memory *)

(** The string [s] and its terminating zero are at [a]. *)
Definition str_at (m : mem) (a : Z) (s : list Z) : Prop :=
  Forall (fun c => c <> 0) s /\ (forall i c, s !! i = Some c -> m (a + Z.of_nat i) = c) /\
  m (a + zlen s) = 0.

Lemma str_at_cons m a c s : str_at m a (c :: s) -> m a = c /\ c <> 0 /\ str_at m (a + 1) s.
Proof.
  intros (H1 & H2 & H3). apply Forall_cons in H1 as [Hc H1].
  split; [|split; [done|]].
  - rewrite <- (H2 0%nat c eq_refl). f_equal. lia.
  - split; [done|]. split.
    + intros i d Hi. rewrite <- (H2 (S i) d Hi). f_equal. lia.
    + rewrite zlen_cons in H3. rewrite <- H3. f_equal. lia.
Qed.

Lemma str_at_nil m a : str_at m a [] -> m a = 0.
Proof. intros (_ & _ & H). by rewrite zlen_nil, Z.add_0_r in H. Qed.

Lemma strlen_str fuel m a s : str_at m a s -> (length s < fuel)%nat -> strlen fuel m a = Some (zlen s).
Proof.
  revert a fuel. induction s as [|c s IH]; intros a fuel Hs Hf; (destruct fuel as [|fuel]; [cbn in Hf; lia|]);
    cbn [strlen].
  - by rewrite (str_at_nil _ _ Hs).
  - apply str_at_cons in Hs as (-> & Hc & Hs). rewrite (proj2 (Z.eqb_neq c 0)) by done.
    rewrite (IH _ fuel Hs) by (cbn in Hf; lia). cbn. f_equal. rewrite zlen_cons. lia.
Qed.

Lemma cat_scan_str m a s k :
  str_at m a s -> (length s < k)%nat -> cat_scan m a k = (a + zlen s, Z.of_nat k - zlen s).
Proof.
  revert a k. induction s as [|c s IH]; intros a k Hs Hk; (destruct k as [|k]; [cbn in Hk; lia|]);
    cbn [cat_scan].
  - rewrite (str_at_nil _ _ Hs). cbn [Z.eqb negb]. rewrite zlen_nil. f_equal; lia.
  - apply str_at_cons in Hs as (-> & Hc & Hs). rewrite (proj2 (Z.eqb_neq c 0)) by done. cbn [negb].
    rewrite IH by (done || (cbn in Hk; lia)). rewrite zlen_cons. f_equal; lia.
Qed.

(** [s] is written at [a] and nothing outside its bytes changes. *)
Definition writes_str (m m' : mem) (a : Z) (s : list Z) : Prop :=
  str_at m' a s /\ forall x, x < a \/ a + zlen s < x -> m' x = m x.

Lemma copy_whole m dest src s :
  str_at m src s -> writes_str m (memcpy m dest src (zlen s + 1)) dest s.
Proof.
  intros (H1 & H2 & H3). pose proof (zlen_nonneg s) as Hp. split; [split; [done|split]|].
  - intros i c Hi. rewrite memmove_at; [by apply H2|]. apply lookup_lt_Some in Hi. unfold zlen. lia.
  - rewrite memmove_at by lia. done.
  - intros x Hx. apply memmove_out. lia.
Qed.

Lemma copy_prefix m dest src s n :
  str_at m src s -> 0 <= n < zlen s ->
  writes_str m (store (memcpy m dest src n) (dest + n) 0) dest (ztake n s).
Proof.
  intros (H1 & H2 & H3) Hn. assert (zlen (ztake n s) = n) as Hl by (apply zlen_ztake; lia).
  split; [split; [|split]|].
  - by apply Forall_take.
  - intros i c Hi. unfold store. apply lookup_take_Some in Hi as [Hi Hlt].
    destruct (Z.eqb_spec (dest + Z.of_nat i) (dest + n)); [lia|].
    rewrite memmove_at by lia. by apply H2.
  - rewrite Hl. unfold store. by rewrite Z.eqb_refl.
  - rewrite Hl. intros x Hx. unfold store. destruct (Z.eqb_spec x (dest + n)); [lia|].
    apply memmove_out. lia.
Qed.

Lemma without_low_bit_eq x : in_u 64 x -> without_low_bit x = 2 * (x / 2).
Proof.
  intros [H0 H1]. unfold without_low_bit.
  change (2 ^ 64 - 2) with (Z.shiftl (Z.ones 63) 1).
  assert (Z.land x (Z.shiftl (Z.ones 63) 1) = Z.shiftl (Z.land (Z.shiftr x 1) (Z.ones 63)) 1) as ->.
  { apply Z.bits_inj'. intros k Hk. rewrite Z.land_spec, !Z.shiftl_spec by done.
    destruct (decide (k = 0)) as [->|].
    { change (0 - 1) with (-1). by rewrite !(Z.testbit_neg_r _ (-1)), andb_false_r by lia. }
    rewrite Z.land_spec, Z.shiftr_spec by lia. by rewrite Z.sub_add. }
  rewrite Z.land_ones by lia. rewrite Z.shiftl_mul_pow2, Z.shiftr_div_pow2 by lia.
  change (2 ^ 1) with 2. rewrite Z.mod_small; [lia|].
  split; [apply Z.div_pos; lia|]. apply Z.div_lt_upper_bound; lia.
Qed.

(** The tests with the low bit cleared are the tests without. *)
Lemma below_max x : in_u 64 x -> (without_low_bit x <? 2147483647) = (x <=? 2147483647).
Proof.
  intros Hx. rewrite without_low_bit_eq by done.
  pose proof (Z.div_mod x 2 ltac:(lia)). pose proof (Z.mod_pos_bound x 2 ltac:(lia)).
  destruct (Z.ltb_spec (2 * (x / 2)) 2147483647), (Z.leb_spec x 2147483647);
    first [done | exfalso; lia].
Qed.
Lemma above_max x : in_u 64 x -> (without_low_bit x >? 2147483647) = (x >? 2147483647).
Proof.
  intros Hx. rewrite without_low_bit_eq by done.
  pose proof (Z.div_mod x 2 ltac:(lia)). pose proof (Z.mod_pos_bound x 2 ltac:(lia)).
  destruct (Z.gtb_spec (2 * (x / 2)) 2147483647), (Z.gtb_spec x 2147483647);
    first [done | exfalso; lia].
Qed.

(** ** The string macros *)
Section strings.
Context (fuel : nat).
Context (strcpy_error strcat_s : mem -> Z -> Z -> Z -> Z * mem)
        (strncpy_error strncat_s : mem -> Z -> Z -> Z -> Z -> Z * mem).

(** Two blocks of [n] bytes with nothing in common. *)
Definition apart (dest src n : Z) : Prop := dest + n <= src \/ src + n <= dest.

Lemma memcpy_c_apart m dest src n :
  0 <= n -> apart dest src n -> memcpy_c m dest src n = Some (memcpy m dest src n).
Proof.
  intros Hn Ha. unfold memcpy_c, SECUREC_MEMORY_NO_OVERLAP.
  destruct (Z.eqb_spec n 0); [done|]. unfold apart in Ha.
  replace (((src <? dest) && (src + n <=? dest)) || ((dest <? src) && (dest + n <=? src))) with true; [done|].
  symmetry. apply orb_true_iff. rewrite !andb_true_iff, !Z.ltb_lt, !Z.leb_le. lia.
Qed.

(** What the arguments of the macros are: pointers, sizes, a string that the
    fuel reaches the end of. *)
Record args_ok (m : mem) (dest destMax src : Z) (s : list Z) : Prop := mkArgs {
  args_dest : dest <> NULL;
  args_src : src <> NULL;
  args_max : 0 < destMax <= SECUREC_STRING_MAX_LEN;
  args_str : str_at m src s;
  args_fuel : (length s < fuel)%nat;
  args_len : zlen s < 2 ^ 63;
}.

Lemma guard_ok m dest destMax src s :
  args_ok m dest destMax src s ->
  negb (dest =? NULL) && negb (src =? NULL) && (destMax >? 0) &&
  (without_low_bit destMax <? SECUREC_STRING_MAX_LEN) = true.
Proof.
  intros [Hd Hs Hm _ _ _]. unfold SECUREC_STRING_MAX_LEN in *. rewrite below_max by (unfold in_u; lia).
  rewrite !andb_true_iff, !negb_true_iff, !Z.eqb_neq, Z.gtb_lt, Z.leb_le. lia.
Qed.

(** The copy of at most [count] bytes that SECUREC_STRNCPY_SM and
    SECUREC_STRNCAT_SM make at [a]. *)
Definition bounded_copy (m : mem) (a src count len : Z) : option (Z * mem) :=
  if count <? len
  then m1 ← memcpy_c m a src count; Some (EOK, store m1 (a + count) 0)
  else m1 ← memcpy_c m a src (len + 1); Some (EOK, m1).

Lemma bounded_copy_writes m a src count s :
  str_at m src s -> 0 <= count -> apart a src (zlen s + 1) ->
  exists m', bounded_copy m a src count (zlen s) = Some (EOK, m') /\ writes_str m m' a (ztake count s).
Proof.
  intros Hs Hc Ha. pose proof (zlen_nonneg s) as Hp. unfold bounded_copy.
  destruct (Z.ltb_spec count (zlen s)) as [Hlt|Hge].
  - rewrite memcpy_c_apart by (unfold apart in *; lia). eexists. split; [reflexivity|]. by apply copy_prefix.
  - rewrite memcpy_c_apart by (done || lia). eexists. split; [reflexivity|].
    rewrite ztake_all by done. by apply copy_whole.
Qed.

Lemma two_min count (s : list Z) : 0 <= count -> SECUREC_TWO_MIN count (zlen s) = zlen (ztake count s).
Proof.
  intros Hc. unfold SECUREC_TWO_MIN. pose proof (zlen_nonneg s).
  destruct (Z.ltb_spec count (zlen s)); [rewrite zlen_ztake by lia; done|]. by rewrite ztake_all.
Qed.

Lemma zlen_ztake_le count (s : list Z) : zlen (ztake count s) <= zlen s.
Proof. unfold zlen, ztake. rewrite length_take. lia. Qed.

(** SECUREC_STRNCPY_SM: the first [count] characters with a terminating zero, or
    the error function when they do not fit. *)
Lemma STRNCPY_SM_cases m dest destMax src count s :
  args_ok m dest destMax src s -> in_u 64 count -> apart dest src (zlen s + 1) ->
  if zlen (ztake count s) + 1 <=? destMax
  then exists m', SECUREC_STRNCPY_SM fuel strncpy_error m dest destMax src count = Some (EOK, m') /\
         writes_str m m' dest (ztake count s)
  else SECUREC_STRNCPY_SM fuel strncpy_error m dest destMax src count =
         Some (strncpy_error m dest destMax src count).
Proof.
  intros Hok [Hc _] Ha. unfold SECUREC_STRNCPY_SM. rewrite (guard_ok _ _ _ _ _ Hok).
  destruct Hok as [_ _ _ Hs Hf Hl]. rewrite (strlen_str _ _ _ _ Hs Hf). cbn [mbind option_bind].
  rewrite two_min by done. pose proof (zlen_ztake_le count s). pose proof (zlen_nonneg (ztake count s)).
  rewrite uwrap_small by (unfold in_u; lia).
  destruct (Z.leb_spec (zlen (ztake count s) + 1) destMax); [|done].
  by apply bounded_copy_writes.
Qed.

(** SECUREC_STRCPY_SM. *)
Lemma STRCPY_SM_cases m dest destMax src s :
  args_ok m dest destMax src s -> apart dest src (zlen s + 1) ->
  if zlen s + 1 <=? destMax
  then exists m', SECUREC_STRCPY_SM fuel strcpy_error m dest destMax src = Some (EOK, m') /\
         writes_str m m' dest s
  else SECUREC_STRCPY_SM fuel strcpy_error m dest destMax src = Some (strcpy_error m dest destMax src).
Proof.
  intros Hok Ha. unfold SECUREC_STRCPY_SM. rewrite (guard_ok _ _ _ _ _ Hok).
  destruct Hok as [_ _ _ Hs Hf Hl]. rewrite (strlen_str _ _ _ _ Hs Hf). cbn [mbind option_bind].
  pose proof (zlen_nonneg s). rewrite uwrap_small by (unfold in_u; lia).
  destruct (Z.leb_spec (zlen s + 1) destMax); [|done].
  rewrite memcpy_c_apart by (done || lia). eexists. split; [reflexivity|]. by apply copy_whole.
Qed.

Lemma str_at_append m m' a t u :
  str_at m a t -> writes_str m m' (a + zlen t) u -> str_at m' a (t ++ u).
Proof.
  intros (T1 & T2 & T3) [(U1 & U2 & U3) Hout]. split; [by apply Forall_app|]. split.
  - intros i c [Hi|[Hge Hi]]%lookup_app_Some.
    + rewrite Hout; [by apply T2|]. apply lookup_lt_Some in Hi. unfold zlen. lia.
    + rewrite <- (U2 _ _ Hi). f_equal. unfold zlen. lia.
  - rewrite zlen_app. rewrite <- U3. f_equal. lia.
Qed.

(** SECUREC_STRNCAT_SM appends.  When the string at the destination, the first
    [count] characters of the source and a zero fit into the size given, the
    macro returns EOK, the destination holds the two strings one after the other
    with a terminating zero, and no byte outside them has changed.  When they do
    not fit, nothing has been written and the result is that of strncat_s. *)
Theorem STRNCAT_SM_appends m dest destMax src count t s :
  args_ok m dest destMax src s -> str_at m dest t -> zlen t < destMax ->
  0 <= count <= SECUREC_STRING_MAX_LEN -> apart (dest + zlen t) src (zlen s + 1) ->
  if zlen (t ++ ztake count s) + 1 <=? destMax
  then exists m', SECUREC_STRNCAT_SM fuel strncat_s m dest destMax src count = Some (EOK, m') /\
         writes_str m m' dest (t ++ ztake count s)
  else SECUREC_STRNCAT_SM fuel strncat_s m dest destMax src count =
         Some (strncat_s m dest destMax src count).
Proof.
  intros Hok Ht Htl Hc Ha. unfold SECUREC_STRNCAT_SM. rewrite (guard_ok _ _ _ _ _ Hok). cbn [andb].
  unfold SECUREC_STRING_MAX_LEN in Hc |- *. rewrite below_max by (unfold in_u; lia).
  rewrite (proj2 (Z.leb_le count _)) by lia.
  destruct Hok as [_ _ Hm Hs Hf Hl]. pose proof (zlen_nonneg t) as Hp.
  rewrite (cat_scan_str _ _ _ _ Ht) by (unfold zlen in Htl; lia). rewrite Z2Nat.id by lia.
  rewrite (proj2 (Z.eqb_neq _ 0)) by lia. rewrite (strlen_str _ _ _ _ Hs Hf). cbn [mbind option_bind].
  rewrite two_min by lia. pose proof (zlen_ztake_le count s). pose proof (zlen_nonneg (ztake count s)).
  rewrite uwrap_small by (unfold in_u; lia). rewrite zlen_app.
  destruct (Z.leb_spec (zlen (ztake count s) + 1) (destMax - zlen t)) as [Hfit|Hfit];
    [rewrite (proj2 (Z.leb_le _ _)) by lia | rewrite (proj2 (Z.leb_gt _ _)) by lia; done].
  destruct (bounded_copy_writes m (dest + zlen t) src count s Hs) as (m' & E & Hw); [lia|done|].
  unfold bounded_copy in E. exists m'. split.
  - destruct (count <? zlen s); (destruct (memcpy_c _ _ _ _); [|discriminate E]);
      injection E as <-; reflexivity.
  - split; [by eapply str_at_append|]. destruct Hw as [_ Hout]. intros x Hx. apply Hout.
    rewrite zlen_app in Hx. lia.
Qed.

(** SECUREC_STRCAT_SM is SECUREC_STRNCAT_SM without a bound. *)
Lemma STRCAT_SM_appends m dest destMax src t s :
  args_ok m dest destMax src s -> str_at m dest t -> zlen t < destMax ->
  apart (dest + zlen t) src (zlen s + 1) ->
  if zlen (t ++ s) + 1 <=? destMax
  then exists m', SECUREC_STRCAT_SM fuel strcat_s m dest destMax src = Some (EOK, m') /\
         writes_str m m' dest (t ++ s)
  else SECUREC_STRCAT_SM fuel strcat_s m dest destMax src = Some (strcat_s m dest destMax src).
Proof.
  intros Hok Ht Htl Ha. unfold SECUREC_STRCAT_SM. rewrite (guard_ok _ _ _ _ _ Hok).
  destruct Hok as [_ _ Hm Hs Hf Hl]. pose proof (zlen_nonneg t) as Hp. pose proof (zlen_nonneg s) as Hq.
  rewrite (cat_scan_str _ _ _ _ Ht) by (unfold zlen in Htl; lia). rewrite Z2Nat.id by lia.
  rewrite (proj2 (Z.eqb_neq _ 0)) by lia. rewrite (strlen_str _ _ _ _ Hs Hf). cbn [mbind option_bind].
  rewrite uwrap_small by (unfold in_u; lia). rewrite zlen_app.
  destruct (Z.leb_spec (zlen s + 1) (destMax - zlen t)) as [Hfit|Hfit];
    [rewrite (proj2 (Z.leb_le _ _)) by lia | rewrite (proj2 (Z.leb_gt _ _)) by lia; done].
  rewrite memcpy_c_apart by (done || lia). eexists. split; [reflexivity|].
  pose proof (copy_whole m (dest + zlen t) src s Hs) as Hw.
  split; [by eapply str_at_append|]. destruct Hw as [_ Hout]. intros x Hx. apply Hout.
  rewrite zlen_app in Hx. lia.
Qed.

(** A destination with no zero in its size is left to strcat_s. *)
Lemma cat_scan_none m a k : (forall i, 0 <= i < Z.of_nat k -> m (a + i) <> 0) -> (cat_scan m a k).2 = 0.
Proof.
  revert a. induction k as [|k IH]; intros a Hn; cbn [cat_scan]; [done|].
  rewrite (proj2 (Z.eqb_neq (m a) 0)); [|rewrite <- (Z.add_0_r a); apply Hn; lia].
  cbn [negb]. apply IH. intros i Hi. replace (a + 1 + i) with (a + (i + 1)) by lia. apply Hn. lia.
Qed.
End strings.

(** ab at 100, cdef at 200. *)
Definition example_mem : mem := fun a =>
  if a =? 100 then 97 else if a =? 101 then 98 else
  if in_block 200 4 a then a - 200 + 99 else 0.

Lemma STRNCAT_SM_appends_witness :
  exists m', SECUREC_STRNCAT_SM 10 (fun m _ _ _ _ => (ERANGE, m)) example_mem 100 8 200 3 = Some (EOK, m') /\
    writes_str example_mem m' 100 [97; 98; 99; 100; 101].
Proof.
  assert (str_at example_mem 100 [97; 98]) as Ht.
  { split; [by repeat constructor|]. split; [|done]. intros [|[|i]] c; intros [= <-]; done. }
  assert (args_ok 10 example_mem 100 8 200 [99; 100; 101; 102]) as Hok.
  { constructor; [done|done|done| |cbn; lia|done].
    split; [by repeat constructor|]. split; [|done]. intros [|[|[|[|i]]]] c; intros [= <-]; done. }
  apply (STRNCAT_SM_appends 10 (fun m _ _ _ _ => (ERANGE, m)) example_mem 100 8 200 3
    [97; 98] [99; 100; 101; 102] Hok Ht); [done|done|]. left. vm_compute. discriminate.
Defined.

(** ** The macros for blocks *)
Lemma memcpy_SM_eq m dest destMax src count :
  in_u 64 destMax -> 0 <= count -> 0 <= dest -> 0 <= src -> apart dest src count ->
  exists r, SECUREC_MEMCPY_SM m dest destMax src count = Some r /\ r ≡ᵣ memcpy_s m dest destMax src count.
Proof.
  intros Hm Hc Hd Hs Ha. unfold SECUREC_MEMCPY_SM, SECUREC_MEM_MAX_LEN. rewrite above_max by done.
  destruct ((destMax =? 0) || _ || _ || _ || _) eqn:E; cbn [negb]; [by eexists|].
  rewrite memcpy_c_apart by done. eexists. split; [reflexivity|].
  rewrite !orb_false_iff, !Z.eqb_neq in E. rewrite !Z.gtb_ltb, !Z.ltb_ge in E. unfold NULL in E.
  destruct Hm. unfold apart in Ha.
  rewrite memcpy_s_disjoint; [done|lia|unfold SECUREC_MEM_MAX_LEN; lia|lia|lia|lia].
Qed.

(** C35: The macros memcpy_sp and memset_sp do what memcpy_s and memset_s do,
    whichever of the arguments the compiler knows, with two exceptions: memcpy_sp
    of a constant length does not test for overlap, so that the blocks must be
    apart, and memset_sp of a constant size of 0 refuses an empty request, which
    memset_s accepts. *)
Theorem sp_macros_agree known_count known_max m dest destMax src c count :
  in_u 64 destMax -> in_u 64 count -> 0 <= dest -> 0 <= src -> apart dest src count ->
  (exists r, memcpy_sp known_count known_max m dest destMax src count = Some r /\
     r ≡ᵣ memcpy_s m dest destMax src count) /\
  (destMax <> 0 -> memset_sp known_count known_max m dest destMax c count ≡ᵣ
                   memset_s m dest destMax c count).
Proof.
  intros Hm [Hc _] Hd Hs Ha. destruct (memset_s_correct m dest destMax c count) as (Hset & Hasm & Htc);
    [by destruct Hm|done|]. unfold memcpy_sp, memset_sp. split.
  - destruct known_count; [by apply memcpy_SM_eq|]. destruct known_max.
    + unfold SECUREC_MEM_MAX_LEN. rewrite below_max by done.
      destruct ((destMax >? 0) && (destMax <=? 2147483647)) eqn:E.
      * eexists. split; [reflexivity|]. apply memcpy_sOptTc_eq. unfold SECUREC_MEM_MAX_LEN. lia.
      * eexists. split; [reflexivity|]. rewrite memcpy_s_range; [done|done|].
        destruct Hm. unfold SECUREC_MEM_MAX_LEN. lia.
    + eexists. split; [reflexivity|]. apply memcpy_sOptAsm_eq.
  - intros Hz. destruct Hm as [Hm0 Hm1]. destruct known_count; [|destruct known_max].
    + unfold SECUREC_MEMSET_SM, SECUREC_MEM_MAX_LEN. rewrite above_max by (unfold in_u; lia).
      destruct ((destMax =? 0) || _ || _ || _) eqn:E; cbn [negb]; [done|]. rewrite Hset.
      rewrite !orb_false_iff, !Z.eqb_neq in E. rewrite !Z.gtb_ltb, !Z.ltb_ge in E.
      unfold SECUREC_MEM_MAX_LEN. zcases; done || lia.
    + unfold SECUREC_MEM_MAX_LEN. rewrite below_max by (unfold in_u; lia).
      destruct ((destMax >? 0) && (destMax <=? 2147483647)) eqn:E; [apply Htc; unfold SECUREC_MEM_MAX_LEN; lia|].
      rewrite Hset. unfold SECUREC_MEM_MAX_LEN. zcases; done || lia.
    + apply Hasm.
Qed.

Lemma sp_macros_agree_witness :
  exists r, memcpy_sp true false (fun a => a mod 256) 100 8 200 5 = Some r /\
    r ≡ᵣ memcpy_s (fun a => a mod 256) 100 8 200 5.
Proof.
  destruct (sp_macros_agree true false (fun a => a mod 256) 100 8 200 0 5) as [H _];
    [by split|by split|lia|lia|by left|exact H].
Defined.

(** Where they differ. *)
Lemma memset_sp_zero_destMax m dest c :
  0 < dest -> memset_sp false true m dest 0 c 0 = (ERANGE, m) /\ (memset_s m dest 0 c 0).1 = EOK.
Proof.
  intros Hd. split; [reflexivity|]. unfold memset_s, SECUREC_MEMSET_PARAM_OK, NULL.
  rewrite (proj2 (Z.eqb_neq dest 0)) by lia. reflexivity.
Qed.
Lemma memcpy_sp_overlap m : memcpy_sp true false m 100 8 104 5 = None /\
  (memcpy_s m 100 8 104 5).1 = EOVERLAP_AND_RESET.
Proof. by split. Qed.

(** ** The tests for overlap *)

(** The tests for two different addresses: blocks of [count] bytes, strings of
    [len] bytes and a zero, and a string that is appended to another. *)
Lemma overlap_tests dest src count :
  dest <> src -> 0 < count ->
  SECUREC_MEMORY_IS_OVERLAP dest src count = negb (SECUREC_MEMORY_NO_OVERLAP dest src count) /\
  (SECUREC_MEMORY_IS_OVERLAP dest src count = true <-> exists a, dest <= a < dest + count /\ src <= a < src + count).
Proof.
  intros Hne Hc. split.
  - unfold SECUREC_MEMORY_IS_OVERLAP, SECUREC_MEMORY_NO_OVERLAP. zcases; done || lia.
  - unfold SECUREC_MEMORY_IS_OVERLAP. rewrite orb_true_iff, !andb_true_iff, !Z.ltb_lt, !Z.gtb_lt. split.
    + intros H. exists (Z.max dest src). lia.
    + intros (a & H1 & H2). lia.
Qed.

Lemma string_overlap_tests dest src len :
  dest <> src -> 0 <= len ->
  SECUREC_STRING_IS_OVERLAP dest src len = SECUREC_MEMORY_IS_OVERLAP dest src (len + 1) /\
  SECUREC_STRING_IS_OVERLAP dest src len = negb (SECUREC_STRING_NO_OVERLAP dest src len).
Proof.
  intros Hne Hl. unfold SECUREC_STRING_IS_OVERLAP, SECUREC_MEMORY_IS_OVERLAP, SECUREC_STRING_NO_OVERLAP.
  split; zcases; done || lia.
Qed.

Lemma cat_overlap_test dest destLen src srcLen :
  dest <> src -> 0 <= destLen -> 0 <= srcLen ->
  SECUREC_CAT_STRING_IS_OVERLAP dest destLen src srcLen = true <->
  exists a, dest <= a <= dest + destLen + srcLen /\ src <= a <= src + srcLen.
Proof.
  intros Hne Hd Hs. unfold SECUREC_CAT_STRING_IS_OVERLAP.
  rewrite orb_true_iff, !andb_true_iff, !Z.ltb_lt, !Z.geb_le. split.
  - intros H. exists (Z.max dest src). lia.
  - intros (a & H1 & H2). lia.
Qed.

(** The multiplications are what they are called, and a width that passes the
    test can be multiplied by ten and a digit added without overflow. *)
Lemma mul_macros x :
  SECUREC_MUL_SIXTEEN x = 16 * x /\ SECUREC_MUL_EIGHT x = 8 * x /\ SECUREC_MUL_TEN x = 10 * x.
Proof.
  unfold SECUREC_MUL_SIXTEEN, SECUREC_MUL_EIGHT, SECUREC_MUL_TEN.
  rewrite !Z.shiftl_mul_pow2 by lia. lia.
Qed.

Lemma width_fits x d :
  0 <= x -> 0 <= d <= 9 -> SECUREC_MUL_TEN_ADD_BEYOND_MAX x = false ->
  SECUREC_MUL_TEN x + d <= SECUREC_MAX_WIDTH_LEN + 9 <= SECUREC_INT_MAX.
Proof.
  unfold SECUREC_MUL_TEN_ADD_BEYOND_MAX, SECUREC_MAX_WIDTH_LEN. intros Hx Hd Hb.
  rewrite Z.gtb_ltb, Z.ltb_ge in Hb. destruct (mul_macros x) as (_ & _ & ->).
  destruct (mul_macros SECUREC_MAX_WIDTH_LEN_DIV_TEN) as (_ & _ & ->).
  unfold SECUREC_MAX_WIDTH_LEN_DIV_TEN, SECUREC_INT_MAX in *. lia.
Qed.

(** ** Assignment of structures *)
Lemma store_all_out m a l x : x < a \/ a + zlen l <= x -> store_all m a l x = m x.
Proof.
  revert m a. induction l as [|b l IH]; intros m a Hx; cbn [store_all]; [done|].
  rewrite zlen_cons in Hx. pose proof (zlen_nonneg l). rewrite IH by lia.
  unfold store. destruct (Z.eqb_spec x a); [lia|done].
Qed.

Lemma store_all_load m dest src n :
  (forall i, 0 <= i < Z.of_nat n -> store_all m dest (load m src n) (dest + i) = m (src + i)).
Proof.
  assert (forall m' d s k, (forall i, 0 <= i < Z.of_nat k ->
    store_all m' d (load m s k) (d + i) = m (s + i))) as H; [|apply H].
  intros m' d s k. revert m' d s. induction k as [|k IH]; intros m' d s i Hi; [lia|]. cbn [load store_all].
  destruct (decide (i = 0)) as [->|Hne].
  - rewrite store_all_out by lia. unfold store. rewrite Z.add_0_r, Z.eqb_refl, Z.add_0_r. done.
  - replace (d + i) with (d + 1 + (i - 1)) by lia. rewrite IH by lia. f_equal. lia.
Qed.

(** The assignment of a structure is a copy of its bytes, also onto itself or
    onto a block that overlaps, because the structure is read first. *)
Lemma SecStrBuf_assign_eq n m dest src :
  SecStrBuf_assign m dest (SecStrBuf_read n m src) ≡ₘ memmove m dest src (Z.of_nat n).
Proof.
  intros a. unfold SecStrBuf_assign, SecStrBuf_read. cbn [buf]. unfold memmove.
  destruct (in_block_spec dest (Z.of_nat n) a) as [Hin|Hout].
  - replace a with (dest + (a - dest)) at 1 by lia. apply store_all_load. lia.
  - apply store_all_out. unfold zlen. rewrite length_load. lia.
Qed.

(** ** The version *)
Lemma version_number m a :
  0 < a -> let m' := (GetHwSecureCVersion m a).2 in le_val [m' a; m' (a + 1)] = 1287 (* 0x507 *).
Proof.
  intros Ha. unfold GetHwSecureCVersion. rewrite (proj2 (Z.eqb_neq a NULL)) by (unfold NULL; lia). cbn [negb snd].
  change (le_bytes 2 _) with [7; 5]. cbn [store_all]. unfold store.
  rewrite Z.eqb_refl, (proj2 (Z.eqb_neq a (a + 1))) by lia. rewrite !Z.eqb_refl. reflexivity.
Qed.
