(* ===== verification/Messages.v ===== *)
(** * Messages

    The messages the nodes exchange: src/even-http/ps/core/protos/comm.proto
    (one record per message, proto3 defaults as in the generated classes),
    the frame header of src/even-http/ps/core/message.h and [NodeInfo] of
    node_info.h.  The generated protobuf code is a type class. *)
From S2P Require Import Prelude.

(** ** comm.proto *)
Inductive NodeCommand : Set :=
| TERMINATE | REGISTER | HEARTBEAT | SEND_DATA | FETCH_SERVER | FINISH | COLLECTIVE_SEND_DATA.

Inductive NodeRole : Set := SERVER | WORKER | SCHEDULER.

Inductive NodeAttribute : Set :=
| IS_CLUSTER_READY | IS_CLUSTER_FINISH | IS_CLUSTER_TIMEOUT | IS_NODE_TIMEOUT.

#[global] Instance NodeCommand_eq_dec : EqDecision NodeCommand.
Proof. solve_decision. Defined.
#[global] Instance NodeRole_eq_dec : EqDecision NodeRole.
Proof. solve_decision. Defined.
#[global] Instance NodeAttribute_eq_dec : EqDecision NodeAttribute.
Proof. solve_decision. Defined.

(** The numbers of the enumerators, which are also the keys of the
    [node_attribute] map. *)
Definition NodeCommand_num (c : NodeCommand) : Z :=
  match c with
  | TERMINATE => 0 | REGISTER => 1 | HEARTBEAT => 2 | SEND_DATA => 3
  | FETCH_SERVER => 4 | FINISH => 5 | COLLECTIVE_SEND_DATA => 6
  end.
Definition NodeRole_num (r : NodeRole) : Z :=
  match r with SERVER => 0 | WORKER => 1 | SCHEDULER => 2 end.
Definition NodeAttribute_num (a : NodeAttribute) : Z :=
  match a with
  | IS_CLUSTER_READY => 0 | IS_CLUSTER_FINISH => 1
  | IS_CLUSTER_TIMEOUT => 2 | IS_NODE_TIMEOUT => 3
  end.

Definition NodeRole_of_num (z : Z) : option NodeRole :=
  match z with 0 => Some SERVER | 1 => Some WORKER | 2 => Some SCHEDULER | _ => None end.

Definition NodeCommand_of_num (z : Z) : option NodeCommand :=
  match z with
  | 0 => Some TERMINATE | 1 => Some REGISTER | 2 => Some HEARTBEAT | 3 => Some SEND_DATA
  | 4 => Some FETCH_SERVER | 5 => Some FINISH | 6 => Some COLLECTIVE_SEND_DATA | _ => None
  end.

#[global] Instance NodeCommand_countable : Countable NodeCommand.
Proof.
  refine (inj_countable (fun r => Z.to_nat (NodeCommand_num r))
            (fun n => NodeCommand_of_num (Z.of_nat n)) _).
  by intros [].
Defined.

#[global] Instance NodeRole_countable : Countable NodeRole.
Proof.
  refine (inj_countable (fun r => Z.to_nat (NodeRole_num r))
            (fun n => NodeRole_of_num (Z.of_nat n)) _).
  by intros [].
Defined.

Record MessageMeta : Type := mkMessageMeta {
  cmd : NodeCommand;
  request_id : Z; (* uint64 *)
  role : NodeRole;
  rank_id : Z; (* int32 *)
  user_cmd : Z; (* int32 *)
}.
Definition MessageMeta_default : MessageMeta := mkMessageMeta TERMINATE 0 SERVER 0 0.

Record RegisterMessage : Type := mkRegisterMessage {
  reg_ip : string;
  reg_port : Z; (* int32 *)
  reg_node_id : string;
  reg_role : NodeRole;
}.

Record RegisterRespMessage : Type := mkRegisterRespMessage {
  rr_node_id : string;
  rr_rank_id : Z; (* int32 *)
}.

Record HeartbeatMessage : Type := mkHeartbeatMessage {
  hb_node_id : string;
  hb_is_node_finish : bool;
}.

Record HeartbeatRespMessage : Type := mkHeartbeatRespMessage {
  node_attribute : gmap Z bool;
}.

Record FetchServersMessage : Type := mkFetchServersMessage { fs_node_id : string }.

Record ServersMeta : Type := mkServersMeta {
  sm_rank_id : Z; (* int32 *)
  sm_ip : string;
  sm_port : Z; (* int32 *)
}.

Record FetchServersRespMessage : Type := mkFetchServersRespMessage {
  servers_meta : list ServersMeta;
}.

Record FinishMessage : Type := mkFinishMessage { fin_node_id : string }.

Record CommMessage : Type := mkCommMessage {
  pb_meta : MessageMeta;
  data : list Z;
}.

#[global] Instance MessageMeta_eq_dec : EqDecision MessageMeta.
Proof. solve_decision. Defined.
#[global] Instance ServersMeta_eq_dec : EqDecision ServersMeta.
Proof. solve_decision. Defined.

(** ** node_info.h *)
Record NodeInfo : Type := mkNodeInfo {
  ip_ : string;
  port_ : Z; (* uint16_t *)
  node_id_ : string;
  node_role_ : NodeRole;
  rank_id_ : Z; (* uint32_t *)
}.
Definition NodeInfo_default : NodeInfo := mkNodeInfo "" 0 "" SCHEDULER 0.

Inductive NodeEvent : Set := CLUSTER_TIMEOUT | NODE_TIMEOUT | SCHEDULER_TIMEOUT.

#[global] Instance NodeInfo_eq_dec : EqDecision NodeInfo.
Proof. solve_decision. Defined.

(** ** message.h *)
Inductive Protos : Set := RAW | PROTOBUF | FLATBUFFERS.
Definition Protos_num (p : Protos) : Z :=
  match p with RAW => 0 | PROTOBUF => 1 | FLATBUFFERS => 2 end.

(** The protocol field is read from the wire unchecked: any [uint32_t]. *)
Record MessageHeader : Type := mkMessageHeader {
  message_proto_ : Z; (* uint32_t *)
  message_meta_length_ : Z; (* uint32_t *)
  message_length_ : Z; (* uint64_t *)
}.
Definition MessageHeader_default : MessageHeader := mkMessageHeader (Protos_num RAW) 0 0.

(** The 16 bytes of the structure: no padding, little endian. *)
Definition header_bytes (h : MessageHeader) : list Z :=
  le_bytes 4 (message_proto_ h) ++ le_bytes 4 (message_meta_length_ h)
    ++ le_bytes 8 (message_length_ h).

(** The three reads at offsets 0, 4 and 8. *)
Definition read_header (b : list Z) : MessageHeader :=
  mkMessageHeader (le_val (ztake 4 b)) (le_val (ztake 4 (zdrop 4 b)))
    (le_val (ztake 8 (zdrop 8 b))).

Definition header_ok (h : MessageHeader) : Prop :=
  in_u 32 (message_proto_ h) /\ in_u 32 (message_meta_length_ h) /\ in_u 64 (message_length_ h).

Lemma zlen_header_bytes h : zlen (header_bytes h) = 16.
Proof. unfold header_bytes, zlen. by rewrite !length_app, !length_le_bytes. Qed.

Lemma read_header_bytes h : header_ok h -> read_header (header_bytes h) = h.
Proof.
  destruct h as [p m l]. unfold header_ok, read_header, header_bytes; cbn [message_proto_
    message_meta_length_ message_length_]. intros (Hp & Hm & Hl).
  assert (forall n z, zlen (le_bytes n z) = Z.of_nat n) as E.
  { intros. unfold zlen. by rewrite length_le_bytes. }
  rewrite (ztake_app_exact 4), (zdrop_app_exact 4), (ztake_app_exact 4) by apply E.
  rewrite app_assoc, (zdrop_app_exact 8), (ztake_all 8) by (rewrite ?zlen_app, !E; done).
  by rewrite !le_val_le_bytes_small.
Qed.

(** ** Generated code

    What the sources use of a generated message class. *)
Class Protobuf (A : Type) : Type := {
  SerializeAsString : A -> list Z;
  ByteSizeLong : A -> Z;
  (** the message after [ParseFromArray], whatever it returned *)
  ParseFromArray : list Z -> A;
}.

(** What protobuf documents of it. *)
Class ProtobufLaws (A : Type) `{Protobuf A} : Prop := {
  parse_serialize a : ParseFromArray (SerializeAsString a) = a;
  size_serialize a : ByteSizeLong a = zlen (SerializeAsString a);
}.

(** ** A concrete encoding

    Any countable type has an encoding that satisfies the laws: the code of the
    message as a single symbol.  The examples run with it. *)
Definition countable_protobuf {A} `{Countable A} (d : A) : Protobuf A := {|
  SerializeAsString := fun a => [Zpos (encode a)];
  ByteSizeLong := fun _ => 1;
  ParseFromArray := fun l =>
    match l with Zpos p :: _ => default d (decode p) | _ => d end;
|}.

Lemma countable_protobuf_laws {A} `{Countable A} (d : A) :
  ProtobufLaws A (H := countable_protobuf d).
Proof. split; [|done]. intros a. cbn. by rewrite decode_encode. Qed.

#[global] Instance HeartbeatMessage_eq_dec : EqDecision HeartbeatMessage.
Proof. solve_decision. Defined.
#[global] Instance HeartbeatRespMessage_eq_dec : EqDecision HeartbeatRespMessage.
Proof. solve_decision. Defined.
#[global] Instance RegisterMessage_eq_dec : EqDecision RegisterMessage.
Proof. solve_decision. Defined.
#[global] Instance RegisterRespMessage_eq_dec : EqDecision RegisterRespMessage.
Proof. solve_decision. Defined.
#[global] Instance FinishMessage_eq_dec : EqDecision FinishMessage.
Proof. solve_decision. Defined.
#[global] Instance FetchServersMessage_eq_dec : EqDecision FetchServersMessage.
Proof. solve_decision. Defined.
#[global] Instance FetchServersRespMessage_eq_dec : EqDecision FetchServersRespMessage.
Proof. solve_decision. Defined.

#[global] Instance HeartbeatMessage_countable : Countable HeartbeatMessage.
Proof.
  refine (inj_countable' (fun m => (hb_node_id m, hb_is_node_finish m))
            (fun p => mkHeartbeatMessage p.1 p.2) _). by intros [].
Defined.
#[global] Instance HeartbeatRespMessage_countable : Countable HeartbeatRespMessage.
Proof. refine (inj_countable' node_attribute mkHeartbeatRespMessage _). by intros []. Defined.
#[global] Instance RegisterMessage_countable : Countable RegisterMessage.
Proof.
  refine (inj_countable' (fun m => (reg_ip m, reg_port m, reg_node_id m, reg_role m))
            (fun '(a, b, c, d) => mkRegisterMessage a b c d) _). by intros [].
Defined.
#[global] Instance RegisterRespMessage_countable : Countable RegisterRespMessage.
Proof.
  refine (inj_countable' (fun m => (rr_node_id m, rr_rank_id m))
            (fun p => mkRegisterRespMessage p.1 p.2) _). by intros [].
Defined.
#[global] Instance FinishMessage_countable : Countable FinishMessage.
Proof. refine (inj_countable' fin_node_id mkFinishMessage _). by intros []. Defined.
#[global] Instance FetchServersMessage_countable : Countable FetchServersMessage.
Proof. refine (inj_countable' fs_node_id mkFetchServersMessage _). by intros []. Defined.
#[global] Instance ServersMeta_countable : Countable ServersMeta.
Proof.
  refine (inj_countable' (fun m => (sm_rank_id m, sm_ip m, sm_port m))
            (fun '(a, b, c) => mkServersMeta a b c) _). by intros [].
Defined.
#[global] Instance FetchServersRespMessage_countable : Countable FetchServersRespMessage.
Proof. refine (inj_countable' servers_meta mkFetchServersRespMessage _). by intros []. Defined.

Module ExampleEncoding.
#[export] Instance pb_heartbeat : Protobuf HeartbeatMessage :=
  countable_protobuf (mkHeartbeatMessage "" false).
#[export] Instance pb_heartbeat_resp : Protobuf HeartbeatRespMessage :=
  countable_protobuf (mkHeartbeatRespMessage ∅).
#[export] Instance pb_register : Protobuf RegisterMessage :=
  countable_protobuf (mkRegisterMessage "" 0 "" SERVER).
#[export] Instance pb_register_resp : Protobuf RegisterRespMessage :=
  countable_protobuf (mkRegisterRespMessage "" 0).
#[export] Instance pb_finish : Protobuf FinishMessage := countable_protobuf (mkFinishMessage "").
#[export] Instance pb_fetch : Protobuf FetchServersMessage :=
  countable_protobuf (mkFetchServersMessage "").
#[export] Instance pb_fetch_resp : Protobuf FetchServersRespMessage :=
  countable_protobuf (mkFetchServersRespMessage []).
#[export] Instance pb_heartbeat_laws : ProtobufLaws HeartbeatMessage.
Proof. apply countable_protobuf_laws. Qed.
#[export] Instance pb_heartbeat_resp_laws : ProtobufLaws HeartbeatRespMessage.
Proof. apply countable_protobuf_laws. Qed.
#[export] Instance pb_register_laws : ProtobufLaws RegisterMessage.
Proof. apply countable_protobuf_laws. Qed.
#[export] Instance pb_register_resp_laws : ProtobufLaws RegisterRespMessage.
Proof. apply countable_protobuf_laws. Qed.
#[export] Instance pb_finish_laws : ProtobufLaws FinishMessage.
Proof. apply countable_protobuf_laws. Qed.
#[export] Instance pb_fetch_laws : ProtobufLaws FetchServersMessage.
Proof. apply countable_protobuf_laws. Qed.
#[export] Instance pb_fetch_resp_laws : ProtobufLaws FetchServersRespMessage.
Proof. apply countable_protobuf_laws. Qed.
End ExampleEncoding.
