(* ===== verification/Framing.v ===== *)
(** * Framing of messages on a TCP stream

    The receiving side is [TcpMessageHandler] of
    src/even-http/ps/core/tcp_message_handler.{h,cc}, a byte-at-a-time state
    machine fed with the chunks libevent hands over.  The sending side is
    [SendMessage] of tcp_client.cc and tcp_server.cc.  The abstract
    specification ([decodes]) reads a stream as a sequence of frames; the
    machine refines it for every way of cutting the stream into chunks. *)
From S2P Require Import Prelude Convert Securec Messages.

Definition kHeaderLen : Z := 16.

(** One call of [message_callback_]: the parsed meta, the protocol, the bytes
    of the data pointer and the size passed with it. *)
Record delivery (A : Type) : Type := mkDelivery {
  d_meta : A;
  d_proto : Z;
  d_data : list Z;
  d_size : Z;
}.
Arguments mkDelivery {A} _ _ _ _.
Arguments d_meta {A} _.
Arguments d_proto {A} _.
Arguments d_data {A} _.
Arguments d_size {A} _.

(** [message_callback_] is whether a callback is set; [calls] is the history of
    its calls.  [message_buffer_] is the allocated object, if any. *)
Record TcpMessageHandler (A : Type) : Type := mkHandler {
  message_callback_ : bool;
  is_parsed_ : bool;
  message_buffer_ : option (list Z);
  remaining_length_ : Z; (* size_t *)
  header_ : list Z; (* char[16] *)
  header_index_ : Z; (* int *)
  last_copy_len_ : Z; (* size_t *)
  message_header_ : MessageHeader;
  calls : list (delivery A);
}.
Arguments mkHandler {A} _ _ _ _ _ _ _ _ _.
Arguments message_callback_ {A} _.
Arguments is_parsed_ {A} _.
Arguments message_buffer_ {A} _.
Arguments remaining_length_ {A} _.
Arguments header_ {A} _.
Arguments header_index_ {A} _.
Arguments last_copy_len_ {A} _.
Arguments message_header_ {A} _.
Arguments calls {A} _.

(** The constructor; [header_] is not initialised. *)
Definition TcpMessageHandler_init {A} (garbage : list Z) : TcpMessageHandler A :=
  mkHandler false false None 0 garbage (-1) 0 MessageHeader_default [].

Definition SetCallback {A} : M (TcpMessageHandler A) unit :=
  modify (fun h => mkHandler true (is_parsed_ h) (message_buffer_ h) (remaining_length_ h)
    (header_ h) (header_index_ h) (last_copy_len_ h) (message_header_ h) (calls h)).

(** Computes the fields of a handler state. *)
Ltac hcbn := cbn [message_callback_ is_parsed_ message_buffer_ remaining_length_ header_
  header_index_ last_copy_len_ message_header_ calls] in *.

(** Bytes as their own message: the simplest protobuf class there is, used to
    run the machine on examples. *)
#[export] Instance raw_protobuf : Protobuf (list Z) := {|
  SerializeAsString := fun l => l; ByteSizeLong := zlen; ParseFromArray := fun l => l |}.

#[export] Instance raw_protobuf_laws : ProtobufLaws (list Z).
Proof. by split. Qed.

Section receive.
Context {A : Type} `{Protobuf A}.
(** The largest array [new] can allocate, and what fresh storage holds. *)
Context (max_alloc junk : Z).
Implicit Types h : TcpMessageHandler A.
Implicit Types buf : list Z.

Definition read_byte buf (i : Z) : M (TcpMessageHandler A) Z :=
  match zget buf i with
  | Some b => mret b
  | None => undef "read past the end of the received chunk"
  end.

(** [header_[++header_index_] = b] *)
Definition store_header_byte (b : Z) : M (TcpMessageHandler A) unit := fun h =>
  let i := header_index_ h + 1 in
  match zset (header_ h) i b with
  | Some hd => Ret tt (mkHandler (message_callback_ h) (is_parsed_ h) (message_buffer_ h)
      (remaining_length_ h) hd i (last_copy_len_ h) (message_header_ h) (calls h))
  | None => Undef "write past the end of header_"
  end.

(** Lines 38-44: the header is complete. *)
Definition begin_message : M (TcpMessageHandler A) unit := fun h =>
  let mh := read_header (header_ h) in
  let len := message_length_ mh in
  let with_buffer b := mkHandler (message_callback_ h) (is_parsed_ h) b len (header_ h)
    (header_index_ h) (last_copy_len_ h) mh (calls h) in
  if len >? max_alloc then Throw "std::bad_alloc" (with_buffer (message_buffer_ h))
  else Ret tt (with_buffer (Some (replicate (Z.to_nat len) junk))).

(** The [for] loop of lines 34-48 with [k] iterations left; it returns the new
    [buffer_data] and [num]. *)
Fixpoint header_loop (k : nat) (i : Z) buf (buffer_data num : Z) {struct k}
    : M (TcpMessageHandler A) (Z * Z) :=
  match k with
  | O => mret (buffer_data, num)
  | S k =>
    if num >? 0 then
      b ← read_byte buf (buffer_data + i);
      _ ← store_header_byte b;
      let num := num - 1 in
      h ← getS;
      if header_index_ h =? kHeaderLen - 1 then
        _ ← begin_message;
        mret (buffer_data + (i + 1), num)
      else header_loop k (i + 1) buf buffer_data num
    else mret (buffer_data, num)
  end.

(** Lines 64-70. *)
Definition deliver : M (TcpMessageHandler A) unit := fun h =>
  if message_callback_ h then
    let mh := message_header_ h in
    match message_buffer_ h with
    | Some b =>
      let meta_len := message_meta_length_ mh in
      if (meta_len <=? zlen b) && (meta_len <=? INT_MAX) && (message_length_ mh <=? zlen b) then
        Ret tt (mkHandler true (is_parsed_ h) (message_buffer_ h) (remaining_length_ h)
          (header_ h) (header_index_ h) (last_copy_len_ h) mh
          (calls h ++ [mkDelivery (ParseFromArray (ztake meta_len b)) (message_proto_ mh)
             (zdrop meta_len (ztake (message_length_ mh) b)) (message_length_ mh - meta_len)]))
      else Undef "meta longer than the message"
    | None => Undef "null message buffer"
    end
  else Ret tt h.

(** Lines 71-74. *)
Definition reset_message : M (TcpMessageHandler A) unit :=
  modify (fun h => mkHandler (message_callback_ h) (is_parsed_ h) None (remaining_length_ h)
    (header_ h) (-1) 0 (message_header_ h) (calls h)).

(** [memcpy_s(message_buffer_.get() + last_copy_len_, copy_len, buffer_data, copy_len)] *)
Definition copy_chunk buf (buffer_data copy_len : Z) : M (TcpMessageHandler A) Z := fun h =>
  match message_buffer_ h with
  | None =>
    if last_copy_len_ h =? 0
    then Ret (if copy_len >? SECUREC_MEM_MAX_LEN then ERANGE else EINVAL) h
    else Undef "offset from a null buffer"
  | Some b =>
    match buf_memcpy_s b (last_copy_len_ h) copy_len buf buffer_data copy_len with
    | Some (ret, b') => Ret ret (mkHandler (message_callback_ h) (is_parsed_ h) (Some b')
        (remaining_length_ h) (header_ h) (header_index_ h) (last_copy_len_ h)
        (message_header_ h) (calls h))
    | None => Undef "copy past the end of the message buffer"
    end
  end.

Definition set_remaining (r : Z) : M (TcpMessageHandler A) unit :=
  modify (fun h => mkHandler (message_callback_ h) (is_parsed_ h) (message_buffer_ h) r
    (header_ h) (header_index_ h) (last_copy_len_ h) (message_header_ h) (calls h)).

Definition add_last_copy_len (n : Z) : M (TcpMessageHandler A) unit :=
  modify (fun h => mkHandler (message_callback_ h) (is_parsed_ h) (message_buffer_ h)
    (remaining_length_ h) (header_ h) (header_index_ h) (u64 (last_copy_len_ h + n))
    (message_header_ h) (calls h)).

(** Lines 51-76. *)
Definition receive_body buf (buffer_data num : Z) : M (TcpMessageHandler A) (Z * Z) :=
  h ← getS;
  let remaining := remaining_length_ h in
  if (remaining >? 0) && (num >? 0) then
    let copy_len := if remaining <=? num then remaining else num in
    _ ← set_remaining (remaining - copy_len);
    let num := num - copy_len in
    ret ← copy_chunk buf buffer_data copy_len;
    _ ← add_last_copy_len copy_len;
    let buffer_data := buffer_data + copy_len in
    _ ← (if negb (ret =? 0) then throw "The memcpy_s error" else mret tt);
    h ← getS;
    _ ← (if remaining_length_ h =? 0 then _ ← deliver; reset_message else mret tt);
    mret (buffer_data, num)
  else mret (buffer_data, num).

(** Lines 33-49. *)
Definition receive_header buf (buffer_data num : Z) : M (TcpMessageHandler A) (Z * Z) :=
  h ← getS;
  if remaining_length_ h =? 0
  then header_loop (Z.to_nat kHeaderLen) 0 buf buffer_data num
  else mret (buffer_data, num).

(** The [while (num > 0)] loop. *)
Fixpoint receive_loop (fuel : nat) buf (buffer_data num : Z) {struct fuel}
    : M (TcpMessageHandler A) unit :=
  if num >? 0 then
    match fuel with
    | O => fun _ => Fuel
    | S fuel =>
      pn ← receive_header buf buffer_data num;
      pn ← receive_body buf pn.1 pn.2;
      receive_loop fuel buf pn.1 pn.2
    end
  else mret tt.

Definition ReceiveMessage (buffer : option (list Z)) (num : Z) : M (TcpMessageHandler A) unit :=
  _ ← exception_if_null (bool_decide (is_Some buffer));
  receive_loop (Z.to_nat num) (default [] buffer) 0 num.

(** The chunks a connection receives, in order. *)
Fixpoint receive_all (chunks : list (list Z)) : M (TcpMessageHandler A) unit :=
  match chunks with
  | [] => mret tt
  | c :: cs => _ ← ReceiveMessage (Some c) (zlen c); receive_all cs
  end.

End receive.

(** ** Abstract specification

    A stream is a sequence of frames, each a header, [message_meta_length_]
    bytes of meta and the data, followed by an incomplete frame. *)
Section spec.
Context {A : Type} `{Protobuf A}.
Context (max_alloc : Z).

Definition frame_delivery (mh : MessageHeader) (body : list Z) : delivery A :=
  mkDelivery (ParseFromArray (ztake (message_meta_length_ mh) body)) (message_proto_ mh)
    (zdrop (message_meta_length_ mh) body) (message_length_ mh - message_meta_length_ mh).

Definition next_frame (s : list Z) : option (delivery A * list Z) :=
  let mh := read_header s in
  if (zlen s <? kHeaderLen) || (zlen s - kHeaderLen <? message_length_ mh) then None
  else Some (frame_delivery mh (ztake (message_length_ mh) (zdrop kHeaderLen s)),
             zdrop (kHeaderLen + message_length_ mh) s).

(** The headers the receiver handles: a body that is not empty, can be
    allocated and holds its meta. *)
Definition header_valid (mh : MessageHeader) : Prop :=
  0 < message_length_ mh <= max_alloc /\
  0 <= message_meta_length_ mh <= message_length_ mh /\ message_meta_length_ mh <= INT_MAX.

Inductive decodes : list Z -> list (delivery A) -> list Z -> Prop :=
| decodes_end s :
    (kHeaderLen <= zlen s -> header_valid (read_header s)) ->
    next_frame s = None -> decodes s [] s
| decodes_frame s d s' ds rest :
    header_valid (read_header s) -> next_frame s = Some (d, s') ->
    decodes s' ds rest -> decodes s (d :: ds) rest.

Lemma read_header_app a b : kHeaderLen <= zlen a -> read_header (a ++ b) = read_header a.
Proof.
  unfold kHeaderLen. intros. unfold read_header.
  rewrite !zdrop_app_le by lia. rewrite !ztake_app_le; rewrite ?zlen_zdrop; lia || done.
Qed.

Lemma read_header_ztake s : read_header (ztake kHeaderLen s) = read_header s.
Proof.
  destruct (Z.le_gt_cases kHeaderLen (zlen s)).
  - rewrite <- (ztake_drop kHeaderLen s) at 2. rewrite read_header_app; [done|].
    rewrite zlen_ztake; unfold kHeaderLen in *; lia.
  - by rewrite ztake_all by lia.
Qed.

Lemma next_frame_Some s d s' :
  next_frame s = Some (d, s') <->
  kHeaderLen <= zlen s /\ message_length_ (read_header s) <= zlen s - kHeaderLen /\
  d = frame_delivery (read_header s) (ztake (message_length_ (read_header s)) (zdrop kHeaderLen s)) /\
  s' = zdrop (kHeaderLen + message_length_ (read_header s)) s.
Proof.
  unfold next_frame. generalize (message_length_ (read_header s)) as len. intros len.
  zcases; split; try (intros; destruct_and?; done || lia).
  - by intros [= <- <-].
  - by intros (_ & _ & -> & ->).
Qed.

Lemma next_frame_None s :
  next_frame s = None <->
  zlen s < kHeaderLen \/ zlen s - kHeaderLen < message_length_ (read_header s).
Proof. unfold next_frame. zcases; split; done || lia. Qed.

(** More input does not change a frame that is complete. *)
Lemma next_frame_app a b d a' :
  0 <= message_length_ (read_header a) ->
  next_frame a = Some (d, a') -> next_frame (a ++ b) = Some (d, a' ++ b).
Proof.
  rewrite !next_frame_Some. unfold kHeaderLen. intros Hp (H1 & H2 & -> & ->).
  pose proof (zlen_nonneg b). rewrite read_header_app, zlen_app by done.
  split_and!; [lia|lia| |by rewrite zdrop_app_le by lia].
  f_equal. rewrite zdrop_app_le, ztake_app_le; rewrite ?zlen_zdrop; lia || done.
Qed.

(** A stream that decodes can be cut anywhere. *)
Lemma decodes_cut s ds rest : decodes s ds rest ->
  forall a b, s = a ++ b ->
  exists ds1 p ds2, decodes a ds1 p /\ decodes (p ++ b) ds2 rest /\ ds = ds1 ++ ds2.
Proof.
  assert (forall a b, (kHeaderLen <= zlen (a ++ b) -> header_valid (read_header (a ++ b))) ->
    kHeaderLen <= zlen a -> header_valid (read_header a)) as Hpre.
  { intros a b Hv Hn. rewrite <- (read_header_app a b) by done.
    apply Hv. rewrite zlen_app. pose proof (zlen_nonneg b). lia. }
  induction 1 as [s Hv Hn|s d s' ds rest Hv Hn Hd IH]; intros a b ->.
  - exists [], a, []. split_and!; [|by constructor|done].
    constructor; [by eauto|]. destruct (next_frame a) as [[d a']|] eqn:Ha; [|done].
    rewrite (next_frame_app a b d a') in Hn; [done| |done].
    apply next_frame_Some in Ha as [? _]. destruct (Hpre _ _ Hv) as [? _]; [done|lia].
  - destruct (next_frame a) as [[d1 a']|] eqn:Ha; cycle 1.
    { exists [], a, (d :: ds).
      split_and!; [constructor; [by eauto|done]|by eapply decodes_frame|done]. }
    pose proof Ha as [? _]%next_frame_Some.
    assert (header_valid (read_header a)) as Hva by eauto.
    rewrite (next_frame_app a b d1 a') in Hn; [|destruct Hva; lia|done]. simplify_eq.
    destruct (IH a' b eq_refl) as (ds1 & p & ds2 & Hd1 & Hd2 & ->).
    exists (d :: ds1), p, ds2. split_and!; [by eapply decodes_frame|done|done].
Qed.
End spec.

(** ** Refinement *)
Section refinement.
Context {A : Type} `{Protobuf A}.
Context (max_alloc junk : Z).
Context (max_alloc_size : max_alloc <= SIZE_MAX).
Implicit Types h : TcpMessageHandler A.

(** The machine holds the bytes [pend] of a frame that is not complete. *)
Inductive holds (pend : list Z) h : Prop :=
| holds_header :
    zlen pend < kHeaderLen -> message_callback_ h = true -> remaining_length_ h = 0 ->
    zlen (header_ h) = kHeaderLen -> header_index_ h = zlen pend - 1 ->
    ztake (zlen pend) (header_ h) = pend -> last_copy_len_ h = 0 -> holds pend h
| holds_body b :
    kHeaderLen <= zlen pend -> message_callback_ h = true ->
    header_valid max_alloc (read_header pend) ->
    message_header_ h = read_header pend -> zlen (header_ h) = kHeaderLen ->
    remaining_length_ h = message_length_ (read_header pend) - last_copy_len_ h ->
    last_copy_len_ h = zlen pend - kHeaderLen -> 0 < remaining_length_ h ->
    message_buffer_ h = Some b -> zlen b = message_length_ (read_header pend) ->
    ztake (last_copy_len_ h) b = zdrop kHeaderLen pend -> holds pend h.

Lemma holds_init garbage h :
  zlen garbage = kHeaderLen -> SetCallback (TcpMessageHandler_init garbage) = Ret tt h ->
  holds [] h.
Proof. intros Hg [= <-]. by apply holds_header. Qed.

Lemma ztake_set (l : list Z) i b :
  0 <= i < zlen l -> ztake (i + 1) (<[Z.to_nat i := b]> l) = ztake i l ++ [b].
Proof.
  unfold zlen, ztake. intros Hi. replace (Z.to_nat (i + 1)) with (S (Z.to_nat i)) by lia.
  rewrite (take_S_r _ _ b).
  - by rewrite take_insert_ge by lia.
  - apply list_lookup_insert_eq. lia.
Qed.

(** Storing the next byte of the header. *)
Lemma store_header_byte_holds pend h b :
  zlen pend < kHeaderLen -> holds pend h ->
  exists h', store_header_byte b h = Ret tt h' /\ calls h' = calls h /\
    message_callback_ h' = true /\ remaining_length_ h' = 0 /\ last_copy_len_ h' = 0 /\
    zlen (header_ h') = kHeaderLen /\ header_index_ h' = zlen pend /\
    ztake (zlen pend + 1) (header_ h') = pend ++ [b].
Proof.
  intros Hp [|]; [|lia]. pose proof (zlen_nonneg pend). unfold store_header_byte.
  replace (header_index_ h + 1) with (zlen pend) by lia.
  rewrite zset_in by lia. eexists. split; [done|]. cbn.
  split_and!; try done.
  - unfold zlen. by rewrite length_insert.
  - rewrite ztake_set by lia. congruence.
Qed.

Lemma begin_message_holds h :
  zlen (header_ h) = kHeaderLen -> message_callback_ h = true -> last_copy_len_ h = 0 ->
  header_valid max_alloc (read_header (header_ h)) ->
  exists h', begin_message max_alloc junk h = Ret tt h' /\ calls h' = calls h /\
    holds (header_ h) h'.
Proof.
  intros Hl Hc Hk Hv. pose proof Hv as (? & _ & _). unfold begin_message.
  destruct (Z.gtb_spec (message_length_ (read_header (header_ h))) max_alloc); [lia|].
  eexists. split; [done|]. split; [done|].
  eapply holds_body; hcbn; rewrite ?Hk; try done; try lia.
  - apply zlen_replicate. lia.
  - rewrite ztake_0, zdrop_all; [done|lia].
Qed.

(** The header loop consumes the input up to the end of the header, and then
    starts the message. *)
Lemma header_loop_holds k : forall i buf p num pend h,
  kHeaderLen - zlen pend <= Z.of_nat k -> zlen pend < kHeaderLen -> holds pend h ->
  0 <= p + i -> num = zlen (zdrop (p + i) buf) ->
  (exists h', header_loop max_alloc junk k i buf p num h = Ret (p, 0) h' /\
     calls h' = calls h /\ holds (pend ++ zdrop (p + i) buf) h' /\
     zlen pend + num < kHeaderLen) \/
  (exists h1 p', header_loop max_alloc junk k i buf p num h =
       (_ ← begin_message max_alloc junk; mret (p', zlen (zdrop p' buf))) h1 /\
     calls h1 = calls h /\ message_callback_ h1 = true /\ last_copy_len_ h1 = 0 /\
     zlen (header_ h1) = kHeaderLen /\ header_index_ h1 = kHeaderLen - 1 /\
     0 <= p' /\ zlen (zdrop p' buf) < num /\
     pend ++ zdrop (p + i) buf = header_ h1 ++ zdrop p' buf).
Proof.
  induction k as [|k IH]; intros i buf p num pend h Hk Hp Hh Hpi Hn; [lia|].
  cbn [header_loop]. destruct (Z.gtb_spec num 0) as [Hpos|Hz]; cycle 1.
  { left. exists h. pose proof (zlen_nonneg (zdrop (p + i) buf)).
    assert (zdrop (p + i) buf = []) as -> by (apply zlen_0_nil; lia).
    rewrite app_nil_r. assert (num = 0) as -> by lia. split_and!; [done|done|done|lia]. }
  destruct (zdrop (p + i) buf) as [|b rest] eqn:E; [by subst|].
  destruct (zget_zdrop _ _ _ _ Hpi E) as [Hb Hrest].
  destruct (store_header_byte_holds pend h b Hp Hh)
    as (h1 & Hst & Hc1 & Hcb & Hr1 & Hl1 & Hhd & Hi1 & Htk).
  rewrite (bind_Ret _ _ _ b h) by (unfold read_byte; by rewrite Hb).
  rewrite (bind_Ret _ _ _ _ _ Hst). rewrite (bind_Ret getS _ h1 h1 h1 eq_refl).
  rewrite Hi1. rewrite zlen_cons in Hn. pose proof (zlen_nonneg rest).
  rewrite cons_middle, app_assoc.
  replace (p + (i + 1)) with (p + i + 1) in * by lia.
  destruct (Z.eqb_spec (zlen pend) (kHeaderLen - 1)) as [Hlast|Hnot].
  - right. exists h1, (p + i + 1). rewrite Hrest.
    assert (header_ h1 = pend ++ [b]) as Eh by (rewrite <- Htk, ztake_all by lia; done).
    replace (num - 1) with (zlen rest) by lia. rewrite Eh at 2.
    split_and!; try done; lia.
  - destruct (IH (i + 1) buf p (num - 1) (pend ++ [b]) h1) as [Hs|Hl];
      rewrite ?zlen_snoc in *; replace (p + (i + 1)) with (p + i + 1) in * by lia;
      rewrite ?Hrest in *; try lia.
    + apply holds_header; rewrite ?zlen_snoc; try done; lia.
    + left. destruct Hs as (h' & ? & ? & ? & ?). exists h'. split_and!; try done; congruence || lia.
    + right. destruct Hl as (h2 & p' & Hl & Hc & ? & ? & ? & ? & ? & ? & ?). exists h2, p'.
      split_and!; try done; congruence || lia.
Qed.

(** The state after [copy_len] more bytes of the body arrived. *)
Definition body_grown h (b : list Z) (copy_len : Z) : TcpMessageHandler A :=
  mkHandler (message_callback_ h) (is_parsed_ h) (Some b) (remaining_length_ h - copy_len)
    (header_ h) (header_index_ h) (last_copy_len_ h + copy_len) (message_header_ h) (calls h).

Lemma zlen_zdrop_pos {B} p (buf : list B) n :
  0 <= p -> n = zlen (zdrop p buf) -> 0 < n -> n = zlen buf - p /\ p < zlen buf.
Proof.
  intros Hp Hn Hpos. destruct (Z.le_gt_cases p (zlen buf)).
  - rewrite zlen_zdrop in Hn by lia. lia.
  - rewrite zdrop_all in Hn by lia. rewrite zlen_nil in Hn. lia.
Qed.

(** The guarded part of [receive_body] up to the test for a complete message. *)
Lemma receive_body_eq h b buf p num :
  0 <= p -> num = zlen (zdrop p buf) -> 0 < num <= SECUREC_MEM_MAX_LEN ->
  message_buffer_ h = Some b -> 0 <= last_copy_len_ h -> 0 < remaining_length_ h ->
  last_copy_len_ h + remaining_length_ h = zlen b -> zlen b <= max_alloc ->
  let copy_len := Z.min (remaining_length_ h) num in
  let b' := ztake (last_copy_len_ h) b ++ ztake copy_len (zdrop p buf)
              ++ zdrop (last_copy_len_ h + copy_len) b in
  let h' := body_grown h b' copy_len in
  receive_body buf p num h =
    (_ ← (if remaining_length_ h' =? 0 then _ ← deliver; reset_message else mret tt);
     mret (p + copy_len, num - copy_len)) h'.
Proof.
  intros Hp Hn Hnum Hb Hl0 Hr Hlen Hmax copy_len b' h'.
  destruct (zlen_zdrop_pos p buf num) as [Hnb Hpb]; [done|done|lia|].
  assert ((if remaining_length_ h <=? num then remaining_length_ h else num) = copy_len) as Ecl.
  { unfold copy_len. zcases; lia. }
  unfold receive_body. unfold getS at 1. rewrite (bind_Ret _ _ _ h h) by done.
  destruct (Z.gtb_spec (remaining_length_ h) 0); [|lia].
  destruct (Z.gtb_spec num 0); [|lia]. cbn [andb]. rewrite Ecl.
  unfold set_remaining, modify. erewrite (bind_Ret (S := TcpMessageHandler A)) by done.
  erewrite (bind_Ret (S := TcpMessageHandler A)); cycle 1.
  { unfold copy_chunk. hcbn. rewrite Hb. unfold buf_memcpy_s.
    destruct (Z.eqb_spec copy_len 0); [lia|].
    destruct (Z.gtb_spec copy_len SECUREC_MEM_MAX_LEN); [lia|].
    destruct (Z.gtb_spec copy_len copy_len); [lia|].
    destruct (Z.leb_spec (last_copy_len_ h + copy_len) (zlen b)); [|lia].
    destruct (Z.leb_spec (p + copy_len) (zlen buf)); [|lia]. done. }
  unfold add_last_copy_len, modify. erewrite (bind_Ret (S := TcpMessageHandler A)) by done.
  hcbn. rewrite uwrap_small by (unfold in_u, SIZE_MAX in *; lia). done.
Qed.

Lemma deliver_reset {B} (x : B) h b mh :
  message_callback_ h = true -> message_buffer_ h = Some b -> message_header_ h = mh ->
  header_valid max_alloc mh -> zlen b = message_length_ mh ->
  (_ ← (_ ← deliver; reset_message); mret x) h =
    Ret x (mkHandler true (is_parsed_ h) None (remaining_length_ h) (header_ h) (-1) 0 mh
             (calls h ++ [frame_delivery mh b])).
Proof.
  intros Hc Hb Hm (Hv1 & Hv2 & Hv3) Hl. mrun. unfold deliver. rewrite Hc, Hb, Hm.
  rewrite (ztake_all (message_length_ mh)) by lia.
  destruct (Z.leb_spec (message_meta_length_ mh) (zlen b)); [|lia].
  destruct (Z.leb_spec (message_meta_length_ mh) INT_MAX); [|lia].
  destruct (Z.leb_spec (message_length_ mh) (zlen b)); [|lia]. done.
Qed.

(** Receiving a part of the body. *)
Lemma receive_body_holds pend h buf p num :
  kHeaderLen <= zlen pend -> holds pend h -> 0 <= p ->
  num = zlen (zdrop p buf) -> 0 < num <= SECUREC_MEM_MAX_LEN ->
  exists p' num' h', receive_body buf p num h = Ret (p', num') h' /\
    0 <= p' /\ num' = zlen (zdrop p' buf) /\ num' < num /\
    ((num' = 0 /\ calls h' = calls h /\ holds (pend ++ zdrop p buf) h') \/
     (exists d, next_frame (pend ++ zdrop p buf) = Some (d, zdrop p' buf) /\
        calls h' = calls h ++ [d] /\ holds [] h')).
Proof.
  intros Hp [|b _ Hcb Hv Hmh Hhd Hr Hl Hpos Hb Hlb Htk] Hp0 Hn Hnum; [lia|].
  pose proof Hv as (Hv1 & Hv2 & Hv3).
  destruct (zlen_zdrop_pos p buf num) as [Hnb Hpb]; [done|done|lia|].
  rewrite (receive_body_eq h b) by (done || lia).
  set (copy_len := Z.min (remaining_length_ h) num).
  rewrite Htk. set (b' := zdrop kHeaderLen pend ++ _). unfold body_grown. hcbn.
  assert (zlen (zdrop kHeaderLen pend) = last_copy_len_ h) as Hlp.
  { rewrite zlen_zdrop; unfold kHeaderLen in *; lia. }
  assert (zlen (ztake copy_len (zdrop p buf)) = copy_len) as Hlt.
  { apply zlen_ztake. lia. }
  assert (0 <= p + copy_len /\ num - copy_len = zlen (zdrop (p + copy_len) buf) /\
    num - copy_len < num) as Hadv. { rewrite zlen_zdrop; lia. }
  destruct (Z.eqb_spec (remaining_length_ h - copy_len) 0) as [Hdone|Hmore].
  - assert (b' = zdrop kHeaderLen pend ++ ztake copy_len (zdrop p buf)) as Eb.
    { unfold b'. rewrite (zdrop_all (last_copy_len_ h + copy_len)) by lia.
      by rewrite app_nil_r. }
    rewrite (deliver_reset _ _ b' (read_header pend)); hcbn; try done; cycle 1.
    { rewrite Eb, zlen_app. lia. }
    do 3 eexists. split; [done|]. do 3 (split; [lia|]). right. eexists. hcbn. split_and!.
    + apply next_frame_Some. rewrite read_header_app, zlen_app, <- Hn by done.
      split_and!; [lia|lia|reflexivity|].
      unfold kHeaderLen in *. rewrite zdrop_app_ge, zdrop_zdrop by lia. f_equal. lia.
    + do 3 f_equal. rewrite Eb. unfold kHeaderLen in *. rewrite zdrop_app_le by lia.
      rewrite ztake_app_ge by lia. do 2 f_equal. lia.
    + by apply holds_header.
  - do 3 eexists. split; [done|]. do 3 (split; [lia|]). left.
    assert (copy_len = num) as Ecl by lia. split_and!; [lia|done|].
    unfold b'. rewrite !Ecl, (ztake_all num) by lia.
    apply (holds_body _ _ (zdrop kHeaderLen pend ++ zdrop p buf ++ zdrop (last_copy_len_ h + num) b));
      hcbn; rewrite ?read_header_app by done; try done; try (rewrite zlen_app; lia); try lia.
    + rewrite !zlen_app, (zlen_zdrop (_ + _)) by lia. lia.
    + rewrite app_assoc, ztake_app_exact by (rewrite zlen_app; lia).
      by rewrite zdrop_app_le by lia.
Qed.
Lemma holds_incomplete pend h : holds pend h -> next_frame (A := A) pend = None.
Proof. intros [|]; apply next_frame_None; unfold kHeaderLen in *; lia. Qed.

Lemma decodes_incomplete s ds rest :
  decodes max_alloc (A := A) s ds rest -> next_frame (A := A) s = None -> ds = [] /\ rest = s.
Proof. destruct 1; [done|congruence]. Qed.

Lemma decodes_next s d s' ds rest :
  decodes max_alloc (A := A) s ds rest -> next_frame (A := A) s = Some (d, s') ->
  exists ds', ds = d :: ds' /\ decodes max_alloc s' ds' rest.
Proof. destruct 1; [congruence|]. intros. simplify_eq. eauto. Qed.

Lemma decodes_header_valid s ds rest :
  decodes max_alloc (A := A) s ds rest -> kHeaderLen <= zlen s ->
  header_valid max_alloc (read_header s).
Proof. destruct 1; auto. Qed.

Lemma receive_body_idle buf p h : receive_body buf p 0 h = Ret (p, 0) h.
Proof. unfold receive_body. mrun. by rewrite andb_false_r. Qed.

(** What one run of the loop owes for the bytes [s] that are left. *)
Definition loop_ok (fuel : nat) buf p num h (s : list Z) : Prop :=
  forall ds rest, decodes max_alloc s ds rest ->
  exists h', receive_loop max_alloc junk fuel buf p num h = Ret tt h' /\
    holds rest h' /\ calls h' = calls h ++ ds.

Lemma loop_ok_end fuel buf p h pend : holds pend h -> loop_ok fuel buf p 0 h pend.
Proof.
  intros Hh ds rest Hd. exists h.
  destruct (decodes_incomplete _ _ _ Hd) as [-> ->]; [by eapply holds_incomplete|].
  rewrite app_nil_r. split_and!; [|done|done]. by destruct fuel.
Qed.

(** The body of the current frame and the rest of the loop. *)
Lemma body_then_loop fuel buf p num q h ds rest :
  (forall p num h pend, 0 <= p -> num = zlen (zdrop p buf) -> num <= Z.of_nat fuel ->
     num <= SECUREC_MEM_MAX_LEN -> holds pend h ->
     loop_ok fuel buf p num h (pend ++ zdrop p buf)) ->
  kHeaderLen <= zlen q -> holds q h -> 0 <= p -> num = zlen (zdrop p buf) ->
  num <= Z.of_nat fuel + 1 -> num <= SECUREC_MEM_MAX_LEN ->
  decodes max_alloc (q ++ zdrop p buf) ds rest ->
  exists h',
    (pn ← receive_body buf p num; receive_loop max_alloc junk fuel buf pn.1 pn.2) h = Ret tt h' /\
    holds rest h' /\ calls h' = calls h ++ ds.
Proof.
  intros IH Hq Hh Hp Hn Hf Hm Hd. pose proof (zlen_nonneg (zdrop p buf)).
  destruct (Z.le_gt_cases num 0) as [Hz|Hpos].
  - assert (num = 0) as -> by lia. rewrite (bind_Ret _ _ _ _ _ (receive_body_idle buf p h)).
    rewrite (zlen_0_nil (zdrop p buf)), app_nil_r in Hd by lia. by apply (loop_ok_end _ _ _ _ q).
  - destruct (receive_body_holds q h buf p num) as (p' & n' & h1 & Hb & Hp' & Hn' & Hlt & Hcase);
      [done|done|done|done|lia|].
    rewrite (bind_Ret _ _ _ _ _ Hb). cbn [fst snd].
    destruct Hcase as [(Hn0 & Hc & Hh1)|(d & Hnf & Hc & Hh1)].
    + rewrite Hn0. rewrite <- Hc. by apply (loop_ok_end _ _ _ _ _ Hh1).
    + destruct (decodes_next _ _ _ _ _ Hd Hnf) as (ds' & -> & Hd').
      destruct (IH p' n' h1 [] Hp' Hn' ltac:(lia) ltac:(lia) Hh1 ds' rest Hd')
        as (h2 & Hl & Hh2 & Hc2).
      exists h2. split_and!; [done|done|]. by rewrite Hc2, Hc, <- app_assoc.
Qed.

Lemma receive_loop_holds fuel : forall buf p num h pend,
  0 <= p -> num = zlen (zdrop p buf) -> num <= Z.of_nat fuel ->
  num <= SECUREC_MEM_MAX_LEN -> holds pend h ->
  loop_ok fuel buf p num h (pend ++ zdrop p buf).
Proof.
  induction fuel as [|fuel IH]; intros buf p num h pend Hp Hn Hf Hm Hh;
    pose proof (zlen_nonneg (zdrop p buf)) as Hge;
    (destruct (Z.le_gt_cases num 0) as [Hz|Hpos];
     [assert (num = 0) as -> by lia;
      rewrite (zlen_0_nil (zdrop p buf)), app_nil_r by lia; by apply loop_ok_end|]); [lia|].
  intros ds rest Hd. cbn [receive_loop]. destruct (Z.gtb_spec num 0); [|lia].
  unfold receive_header, getS. rewrite bind_assoc. rewrite (bind_Ret _ _ _ h h) by done.
  destruct (Z.lt_ge_cases (zlen pend) kHeaderLen) as [Hlt|Hge16].
  - assert (remaining_length_ h = 0) as -> by (destruct Hh; [done|lia]). cbn [Z.eqb].
    destruct (header_loop_holds (Z.to_nat kHeaderLen) 0 buf p num pend h) as [Hs|Hl];
      rewrite ?Z.add_0_r in *; try done.
    { pose proof (zlen_nonneg pend). unfold kHeaderLen in *. lia. }
    + destruct Hs as (h1 & Hs & Hc & Hh1 & _). rewrite (bind_Ret _ _ _ _ _ Hs), <- Hc.
      rewrite (bind_Ret _ _ _ _ _ (receive_body_idle buf p h1)).
      by apply (loop_ok_end _ _ _ _ _ Hh1).
    + destruct Hl as (h1 & p' & Hl & Hc & Hcb & Hl0 & Hlen & Hix & Hp' & Hlt' & E).
      rewrite E in Hd. destruct (begin_message_holds h1) as (h2 & Hbm & Hc2 & Hh2); try done.
      { rewrite <- (read_header_app _ (zdrop p' buf)) by lia. eapply decodes_header_valid; [done|].
        rewrite zlen_app. pose proof (zlen_nonneg (zdrop p' buf)). lia. }
      rewrite (bind_Ret _ _ _ (p', zlen (zdrop p' buf)) h2), <- Hc, <- Hc2
        by (by rewrite Hl, (bind_Ret _ _ _ _ _ Hbm)).
      cbn [fst snd]. eapply (body_then_loop fuel buf p' _ (header_ h1)); eauto; lia.
  - assert (0 < remaining_length_ h) by (destruct Hh; [lia|done]).
    destruct (Z.eqb_spec (remaining_length_ h) 0); [lia|].
    eapply (body_then_loop fuel buf p num pend); eauto; lia.
Qed.

Lemma ReceiveMessage_holds c h pend ds rest :
  zlen c <= SECUREC_MEM_MAX_LEN -> holds pend h -> decodes max_alloc (pend ++ c) ds rest ->
  exists h', ReceiveMessage max_alloc junk (Some c) (zlen c) h = Ret tt h' /\
    holds rest h' /\ calls h' = calls h ++ ds.
Proof.
  intros Hm Hh Hd. pose proof (zlen_nonneg c).
  apply (receive_loop_holds (Z.to_nat (zlen c)) c 0 (zlen c) h pend); rewrite ?zdrop_0; done || lia.
Qed.

Lemma receive_all_holds chunks : forall h pend ds rest,
  Forall (fun c => zlen c <= SECUREC_MEM_MAX_LEN) chunks -> holds pend h ->
  decodes max_alloc (pend ++ concat chunks) ds rest ->
  exists h', receive_all max_alloc junk chunks h = Ret tt h' /\
    calls h' = calls h ++ ds /\ holds rest h'.
Proof.
  induction chunks as [|c cs IH]; intros h pend ds rest Hc Hh Hd; cbn in Hd.
  - rewrite app_nil_r in Hd. destruct (decodes_incomplete _ _ _ Hd) as [-> ->].
    { by eapply holds_incomplete. }
    exists h. by rewrite app_nil_r.
  - apply Forall_cons_1 in Hc as [Hc Hcs]. rewrite app_assoc in Hd.
    destruct (decodes_cut _ _ _ _ Hd _ _ eq_refl) as (ds1 & p & ds2 & Hd1 & Hd2 & ->).
    destruct (ReceiveMessage_holds c h pend ds1 p) as (h1 & Hr & Hh1 & Hc1); [done..|].
    destruct (IH h1 p ds2 rest) as (h2 & Hr2 & Hc2 & Hh2); [done..|].
    exists h2. cbn [receive_all]. rewrite (bind_Ret _ _ _ _ _ Hr).
    split_and!; [done| |done]. by rewrite Hc2, Hc1, app_assoc.
Qed.
End refinement.

(** ** The loop ends *)
Section termination.
Context {A : Type} `{Protobuf A}.
Context (max_alloc junk : Z).
Implicit Types h : TcpMessageHandler A.

(** Every field that counts bytes counts them in unsigned types. *)
Definition counters_ok h : Prop := 0 <= remaining_length_ h /\ bytes_ok (header_ h).

Lemma zget_ok l i b : bytes_ok l -> zget l i = Some b -> byte_ok b.
Proof.
  unfold zget. intros Hl. case_match; [done|]. intros Hb.
  by eapply Forall_lookup_1 in Hb.
Qed.

Lemma le_val_nonneg l : bytes_ok l -> 0 <= le_val l.
Proof. intros Hl. by destruct (le_val_bound l Hl). Qed.

Lemma read_header_nonneg b : bytes_ok b -> 0 <= message_length_ (read_header b).
Proof. intros. apply le_val_nonneg. by apply Forall_take, Forall_drop. Qed.

(** The outcome is not [Fuel], and a normal return satisfies [P]. *)
Definition ends {S B} (o : outcome S B) (P : B -> S -> Prop) : Prop :=
  match o with Ret a s => P a s | Fuel => False | _ => True end.

Lemma ends_bind {S B C} (c : M S B) (k : B -> M S C) s P Q :
  ends (c s) P -> (forall a s', P a s' -> ends (k a s') Q) -> ends ((c ≫= k) s) Q.
Proof. unfold mbind, M_bind. destruct (c s); cbn; auto. Qed.

Lemma header_loop_ends k : forall i buf p num h,
  counters_ok h -> bytes_ok buf ->
  ends (header_loop max_alloc junk k i buf p num h) (fun pn h' =>
    counters_ok h' /\ pn.2 <= num /\ (k <> O -> 0 < num -> pn.2 < num)).
Proof.
  induction k as [|k IH]; intros i buf p num h Hh Hb; cbn [header_loop].
  { by split_and!. }
  destruct (Z.gtb_spec num 0); [|split_and!; cbn; done || lia].
  eapply (ends_bind _ _ _ (fun b h' => byte_ok b /\ h' = h)).
  { unfold read_byte. destruct (zget buf (p + i)) eqn:E; [|done].
    split; [by eapply zget_ok|done]. }
  intros b h0 [Hbk ->].
  eapply (ends_bind _ _ _ (fun _ h' => counters_ok h')).
  { unfold store_header_byte, zset. case_match eqn:E; [|done]. case_match; simplify_eq.
    destruct Hh. split; hcbn; [done|]. by apply Forall_insert. }
  intros _ h1 Hh1. eapply (ends_bind _ _ _ (fun a h' => h' = h1)); [done|].
  intros a0 h0 ->. case_match.
  - eapply (ends_bind _ _ _ (fun _ h' => counters_ok h')).
    { unfold begin_message. case_match; [done|]. destruct Hh1. split; hcbn; [|done].
      by apply read_header_nonneg. }
    intros _ h2 Hh2. split_and!; cbn; done || lia.
  - specialize (IH (i + 1) buf p (num - 1) h1 Hh1 Hb).
    destruct (header_loop _ _ _ _ _ _ _ _); try done. destruct IH as (? & ? & _).
    split_and!; done || lia.
Qed.

Lemma receive_body_ends buf p num h :
  counters_ok h ->
  ends (receive_body buf p num h) (fun pn h' =>
    counters_ok h' /\ pn.2 <= num /\ (0 < remaining_length_ h -> 0 < num -> pn.2 < num)).
Proof.
  intros [Hr Hhd]. unfold receive_body.
  eapply (ends_bind _ _ _ (fun a h' => a = h /\ h' = h)); [done|].
  intros a0 h0 [-> ->].
  destruct (Z.gtb_spec (remaining_length_ h) 0); cbn [andb];
    [|split_and!; cbn; done || lia].
  destruct (Z.gtb_spec num 0); [|split_and!; cbn; done || lia].
  set (cl := if _ <=? _ then _ else _).
  assert (0 < cl <= remaining_length_ h) by (unfold cl; zcases; lia).
  eapply (ends_bind _ _ _ (fun _ h' => counters_ok h')); [split; hcbn; done || lia|].
  intros _ h1 Hh1. eapply (ends_bind _ _ _ (fun _ h' => counters_ok h')).
  { unfold copy_chunk. repeat case_match; done. }
  intros ret h2 Hh2. eapply (ends_bind _ _ _ (fun _ h' => counters_ok h')); [done|].
  intros _ h3 Hh3. eapply (ends_bind _ _ _ (fun _ h' => counters_ok h')); [by case_match|].
  intros _ h4 Hh4. eapply (ends_bind _ _ _ (fun a h' => a = h4 /\ h' = h4)); [done|].
  intros a5 h0 [-> ->]. eapply (ends_bind _ _ _ (fun _ h' => counters_ok h')).
  { case_match; [|done]. eapply (ends_bind _ _ _ (fun _ h' => counters_ok h')); [|done].
    unfold deliver. repeat case_match; done. }
  intros _ h5 Hh5. split_and!; cbn; done || lia.
Qed.

Lemma receive_loop_ends fuel : forall buf p num h,
  counters_ok h -> bytes_ok buf -> num <= Z.of_nat fuel ->
  ends (receive_loop max_alloc junk fuel buf p num h) (fun _ h' => counters_ok h').
Proof.
  induction fuel as [|fuel IH]; intros buf p num h Hh Hb Hn; cbn [receive_loop];
    (destruct (Z.gtb_spec num 0); [|done]); [lia|].
  eapply (ends_bind _ _ _ (fun pn h' => counters_ok h' /\ pn.2 <= num /\
    (remaining_length_ h = 0 -> pn.2 < num) /\ (remaining_length_ h <> 0 -> h' = h))).
  { unfold receive_header. eapply (ends_bind _ _ _ (fun a h' => a = h /\ h' = h)); [done|].
    intros a0 h0 [-> ->]. destruct (Z.eqb_spec (remaining_length_ h) 0) as [E|E].
    - pose proof (header_loop_ends (Z.to_nat kHeaderLen) 0 buf p num h Hh Hb) as Hl.
      destruct (header_loop _ _ _ _ _ _ _ _); try done. destruct Hl as (? & ? & Hlt).
      split_and!; try done. intros _. by apply Hlt.
    - split_and!; cbn; done || lia. }
  intros pn h1 (Hh1 & Hle & Hlt & Heq).
  eapply (ends_bind _ _ _ (fun pn' h' => counters_ok h' /\ pn'.2 < num)).
  { pose proof (receive_body_ends buf pn.1 pn.2 h1 Hh1) as Hl.
    destruct (receive_body _ _ _ _); try done. destruct Hl as (? & ? & Hlt2).
    split; [done|]. destruct (Z.eq_dec (remaining_length_ h) 0) as [E|E]; [specialize (Hlt E); lia|].
    rewrite (Heq E) in *. destruct Hh. destruct (Z.lt_ge_cases 0 pn.2); [|lia].
    specialize (Hlt2 ltac:(lia) ltac:(lia)). lia. }
  intros pn' h2 [Hh2 Hlt']. apply IH; done || lia.
Qed.
End termination.

(** C14: the receive loop ends on every input and from every state of the handler:
    each turn of the [while] consumes a byte, so [num] turns are enough. *)
Theorem ReceiveMessage_terminates {A} `{Protobuf A} max_alloc junk buffer num
    (h : TcpMessageHandler A) :
  0 <= remaining_length_ h -> bytes_ok (header_ h) ->
  (forall b, buffer = Some b -> bytes_ok b) ->
  ReceiveMessage max_alloc junk buffer num h <> Fuel.
Proof.
  intros Hr Hh Hb E.
  assert (ends (ReceiveMessage max_alloc junk buffer num h) (fun _ _ => True)) as Hends;
    [|by rewrite E in Hends].
  unfold ReceiveMessage. eapply (ends_bind _ _ _ (fun _ h' => h' = h /\ is_Some buffer)).
  { unfold exception_if_null. case_bool_decide; done. }
  intros _ h0 [-> [b Hbuf]]. pose proof (Hb b Hbuf). rewrite Hbuf. cbn [default from_option id].
  pose proof (receive_loop_ends max_alloc junk (Z.to_nat num) b 0 num h) as Hl.
  destruct (receive_loop _ _ _ _ _ _ _); try done. apply Hl; [done|done|lia].
Qed.

(** C2: refinement.  Whatever way a stream that decodes is cut into chunks, a
    fresh handler accepts every chunk without an error, calls back once per
    frame, in order, with the parsed meta, the protocol and the data of that
    frame, and keeps exactly the bytes of the last incomplete frame. *)
Theorem receive_all_refines {A} `{Protobuf A} max_alloc junk garbage chunks ds rest :
  max_alloc <= SIZE_MAX -> zlen garbage = kHeaderLen ->
  Forall (fun c => zlen c <= SECUREC_MEM_MAX_LEN) chunks ->
  decodes (A := A) max_alloc (concat chunks) ds rest ->
  exists h, (_ ← SetCallback; receive_all max_alloc junk chunks) (TcpMessageHandler_init garbage)
            = Ret tt h /\ calls h = ds /\ holds max_alloc rest h.
Proof.
  intros Hmax Hg Hc Hd. rewrite (bind_Ret SetCallback _ _ tt _ eq_refl).
  match goal with |- context [receive_all _ _ _ ?h0] =>
    destruct (receive_all_holds max_alloc junk Hmax chunks h0 [] ds rest) as (h & ? & ? & ?)
  end; [done| |done|by exists h].
  by eapply holds_init.
Qed.

Lemma receive_all_refines_witness :
  let b1 := [0; 0; 0; 0; 1; 0; 0; 0; 3; 0] in
  let b2 := [0; 0; 0; 0; 0; 0; 7; 8; 9; 1; 0] in
  exists h, (_ ← SetCallback; receive_all (A := list Z) 1000 0 [b1; b2])
              (TcpMessageHandler_init (replicate 16 0)) = Ret tt h /\
    calls h = [mkDelivery [7] 0 [8; 9] 2] /\ holds 1000 [1; 0] h.
Proof.
  apply (receive_all_refines (A := list Z) 1000 0 (replicate 16 0)
    [[0; 0; 0; 0; 1; 0; 0; 0; 3; 0]; [0; 0; 0; 0; 0; 0; 7; 8; 9; 1; 0]]
    [mkDelivery [7] 0 [8; 9] 2] [1; 0]).
  - vm_compute. discriminate.
  - reflexivity.
  - repeat constructor; vm_compute; discriminate.
  - eapply decodes_frame.
    + vm_compute. repeat split; discriminate.
    + reflexivity.
    + apply decodes_end; [vm_compute; congruence|reflexivity].
Defined.

Lemma ReceiveMessage_terminates_witness :
  ReceiveMessage (A := list Z) 1000 0 (Some [1; 2; 3]) 3 (TcpMessageHandler_init (replicate 16 0))
  <> Fuel.
Proof.
  apply (ReceiveMessage_terminates (A := list Z)).
  - vm_compute. discriminate.
  - repeat constructor; vm_compute; congruence.
  - intros b [= <-]. repeat constructor; vm_compute; congruence.
Defined.
