(* ===== verification/Sending.v ===== *)
(** * Sending messages

    The [SendMessage] methods of src/even-http/ps/core/tcp_client.cc and
    tcp_server.cc, and the round trip with the receiver of Framing.v.

    libevent is a parameter: what [bufferevent_write] does to the output
    buffer.  Its documentation says that it returns 0 after appending the data
    and -1 on an error. *)
From S2P Require Import Prelude Convert Securec Messages Framing.

(** A [bufferevent]: the bytes appended to its output so far and how often its
    lock is held. *)
Record bufferevent : Type := mkBufferevent {
  output : list Z;
  locked : Z;
}.

Section send.
Context {A : Type} `{Protobuf A}.
(** [Some out'] is a write that succeeded and left [out'], [None] one that
    failed. *)
Context (evbuffer_add : list Z -> list Z -> option (list Z)).

Definition bufferevent_lock : M bufferevent unit :=
  modify (fun b => mkBufferevent (output b) (locked b + 1)).
Definition bufferevent_unlock : M bufferevent unit :=
  modify (fun b => mkBufferevent (output b) (locked b - 1)).

(** [bufferevent_write(bev, ptr, size)] *)
Definition bufferevent_write (ptr : list Z) (size : Z) : M bufferevent Z := fun b =>
  if size >? zlen ptr then Undef "read past the end of the data"
  else match evbuffer_add (output b) (ztake size ptr) with
       | Some out => Ret 0 (mkBufferevent out (locked b))
       | None => Ret (-1) b
       end.

Definition SendMessage_frame (bev : bool) (meta : option A) (protos : Protos)
    (data : option (list Z)) (size : Z) : M bufferevent bool :=
  _ ← exception_if_null bev;
  match meta with
  | None => throw "The pointer is null."
  | Some meta =>
    match data with
    | None => throw "The pointer is null."
    | Some data =>
      _ ← bufferevent_lock;
      message_meta_length ← SizeToUint (ByteSizeLong meta);
      let header := mkMessageHeader (Protos_num protos) message_meta_length
                      (u64 (size + message_meta_length)) in
      r1 ← bufferevent_write (header_bytes header) 16;
      r2 ← bufferevent_write (SerializeAsString meta) (ByteSizeLong meta);
      r3 ← bufferevent_write data size;
      _ ← bufferevent_unlock;
      mret (negb (r1 =? -1) && negb (r2 =? -1) && negb (r3 =? -1))
    end
  end.

(** [TcpConnection::SendMessage(meta, protos, data, size)] and
    [TcpClient::SendMessage(meta, protos, data, size)] have this body. *)
Definition TcpConnection_SendMessage := SendMessage_frame.
Definition TcpClient_SendMessage := SendMessage_frame.

(** [TcpServer::SendMessage(conn, meta, protos, data, size)] *)
Definition TcpServer_SendMessage (conn : option bool) (meta : option A) (protos : Protos)
    (data : option (list Z)) (size : Z) : M bufferevent bool :=
  match conn with
  | None => throw "The pointer is null."
  | Some bev =>
    _ ← exception_if_null (bool_decide (is_Some meta));
    _ ← exception_if_null (bool_decide (is_Some data));
    TcpConnection_SendMessage bev meta protos data size
  end.

(** [TcpConnection::SendMessage(buffer, num)]: a failed write is only logged. *)
Definition TcpConnection_SendRaw (buffer : list Z) (num : Z) : M bufferevent unit :=
  _ ← bufferevent_write buffer num; mret tt.

(** Messages one after the other; whether every send succeeded. *)
Fixpoint send_all (msgs : list (A * Protos * list Z)) : M bufferevent bool :=
  match msgs with
  | [] => mret true
  | (meta, protos, data) :: msgs =>
    r ← TcpConnection_SendMessage true (Some meta) protos (Some data) (zlen data);
    rs ← send_all msgs;
    mret (r && rs)
  end.

(** ** The older interfaces, which take a whole [CommMessage] *)
Context {C : Type} `{Protobuf C}.
Context (pb_meta : C -> A) (comm_data : C -> list Z).

(** [TcpClient::SendMessage(message)]; the size goes through an [int]. *)
Definition TcpClient_SendComm (bev : bool) (message : C) : M bufferevent bool :=
  _ ← exception_if_null bev;
  _ ← bufferevent_lock;
  buf_size ← IntToUint (i32 (ByteSizeLong message));
  meta_size ← SizeToUint (ByteSizeLong (pb_meta message));
  let header := mkMessageHeader (Protos_num PROTOBUF) meta_size buf_size in
  r1 ← bufferevent_write (header_bytes header) 16;
  r2 ← bufferevent_write (SerializeAsString (pb_meta message)) meta_size;
  r3 ← bufferevent_write (comm_data message) (zlen (comm_data message));
  _ ← bufferevent_unlock;
  mret (negb (r1 =? -1) && negb (r2 =? -1) && negb (r3 =? -1)).

(** [TcpConnection::SendMessage(message)] *)
Definition TcpConnection_SendComm (bev : bool) (message : option C) : M bufferevent bool :=
  _ ← exception_if_null bev;
  match message with
  | None => throw "The pointer is null."
  | Some message =>
    _ ← bufferevent_lock;
    let buf_size := ByteSizeLong message in
    r1 ← bufferevent_write (le_bytes 8 buf_size) 8;
    r2 ← bufferevent_write (SerializeAsString message) buf_size;
    _ ← bufferevent_unlock;
    mret (negb (r1 =? -1) && negb (r2 =? -1))
  end.
End send.

(** ** Properties *)
Section properties.
Context {A : Type} `{ProtobufLaws A}.
Context (evbuffer_add : list Z -> list Z -> option (list Z)).
(** A successful write appends. *)
Context (evbuffer_add_appends :
  forall out d out', evbuffer_add out d = Some out' -> out' = out ++ d).

(** The bytes of a message on the wire. *)
Definition frame (meta : A) (protos : Protos) (data : list Z) : list Z :=
  header_bytes (mkMessageHeader (Protos_num protos) (zlen (SerializeAsString meta))
                  (zlen data + zlen (SerializeAsString meta)))
    ++ SerializeAsString meta ++ data.

Definition size_ok (max_alloc : Z) (meta : A) (data : list Z) : Prop :=
  zlen (SerializeAsString meta) <= INT_MAX /\
  0 < zlen data + zlen (SerializeAsString meta) <= max_alloc.

(** A write either appends all its bytes or fails and changes nothing. *)
Definition written (ptr : list Z) (b : bufferevent) (r : Z) (b' : bufferevent) : Prop :=
  locked b' = locked b /\
  ((r = 0 /\ output b' = output b ++ ptr) \/
   (r = -1 /\ b' = b /\ evbuffer_add (output b) ptr = None)).

Lemma bufferevent_write_spec ptr size b :
  size = zlen ptr ->
  exists r b', bufferevent_write evbuffer_add ptr size b = Ret r b' /\ written ptr b r b'.
Proof.
  intros ->. unfold bufferevent_write, written.
  destruct (Z.gtb_spec (zlen ptr) (zlen ptr)); [lia|]. rewrite ztake_all by done.
  destruct (evbuffer_add (output b) ptr) as [out|] eqn:E; do 2 eexists; (split; [done|]).
  - split; [done|]. left. split; [done|]. by apply evbuffer_add_appends.
  - split; [done|]. by right.
Qed.

(** Three writes in a row: the common part of the senders. *)
Lemma three_writes p1 p2 p3 s1 s2 s3 b :
  s1 = zlen p1 -> s2 = zlen p2 -> s3 = zlen p3 ->
  exists r b', (r1 ← bufferevent_write evbuffer_add p1 s1;
                r2 ← bufferevent_write evbuffer_add p2 s2;
                r3 ← bufferevent_write evbuffer_add p3 s3;
                _ ← bufferevent_unlock;
                mret (negb (r1 =? -1) && negb (r2 =? -1) && negb (r3 =? -1))) b = Ret r b' /\
    locked b' = locked b - 1 /\
    (r = true -> output b' = output b ++ p1 ++ p2 ++ p3) /\
    ((forall out d, is_Some (evbuffer_add out d)) -> r = true).
Proof.
  intros H1 H2 H3.
  destruct (bufferevent_write_spec p1 s1 b H1) as (r1 & b1 & E1 & L1 & C1).
  rewrite (bind_Ret _ _ _ _ _ E1).
  destruct (bufferevent_write_spec p2 s2 b1 H2) as (r2 & b2 & E2 & L2 & C2).
  rewrite (bind_Ret _ _ _ _ _ E2).
  destruct (bufferevent_write_spec p3 s3 b2 H3) as (r3 & b3 & E3 & L3 & C3).
  rewrite (bind_Ret _ _ _ _ _ E3).
  eexists _, _. split; [done|]. cbn [locked output]. split; [lia|].
  destruct C1 as [[-> C1]|(-> & _ & C1)], C2 as [[-> C2]|(-> & _ & C2)],
    C3 as [[-> C3]|(-> & _ & C3)]; (split; [try done|]);
    try (intros Hs; match goal with
      | E : evbuffer_add ?o ?d = None |- _ => destruct (Hs o d); congruence end).
  - intros _. by rewrite C3, C2, C1, <- !app_assoc.
  - done.
Qed.

Lemma SendMessage_frame_spec max_alloc meta protos data b :
  max_alloc <= SIZE_MAX -> size_ok max_alloc meta data ->
  exists r b', SendMessage_frame evbuffer_add true (Some meta) protos (Some data) (zlen data) b
    = Ret r b' /\ locked b' = locked b /\
    (r = true -> output b' = output b ++ frame meta protos data) /\
    ((forall out d, is_Some (evbuffer_add out d)) -> r = true).
Proof.
  intros Hmax [Hmeta Hlen]. unfold SendMessage_frame.
  pose proof (zlen_nonneg data). pose proof (zlen_nonneg (SerializeAsString meta)).
  rewrite (bind_Ret (exception_if_null true) _ b tt b eq_refl), size_serialize.
  rewrite (bind_Ret bufferevent_lock _ b tt _ eq_refl).
  assert (in_u 32 (zlen (SerializeAsString meta))) as H32 by (unfold in_u, INT_MAX in *; lia).
  rewrite (bind_Ret _ _ _ _ _ (SizeToUint_fits _ _ H32)).
  rewrite uwrap_small by (unfold in_u, SIZE_MAX in *; lia).
  edestruct (three_writes (header_bytes (mkMessageHeader (Protos_num protos)
    (zlen (SerializeAsString meta)) (zlen data + zlen (SerializeAsString meta))))
    (SerializeAsString meta) data) as (r & b' & E & L & Hr & Hs);
    [by rewrite zlen_header_bytes|done|done|].
  exists r, b'. split; [exact E|]. cbn in L, Hr. by split_and!; [lia|..].
Qed.
(** What the receiver's callback should see for a message. *)
Definition as_delivery (m : A * Protos * list Z) : delivery A :=
  let '(meta, protos, data) := m in mkDelivery meta (Protos_num protos) data (zlen data).

Definition frame_of (m : A * Protos * list Z) : list Z :=
  let '(meta, protos, data) := m in frame meta protos data.

Definition msg_ok (max_alloc : Z) (m : A * Protos * list Z) : Prop :=
  let '(meta, _, data) := m in size_ok max_alloc meta data.

Lemma next_frame_frame max_alloc m rest :
  max_alloc <= SIZE_MAX -> msg_ok max_alloc m ->
  header_valid max_alloc (read_header (frame_of m ++ rest)) /\
  next_frame (frame_of m ++ rest) = Some (as_delivery m, rest).
Proof.
  destruct m as [[meta protos] data]. intros Hmax [Hm Hl]. cbn [frame_of as_delivery]. unfold frame.
  pose proof (zlen_nonneg data). pose proof (zlen_nonneg (SerializeAsString meta)).
  set (ser := SerializeAsString meta) in *.
  set (mh := mkMessageHeader (Protos_num protos) (zlen ser) (zlen data + zlen ser)).
  rewrite <- app_assoc.
  assert (read_header (header_bytes mh ++ (ser ++ data) ++ rest) = mh) as Hrd.
  { rewrite read_header_app by (rewrite zlen_header_bytes; done). apply read_header_bytes.
    unfold header_ok, in_u, SIZE_MAX, INT_MAX in *; cbn [mh message_proto_ message_meta_length_
      message_length_]. split_and!; [by destruct protos|by destruct protos|lia..]. }
  rewrite Hrd. split; [unfold header_valid; cbn [mh message_proto_ message_meta_length_
      message_length_]; lia|].
  pose proof (zlen_nonneg rest).
  apply next_frame_Some. rewrite Hrd, !zlen_app, zlen_header_bytes.
  unfold kHeaderLen. cbn [mh message_length_]. split_and!; [lia|lia| |].
  - rewrite zdrop_app_exact by apply zlen_header_bytes.
    rewrite ztake_app_exact by (rewrite zlen_app; lia).
    unfold frame_delivery. cbn [mh message_proto_ message_meta_length_ message_length_].
    rewrite ztake_app_exact, zdrop_app_exact by done. unfold ser.
    rewrite parse_serialize. f_equal. lia.
  - rewrite app_assoc, zdrop_app_exact; [done|]. rewrite !zlen_app, zlen_header_bytes. lia.
Qed.

Lemma decodes_frames max_alloc msgs :
  max_alloc <= SIZE_MAX -> Forall (msg_ok max_alloc) msgs ->
  decodes max_alloc (concat (frame_of <$> msgs)) (as_delivery <$> msgs) [].
Proof.
  intros Hmax. induction 1 as [|m ms Hm Hms IH]; cbn.
  { by apply decodes_end. }
  destruct (next_frame_frame max_alloc m (concat (frame_of <$> ms)) Hmax Hm) as [Hv Hn].
  by eapply decodes_frame.
Qed.

Lemma send_all_spec max_alloc msgs : forall b,
  max_alloc <= SIZE_MAX -> Forall (msg_ok max_alloc) msgs ->
  exists r b', send_all evbuffer_add msgs b = Ret r b' /\ locked b' = locked b /\
    (r = true -> output b' = output b ++ concat (frame_of <$> msgs)) /\
    ((forall out d, is_Some (evbuffer_add out d)) -> r = true).
Proof.
  induction msgs as [|[[meta protos] data] msgs IH]; intros b Hmax Hok.
  { exists true, b. cbn. by rewrite app_nil_r. }
  apply Forall_cons_1 in Hok as [Hm Hms]. cbn [send_all].
  destruct (SendMessage_frame_spec max_alloc meta protos data b Hmax Hm)
    as (r & b1 & E1 & L1 & O1 & S1).
  rewrite (bind_Ret (TcpConnection_SendMessage _ _ _ _ _ _) _ _ _ _ E1).
  destruct (IH b1 Hmax Hms) as (rs & b2 & E2 & L2 & O2 & S2).
  rewrite (bind_Ret _ _ _ _ _ E2). exists (r && rs), b2. split; [done|]. split; [lia|].
  split; [|intros; by rewrite S1, S2].
  intros [-> ->]%andb_prop. cbn. by rewrite O2, O1, <- app_assoc.
Qed.
End properties.

(** C1: round trip.  Messages sent one after the other on a connection, whose
    bytes then reach the peer cut into arbitrary chunks, are delivered to the
    peer's callback exactly: the same meta, protocol and data, once each and
    in the order they were sent.  Whenever libevent accepts the writes, the
    sends report success. *)
Theorem send_receive_roundtrip {A} `{ProtobufLaws A} evbuffer_add max_alloc junk garbage
    msgs chunks :
  (forall out d out', evbuffer_add out d = Some out' -> out' = out ++ d) ->
  (forall out d, is_Some (evbuffer_add out d)) ->
  max_alloc <= SIZE_MAX -> zlen garbage = kHeaderLen ->
  Forall (msg_ok max_alloc) msgs ->
  Forall (fun c => zlen c <= SECUREC_MEM_MAX_LEN) chunks ->
  exists b, send_all evbuffer_add msgs (mkBufferevent [] 0) = Ret true b /\ locked b = 0 /\
    (concat chunks = output b ->
     exists h, (_ ← SetCallback; receive_all max_alloc junk chunks)
                 (TcpMessageHandler_init garbage) = Ret tt h /\
       calls h = as_delivery <$> msgs /\ holds max_alloc [] h).
Proof.
  intros Happ Hacc Hmax Hg Hok Hch.
  destruct (send_all_spec evbuffer_add Happ max_alloc msgs (mkBufferevent [] 0) Hmax Hok)
    as (r & b & E & L & O & S).
  rewrite S in E, O by done. exists b. split; [done|]. split; [done|]. intros Hcut.
  rewrite O in Hcut by done. cbn in Hcut.
  rewrite (bind_Ret SetCallback _ _ tt _ eq_refl).
  match goal with |- context [receive_all _ _ _ ?h0] =>
    destruct (receive_all_holds max_alloc junk Hmax chunks h0 [] (as_delivery <$> msgs) [])
      as (h & ? & ? & ?)
  end; [done|by eapply holds_init| |by exists h].
  cbn [app]. rewrite Hcut. by apply decodes_frames.
Qed.

Lemma send_receive_roundtrip_witness :
  let add out d := Some (out ++ d) in
  let msgs := [([1; 2], PROTOBUF, [3; 4; 5]); ([6], RAW, [])] in
  exists b, send_all (A := list Z) add msgs (mkBufferevent [] 0) = Ret true b /\ locked b = 0 /\
    (concat [ztake 7 (output b); zdrop 7 (output b)] = output b ->
     exists h, (_ ← SetCallback; receive_all 1000 0 [ztake 7 (output b); zdrop 7 (output b)])
                 (TcpMessageHandler_init (replicate 16 0)) = Ret tt h /\
       calls h = [mkDelivery [1; 2] 1 [3; 4; 5] 3; mkDelivery [6] 0 [] 0] /\ holds 1000 [] h).
Proof.
  set (add out d := Some (out ++ d)).
  set (msgs := [([1; 2], PROTOBUF, [3; 4; 5]); ([6], RAW, [])]).
  destruct (send_receive_roundtrip (A := list Z) add 1000 0 (replicate 16 0) msgs
    (let out := concat (frame_of <$> msgs) in [ztake 7 out; zdrop 7 out])) as (b & E & L & R).
  - intros out d out' [= <-]. reflexivity.
  - intros out d. exists (out ++ d). reflexivity.
  - vm_compute. discriminate.
  - reflexivity.
  - repeat constructor; vm_compute; congruence.
  - repeat constructor; vm_compute; congruence.
  - assert (b = mkBufferevent (concat (frame_of <$> msgs)) 0) as ->.
    { vm_compute in E. injection E as <-. vm_compute. reflexivity. }
    exists (mkBufferevent (concat (frame_of <$> msgs)) 0).
    split; [exact E|]. split; [exact L|]. exact R.
Defined.

Lemma bind_Undef {S A B} (c : M S A) (k : A -> M S B) s w :
  c s = Undef w -> (c ≫= k) s = Undef w.
Proof. unfold mbind, M_bind. by intros ->. Qed.

(** A handler that took a header announcing an empty body overruns [header_] on
    the next byte. *)
Lemma next_byte_overruns {A} `{Protobuf A} max_alloc junk fuel buf p num
    (h : TcpMessageHandler A) b rest :
  0 <= p -> zdrop p buf = b :: rest -> num = zlen (b :: rest) -> fuel <> O ->
  remaining_length_ h = 0 -> zlen (header_ h) = kHeaderLen ->
  header_index_ h = kHeaderLen - 1 ->
  receive_loop max_alloc junk fuel buf p num h = Undef "write past the end of header_".
Proof.
  intros Hp Hd -> Hf Hr Hl Hi. destruct fuel as [|fuel]; [done|]. cbn [receive_loop].
  rewrite zlen_cons. pose proof (zlen_nonneg rest).
  destruct (Z.gtb_spec (1 + zlen rest) 0); [|lia].
  apply bind_Undef. unfold receive_header. rewrite (bind_Ret getS _ h h h eq_refl), Hr.
  cbn [Z.eqb]. change (Z.to_nat kHeaderLen) with 16%nat. cbn [header_loop].
  destruct (Z.gtb_spec (1 + zlen rest) 0); [|lia].
  rewrite (bind_Ret _ _ _ b h).
  - apply bind_Undef. unfold store_header_byte, zset. rewrite Hi, Hl. done.
  - unfold read_byte. rewrite Z.add_0_r. by destruct (zget_zdrop _ _ _ _ Hp Hd) as [-> _].
Qed.

(** A message whose meta serialises to nothing (the proto3 default message)
    and that carries no data is sent as a bare header; the receiver never
    calls back for it, and the first byte that follows makes it write past the
    end of [header_]. *)
Theorem empty_message_overruns {A} `{ProtobufLaws A} max_alloc junk garbage meta protos b rest :
  0 <= max_alloc -> zlen garbage = kHeaderLen -> SerializeAsString meta = [] ->
  let stream := frame (A := A) meta protos [] ++ b :: rest in
  (_ ← SetCallback; ReceiveMessage (A := A) max_alloc junk (Some stream) (zlen stream))
    (TcpMessageHandler_init garbage) = Undef "write past the end of header_".
Proof.
  intros Hmax Hg Hser. cbv zeta. unfold frame. rewrite Hser, !app_nil_r.
  set (mh := mkMessageHeader _ _ _). set (stream := header_bytes mh ++ b :: rest). rewrite (bind_Ret SetCallback _ _ tt _ eq_refl).
  match goal with |- context [ReceiveMessage _ _ _ _ ?h0] => set (h := h0) end.
  assert (holds max_alloc [] h) as Hh by by eapply holds_init.
  assert (zlen stream = 17 + zlen rest) as Hlen.
  { unfold stream. rewrite zlen_app, zlen_header_bytes, zlen_cons. lia. }
  pose proof (zlen_nonneg rest).
  unfold ReceiveMessage. rewrite (bind_Ret (exception_if_null _) _ h tt h) by reflexivity.
  cbn [default from_option id].
  destruct (Z.to_nat (zlen stream)) as [|fuel] eqn:Ef; [lia|]. cbn [receive_loop].
  destruct (Z.gtb_spec (zlen stream) 0); [|lia].
  unfold receive_header. rewrite bind_assoc, (bind_Ret getS _ h h h eq_refl).
  change (remaining_length_ h =? 0) with true. cbn [negb].
  destruct (header_loop_holds max_alloc junk (Z.to_nat kHeaderLen) 0 stream 0 (zlen stream) [] h)
    as [Hs|Hl]; try done.
  { destruct Hs as (h' & _ & _ & _ & Hs). rewrite zlen_nil in Hs. unfold kHeaderLen in Hs. lia. }
  destruct Hl as (h1 & p' & Hl & _ & _ & _ & Hlen1 & Hix & Hp' & _ & E).
  change (zdrop (0 + 0) stream) with stream in E. cbn [app] in E.
  apply app_inj_1 in E as [Eh Er]; [|apply Nat2Z.inj; fold (zlen (header_bytes mh));
    fold (zlen (header_ h1)); by rewrite zlen_header_bytes, Hlen1].
  unfold mbind at 1, M_bind at 1. rewrite Hl. unfold mbind at 1, M_bind at 1.
  unfold begin_message. rewrite <- Eh.
  replace (read_header (header_bytes mh)) with mh by (destruct protos; reflexivity).
  change (message_length_ mh) with 0. destruct (Z.gtb_spec 0 max_alloc); [lia|].
  cbn [mret M_ret]. eapply (next_byte_overruns _ _ _ _ p' _ _ b rest); try done.
  - by rewrite <- Er.
  - lia.
Qed.

Lemma empty_message_overruns_witness :
  let stream := frame (A := list Z) [] RAW [] ++ [5] in
  (_ ← SetCallback; ReceiveMessage (A := list Z) 1000 0 (Some stream) (zlen stream))
    (TcpMessageHandler_init (replicate 16 0)) = Undef "write past the end of header_".
Proof.
  refine (empty_message_overruns (A := list Z) 1000 0 (replicate 16 0) [] RAW 5 [] _ _ _).
  - discriminate.
  - reflexivity.
  - reflexivity.
Defined.

(** TcpClient::SendMessage(CommMessage) announces the serialised size of the
    whole CommMessage but writes its meta and data fields back to back, so the
    receiver sees one complete frame exactly when those sizes coincide. *)
Theorem TcpClient_SendComm_wire {A C} `{ProtobufLaws A} `{Protobuf C} evbuffer_add
    (pb_meta : C -> A) (comm_data : C -> list Z) message b :
  (forall out d out', evbuffer_add out d = Some out' -> out' = out ++ d) ->
  (forall out d, is_Some (evbuffer_add out d)) ->
  0 <= ByteSizeLong message <= INT_MAX -> zlen (SerializeAsString (pb_meta message)) <= INT_MAX ->
  exists b' wire,
    TcpClient_SendComm evbuffer_add pb_meta comm_data true message b = Ret true b' /\
    output b' = output b ++ wire /\ locked b' = locked b /\
    ((exists d, next_frame (A := A) wire = Some (d, [])) <->
     ByteSizeLong message =
       zlen (SerializeAsString (pb_meta message)) + zlen (comm_data message)).
Proof.
  intros Happ Hacc Hm Hmeta. unfold TcpClient_SendComm.
  set (ser := SerializeAsString (pb_meta message)) in *. pose proof (zlen_nonneg ser).
  pose proof (zlen_nonneg (comm_data message)).
  assert (i32 (ByteSizeLong message) = ByteSizeLong message) as Ei.
  { apply swrap_small; [done|]. unfold in_s, INT_MAX in *. lia. }
  rewrite (bind_Ret (exception_if_null true) _ b tt b eq_refl).
  rewrite (bind_Ret bufferevent_lock _ b tt _ eq_refl). rewrite Ei.
  rewrite (bind_Ret _ _ _ _ _ (IntToUint_fits _ _ Hm)).
  rewrite (size_serialize (pb_meta message)). fold ser.
  assert (in_u 32 (zlen ser)) as H32 by (unfold in_u, INT_MAX in *; lia).
  rewrite (bind_Ret _ _ _ _ _ (SizeToUint_fits _ _ H32)).
  set (mh := mkMessageHeader _ _ _).
  destruct (three_writes evbuffer_add Happ (header_bytes mh) ser (comm_data message) 16 (zlen ser)
    (zlen (comm_data message)) (mkBufferevent (output b) (locked b + 1)))
    as (r & b' & E & L & Hr & Hs); [by rewrite zlen_header_bytes|done|done|].
  specialize (Hs Hacc). subst r. specialize (Hr eq_refl). cbn [output locked] in L, Hr.
  exists b', (header_bytes mh ++ ser ++ comm_data message).
  split_and!; [exact E|done|lia|].
  assert (read_header (header_bytes mh ++ ser ++ comm_data message) = mh) as Hrd.
  { rewrite read_header_app by (rewrite zlen_header_bytes; done). apply read_header_bytes.
    unfold header_ok, in_u, INT_MAX in *. cbn [mh message_proto_ message_meta_length_
      message_length_]. split_and!; done || lia. }
  setoid_rewrite next_frame_Some. rewrite Hrd, !zlen_app, zlen_header_bytes.
  unfold kHeaderLen. cbn [mh message_length_]. split.
  - intros (d & _ & Hle & _ & Hnil). apply (f_equal zlen) in Hnil.
    rewrite zlen_nil, zlen_zdrop in Hnil; rewrite !zlen_app, zlen_header_bytes in *; lia.
  - intros Heq. eexists. split_and!; [lia|lia|done|]. symmetry. apply zdrop_all.
    rewrite !zlen_app, zlen_header_bytes. lia.
Qed.

Lemma TcpClient_SendComm_wire_witness :
  let add out d := Some (out ++ d) in
  exists b' wire,
    TcpClient_SendComm (A := list Z) (C := list Z) add (ztake 2) (zdrop 2) true [1; 2; 3; 4]
      (mkBufferevent [] 0) = Ret true b' /\
    output b' = [] ++ wire /\ locked b' = 0 /\
    ((exists d, next_frame (A := list Z) wire = Some (d, [])) <->
     zlen [1; 2; 3; 4] = zlen [1; 2] + zlen [3; 4]).
Proof.
  refine (TcpClient_SendComm_wire (A := list Z) (C := list Z) (fun out d => Some (out ++ d))
    (ztake 2) (zdrop 2) [1; 2; 3; 4] (mkBufferevent [] 0) _ _ _ _).
  - intros out d out' [= <-]. reflexivity.
  - intros out d. exists (out ++ d). reflexivity.
  - vm_compute. split; discriminate.
  - vm_compute. discriminate.
Defined.
