(* ===== verification/Config.v ===== *)
(** * Cluster configuration and utilities

    src/even-http/ps/core/cluster_config.{h,cc} (the static settings, as a
    record) and comm_util.{h,cc}.  POSIX [inet_addr] and [getifaddrs] and the
    random generator are arguments; the regular expression of
    [CheckIpWithRegex] is matched by a small backtracking matcher. *)
From S2P Require Import Prelude Messages.
From Stdlib Require Import Ascii.

(** ** ClusterConfig *)
Record ClusterConfig : Type := mkClusterConfig {
  worker_num_ : Z; (* uint32_t *)
  server_num_ : Z; (* uint32_t *)
  scheduler_host_ : option string; (* unique_ptr<string> *)
  scheduler_port_ : Z; (* uint16_t *)
  heartbeat_interval_ : Z; (* uint32_t, seconds *)
  heartbeat_timeout_ : Z;
  cluster_available_timeout_ : Z;
  connect_interval_ : Z; (* milliseconds *)
  scheduler_timeout_ : Z;
}.

Definition ClusterConfig_init : ClusterConfig :=
  mkClusterConfig 0 0 None 0 1 30 30000 100 (3600 * 5).

(** ** CommUtil *)
Section regex.
Implicit Types s : list ascii.

Definition in_range (lo hi c : ascii) : bool :=
  (nat_of_ascii lo <=? nat_of_ascii c)%nat && (nat_of_ascii c <=? nat_of_ascii hi)%nat.

(** A matcher maps an input to the suffixes that can be left after a match. *)
Definition rx_char (lo hi : ascii) s : list (list ascii) :=
  match s with c :: s' => if in_range lo hi c then [s'] else [] | [] => [] end.
(** [.] matches everything but a line terminator. *)
Definition rx_any s : list (list ascii) :=
  match s with
  | c :: s' => if (nat_of_ascii c =? 10)%nat || (nat_of_ascii c =? 13)%nat then [] else [s']
  | [] => []
  end.
Definition rx_seq (r1 r2 : list ascii -> list (list ascii)) s : list (list ascii) :=
  r1 s ≫= r2.
Definition rx_alt (r1 r2 : list ascii -> list (list ascii)) s : list (list ascii) :=
  r1 s ++ r2 s.
Definition rx_opt (r : list ascii -> list (list ascii)) s : list (list ascii) := r s ++ [s].

(** [25[0-5]|2[0-4][0-9]|[01]?[0-9][0-9]?] *)
Definition rx_octet : list ascii -> list (list ascii) :=
  rx_alt (rx_seq (rx_char "2" "2") (rx_seq (rx_char "5" "5") (rx_char "0" "5")))
    (rx_alt (rx_seq (rx_char "2" "2") (rx_seq (rx_char "0" "4") (rx_char "0" "9")))
       (rx_seq (rx_opt (rx_char "0" "1"))
          (rx_seq (rx_char "0" "9") (rx_opt (rx_char "0" "9"))))).

Definition rx_ip : list ascii -> list (list ascii) :=
  let part := rx_seq rx_octet rx_any in
  rx_seq part (rx_seq part (rx_seq part rx_octet)).
End regex.

Definition CheckIpWithRegex (ip : string) : bool :=
  existsb (fun rest => match rest with [] => true | _ => false end)
    (rx_ip (String.list_ascii_of_string ip)).

Definition INADDR_NONE : Z := 2 ^ 32 - 1.

Section comm_util.
(** POSIX [inet_addr]: the address in network byte order or [INADDR_NONE]. *)
Context (inet_addr : string -> Z).

Definition CheckIp (ip : string) : bool :=
  if negb (CheckIpWithRegex ip) then false
  else if inet_addr ip =? INADDR_NONE then false else true.

(** [ClusterConfig::Init]; the node numbers are set before the host is checked. *)
Definition ClusterConfig_Init (worker_num server_num : Z) (scheduler_host : string)
    (scheduler_port : Z) : M ClusterConfig unit :=
  _ ← modify (fun c => mkClusterConfig worker_num server_num (scheduler_host_ c)
    (scheduler_port_ c) (heartbeat_interval_ c) (heartbeat_timeout_ c)
    (cluster_available_timeout_ c) (connect_interval_ c) (scheduler_timeout_ c));
  _ ← (if negb (CheckIp scheduler_host) then throw "The scheduler_host is illegal!" else mret tt);
  modify (fun c => mkClusterConfig (worker_num_ c) (server_num_ c) (Some scheduler_host)
    scheduler_port (heartbeat_interval_ c) (heartbeat_timeout_ c)
    (cluster_available_timeout_ c) (connect_interval_ c) (scheduler_timeout_ c)).
End comm_util.

(** The accessors; reading the host before [Init] dereferences null. *)
Definition scheduler_host : M ClusterConfig string := fun c =>
  match scheduler_host_ c with Some h => Ret h c | None => Undef "null scheduler_host_" end.

Definition set_heartbeat_interval (heartbeat_interval : Z) : M ClusterConfig unit :=
  modify (fun c => mkClusterConfig (worker_num_ c) (server_num_ c) (scheduler_host_ c)
    (scheduler_port_ c) heartbeat_interval (heartbeat_timeout_ c)
    (cluster_available_timeout_ c) (connect_interval_ c) (scheduler_timeout_ c)).

(** It assigns the interval, not the timeout. *)
Definition set_heartbeat_timeout (heartbeat_timeout : Z) : M ClusterConfig unit :=
  modify (fun c => mkClusterConfig (worker_num_ c) (server_num_ c) (scheduler_host_ c)
    (scheduler_port_ c) heartbeat_timeout (heartbeat_timeout_ c)
    (cluster_available_timeout_ c) (connect_interval_ c) (scheduler_timeout_ c)).

Definition set_cluster_available_timeout (cluster_available_timeout : Z) : M ClusterConfig unit :=
  modify (fun c => mkClusterConfig (worker_num_ c) (server_num_ c) (scheduler_host_ c)
    (scheduler_port_ c) (heartbeat_interval_ c) (heartbeat_timeout_ c)
    cluster_available_timeout (connect_interval_ c) (scheduler_timeout_ c)).

Definition set_connect_interval (connect_interval : Z) : M ClusterConfig unit :=
  modify (fun c => mkClusterConfig (worker_num_ c) (server_num_ c) (scheduler_host_ c)
    (scheduler_port_ c) (heartbeat_interval_ c) (heartbeat_timeout_ c)
    (cluster_available_timeout_ c) connect_interval (scheduler_timeout_ c)).

Definition set_scheduler_timeout (scheduler_timeout : Z) : M ClusterConfig unit :=
  modify (fun c => mkClusterConfig (worker_num_ c) (server_num_ c) (scheduler_host_ c)
    (scheduler_port_ c) (heartbeat_interval_ c) (heartbeat_timeout_ c)
    (cluster_available_timeout_ c) (connect_interval_ c) scheduler_timeout).

(** An entry of the list [getifaddrs] returns: the IPv4 address as text when
    there is one, the flags and the name. *)
Record ifaddr : Type := mkIfaddr {
  ifa_addr : bool; (* non-null *)
  ifa_inet : option string; (* AF_INET, and what inet_ntop gives *)
  ifa_loopback : bool;
  ifa_name : string;
}.

(** The [for] loop: the first usable entry. *)
Fixpoint first_interface (l : list ifaddr) : string * string :=
  match l with
  | [] => (""%string, ""%string)
  | ifa :: l =>
    if negb (ifa_addr ifa) then first_interface l
    else match ifa_inet ifa with
         | Some a => if negb (ifa_loopback ifa) then (ifa_name ifa, a) else first_interface l
         | None => first_interface l
         end
  end.

(** An empty list is a null [if_address]. *)
Definition GetAvailableInterfaceAndIP {S} (if_address : list ifaddr) : M S (string * string) :=
  let r := first_interface if_address in
  _ ← exception_if_null (negb (bool_decide (if_address = [])));
  mret r.

(** [ss << std::hex << d] for one draw. *)
Definition hex_digit (d : Z) : ascii :=
  default "0"%char (String.list_ascii_of_string "0123456789abcdef" !! Z.to_nat d).

(** [dis n] and [dis2 n] are the draws of the two distributions made as the
    [n]-th draw of the call. *)
Definition draws (dis : nat -> Z) (from n : nat) : list ascii :=
  (fun i => hex_digit (dis i)) <$> seq from n.

Definition GenerateUUID (dis dis2 : nat -> Z) : string :=
  String.string_of_list_ascii (draws dis 0 8 ++ ["-"%char] ++ draws dis 8 4 ++ ["-"%char; "4"%char]
    ++ draws dis 12 3 ++ ["-"%char] ++ [hex_digit (dis2 15%nat)] ++ draws dis 16 3
    ++ ["-"%char] ++ draws dis 19 12).

Definition NodeRoleToString (r : NodeRole) : string :=
  match r with
  | SCHEDULER => "SCHEDULER" | SERVER => "SERVER" | WORKER => "WORKER"
  end%string.

(** [rank_id > server_num() - 1] in [uint32_t]. *)
Definition ValidateRankId (c : ClusterConfig) (node_role : NodeRole) (rank_id : Z) : bool :=
  if bool_decide (node_role = SERVER) && (rank_id >? u32 (server_num_ c - 1)) then false
  else if bool_decide (node_role = WORKER) && (rank_id >? u32 (worker_num_ c - 1)) then false
  else true.

(** [n] attempts are left. *)
Fixpoint retry_loop {S} (func : M S bool) (n : nat) : M S bool :=
  match n with
  | O => mret false
  | S n => b ← func; if (b : bool) then mret true else retry_loop func n
  end.
Definition Retry {S} (func : M S bool) (max_attempts : Z) : M S bool :=
  retry_loop func (Z.to_nat max_attempts).

(** ** Properties *)

(** Decimal text of an octet. *)
Definition digit (n : nat) : ascii := ascii_of_nat (48 + n).
Definition octet_text (n : nat) : list ascii :=
  if (n <? 10)%nat then [digit n]
  else if (n <? 100)%nat then [digit (n / 10); digit (n mod 10)]
  else [digit (n / 100); digit (n / 10 mod 10); digit (n mod 10)].

Lemma rx_seq_intro r1 r2 s s1 s2 : s1 ∈ r1 s -> s2 ∈ r2 s1 -> s2 ∈ rx_seq r1 r2 s.
Proof. intros H1 H2. apply list_elem_of_bind. by exists s1. Qed.

Lemma rx_char_intro lo hi c s : in_range lo hi c = true -> s ∈ rx_char lo hi (c :: s).
Proof. cbn. intros ->. by apply list_elem_of_singleton. Qed.
Lemma rx_alt_l r1 r2 s s' : s' ∈ r1 s -> s' ∈ rx_alt r1 r2 s.
Proof. intros. apply elem_of_app. by left. Qed.
Lemma rx_alt_r r1 r2 s s' : s' ∈ r2 s -> s' ∈ rx_alt r1 r2 s.
Proof. intros. apply elem_of_app. by right. Qed.
Lemma rx_opt_none r s : s ∈ rx_opt r s.
Proof. apply elem_of_app. right. by apply list_elem_of_singleton. Qed.
Lemma rx_opt_some r s s' : s' ∈ r s -> s' ∈ rx_opt r s.
Proof. intros. apply elem_of_app. by left. Qed.
Lemma rx_any_dot s : s ∈ rx_any ("."%char :: s).
Proof. by apply list_elem_of_singleton. Qed.

#[local] Ltac rx_digit := apply rx_char_intro; reflexivity.

(** Every number below 256, one by one, with the rest of the input symbolic. *)
Lemma rx_octet_text n rest : (n < 256)%nat -> rest ∈ rx_octet (octet_text n ++ rest).
Proof.
  intros Hn. unfold rx_octet.
  do 256 (destruct n as [|n]; [cbn [octet_text app Nat.ltb Nat.leb];
    first [ apply rx_alt_l; do 2 (eapply rx_seq_intro; [rx_digit|]); rx_digit
          | apply rx_alt_r, rx_alt_l; do 2 (eapply rx_seq_intro; [rx_digit|]); rx_digit
          | do 2 apply rx_alt_r;
            first [ eapply rx_seq_intro; [apply rx_opt_some; rx_digit|];
                    eapply rx_seq_intro; [rx_digit|apply rx_opt_some; rx_digit]
                  | eapply rx_seq_intro; [apply rx_opt_none|];
                    eapply rx_seq_intro; [rx_digit|apply rx_opt_some; rx_digit]
                  | eapply rx_seq_intro; [apply rx_opt_none|];
                    eapply rx_seq_intro; [rx_digit|apply rx_opt_none] ] ]|]).
  lia.
Qed.

(** CheckIpWithRegex accepts every IPv4 address in dotted decimal. *)
Theorem CheckIpWithRegex_dotted a b c d :
  (a < 256)%nat -> (b < 256)%nat -> (c < 256)%nat -> (d < 256)%nat ->
  CheckIpWithRegex (String.string_of_list_ascii
    (octet_text a ++ "."%char :: octet_text b ++ "."%char :: octet_text c ++ "."%char
       :: octet_text d ++ [])) = true.
Proof.
  intros Ha Hb Hc Hd. unfold CheckIpWithRegex. apply existsb_exists. exists []. split; [|done].
  rewrite String.list_ascii_of_string_of_list_ascii. apply list_elem_of_In. unfold rx_ip.
  do 3 (eapply rx_seq_intro; [eapply rx_seq_intro; [by apply rx_octet_text|apply rx_any_dot]|]).
  by apply rx_octet_text.
Qed.

Lemma CheckIpWithRegex_dotted_witness :
  CheckIpWithRegex "127.0.0.1" = true /\ CheckIpWithRegex "192.168.10.255" = true.
Proof.
  split.
  - apply (CheckIpWithRegex_dotted 127 0 0 1); lia.
  - apply (CheckIpWithRegex_dotted 192 168 10 255); lia.
Defined.

(** The dots of the pattern are not escaped: digits alone pass. *)
Lemma CheckIpWithRegex_digits : CheckIpWithRegex "1234567" = true.
Proof. reflexivity. Qed.

(** The shape of a random (version 4, variant 1) UUID in lower case. *)
Definition is_hex (c : ascii) : bool := in_range "0" "9" c || in_range "a" "f" c.
Definition uuid_char (i : nat) (c : ascii) : bool :=
  match i with
  | 8%nat | 13%nat | 18%nat | 23%nat => Ascii.eqb c "-"
  | 14%nat => Ascii.eqb c "4"
  | 19%nat => in_range "8" "9" c || in_range "a" "b" c
  | _ => is_hex c
  end.
Definition uuid_v4 (u : string) : bool :=
  (String.length u =? 36)%nat &&
  forallb (fun p => uuid_char p.1 p.2) (zip (seq 0 36) (String.list_ascii_of_string u)).

Lemma hex_digit_hex d : is_hex (hex_digit d) = true.
Proof.
  assert (Forall (fun c => is_hex c = true) (String.list_ascii_of_string "0123456789abcdef"))
    as F by by repeat constructor.
  unfold hex_digit. destruct (_ !! Z.to_nat d) as [c|] eqn:E; [|done].
  exact (Forall_lookup_1 _ _ _ _ F E).
Qed.

Lemma hex_digit_variant d :
  8 <= d <= 11 -> in_range "8" "9" (hex_digit d) || in_range "a" "b" (hex_digit d) = true.
Proof.
  intros Hd. assert (d = 8 \/ d = 9 \/ d = 10 \/ d = 11) as [-> | [-> | [-> | ->]]] by lia; done.
Qed.

(** GenerateUUID produces a well-formed version 4 UUID for every outcome of
    the generator: 36 characters, the dashes, the version digit and the
    variant digit in place, lower-case hexadecimal digits elsewhere. *)
Theorem GenerateUUID_v4 dis dis2 :
  (forall n, 8 <= dis2 n <= 11) -> uuid_v4 (GenerateUUID dis dis2) = true.
Proof.
  intros H2. unfold uuid_v4, GenerateUUID. rewrite String.list_ascii_of_string_of_list_ascii.
  apply andb_true_intro. split; [reflexivity|].
  unfold draws. cbn [seq fmap list_fmap app zip_with forallb fst snd uuid_char].
  by rewrite !hex_digit_hex, hex_digit_variant by apply H2.
Qed.

Lemma GenerateUUID_v4_witness :
  uuid_v4 (GenerateUUID (fun n => Z.of_nat n mod 16) (fun _ => 10)) = true.
Proof. apply GenerateUUID_v4. lia. Defined.

(** ValidateRankId accepts exactly the ranks below the configured number of
    nodes of the role, and every rank when that number is 0, since the bound
    is computed in unsigned arithmetic; a scheduler is never refused. *)
Theorem ValidateRankId_spec c role rank_id :
  in_u 32 (server_num_ c) -> in_u 32 (worker_num_ c) -> in_u 32 rank_id ->
  ValidateRankId c role rank_id = true <->
  match role with
  | SERVER => rank_id < server_num_ c \/ server_num_ c = 0
  | WORKER => rank_id < worker_num_ c \/ worker_num_ c = 0
  | SCHEDULER => True
  end.
Proof.
  intros Hs Hw Hr. unfold ValidateRankId.
  assert (forall n, in_u 32 n -> (rank_id >? u32 (n - 1)) = false <-> rank_id < n \/ n = 0) as E.
  { intros n Hn. unfold in_u in *. destruct (Z.eq_dec n 0) as [->|].
    - change (u32 (0 - 1)) with (2 ^ 32 - 1). rewrite Z.gtb_ltb, Z.ltb_ge. lia.
    - rewrite uwrap_small by (unfold in_u; lia). rewrite Z.gtb_ltb, Z.ltb_ge. lia. }
  destruct role; repeat case_bool_decide; try done; cbn [andb];
    rewrite <- E by done; by destruct (_ >? _).
Qed.

Lemma ValidateRankId_spec_witness :
  let c := mkClusterConfig 2 0 None 0 1 30 30000 100 18000 in
  ValidateRankId c WORKER 1 = true /\ ValidateRankId c WORKER 2 <> true /\
  ValidateRankId c SERVER 77 = true.
Proof.
  set (c := mkClusterConfig 2 0 None 0 1 30 30000 100 18000).
  split_and!.
  - apply (ValidateRankId_spec c WORKER 1); unfold in_u; cbn; lia.
  - intros H. apply (ValidateRankId_spec c WORKER 2) in H; unfold in_u in *; cbn in *; lia.
  - apply (ValidateRankId_spec c SERVER 77); unfold in_u; cbn; lia.
Defined.

(** [k] calls of [func] that return false. *)
Fixpoint fails {S} (func : M S bool) (k : nat) (s s' : S) : Prop :=
  match k with
  | O => s' = s
  | Datatypes.S k => exists s1, func s = Ret false s1 /\ fails func k s1 s'
  end.

(** A call that does not return. *)
Lemma no_attempt {S} (func : M S bool) n s s' (o : outcome S bool) :
  func s = o -> (forall b s1, o <> Ret b s1) ->
  (o = Ret true s' <->
   exists k s1, (k < n)%nat /\ fails func k s s1 /\ func s1 = Ret true s') /\
  (o = Ret false s' <-> exists s1, o = Ret false s1 /\ fails func (Nat.pred n) s1 s').
Proof.
  intros E Ho. split; split; intros Hx; try (by apply Ho in Hx).
  - destruct Hx as ([|k] & s1 & _ & Hf & Hx); cbn in Hf.
    + subst. by apply Ho in Hx.
    + destruct Hf as (? & Hf & _). rewrite E in Hf. by apply Ho in Hf.
  - destruct Hx as (? & Hx & _). by apply Ho in Hx.
Qed.

(** Retry calls the function until it first succeeds and at most
    [max_attempts] times: it returns true exactly when one of these attempts
    does, with the effects of the calls made up to then, and false exactly
    when all of them fail. *)
Theorem Retry_spec {S} (func : M S bool) max_attempts s s' :
  (Retry func max_attempts s = Ret true s' <->
   exists k s1, Z.of_nat k < max_attempts /\ fails func k s s1 /\ func s1 = Ret true s') /\
  (Retry func max_attempts s = Ret false s' <-> fails func (Z.to_nat max_attempts) s s').
Proof.
  unfold Retry. assert (forall k, Z.of_nat k < max_attempts <-> (k < Z.to_nat max_attempts)%nat)
    as Hk by lia.
  setoid_rewrite Hk. clear Hk. generalize (Z.to_nat max_attempts) as n. intros n.
  revert s. induction n as [|n IH]; intros s; cbn [retry_loop fails].
  - split; split; [done|intros (? & ? & ? & _); lia|by intros [= ->]|by intros ->].
  - unfold mbind, M_bind. destruct (func s) as [[] s1| | |] eqn:E; cbn; cycle 1.
    + destruct (IH s1) as [IH1 IH2]. rewrite IH1, IH2. split; split.
      * intros (k & s2 & ? & ? & ?). exists (Datatypes.S k), s2. split_and!; [lia| |done]. by exists s1.
      * intros ([|k] & s2 & ? & Hf & ?); cbn in Hf; [subst; congruence|].
        destruct Hf as (s3 & E3 & ?). rewrite E in E3. injection E3 as <-.
        exists k, s2. split_and!; [lia|done|done].
      * intros ?. by exists s1.
      * intros (s2 & ? & ?). by simplify_eq.
    + by apply no_attempt.
    + by apply no_attempt.
    + by apply no_attempt.
    + split; split; try done.
      * intros [= <-]. exists O, s. split_and!; [lia|done|done].
      * intros ([|k] & s2 & _ & Hf & H2); cbn in Hf; [by rewrite Hf, E in H2|].
        destruct Hf as (? & ? & _). congruence.
      * intros (? & ? & _). congruence.
Qed.

(** ClusterConfig::Init refuses a host that is not an address, but only after it
    changed the numbers of nodes. *)
Lemma ClusterConfig_Init_spec inet_addr wn sn host port c :
  ClusterConfig_Init inet_addr wn sn host port c =
    if CheckIp inet_addr host
    then Ret tt (mkClusterConfig wn sn (Some host) port (heartbeat_interval_ c)
           (heartbeat_timeout_ c) (cluster_available_timeout_ c) (connect_interval_ c)
           (scheduler_timeout_ c))
    else Throw "The scheduler_host is illegal!" (mkClusterConfig wn sn (scheduler_host_ c)
           (scheduler_port_ c) (heartbeat_interval_ c) (heartbeat_timeout_ c)
           (cluster_available_timeout_ c) (connect_interval_ c) (scheduler_timeout_ c)).
Proof. unfold ClusterConfig_Init. mrun. by destruct (CheckIp inet_addr host). Qed.
