(* ===== verification/NodeManager.v ===== *)
(** * Node manager

    src/even-http/ps/core/node_manager.{h,cc}: the scheduler's table of nodes,
    rank assignment, heartbeats, and the state of the cluster.

    The unordered containers are [gmap] and [gset]; a loop over one is a fold
    over its elements and no property depends on their order.  [operator[]]
    inserts a default node where the key is missing, as in C++.  The clock and
    the configuration are arguments. *)
From S2P Require Import Prelude Convert Messages Config.

Record NodeManager : Type := mkNodeManager {
  is_cluster_ready_ : bool;
  is_cluster_finish_ : bool;
  is_cluster_timeout_ : bool;
  is_node_timeout_ : bool;
  total_node_num_ : Z; (* uint32_t *)
  current_node_num_ : Z; (* int32_t *)
  next_worker_rank_id_ : Z; (* atomic<int> *)
  next_server_rank_id_ : Z; (* atomic<int> *)
  nodes_info_ : gmap string NodeInfo;
  heartbeats_ : gmap string Z; (* seconds of the last heartbeat *)
  heartbeats_finish_nodes_ : gset string;
  timeout_nodes_info_ : gmap string NodeInfo;
  finish_nodes_id_ : gset string;
}.

Definition NodeManager_init : NodeManager :=
  mkNodeManager false false false false 0 (-1) (-1) (-1) ∅ ∅ ∅ ∅ ∅.

(** Field updates. *)
Definition set_nodes (f : gmap string NodeInfo -> gmap string NodeInfo) (m : NodeManager)
    : NodeManager :=
  mkNodeManager (is_cluster_ready_ m) (is_cluster_finish_ m) (is_cluster_timeout_ m)
    (is_node_timeout_ m) (total_node_num_ m) (current_node_num_ m) (next_worker_rank_id_ m)
    (next_server_rank_id_ m) (f (nodes_info_ m)) (heartbeats_ m) (heartbeats_finish_nodes_ m)
    (timeout_nodes_info_ m) (finish_nodes_id_ m).
Definition set_heartbeats (f : gmap string Z -> gmap string Z) (m : NodeManager) : NodeManager :=
  mkNodeManager (is_cluster_ready_ m) (is_cluster_finish_ m) (is_cluster_timeout_ m)
    (is_node_timeout_ m) (total_node_num_ m) (current_node_num_ m) (next_worker_rank_id_ m)
    (next_server_rank_id_ m) (nodes_info_ m) (f (heartbeats_ m)) (heartbeats_finish_nodes_ m)
    (timeout_nodes_info_ m) (finish_nodes_id_ m).
Definition set_hb_finish (f : gset string -> gset string) (m : NodeManager) : NodeManager :=
  mkNodeManager (is_cluster_ready_ m) (is_cluster_finish_ m) (is_cluster_timeout_ m)
    (is_node_timeout_ m) (total_node_num_ m) (current_node_num_ m) (next_worker_rank_id_ m)
    (next_server_rank_id_ m) (nodes_info_ m) (heartbeats_ m) (f (heartbeats_finish_nodes_ m))
    (timeout_nodes_info_ m) (finish_nodes_id_ m).
Definition set_timeout_nodes (f : gmap string NodeInfo -> gmap string NodeInfo) (m : NodeManager)
    : NodeManager :=
  mkNodeManager (is_cluster_ready_ m) (is_cluster_finish_ m) (is_cluster_timeout_ m)
    (is_node_timeout_ m) (total_node_num_ m) (current_node_num_ m) (next_worker_rank_id_ m)
    (next_server_rank_id_ m) (nodes_info_ m) (heartbeats_ m) (heartbeats_finish_nodes_ m)
    (f (timeout_nodes_info_ m)) (finish_nodes_id_ m).
Definition set_finish_nodes (f : gset string -> gset string) (m : NodeManager) : NodeManager :=
  mkNodeManager (is_cluster_ready_ m) (is_cluster_finish_ m) (is_cluster_timeout_ m)
    (is_node_timeout_ m) (total_node_num_ m) (current_node_num_ m) (next_worker_rank_id_ m)
    (next_server_rank_id_ m) (nodes_info_ m) (heartbeats_ m) (heartbeats_finish_nodes_ m)
    (timeout_nodes_info_ m) (f (finish_nodes_id_ m)).
Definition set_next_ranks (worker server : Z) (m : NodeManager) : NodeManager :=
  mkNodeManager (is_cluster_ready_ m) (is_cluster_finish_ m) (is_cluster_timeout_ m)
    (is_node_timeout_ m) (total_node_num_ m) (current_node_num_ m) worker server (nodes_info_ m)
    (heartbeats_ m) (heartbeats_finish_nodes_ m) (timeout_nodes_info_ m) (finish_nodes_id_ m).
Definition set_numbers (total current : Z) (m : NodeManager) : NodeManager :=
  mkNodeManager (is_cluster_ready_ m) (is_cluster_finish_ m) (is_cluster_timeout_ m)
    (is_node_timeout_ m) total current (next_worker_rank_id_ m)
    (next_server_rank_id_ m) (nodes_info_ m) (heartbeats_ m) (heartbeats_finish_nodes_ m)
    (timeout_nodes_info_ m) (finish_nodes_id_ m).
Definition set_flags (ready finish timeout : bool) (m : NodeManager) : NodeManager :=
  mkNodeManager ready finish timeout
    (is_node_timeout_ m) (total_node_num_ m) (current_node_num_ m) (next_worker_rank_id_ m)
    (next_server_rank_id_ m) (nodes_info_ m) (heartbeats_ m) (heartbeats_finish_nodes_ m)
    (timeout_nodes_info_ m) (finish_nodes_id_ m).

(** Computes the fields of a manager after updates. *)
Ltac nmcbn := cbn [is_cluster_ready_ is_cluster_finish_ is_cluster_timeout_ is_node_timeout_
  total_node_num_ current_node_num_ next_worker_rank_id_ next_server_rank_id_ nodes_info_
  heartbeats_ heartbeats_finish_nodes_ timeout_nodes_info_ finish_nodes_id_ set_nodes
  set_heartbeats set_hb_finish set_timeout_nodes set_finish_nodes set_next_ranks set_numbers
  set_flags rank_id_ node_role_ node_id_ ip_ port_] in *.

(** ** Operations *)
Definition InitNodeNum (c : ClusterConfig) : M NodeManager unit :=
  modify (fun m => set_numbers (u32 (server_num_ c + worker_num_ c)) (current_node_num_ m) m).

(** [nodes_info_[node_id]] as an expression: it inserts a default node. *)
Definition node_at (node_id : string) : M NodeManager NodeInfo := fun m =>
  match nodes_info_ m !! node_id with
  | Some n => Ret n m
  | None => Ret NodeInfo_default (set_nodes (insert node_id NodeInfo_default) m)
  end.

Definition NextRankId (register_message : RegisterMessage) : M NodeManager Z :=
  m ← getS;
  let node_id := reg_node_id register_message in
  match nodes_info_ m !! node_id with
  | Some n => mret (i32 (rank_id_ n))
  | None =>
    match reg_role register_message with
    | SERVER =>
      let port := u32 (reg_port register_message) in
      let rank_id := i32 (next_server_rank_id_ m + 1) in
      _ ← modify (set_next_ranks (next_worker_rank_id_ m) rank_id);
      let node_info := mkNodeInfo (reg_ip register_message) (u16 port) node_id SERVER
                         (u32 rank_id) in
      _ ← modify (set_nodes (insert node_id node_info));
      mret rank_id
    | WORKER =>
      let rank_id := i32 (next_worker_rank_id_ m + 1) in
      _ ← modify (set_next_ranks rank_id (next_server_rank_id_ m));
      let node_info := mkNodeInfo (ip_ NodeInfo_default) (port_ NodeInfo_default) node_id WORKER
                         (u32 rank_id) in
      _ ← modify (set_nodes (insert node_id node_info));
      mret rank_id
    | SCHEDULER => mret (-1)
    end
  end.

(** [now] is [current_time.tv_sec]. *)
Definition UpdateHeartbeat (now : Z) (node_id : string) : M NodeManager unit :=
  _ ← node_at node_id;
  modify (set_heartbeats (insert node_id now)).

Definition UpdateNodeFinishState (node_id : string) : M NodeManager unit :=
  modify (set_hb_finish (fun s => {[node_id]} ∪ s)).

Definition CheckNodesFinishState (m : NodeManager) : bool :=
  Z.of_nat (size (heartbeats_finish_nodes_ m)) =? Z.of_nat (size (nodes_info_ m)).

Definition servers_meta_of (n : NodeInfo) : ServersMeta :=
  mkServersMeta (i32 (rank_id_ n)) (ip_ n) (port_ n).

Definition FetchServersMeta (m : NodeManager) : list ServersMeta :=
  foldl (fun l p => if bool_decide (node_role_ p.2 = SERVER) then l ++ [servers_meta_of p.2] else l)
    [] (map_to_list (nodes_info_ m)).

(** Lines 94-99. *)
Definition note_timeout (c : ClusterConfig) (now : Z) (p : string * Z) : M NodeManager unit :=
  if p.2 + heartbeat_timeout_ c <? now then
    n ← node_at p.1;
    modify (set_timeout_nodes (insert p.1 n))
  else mret tt.

Fixpoint note_timeouts (c : ClusterConfig) (now : Z) (l : list (string * Z)) : M NodeManager unit :=
  match l with
  | [] => mret tt
  | p :: l => _ ← note_timeout c now p; note_timeouts c now l
  end.

Definition UpdateClusterState (c : ClusterConfig) (now : Z) : M NodeManager unit :=
  (* 1. update cluster timeout state *)
  _ ← modify (set_timeout_nodes (fun _ => ∅));
  m ← getS;
  _ ← note_timeouts c now (map_to_list (heartbeats_ m));
  _ ← modify (fun m =>
    if bool_decide (timeout_nodes_info_ m = ∅) then m
    else set_finish_nodes (fun s => dom (timeout_nodes_info_ m) ∪ s)
           (set_flags (is_cluster_ready_ m) (is_cluster_finish_ m) true m));
  (* 2. update cluster finish state *)
  m ← getS;
  let n := Z.of_nat (size (finish_nodes_id_ m)) in
  done ← (if n =? total_node_num_ m then mret true
          else k ← SizeToInt n; mret (k =? current_node_num_ m));
  _ ← modify (fun m => if (done : bool) then set_flags true true (is_cluster_timeout_ m) m else m);
  (* 3. update cluster ready state *)
  modify (fun m =>
    if Z.of_nat (size (nodes_info_ m)) =? total_node_num_ m
    then set_flags true (is_cluster_finish_ m) (is_cluster_timeout_ m) m else m).

Definition CheckClusterTimeout : M NodeManager unit :=
  modify (fun m =>
    let n := Z.of_nat (size (nodes_info_ m)) in
    if negb (total_node_num_ m =? n)
    then set_flags (is_cluster_ready_ m) (is_cluster_finish_ m) true
           (set_numbers (total_node_num_ m) (i32 n) m)
    else m).

Definition AddFinishNode (finish_message : FinishMessage) : M NodeManager unit :=
  modify (set_finish_nodes (fun s => {[fin_node_id finish_message]} ∪ s)).

Definition set_cluster_timeout (is_cluster_timeout : bool) : M NodeManager unit :=
  modify (fun m => set_flags (is_cluster_ready_ m) (is_cluster_finish_ m) is_cluster_timeout m).

(** ** Nodes that have not registered *)

(** The nodes that are neither servers nor workers are those [operator[]] has
    inserted: they have rank 0 and no id, address or port. *)
Definition defaults (m : NodeManager) : Prop :=
  map_Forall (fun _ n => node_role_ n = SCHEDULER -> n = NodeInfo_default) (nodes_info_ m).

Lemma node_at_defaults id : keeps defaults (node_at id).
Proof.
  intros m Hm. unfold node_at. destruct (nodes_info_ m !! id); [done|]. by apply map_Forall_insert_2.
Qed.

Lemma NextRankId_defaults r : keeps defaults (NextRankId r).
Proof.
  apply keeps_get_bind. intros m Hm. cbv zeta. destruct (nodes_info_ m !! reg_node_id r); [done|].
  destruct (reg_role r); [..|done]; by apply map_Forall_insert_2.
Qed.

Lemma UpdateHeartbeat_defaults now id : keeps defaults (UpdateHeartbeat now id).
Proof. apply keeps_bind; [apply node_at_defaults|]. intros _. by apply keeps_modify. Qed.

Lemma note_timeouts_defaults c now l : keeps defaults (note_timeouts c now l).
Proof.
  induction l as [|p l IH]; [apply keeps_ret|]. apply keeps_bind; [|done]. unfold note_timeout.
  destruct (_ <? _); [|apply keeps_ret]. apply keeps_bind; [apply node_at_defaults|]. intros n. by apply keeps_modify.
Qed.

Lemma UpdateClusterState_defaults c now : keeps defaults (UpdateClusterState c now).
Proof.
  apply keeps_bind; [by apply keeps_modify|]. intros _. apply keeps_bind; [apply keeps_get|]. intros m0.
  apply keeps_bind; [apply note_timeouts_defaults|]. intros _.
  apply keeps_bind; [apply keeps_modify; intros m; by case_bool_decide|]. intros _.
  apply keeps_bind; [apply keeps_get|]. intros m1. apply keeps_bind.
  { destruct (_ =? _); [apply keeps_ret|]. apply keeps_bind; [|intros; apply keeps_ret].
    unfold SizeToInt. destruct (_ >? _); [apply keeps_throw|apply keeps_ret]. }
  intros b. apply keeps_bind; [apply keeps_modify; by destruct b|].
  intros _. apply keeps_modify. intros m. by case_match.
Qed.

Lemma CheckClusterTimeout_defaults : keeps defaults CheckClusterTimeout.
Proof. apply keeps_modify. intros m. cbv zeta. by destruct (negb _). Qed.

#[export] Hint Resolve NextRankId_defaults UpdateHeartbeat_defaults UpdateClusterState_defaults
  CheckClusterTimeout_defaults : rpc.

(** ** Invariant *)

(** The nodes of [r] in the table carry exactly the ranks 0 .. [next], one each,
    and are stored under their own id. *)
Record rank_table (r : NodeRole) (next : Z) (nodes : gmap string NodeInfo) : Prop := {
  rt_node id n : nodes !! id = Some n -> node_role_ n = r ->
    0 <= rank_id_ n <= next /\ node_id_ n = id;
  rt_inj id id' n n' : nodes !! id = Some n -> nodes !! id' = Some n' ->
    node_role_ n = r -> node_role_ n' = r -> rank_id_ n = rank_id_ n' -> id = id';
  rt_all k : 0 <= k <= next ->
    exists id n, nodes !! id = Some n /\ node_role_ n = r /\ rank_id_ n = k;
}.

Definition next_rank (r : NodeRole) (m : NodeManager) : Z :=
  match r with
  | SERVER => next_server_rank_id_ m
  | WORKER => next_worker_rank_id_ m
  | SCHEDULER => -1
  end.

Definition num_nodes (m : NodeManager) : Z := Z.of_nat (size (nodes_info_ m)).

Record wf (m : NodeManager) : Prop := {
  wf_servers : rank_table SERVER (next_server_rank_id_ m) (nodes_info_ m);
  wf_workers : rank_table WORKER (next_worker_rank_id_ m) (nodes_info_ m);
  wf_next : -1 <= next_server_rank_id_ m /\ -1 <= next_worker_rank_id_ m;
  wf_count : next_server_rank_id_ m + next_worker_rank_id_ m + 2 <= num_nodes m;
  wf_heartbeats id : is_Some (heartbeats_ m !! id) -> is_Some (nodes_info_ m !! id);
}.

Lemma rank_table_insert_new r next nodes id n :
  rank_table r next nodes -> nodes !! id = None -> -1 <= next ->
  node_role_ n = r -> rank_id_ n = next + 1 -> node_id_ n = id ->
  rank_table r (next + 1) (<[id := n]> nodes).
Proof.
  intros [Hn Hi Ha] Hf Hnext Hr Hk Hid. split.
  - intros i x. rewrite lookup_insert_Some. intros [[<- <-]|[? Hx]] Hrx; [split; [lia|done]|].
    destruct (Hn i x Hx Hrx). split; [lia|done].
  - intros i i' x x'. rewrite !lookup_insert_Some.
    intros [[<- <-]|[? Hx]] [[<- <-]|[? Hx']] H1 H2 E; [done| | |by eapply Hi].
    + destruct (Hn _ _ Hx' H2). lia.
    + destruct (Hn _ _ Hx H1). lia.
  - intros k Hkr. destruct (Z.eq_dec k (next + 1)) as [->|].
    + exists id, n. by rewrite lookup_insert_eq.
    + destruct (Ha k) as (i & x & Hx & ? & ?); [lia|]. exists i, x.
      rewrite lookup_insert_ne by congruence. done.
Qed.

Lemma rank_table_insert_other r next nodes id n :
  rank_table r next nodes -> nodes !! id = None -> node_role_ n <> r ->
  rank_table r next (<[id := n]> nodes).
Proof.
  intros [Hn Hi Ha] Hf Hr. split.
  - intros i x. rewrite lookup_insert_Some. intros [[<- <-]|[? Hx]] Hrx; [done|by apply Hn].
  - intros i i' x x'. rewrite !lookup_insert_Some.
    intros [[<- <-]|[? Hx]] [[<- <-]|[? Hx']] H1 H2 E; try done. by eapply Hi.
  - intros k Hk. destruct (Ha k Hk) as (i & x & Hx & ? & ?). exists i, x.
    rewrite lookup_insert_ne by congruence. done.
Qed.

#[export] Hint Resolve rank_table_insert_new rank_table_insert_other : rpc.

Lemma wf_init : wf NodeManager_init.
Proof.
  assert (forall r, rank_table r (-1) ∅) as H.
  { intros r. split; intros; try by rewrite lookup_empty in *. lia. }
  split; try apply H.
  - done.
  - unfold num_nodes. change (nodes_info_ NodeManager_init) with (∅ : gmap string NodeInfo).
    by rewrite map_size_empty.
  - intros id [t Ht]. cbn in Ht. by rewrite lookup_empty in Ht.
Qed.

Lemma num_nodes_insert (m : NodeManager) id n :
  nodes_info_ m !! id = None ->
  Z.of_nat (size (<[id := n]> (nodes_info_ m))) = num_nodes m + 1.
Proof. intros. unfold num_nodes. rewrite map_size_insert_None by done. lia. Qed.

Lemma is_Some_insert {V} (nodes : gmap string V) id id' n :
  is_Some (nodes !! id') -> is_Some (<[id := n]> nodes !! id').
Proof. intros. rewrite lookup_insert. case_decide; [done|done]. Qed.
#[export] Hint Resolve is_Some_insert : rpc.

(** A default node, of the role SCHEDULER, leaves the rank tables alone. *)
Lemma node_at_wf id m n m' :
  wf m -> node_at id m = Ret n m' ->
  wf m' /\ nodes_info_ m' !! id = Some n /\ num_nodes m <= num_nodes m' /\
  heartbeats_ m' = heartbeats_ m /\
  (forall i x, nodes_info_ m !! i = Some x -> nodes_info_ m' !! i = Some x).
Proof.
  intros [] . unfold node_at. destruct (nodes_info_ m !! id) as [x|] eqn:E; intros [= <- <-].
  { split_and!; [by split|done..]. }
  pose proof (num_nodes_insert m id NodeInfo_default E) as Hsz.
  split_and!; cbn.
  - split; cbn; eauto with rpc; [by apply rank_table_insert_other..|].
    unfold num_nodes in *; cbn; lia.
  - by rewrite lookup_insert_eq.
  - unfold num_nodes in *; cbn; lia.
  - done.
  - intros i x Hx. rewrite lookup_insert_ne; congruence.
Qed.

Lemma UpdateHeartbeat_wf now id m :
  wf m -> exists m', UpdateHeartbeat now id m = Ret tt m' /\ wf m' /\
    num_nodes m <= num_nodes m' /\ is_Some (nodes_info_ m' !! id) /\
    heartbeats_ m' = <[id := now]> (heartbeats_ m) /\
    (forall i x, nodes_info_ m !! i = Some x -> nodes_info_ m' !! i = Some x).
Proof.
  intros Hwf. destruct (node_at id m) as [n m1| | |] eqn:E;
    [|unfold node_at in E; case_match; done..].
  destruct (node_at_wf id m n m1 Hwf E) as (H1 & H2 & H3 & H4 & H5).
  eexists. unfold UpdateHeartbeat. rewrite (bind_Ret _ _ _ _ _ E). split; [done|].
  destruct H1. split_and!; [|done|done|cbn; by rewrite H4|done].
  split; cbn; try done. intros i. rewrite lookup_insert. case_decide; subst; eauto.
Qed.

Lemma i32_rank k : 0 <= k <= INT_MAX -> i32 k = k.
Proof. intros. apply swrap_small; [done|]. unfold in_s, INT_MAX in *. lia. Qed.

Lemma u32_rank k : 0 <= k <= INT_MAX -> u32 k = k.
Proof. intros. apply uwrap_small. unfold in_u, INT_MAX in *. lia. Qed.

(** Registering a node that is not in the table. *)
Lemma NextRankId_new r m :
  wf m -> num_nodes m <= INT_MAX -> nodes_info_ m !! reg_node_id r = None ->
  reg_role r <> SCHEDULER ->
  exists m' n, NextRankId r m = Ret (rank_id_ n) m' /\ wf m' /\
    nodes_info_ m' = <[reg_node_id r := n]> (nodes_info_ m) /\
    node_role_ n = reg_role r /\ rank_id_ n = next_rank (reg_role r) m + 1 /\
    heartbeats_ m' = heartbeats_ m /\ num_nodes m' = num_nodes m + 1.
Proof.
  intros [] Hsz Hf Hr. pose proof (num_nodes_insert m) as Hnum. unfold num_nodes in *.
  unfold NextRankId, getS. rewrite (bind_Ret _ _ _ m m) by done. rewrite Hf.
  destruct (reg_role r) eqn:Er; [| |done].
  all: rewrite i32_rank by lia; rewrite (u32_rank (_ + 1)) by lia;
    eexists _, (mkNodeInfo _ _ _ _ _); nmcbn; (split; [done|]); nmcbn; rewrite Hnum by done;
    (split; [|by split_and!]); split; unfold num_nodes; nmcbn; eauto with rpc;
    try (rewrite ?Hnum by done; lia); try by apply rank_table_insert_other.
  all: apply rank_table_insert_new; done || lia.
Qed.

Lemma rank_small r next nodes m id n :
  wf m -> num_nodes m <= INT_MAX -> nodes = nodes_info_ m -> next = next_rank r m ->
  r <> SCHEDULER -> rank_table r next nodes -> nodes !! id = Some n -> node_role_ n = r ->
  0 <= rank_id_ n <= INT_MAX.
Proof.
  intros [] Hsz -> -> Hr [Hn _ _] Hx Hrx. destruct (Hn _ _ Hx Hrx).
  destruct r; cbn in *; lia || done.
Qed.

Lemma wf_table r m : wf m -> r <> SCHEDULER -> rank_table r (next_rank r m) (nodes_info_ m).
Proof. intros [] ?. by destruct r. Qed.

(** Registering again gives the same rank and changes nothing. *)
Lemma NextRankId_known r m n :
  wf m -> num_nodes m <= INT_MAX -> nodes_info_ m !! reg_node_id r = Some n ->
  node_role_ n <> SCHEDULER -> NextRankId r m = Ret (rank_id_ n) m.
Proof.
  intros Hwf Hsz Hn Hr. unfold NextRankId, getS. rewrite (bind_Ret _ _ _ m m) by done.
  rewrite Hn. rewrite i32_rank; [done|].
  by eapply (rank_small (node_role_ n) _ _ m); eauto using wf_table.
Qed.

(** Any registration, whatever its outcome. *)
Lemma NextRankId_wf r m :
  wf m -> num_nodes m <= INT_MAX ->
  exists k m', NextRankId r m = Ret k m' /\ wf m' /\
    num_nodes m <= num_nodes m' <= num_nodes m + 1 /\
    heartbeats_ m' = heartbeats_ m /\
    (forall i x, nodes_info_ m !! i = Some x -> nodes_info_ m' !! i = Some x).
Proof.
  intros Hwf Hsz. destruct (nodes_info_ m !! reg_node_id r) as [n|] eqn:E.
  { exists (i32 (rank_id_ n)), m. unfold NextRankId, getS. rewrite (bind_Ret _ _ _ m m) by done.
    rewrite E. by split_and!; try lia. }
  destruct (decide (reg_role r = SCHEDULER)) as [Er|Er].
  { exists (-1), m. unfold NextRankId, getS. rewrite (bind_Ret _ _ _ m m) by done.
    rewrite E, Er. by split_and!; try lia. }
  destruct (NextRankId_new r m) as (m' & n & Hr & Hwf' & Hn & _ & _ & Hh & Hs); [done..|].
  exists (rank_id_ n), m'. split_and!; [done|done|lia|lia|done|].
  intros i x Hx. rewrite Hn, lookup_insert_ne; [done|congruence].
Qed.

(** Rank assignment.  A new server or worker gets the next rank of its role
    and is entered in the table under it; the table keeps its invariant (the
    ranks of each role are 0 .. n-1 without gaps or repetitions); a node that
    registers again gets the rank it has and the table does not change. *)
Theorem NextRankId_assigns r m :
  wf m -> num_nodes m < INT_MAX -> reg_role r <> SCHEDULER ->
  nodes_info_ m !! reg_node_id r = None ->
  exists m' k, NextRankId r m = Ret k m' /\ wf m' /\
    k = next_rank (reg_role r) m + 1 /\ next_rank (reg_role r) m' = k /\
    NextRankId r m' = Ret k m'.
Proof.
  intros Hwf Hsz Hr Hf. destruct (NextRankId_new r m) as (m' & n & E & Hwf' & Hn & Hrole & Hk & _ & Hs);
    [done|lia|done|done|].
  exists m', (rank_id_ n). split_and!; try done.
  - revert E. unfold NextRankId, getS. rewrite (bind_Ret _ _ _ m m) by done. rewrite Hf.
    destruct (reg_role r); [..|done]; mrun; by intros [= <- <-].
  - apply NextRankId_known; [done|lia| |by rewrite Hrole]. rewrite Hn. by rewrite lookup_insert_eq.
Qed.

Lemma NextRankId_assigns_witness :
  exists m' k, NextRankId (mkRegisterMessage "10.0.0.1" 8080 "a" SERVER) NodeManager_init = Ret k m'
    /\ wf m' /\ k = -1 + 1 /\ next_server_rank_id_ m' = k /\
    NextRankId (mkRegisterMessage "10.0.0.1" 8080 "a" SERVER) m' = Ret k m'.
Proof.
  apply (NextRankId_assigns (mkRegisterMessage "10.0.0.1" 8080 "a" SERVER) NodeManager_init).
  - apply wf_init.
  - vm_compute. reflexivity.
  - discriminate.
  - reflexivity.
Defined.

(** ** Cluster state *)

(** The last heartbeat of the node is older than the timeout. *)
Definition stale (c : ClusterConfig) (now : Z) (l : list (string * Z)) (id : string) : Prop :=
  exists t, (id, t) ∈ l /\ t + heartbeat_timeout_ c < now.

#[export] Instance stale_dec c now l id : Decision (stale c now l id).
Proof.
  refine (cast_if (decide (Exists (fun p => p.1 = id /\ p.2 + heartbeat_timeout_ c < now) l)));
    unfold stale; rewrite Exists_exists in *.
  - destruct e as ([i t] & ? & Hi & ?). cbn in Hi. subst i. by exists t.
  - intros (t & ? & ?). apply n. by exists (id, t).
Defined.

Lemma stale_cons c now p l id :
  stale c now (p :: l) id <->
  (id = p.1 /\ p.2 + heartbeat_timeout_ c < now) \/ stale c now l id.
Proof.
  unfold stale. split.
  - intros (t & [<-|H]%elem_of_cons & Ht); [by left|]. right. by exists t.
  - intros [[-> Ht]|(t & H & Ht)].
    + exists p.2. split; [|done]. apply elem_of_cons. left. by destruct p.
    + exists t. split; [|done]. apply elem_of_cons. by right.
Qed.

Lemma note_timeouts_spec c now l : forall m,
  (forall p, p ∈ l -> is_Some (nodes_info_ m !! p.1)) ->
  exists T, note_timeouts c now l m = Ret tt (set_timeout_nodes (fun _ => T) m) /\
    forall id n, T !! id = Some n <->
      (timeout_nodes_info_ m !! id = Some n /\ ~ stale c now l id) \/
      (nodes_info_ m !! id = Some n /\ stale c now l id).
Proof.
  induction l as [|p l IH]; intros m Hin; cbn [note_timeouts].
  { exists (timeout_nodes_info_ m). split; [by destruct m|]. intros id n. split.
    - intros. left. split; [done|]. intros (t & Ht & _). by apply elem_of_nil in Ht.
    - intros [[? _]|[_ (t & Ht & _)]]; [done|]. by apply elem_of_nil in Ht. }
  destruct (Hin p) as [n Hn]; [by left|].
  assert (forall q, q ∈ l -> is_Some (nodes_info_ m !! q.1)) as Hin'.
  { intros. apply Hin. by right. }
  unfold note_timeout. destruct (Z.ltb_spec (p.2 + heartbeat_timeout_ c) now) as [Hs|Hs].
  - unfold node_at. rewrite bind_assoc, (bind_Ret _ _ m n m) by (by rewrite Hn).
    unfold modify. erewrite (bind_Ret (S := NodeManager)) by done.
    destruct (IH (set_timeout_nodes (insert p.1 n) m)) as (T & -> & HT); [done|].
    exists T. split; [by destruct m|]. intros id x. rewrite HT, stale_cons. nmcbn.
    rewrite lookup_insert_Some.
    destruct (decide (stale c now l id)), (decide (p.1 = id)) as [<-|]; intuition congruence.
  - rewrite (bind_Ret (mret tt) _ m tt m eq_refl).
    destruct (IH m Hin') as (T & -> & HT).
    exists T. split; [done|]. intros id x. rewrite HT, stale_cons. intuition lia.
Qed.

Definition finish_reached (m : NodeManager) (finished : gset string) : bool :=
  (Z.of_nat (size finished) =? total_node_num_ m)
  || (Z.of_nat (size finished) =? current_node_num_ m).

Lemma SizeToInt_le {S} u (s : S) : 0 <= u <= INT_MAX -> SizeToInt u s = Ret u s.
Proof.
  intros Hu. unfold SizeToInt. destruct (Z.gtb_spec u INT_MAX); [lia|]. by rewrite i32_rank.
Qed.

(** The condition of line 108. *)
Lemma finish_test m :
  Z.of_nat (size (finish_nodes_id_ m)) <= INT_MAX ->
  (if Z.of_nat (size (finish_nodes_id_ m)) =? total_node_num_ m then mret true
   else k ← SizeToInt (Z.of_nat (size (finish_nodes_id_ m)));
        mret (k =? current_node_num_ m)) m
  = Ret (finish_reached m (finish_nodes_id_ m)) m.
Proof.
  intros H. unfold finish_reached. destruct (_ =? total_node_num_ m); [done|].
  by rewrite (bind_Ret _ _ _ _ _ (SizeToInt_le _ m (conj (Nat2Z.is_nonneg _) H))).
Qed.

(** While no node is stale, the cluster finishes once enough nodes have. *)
Lemma UpdateClusterState_finishes c now m :
  wf m -> (forall id t, heartbeats_ m !! id = Some t -> now <= t + heartbeat_timeout_ c) ->
  Z.of_nat (size (finish_nodes_id_ m)) <= INT_MAX -> finish_reached m (finish_nodes_id_ m) = true ->
  exists m', UpdateClusterState c now m = Ret tt m' /\ is_cluster_finish_ m' = true.
Proof.
  intros Hwf Hfresh Hsz Hr. pose proof (wf_heartbeats m Hwf) as Hhb. unfold UpdateClusterState.
  rewrite (bind_Ret (modify _) _ m tt _ eq_refl).
  set (m0 := set_timeout_nodes _ m). unfold getS at 1. rewrite (bind_Ret _ _ m0 m0 m0) by done.
  destruct (note_timeouts_spec c now (map_to_list (heartbeats_ m0)) m0) as (T & E & HT).
  { intros [id t] Hp%elem_of_map_to_list. apply Hhb. by exists t. }
  assert (T = ∅) as ->.
  { apply map_empty. intros id. apply eq_None_not_Some. intros [n Hn]. apply HT in Hn.
    destruct Hn as [[Hn _]|(_ & t & Ht%elem_of_map_to_list & Hs)]; [done|].
    specialize (Hfresh id t Ht). lia. }
  rewrite (bind_Ret _ _ _ _ _ E), (bind_Ret (modify _) _ _ tt _ eq_refl). unfold m0. nmcbn.
  rewrite (bool_decide_eq_true_2 (∅ = ∅)) by done. erewrite (bind_Ret (S := NodeManager)) by done.
  set (m2 := set_timeout_nodes _ _). rewrite (bind_Ret _ _ _ _ _ (finish_test m2 Hsz)).
  change (finish_reached m2 _) with (finish_reached m (finish_nodes_id_ m)). rewrite Hr.
  rewrite (bind_Ret (modify _) _ _ tt _ eq_refl). eexists. split; [done|]. by case_match.
Qed.

(** C31: UpdateClusterState.  The nodes reported as timed out are exactly those
    whose last heartbeat is older than the timeout, with their entries of the
    table; they count as finished; a timeout is raised exactly when there is
    one; the cluster is finished when all nodes are (of the configured number,
    or of the number left after the start-up timeout), ready when it is
    finished or every node has registered; no flag is ever lowered and the
    table of nodes does not change. *)
Theorem UpdateClusterState_spec c now m :
  wf m ->
  Z.of_nat (size (dom (nodes_info_ m) ∪ finish_nodes_id_ m)) <= INT_MAX ->
  exists m', UpdateClusterState c now m = Ret tt m' /\ wf m' /\
    nodes_info_ m' = nodes_info_ m /\ heartbeats_ m' = heartbeats_ m /\
    (forall id n, timeout_nodes_info_ m' !! id = Some n <->
       nodes_info_ m !! id = Some n /\
       exists t, heartbeats_ m !! id = Some t /\ t + heartbeat_timeout_ c < now) /\
    finish_nodes_id_ m' = dom (timeout_nodes_info_ m') ∪ finish_nodes_id_ m /\
    is_cluster_timeout_ m' =
      is_cluster_timeout_ m || negb (bool_decide (timeout_nodes_info_ m' = ∅)) /\
    is_cluster_finish_ m' = is_cluster_finish_ m || finish_reached m (finish_nodes_id_ m') /\
    is_cluster_ready_ m' =
      is_cluster_ready_ m || finish_reached m (finish_nodes_id_ m')
      || (num_nodes m =? total_node_num_ m).
Proof.
  intros Hwf Hsize. pose proof Hwf as [? ? ? ? Hhb]. unfold UpdateClusterState.
  rewrite (bind_Ret (modify _) _ m tt _ eq_refl).
  set (m0 := set_timeout_nodes _ m). unfold getS at 1. rewrite (bind_Ret _ _ m0 m0 m0) by done.
  destruct (note_timeouts_spec c now (map_to_list (heartbeats_ m0)) m0) as (T & E & HT).
  { intros p Hp. apply Hhb. destruct p as [id t]. apply elem_of_map_to_list in Hp. by exists t. }
  rewrite (bind_Ret _ _ _ _ _ E). unfold stale in HT. setoid_rewrite elem_of_map_to_list in HT.
  unfold m0 in *. clear E m0. nmcbn.
  assert (forall id n, T !! id = Some n <-> nodes_info_ m !! id = Some n /\
    exists t, heartbeats_ m !! id = Some t /\ t + heartbeat_timeout_ c < now) as HT'.
  { intros id n. rewrite HT, lookup_empty. split; [by intros [[? _]|?]|by right]. }
  rewrite (bind_Ret (modify _) _ _ tt _ eq_refl). nmcbn.
  set (fin := dom T ∪ finish_nodes_id_ m).
  assert (Z.of_nat (size fin) <= INT_MAX) as Hfin.
  { assert (size fin <= size (dom (nodes_info_ m) ∪ finish_nodes_id_ m))%nat; [|lia].
    apply subseteq_size, union_mono_r. intros id [n Hn]%elem_of_dom. apply elem_of_dom.
    exists n. by apply HT' in Hn as [? _]. }
  erewrite (bind_Ret (S := NodeManager)) by done.
  set (m2 := if bool_decide (T = ∅) then _ else _).
  assert (finish_nodes_id_ m2 = fin /\ timeout_nodes_info_ m2 = T /\
    nodes_info_ m2 = nodes_info_ m /\ heartbeats_ m2 = heartbeats_ m /\
    total_node_num_ m2 = total_node_num_ m /\ current_node_num_ m2 = current_node_num_ m /\
    is_cluster_timeout_ m2 = is_cluster_timeout_ m || negb (bool_decide (T = ∅)) /\
    is_cluster_finish_ m2 = is_cluster_finish_ m /\ is_cluster_ready_ m2 = is_cluster_ready_ m /\
    wf m2) as (F1 & F2 & F3 & F4 & F5 & F6 & F7 & F8 & F9 & F10).
  { unfold m2, fin. case_bool_decide as ET; nmcbn; split_and!; try done.
    - by rewrite ET, dom_empty_L, (left_id_L ∅ (∪)).
    - by rewrite orb_false_r.
    - by rewrite orb_true_r. }
  rewrite (bind_Ret _ _ _ _ _ (finish_test m2 ltac:(rewrite F1; exact Hfin))).
  rewrite (bind_Ret (modify _) _ _ tt _ eq_refl). clearbody m2.
  assert (finish_reached m2 fin = finish_reached m fin) as Er.
  { unfold finish_reached. by rewrite F5, F6. }
  eexists. split; [done|]. rewrite F1, Er. unfold num_nodes. destruct F10.
  destruct (finish_reached m fin) eqn:Ef; nmcbn; rewrite F3, F5;
    destruct (Z.of_nat (size (nodes_info_ m)) =? total_node_num_ m); nmcbn;
    rewrite ?F1, ?F2, ?F3, ?F4, ?F7, ?F8, ?F9; fold fin; rewrite ?Ef, ?orb_true_r, ?orb_false_r;
    (split; [split; done|]); by split_and!.
Qed.

(** ** Servers *)
Lemma FetchServersMeta_filter m :
  FetchServersMeta m =
    (fun p => servers_meta_of p.2) <$>
      filter (fun p => node_role_ p.2 = SERVER) (map_to_list (nodes_info_ m)).
Proof.
  unfold FetchServersMeta. generalize (map_to_list (nodes_info_ m)) as l. intros l.
  enough (forall acc, foldl (fun l p => if bool_decide (node_role_ p.2 = SERVER)
      then l ++ [servers_meta_of p.2] else l) acc l =
    acc ++ ((fun p => servers_meta_of p.2) <$> filter (fun p => node_role_ p.2 = SERVER) l))
    as -> by done.
  induction l as [|p l IH]; intros acc; cbn; [by rewrite app_nil_r|]. rewrite IH.
  case_bool_decide; rewrite ?decide_True, ?decide_False by done; [by rewrite <- app_assoc|done].
Qed.

Lemma FetchServersMeta_elem m s :
  wf m -> num_nodes m <= INT_MAX ->
  s ∈ FetchServersMeta m <->
  exists id n, nodes_info_ m !! id = Some n /\ node_role_ n = SERVER /\
    s = mkServersMeta (rank_id_ n) (ip_ n) (port_ n).
Proof.
  intros Hwf Hsz. pose proof (wf_table SERVER m Hwf ltac:(done)) as Ht. cbn in Ht.
  assert (forall id n, nodes_info_ m !! id = Some n -> node_role_ n = SERVER ->
    i32 (rank_id_ n) = rank_id_ n) as Hi.
  { intros id n Hn Hr. apply i32_rank. by eapply (rank_small SERVER _ _ m); eauto. }
  rewrite FetchServersMeta_filter, list_elem_of_fmap. split.
  - intros ([id n] & -> & [Hr Hn]%list_elem_of_filter). apply elem_of_map_to_list in Hn.
    cbn in Hr. exists id, n. unfold servers_meta_of. cbn. by erewrite Hi.
  - intros (id & n & Hn & Hr & ->). exists (id, n). unfold servers_meta_of. cbn.
    erewrite Hi by done. split; [done|]. apply list_elem_of_filter.
    by rewrite elem_of_map_to_list.
Qed.

(** The list of servers sent to the nodes has each registered server exactly
    once, with the address it registered, and the ranks in it are exactly
    0 .. n-1 where n is the number of servers registered. *)
Theorem FetchServersMeta_complete m :
  wf m -> num_nodes m <= INT_MAX ->
  sm_rank_id <$> FetchServersMeta m ≡ₚ seqZ 0 (next_server_rank_id_ m + 1) /\
  (forall s, s ∈ FetchServersMeta m <->
     exists id n, nodes_info_ m !! id = Some n /\ node_role_ n = SERVER /\
       s = mkServersMeta (rank_id_ n) (ip_ n) (port_ n)).
Proof.
  intros Hwf Hsz. pose proof (wf_table SERVER m Hwf ltac:(done)) as Ht. cbn in Ht.
  pose proof (NoDup_map_to_list (nodes_info_ m)) as Hnd.
  assert (forall id n, nodes_info_ m !! id = Some n -> node_role_ n = SERVER ->
    i32 (rank_id_ n) = rank_id_ n) as Hi.
  { intros id n Hn Hr. apply i32_rank. by eapply (rank_small SERVER _ _ m); eauto. }
  pose proof (fun s => FetchServersMeta_elem m s Hwf Hsz) as Hin.
  split; [|done]. apply NoDup_Permutation.
  - rewrite FetchServersMeta_filter, <- list_fmap_compose. apply NoDup_fmap_2_strong.
    + intros [id n] [id' n'] [Hr Hx]%list_elem_of_filter [Hr' Hx']%list_elem_of_filter E.
      apply elem_of_map_to_list in Hx, Hx'. cbn in E, Hr, Hr'.
      erewrite !Hi in E by done. assert (id = id') as -> by by eapply (rt_inj _ _ _ Ht). congruence.
    + by apply NoDup_filter.
  - apply NoDup_seqZ.
  - intros k. rewrite elem_of_seqZ, list_elem_of_fmap. split.
    + intros (s & -> & Hs). apply Hin in Hs as (id & n & Hn & Hr & ->). cbn.
      destruct (rt_node _ _ _ Ht id n Hn Hr). lia.
    + intros Hk. destruct (rt_all _ _ _ Ht k) as (id & n & Hn & Hr & <-); [lia|].
      eexists. split; [|apply Hin; by exists id, n]. done.
Qed.

(** Two servers and a worker, for examples. *)
Definition example_manager : NodeManager :=
  match (_ ← NextRankId (mkRegisterMessage "10.0.0.1" 8081 "s1" SERVER);
         _ ← NextRankId (mkRegisterMessage "" 0 "w1" WORKER);
         NextRankId (mkRegisterMessage "10.0.0.2" 8082 "s2" SERVER)) NodeManager_init with
  | Ret _ m => m
  | _ => NodeManager_init
  end.

Lemma example_manager_wf : wf example_manager.
Proof.
  unfold example_manager. assert (num_nodes NodeManager_init = 0) as N0 by reflexivity.
  destruct (NextRankId_wf (mkRegisterMessage "10.0.0.1" 8081 "s1" SERVER) NodeManager_init)
    as (k1 & m1 & E1 & W1 & N1 & _); [apply wf_init|done|].
  rewrite (bind_Ret _ _ _ _ _ E1).
  destruct (NextRankId_wf (mkRegisterMessage "" 0 "w1" WORKER) m1) as (k2 & m2 & E2 & W2 & N2 & _);
    [done|unfold INT_MAX; lia|].
  rewrite (bind_Ret _ _ _ _ _ E2).
  destruct (NextRankId_wf (mkRegisterMessage "10.0.0.2" 8082 "s2" SERVER) m2)
    as (k3 & m3 & E3 & W3 & _); [done|unfold INT_MAX; lia|]. by rewrite E3.
Qed.

(** The two servers have sent heartbeats, the first of them long ago. *)
Definition beating_manager : NodeManager :=
  match (_ ← UpdateHeartbeat 10 "s1"; UpdateHeartbeat 95 "s2") example_manager with
  | Ret _ m => m
  | _ => NodeManager_init
  end.

Lemma beating_manager_wf : wf beating_manager.
Proof.
  unfold beating_manager. destruct (UpdateHeartbeat_wf 10 "s1" _ example_manager_wf) as (m1 & E1 & W1 & _).
  destruct (UpdateHeartbeat_wf 95 "s2" _ W1) as (m2 & E2 & W2 & _). by rewrite (bind_Ret _ _ _ _ _ E1), E2.
Qed.

Lemma UpdateClusterState_spec_witness :
  exists m', UpdateClusterState ClusterConfig_init 100 beating_manager = Ret tt m' /\
    timeout_nodes_info_ m' !! "s1"%string = Some (mkNodeInfo "10.0.0.1" 8081 "s1" SERVER 0) /\
    timeout_nodes_info_ m' !! "s2"%string = None /\ is_cluster_timeout_ m' = true.
Proof.
  destruct (UpdateClusterState_spec ClusterConfig_init 100 beating_manager)
    as (m' & E & _ & _ & _ & Ht & _ & Hto & _).
  - apply beating_manager_wf.
  - vm_compute. discriminate.
  - assert (timeout_nodes_info_ m' !! "s1"%string = Some (mkNodeInfo "10.0.0.1" 8081 "s1" SERVER 0)) as H1.
    { apply Ht. split; [vm_compute; reflexivity|]. exists 10. split; [vm_compute; reflexivity|reflexivity]. }
    exists m'. split; [exact E|]. split; [exact H1|]. split.
    + apply eq_None_not_Some. intros [n Hn]. apply Ht in Hn as (_ & t & Eb & Hlt).
      assert (t = 95) as -> by (vm_compute in Eb; congruence). discriminate.
    + rewrite Hto. rewrite bool_decide_eq_false_2; [apply orb_true_r|]. intros E0.
      rewrite E0, lookup_empty in H1. discriminate.
Defined.

Lemma FetchServersMeta_complete_witness :
  sm_rank_id <$> FetchServersMeta example_manager ≡ₚ seqZ 0 2 /\
  mkServersMeta 1 "10.0.0.2" 8082 ∈ FetchServersMeta example_manager.
Proof.
  destruct (FetchServersMeta_complete example_manager) as [H1 H2].
  - apply example_manager_wf.
  - vm_compute. discriminate.
  - split; [exact H1|]. apply H2. exists "s2"%string, (mkNodeInfo "10.0.0.2" 8082 "s2" SERVER 1).
    vm_compute. repeat split.
Defined.

(** ** Growth

    Whatever an operation does, the table only grows, the flags only rise, and
    the numbers of nodes that were configured stay. *)
Record grows (m m' : NodeManager) : Prop := {
  g_nodes : dom (nodes_info_ m) ⊆ dom (nodes_info_ m');
  g_total : total_node_num_ m' = total_node_num_ m;
  g_ready : is_cluster_ready_ m = true -> is_cluster_ready_ m' = true;
  g_finish : is_cluster_finish_ m = true -> is_cluster_finish_ m' = true;
  g_timeout : is_cluster_timeout_ m = true -> is_cluster_timeout_ m' = true;
}.

#[export] Instance grows_preorder : PreOrder grows.
Proof.
  split.
  - intros m. by split.
  - intros m1 m2 m3 [] []. split; auto; [by etrans|congruence].
Qed.

Lemma grows_num m m' : grows m m' -> num_nodes m <= num_nodes m'.
Proof.
  intros [H _ _ _ _]. apply subseteq_size in H. rewrite !size_dom in H.
  unfold num_nodes. lia.
Qed.

Lemma dom_insert_grows (nodes : gmap string NodeInfo) id n : dom nodes ⊆ dom (<[id := n]> nodes).
Proof. rewrite dom_insert_L. apply union_subseteq_r. Qed.
#[export] Hint Resolve dom_insert_grows : rpc.

Lemma NextRankId_grows r m k m' : NextRankId r m = Ret k m' -> grows m m'.
Proof.
  unfold NextRankId, getS. rewrite (bind_Ret _ _ _ m m) by done.
  repeat case_match; mrun; intros [= <- <-]; split; nmcbn; auto with rpc.
Qed.

Lemma node_at_grows id m n m' : node_at id m = Ret n m' -> grows m m'.
Proof. unfold node_at. case_match; intros [= <- <-]; split; nmcbn; auto with rpc. Qed.

Lemma UpdateHeartbeat_grows now id m m' : UpdateHeartbeat now id m = Ret tt m' -> grows m m'.
Proof.
  unfold UpdateHeartbeat, mbind, M_bind. destruct (node_at id m) eqn:E; try done.
  apply node_at_grows in E. intros [= <-]. etrans; [exact E|]. split; nmcbn; auto.
Qed.

Lemma note_timeouts_grows c now l : forall m m',
  note_timeouts c now l m = Ret tt m' ->
  grows m m' /\ is_cluster_ready_ m' = is_cluster_ready_ m.
Proof.
  induction l as [|p l IH]; intros m m'; cbn [note_timeouts]; [by intros [= <-]|].
  unfold mbind, M_bind. destruct (note_timeout c now p m) as [[] m1| | |] eqn:E; try done.
  intros Hl. apply IH in Hl as [G R].
  enough (grows m m1 /\ is_cluster_ready_ m1 = is_cluster_ready_ m) as [G' R']
    by (split; [by etrans|congruence]).
  revert E. unfold note_timeout, node_at, mbind, M_bind.
  repeat case_match; simplify_eq; intros [= <-]; repeat split; nmcbn; auto with rpc.
Qed.

(** What each call of [UpdateClusterState] adds to the flags. *)
Lemma UpdateClusterState_grows c now m m' :
  UpdateClusterState c now m = Ret tt m' -> grows m m' /\
  (is_cluster_ready_ m' = true ->
     is_cluster_ready_ m = true \/ is_cluster_finish_ m' = true \/
     num_nodes m' = total_node_num_ m').
Proof.
  unfold UpdateClusterState. rewrite (bind_Ret (modify _) _ m tt _ eq_refl).
  unfold getS. erewrite (bind_Ret (S := NodeManager)) by done.
  unfold mbind at 1, M_bind at 1. destruct (note_timeouts _ _ _ _) as [[] m1| | |] eqn:E; try done.
  apply note_timeouts_grows in E as [G1 R1].
  rewrite (bind_Ret (modify _) _ m1 tt _ eq_refl). erewrite (bind_Ret (S := NodeManager)) by done.
  set (m2 := if bool_decide _ then m1 else _).
  assert (grows m m2 /\ is_cluster_ready_ m2 = is_cluster_ready_ m) as [G2 R2].
  { split; [transitivity m1; [destruct G1; split; nmcbn; auto|]|];
      unfold m2; case_match; try done; split; nmcbn; auto. }
  clearbody m2. unfold mbind at 1, M_bind at 1.
  assert (forall b m3, (if Z.of_nat (size (finish_nodes_id_ m2)) =? total_node_num_ m2 then mret true
    else k ← SizeToInt (Z.of_nat (size (finish_nodes_id_ m2))); mret (k =? current_node_num_ m2)) m2
    = Ret b m3 -> m3 = m2) as Hd.
  { intros b m3. case_match; [by intros [= _ <-]|].
    unfold SizeToInt, mbind, M_bind, throw.
    destruct (_ >? INT_MAX); [discriminate|by intros [= _ <-]]. }
  destruct (_ : outcome NodeManager bool) as [b m3| | |] eqn:Eb; try done.
  rewrite (Hd _ _ eq_refl). mrun. intros [= <-]. unfold num_nodes.
  split; [etrans; [exact G2|]|]; destruct b; nmcbn;
    destruct (Z.eqb_spec (Z.of_nat (size (nodes_info_ m2))) (total_node_num_ m2)) as [En|En];
    nmcbn; try (split; nmcbn; by auto); auto.
  rewrite R2. auto.
Qed.

(** The invariant depends on the table, the counters and the heartbeats only. *)
Lemma wf_ext m m' :
  nodes_info_ m' = nodes_info_ m -> heartbeats_ m' = heartbeats_ m ->
  next_server_rank_id_ m' = next_server_rank_id_ m ->
  next_worker_rank_id_ m' = next_worker_rank_id_ m -> wf m -> wf m'.
Proof.
  intros E1 E2 E3 E4 []. unfold num_nodes in *.
  split; unfold num_nodes; rewrite ?E1, ?E2, ?E3, ?E4; done.
Qed.

Lemma UpdateClusterState_wf c now m m' :
  wf m -> UpdateClusterState c now m = Ret tt m' -> wf m'.
Proof.
  intros Hwf. pose proof (wf_heartbeats m Hwf) as Hhb.
  unfold UpdateClusterState. rewrite (bind_Ret (modify _) _ m tt _ eq_refl).
  set (m0 := set_timeout_nodes _ m). unfold getS at 1. rewrite (bind_Ret _ _ m0 m0 m0) by done.
  destruct (note_timeouts_spec c now (map_to_list (heartbeats_ m0)) m0) as (T & E & _).
  { intros [id t] Hp%elem_of_map_to_list. apply Hhb. by exists t. }
  rewrite (bind_Ret _ _ _ _ _ E), (bind_Ret (modify _) _ _ tt _ eq_refl).
  unfold getS. erewrite (bind_Ret (S := NodeManager)) by done. nmcbn.
  set (m2 := if bool_decide _ then _ else _).
  assert (wf m2) as Hwf2 by (unfold m2; case_match; by eapply wf_ext; [..|exact Hwf]).
  clearbody m2. unfold mbind at 1, M_bind at 1. destruct (_ =? total_node_num_ m2); mrun.
  - intros [= <-]. case_match; by eapply wf_ext; [..|exact Hwf2].
  - destruct (SizeToInt _ _) as [k m3| | |] eqn:Ek; try done.
    assert (m3 = m2) as -> by (revert Ek; unfold SizeToInt, throw; case_match;
      [discriminate|by intros [= _ <-]]).
    intros [= <-]. repeat case_match; by eapply wf_ext; [..|exact Hwf2].
Qed.
