(* ===== verification/Scheduler.v ===== *)
(** * Scheduler

    src/even-http/ps/core/scheduler_node.{h,cc} with the parts of node.{h,cc}
    it uses.  The handlers run on the event thread of the server, the state of the
    cluster is updated by a timer thread, and Stop runs on the thread of the
    program.  The three are interleaved as steps of a transition system, one step
    per call of the node manager or access to an atomic flag.  The steps are taken
    one at a time: the methods UpdateClusterState, CheckClusterTimeout and
    AddFinishNode lock nothing, so that their calls can overlap with those of
    another thread ([manager_race]); such a run is a data race, to which C++ gives
    no meaning, and is not among those of the model.

    Sending a response is recorded in [sent]; its bytes are what
    TcpServer::SendMessage of Sending.v puts on the wire. *)
From S2P Require Import Prelude Convert Messages Config NodeManager.

(** The methods that [handlers_] points to. *)
Inductive SchedulerHandler : Set :=
| H_ProcessHeartbeat | H_ProcessRegister | H_ProcessFinish | H_ProcessFetchServers.

(** A response: connection, meta, protocol and data. *)
Record response : Type := mkResponse {
  resp_conn : Z;
  resp_meta : MessageMeta;
  resp_protos : Protos;
  resp_data : list Z;
}.

Record SchedulerNode : Type := mkScheduler {
  node_manager_ : NodeManager;
  handlers_ : gmap NodeCommand SchedulerHandler;
  node_info_ : NodeInfo;
  is_ready_ : bool;
  is_finish_ : bool;
  is_already_stopped_ : bool;
  sent : list response;
}.

Definition SchedulerNode_init : SchedulerNode :=
  mkScheduler NodeManager_init ∅ NodeInfo_default false false true [].

Definition set_manager (nm : NodeManager) (s : SchedulerNode) : SchedulerNode :=
  mkScheduler nm (handlers_ s) (node_info_ s) (is_ready_ s) (is_finish_ s)
    (is_already_stopped_ s) (sent s).
Definition set_ready (b : bool) (s : SchedulerNode) : SchedulerNode :=
  mkScheduler (node_manager_ s) (handlers_ s) (node_info_ s) b (is_finish_ s)
    (is_already_stopped_ s) (sent s).
Definition set_finish (b : bool) (s : SchedulerNode) : SchedulerNode :=
  mkScheduler (node_manager_ s) (handlers_ s) (node_info_ s) (is_ready_ s) b
    (is_already_stopped_ s) (sent s).
Definition set_stopped (b : bool) (s : SchedulerNode) : SchedulerNode :=
  mkScheduler (node_manager_ s) (handlers_ s) (node_info_ s) (is_ready_ s) (is_finish_ s)
    b (sent s).
Definition set_handlers (h : gmap NodeCommand SchedulerHandler) (s : SchedulerNode)
    : SchedulerNode :=
  mkScheduler (node_manager_ s) h (node_info_ s) (is_ready_ s) (is_finish_ s)
    (is_already_stopped_ s) (sent s).
Definition set_info (n : NodeInfo) (s : SchedulerNode) : SchedulerNode :=
  mkScheduler (node_manager_ s) (handlers_ s) n (is_ready_ s) (is_finish_ s)
    (is_already_stopped_ s) (sent s).
Definition add_sent (r : response) (s : SchedulerNode) : SchedulerNode :=
  mkScheduler (node_manager_ s) (handlers_ s) (node_info_ s) (is_ready_ s) (is_finish_ s)
    (is_already_stopped_ s) (sent s ++ [r]).

(** A call of a method of [node_manager_]. *)
Definition with_manager {A} (c : M NodeManager A) : M SchedulerNode A := fun s =>
  match c (node_manager_ s) with
  | Ret a nm => Ret a (set_manager nm s)
  | Throw e nm => Throw e (set_manager nm s)
  | Undef w => Undef w
  | Fuel => Fuel
  end.

Section scheduler.
Context `{Protobuf HeartbeatMessage} `{Protobuf HeartbeatRespMessage}
  `{Protobuf RegisterMessage} `{Protobuf RegisterRespMessage} `{Protobuf FinishMessage}
  `{Protobuf FetchServersRespMessage}.
Context (cfg : ClusterConfig).

(** The connection and the meta are never null here (TcpServer passes its own);
    [data] may be. *)
Definition SendMessage (conn : Z) (meta : MessageMeta) (protos : Protos) (data : list Z)
    : M SchedulerNode unit :=
  modify (add_sent (mkResponse conn meta protos data)).

Definition ProcessHeartbeat (now conn : Z) (meta : MessageMeta) (data : option (list Z))
    : M SchedulerNode unit :=
  _ ← exception_if_null (bool_decide (is_Some data));
  let heartbeat_message : HeartbeatMessage := ParseFromArray (default [] data) in
  _ ← with_manager (UpdateHeartbeat now (hb_node_id heartbeat_message));
  _ ← (if hb_is_node_finish heartbeat_message
       then with_manager (UpdateNodeFinishState (hb_node_id heartbeat_message)) else mret tt);
  s ← getS;
  _ ← (if hb_is_node_finish heartbeat_message && CheckNodesFinishState (node_manager_ s)
       then modify (set_finish true) else mret tt);
  s ← getS;
  let nm := node_manager_ s in
  let attrs : gmap Z bool :=
    <[NodeAttribute_num IS_NODE_TIMEOUT := is_node_timeout_ nm]>
    (<[NodeAttribute_num IS_CLUSTER_TIMEOUT := is_cluster_timeout_ nm]>
    (<[NodeAttribute_num IS_CLUSTER_FINISH := is_cluster_finish_ nm]>
    (<[NodeAttribute_num IS_CLUSTER_READY := is_cluster_ready_ nm]> ∅))) in
  SendMessage conn meta PROTOBUF (SerializeAsString (mkHeartbeatRespMessage attrs)).

Definition ProcessRegister (now conn : Z) (meta : MessageMeta) (data : option (list Z))
    : M SchedulerNode unit :=
  _ ← exception_if_null (bool_decide (is_Some data));
  let register_message : RegisterMessage := ParseFromArray (default [] data) in
  rank_id ← with_manager (NextRankId register_message);
  _ ← (if rank_id <? 0 then throw "The rank id is wrong!" else mret tt);
  let node_id := reg_node_id register_message in
  _ ← with_manager (UpdateHeartbeat now node_id);
  SendMessage conn meta PROTOBUF (SerializeAsString (mkRegisterRespMessage node_id rank_id)).

Definition ProcessFinish (conn : Z) (meta : MessageMeta) (data : option (list Z))
    : M SchedulerNode unit :=
  _ ← exception_if_null (bool_decide (is_Some data));
  let finish_message : FinishMessage := ParseFromArray (default [] data) in
  _ ← with_manager (AddFinishNode finish_message);
  SendMessage conn meta PROTOBUF (default [] data).

Definition ProcessFetchServers (conn : Z) (meta : MessageMeta) (data : option (list Z))
    : M SchedulerNode unit :=
  _ ← exception_if_null (bool_decide (is_Some data));
  s ← getS;
  let servers := FetchServersMeta (node_manager_ s) in
  SendMessage conn meta PROTOBUF (SerializeAsString (mkFetchServersRespMessage servers)).

Definition InitCommandHandler : M SchedulerNode unit :=
  modify (fun s => set_handlers
    (<[FETCH_SERVER := H_ProcessFetchServers]>
    (<[FINISH := H_ProcessFinish]>
    (<[REGISTER := H_ProcessRegister]>
    (<[HEARTBEAT := H_ProcessHeartbeat]> (handlers_ s))))) s).

(** The callback CreateTcpServer installs. *)
Definition on_message (now conn : Z) (meta : MessageMeta) (data : option (list Z))
    : M SchedulerNode unit :=
  s ← getS;
  match handlers_ s !! cmd meta with
  | None => throw "The cmd is not supported!"
  | Some H_ProcessHeartbeat => ProcessHeartbeat now conn meta data
  | Some H_ProcessRegister => ProcessRegister now conn meta data
  | Some H_ProcessFinish => ProcessFinish conn meta data
  | Some H_ProcessFetchServers => ProcessFetchServers conn meta data
  end.

(** CreateTcpServer reads the scheduler's address, which must be configured. *)
Definition CreateTcpServer : M SchedulerNode unit :=
  _ ← with_manager (InitNodeNum cfg);
  if bool_decide (is_Some (scheduler_host_ cfg)) then mret tt
  else undef "null scheduler_host_".

Definition Initialize (uuid : string) : M SchedulerNode unit :=
  _ ← InitCommandHandler;
  _ ← CreateTcpServer;
  _ ← modify (set_stopped false);
  modify (fun s => set_info (mkNodeInfo (ip_ (node_info_ s)) (port_ (node_info_ s)) uuid SCHEDULER
    (rank_id_ (node_info_ s))) s).

(** A turn of the loop of StartUpdateClusterStateTimer before its sleep;
    [elapsed] is the time since the loop began. *)
Definition timer_before_sleep (elapsed : Z) : M SchedulerNode unit :=
  s ← getS;
  if negb (is_cluster_ready_ (node_manager_ s)) && (elapsed >? cluster_available_timeout_ cfg)
  then with_manager CheckClusterTimeout else mret tt.

(** And after it. *)
Definition timer_after_sleep (now : Z) : M SchedulerNode unit :=
  _ ← with_manager (UpdateClusterState cfg now);
  _ ← modify (fun s => if is_cluster_ready_ (node_manager_ s) then set_ready true s else s);
  modify (fun s => if is_cluster_finish_ (node_manager_ s) then set_finish true s else s).

Definition Stop : M SchedulerNode bool :=
  s ← getS;
  _ ← (if negb (is_already_stopped_ s)
       then _ ← modify (set_stopped true); modify (set_ready true) else mret tt);
  mret true.

Definition SchedulerNode_destructor : M SchedulerNode bool := Stop.

(** Start up to its wait, and the conditions Start and Finish wait for. *)
Definition Start (uuid : string) : M SchedulerNode unit := Initialize uuid.
Definition Start_poll (s : SchedulerNode) : bool := is_ready_ s.
Definition Finish_poll (s : SchedulerNode) : bool := is_finish_ s.

End scheduler.

(** ** Operations

    The handlers run on the thread of the TCP server, StartUpdateClusterStateTimer
    on a thread of its own and Stop on the thread of the program.  To interleave
    them a handler is also given as a sequence of operations, each of which is one
    call of the node manager, one access to an atomic flag or one send; its locals
    are bound in what is left to do.

    The maps and sets of the node manager are not atomic.  Each operation carries
    the mutexes under which it uses them. *)
Inductive mutex : Set := assign_rank_id_mutex_ | heartbeat_mutex_.
Inductive access : Set :=
| Maps (locks : list mutex)
| Flags.

Inductive ops (A : Type) : Type :=
| Done (a : A)
| Op (u : access) (c : SchedulerNode -> outcome SchedulerNode (ops A)).
Arguments Done {A} a.
Arguments Op {A} u c.

#[global] Instance ops_ret : MRet ops := fun A a => Done a.
#[global] Instance ops_bind : MBind ops := fun A B k => fix go p :=
  match p with
  | Done a => k a
  | Op u c => Op u (fun s => match c s with
                             | Ret p s' => Ret (go p) s'
                             | Throw e s' => Throw e s'
                             | Undef w => Undef w
                             | Fuel => Fuel
                             end)
  end.

(** All operations one after the other, without any other thread in between. *)
Fixpoint run {A} (p : ops A) : M SchedulerNode A :=
  match p with
  | Done a => mret a
  | Op _ c => fun s => match c s with
                       | Ret p s' => run p s'
                       | Throw e s' => Throw e s'
                       | Undef w => Undef w
                       | Fuel => Fuel
                       end
  end.

Definition op {A} (u : access) (c : M SchedulerNode A) : ops A := Op u (a ← c; mret (Done a)).

Section operations.
Context `{Protobuf HeartbeatMessage} `{Protobuf HeartbeatRespMessage}
  `{Protobuf RegisterMessage} `{Protobuf RegisterRespMessage} `{Protobuf FinishMessage}
  `{Protobuf FetchServersRespMessage}.
Context (cfg : ClusterConfig).

Definition flag (f : NodeManager -> bool) : ops bool := op Flags (gets (fun s => f (node_manager_ s))).

Definition ProcessHeartbeat_ops (now conn : Z) (meta : MessageMeta) (data : option (list Z)) : ops unit :=
  _ ← op Flags (exception_if_null (bool_decide (is_Some data)));
  let heartbeat_message : HeartbeatMessage := ParseFromArray (default [] data) in
  let is_node_finish := hb_is_node_finish heartbeat_message in
  _ ← op (Maps [heartbeat_mutex_]) (with_manager (UpdateHeartbeat now (hb_node_id heartbeat_message)));
  _ ← (if is_node_finish
       then op (Maps []) (with_manager (UpdateNodeFinishState (hb_node_id heartbeat_message))) else mret tt);
  all_finished ← (if is_node_finish
                  then op (Maps []) (gets (fun s => CheckNodesFinishState (node_manager_ s))) else mret false);
  _ ← (if (all_finished : bool) then op Flags (modify (set_finish true)) else mret tt);
  ready ← flag is_cluster_ready_;
  finish ← flag is_cluster_finish_;
  timeout ← flag is_cluster_timeout_;
  node_timeout ← flag is_node_timeout_;
  let attrs : gmap Z bool :=
    <[NodeAttribute_num IS_NODE_TIMEOUT := node_timeout]>
    (<[NodeAttribute_num IS_CLUSTER_TIMEOUT := timeout]>
    (<[NodeAttribute_num IS_CLUSTER_FINISH := finish]>
    (<[NodeAttribute_num IS_CLUSTER_READY := ready]> ∅))) in
  op Flags (SendMessage conn meta PROTOBUF (SerializeAsString (mkHeartbeatRespMessage attrs))).

Definition ProcessRegister_ops (now conn : Z) (meta : MessageMeta) (data : option (list Z)) : ops unit :=
  _ ← op Flags (exception_if_null (bool_decide (is_Some data)));
  let register_message : RegisterMessage := ParseFromArray (default [] data) in
  rank_id ← op (Maps [assign_rank_id_mutex_]) (with_manager (NextRankId register_message));
  _ ← op Flags (if rank_id <? 0 then throw "The rank id is wrong!" else mret tt);
  let node_id := reg_node_id register_message in
  _ ← op (Maps [heartbeat_mutex_]) (with_manager (UpdateHeartbeat now node_id));
  op Flags (SendMessage conn meta PROTOBUF (SerializeAsString (mkRegisterRespMessage node_id rank_id))).

Definition ProcessFinish_ops (conn : Z) (meta : MessageMeta) (data : option (list Z)) : ops unit :=
  _ ← op Flags (exception_if_null (bool_decide (is_Some data)));
  let finish_message : FinishMessage := ParseFromArray (default [] data) in
  _ ← op (Maps []) (with_manager (AddFinishNode finish_message));
  op Flags (SendMessage conn meta PROTOBUF (default [] data)).

Definition ProcessFetchServers_ops (conn : Z) (meta : MessageMeta) (data : option (list Z)) : ops unit :=
  _ ← op Flags (exception_if_null (bool_decide (is_Some data)));
  servers ← op (Maps []) (gets (fun s => FetchServersMeta (node_manager_ s)));
  op Flags (SendMessage conn meta PROTOBUF (SerializeAsString (mkFetchServersRespMessage servers))).

Definition on_message_ops (now conn : Z) (meta : MessageMeta) (data : option (list Z)) : ops unit :=
  h ← op Flags (s ← getS; match handlers_ s !! cmd meta with
                          | None => throw "The cmd is not supported!"
                          | Some h => mret h
                          end);
  match h with
  | H_ProcessHeartbeat => ProcessHeartbeat_ops now conn meta data
  | H_ProcessRegister => ProcessRegister_ops now conn meta data
  | H_ProcessFinish => ProcessFinish_ops conn meta data
  | H_ProcessFetchServers => ProcessFetchServers_ops conn meta data
  end.

(** ** The timer thread

    The loop of StartUpdateClusterStateTimer.  [is_finish_] is tested at its top
    only, so a turn that has begun goes on to its end. *)
Inductive timer_pc : Set :=
| T_loop | T_ready_test | T_timeout | T_update | T_ready | T_set_ready | T_finish | T_set_finish | T_end.

Definition timer_op (elapsed now : Z) (pc : timer_pc) : M SchedulerNode timer_pc :=
  match pc with
  | T_loop => b ← gets is_finish_; mret (if (b : bool) then T_end else T_ready_test)
  | T_ready_test =>
    s ← getS;
    mret (if negb (is_cluster_ready_ (node_manager_ s)) && (elapsed >? cluster_available_timeout_ cfg)
          then T_timeout else T_update)
  | T_timeout => _ ← with_manager CheckClusterTimeout; mret T_update
  | T_update => _ ← with_manager (UpdateClusterState cfg now); mret T_ready
  | T_ready => s ← getS; mret (if is_cluster_ready_ (node_manager_ s) then T_set_ready else T_finish)
  | T_set_ready => _ ← modify (set_ready true); mret T_finish
  | T_finish => s ← getS; mret (if is_cluster_finish_ (node_manager_ s) then T_set_finish else T_loop)
  | T_set_finish => _ ← modify (set_finish true); mret T_loop
  | T_end => mret T_end
  end.

Definition timer_access (pc : timer_pc) : access :=
  match pc with T_timeout | T_update => Maps [] | _ => Flags end.

(** ** The threads together *)

(** Where a Stop is: before it, in its two joins, between them and its end, and
    after it. *)
Inductive stop_pc : Set := S_idle | S_join_timer | S_join_server | S_joined | S_end.

Record sched_sys : Type := mkSys {
  sys_node : SchedulerNode;
  sys_handler : ops unit; (* what the thread of the server has left to do *)
  sys_timer : timer_pc;
  sys_stop : stop_pc;
}.

(** The first join returns when the loop of the timer has ended, the second when
    the event loop has, which is between two messages. *)
Definition stop_op (y : sched_sys) : option sched_sys :=
  let '(mkSys s p t pc) := y in
  match pc with
  | S_idle => if is_already_stopped_ s then None else Some (mkSys (set_stopped true s) p t S_join_timer)
  | S_join_timer => if t is T_end then Some (mkSys s p t S_join_server) else None
  | S_join_server => if p is Done _ then Some (mkSys s p t S_joined) else None
  | S_joined => Some (mkSys (set_ready true s) p t S_end)
  | S_end => None
  end.

Definition serving (pc : stop_pc) : bool :=
  match pc with S_idle | S_join_timer | S_join_server => true | S_joined | S_end => false end.

(** The operations of the threads, one at a time. *)
Inductive sched_step : sched_sys -> sched_sys -> Prop :=
| step_message now conn meta data s t pc :
    serving pc = true ->
    sched_step (mkSys s (Done tt) t pc) (mkSys s (on_message_ops now conn meta data) t pc)
| step_handler s u c t pc p s' :
    c s = Ret p s' -> sched_step (mkSys s (Op u c) t pc) (mkSys s' p t pc)
| step_timer elapsed now s p t pc t' s' :
    timer_op elapsed now t s = Ret t' s' -> sched_step (mkSys s p t pc) (mkSys s' p t' pc)
| step_stop y y' : stop_op y = Some y' -> sched_step y y'.

(** What Start leaves, and the states it can come to. *)
Definition started (s : SchedulerNode) : sched_sys := mkSys s (Done tt) T_loop S_idle.
Definition sys_reachable (y : sched_sys) : Prop :=
  exists uuid s0, Initialize cfg uuid SchedulerNode_init = Ret tt s0 /\ rtc sched_step (started s0) y.
Definition reachable (s : SchedulerNode) : Prop := exists y, sys_reachable y /\ sys_node y = s.

(** Two threads are about to use the maps without a mutex in common. *)
Definition race (y : sched_sys) : Prop :=
  match sys_handler y, timer_access (sys_timer y) with
  | Op (Maps locks) _, Maps locks' => forall l, l ∈ locks -> l ∉ locks'
  | _, _ => False
  end.
End operations.

(** ** The operations of a handler are the handler *)
Section run.
Context `{Protobuf HeartbeatMessage} `{Protobuf HeartbeatRespMessage}
  `{Protobuf RegisterMessage} `{Protobuf RegisterRespMessage} `{Protobuf FinishMessage}
  `{Protobuf FetchServersRespMessage}.
Context (cfg : ClusterConfig).

Lemma run_op {A B} u (c : M SchedulerNode A) (k : A -> ops B) s :
  run (op u c ≫= k) s = (c ≫= (fun a => run (k a))) s.
Proof. cbn. unfold mbind, M_bind. by destruct (c s). Qed.

Lemma run_op_last {A} u (c : M SchedulerNode A) s : run (op u c) s = c s.
Proof. cbn. unfold mbind, M_bind. by destruct (c s). Qed.

Lemma bind_ext {A B} (c : M SchedulerNode A) (f g : A -> M SchedulerNode B) s :
  (forall a s', f a s' = g a s') -> (c ≫= f) s = (c ≫= g) s.
Proof. intros E. unfold mbind, M_bind. by destruct (c s). Qed.

Lemma run_heartbeat now conn meta data s :
  run (ProcessHeartbeat_ops now conn meta data) s = ProcessHeartbeat now conn meta data s.
Proof.
  unfold ProcessHeartbeat_ops, ProcessHeartbeat. rewrite run_op. apply bind_ext. intros _ s1.
  rewrite run_op. apply bind_ext. intros _ s2. unfold flag.
  destruct (hb_is_node_finish _).
  - rewrite run_op. apply bind_ext. intros _ s3. rewrite run_op. cbn [andb].
    erewrite (bind_Ret (gets _)) by reflexivity. erewrite (bind_Ret getS) by reflexivity.
    by destruct (CheckNodesFinishState _).
  - reflexivity.
Qed.

Lemma run_on_message now conn meta data s :
  run (on_message_ops now conn meta data) s = on_message now conn meta data s.
Proof.
  unfold on_message_ops, on_message. rewrite run_op. unfold mbind, M_bind, getS.
  destruct (handlers_ s !! cmd meta) as [[]|]; [..|done]; unfold mret, M_ret.
  - apply run_heartbeat.
  - unfold ProcessRegister_ops, ProcessRegister. rewrite run_op. apply bind_ext. intros _ s1.
    rewrite run_op. apply bind_ext. intros k s2. rewrite run_op. apply bind_ext. intros _ s3.
    rewrite run_op. apply bind_ext. intros _ s4. apply run_op_last.
  - unfold ProcessFinish_ops, ProcessFinish. rewrite run_op. apply bind_ext. intros _ s1.
    rewrite run_op. apply bind_ext. intros _ s2. apply run_op_last.
  - unfold ProcessFetchServers_ops, ProcessFetchServers. rewrite run_op. by apply bind_ext.
Qed.

(** A message that the handler deals with alone, on the thread of the server. *)
Lemma handler_runs (p : ops unit) t pc : forall s s', run p s = Ret tt s' ->
  rtc (sched_step cfg) (mkSys s p t pc) (mkSys s' (Done tt) t pc).
Proof.
  revert p. fix IH 1. intros [[]|u c] s s' E; cbn in E.
  - injection E as <-. apply rtc_refl.
  - destruct (c s) as [p s1| | |] eqn:Ec; try discriminate.
    eapply rtc_l; [|exact (IH p s1 s' E)]. apply step_handler. by rewrite Ec.
Qed.
End run.

(** ** Invariants *)
Section invariants.
Context `{Protobuf HeartbeatMessage} `{Protobuf HeartbeatRespMessage}
  `{Protobuf RegisterMessage} `{Protobuf RegisterRespMessage} `{Protobuf FinishMessage}
  `{Protobuf FetchServersRespMessage}.
Context (cfg : ClusterConfig).

Lemma with_manager_Ret {A} (c : M NodeManager A) s a s' :
  with_manager c s = Ret a s' <->
  exists nm, c (node_manager_ s) = Ret a nm /\ s' = set_manager nm s.
Proof.
  unfold with_manager. destruct (c (node_manager_ s)) as [b nm| | |]; split; try discriminate.
  - intros [= <- <-]. by exists nm.
  - by intros (nm' & [= <- <-] & ->).
  - intros (? & [=] & _).
  - intros (? & [=] & _).
  - intros (? & [=] & _).
Qed.

Ltac sched_inv := repeat first
  [ step_inv1
  | match goal with
    | E : with_manager _ _ = Ret _ _ |- _ => apply with_manager_Ret in E as (? & ? & ->)
    end ].

(** The ways an operation of a handler can change the node manager. *)
Inductive manager_step (m : NodeManager) : NodeManager -> Prop :=
| ms_same : manager_step m m
| ms_heartbeat now id m' : UpdateHeartbeat now id m = Ret tt m' -> manager_step m m'
| ms_node_finish id m' : UpdateNodeFinishState id m = Ret tt m' -> manager_step m m'
| ms_register r k m' : NextRankId r m = Ret k m' -> manager_step m m'
| ms_finish f m' : AddFinishNode f m = Ret tt m' -> manager_step m m'
| ms_timeout m' : CheckClusterTimeout m = Ret tt m' -> manager_step m m'.

(** And the scheduler. *)
Record node_step (s s' : SchedulerNode) : Prop := {
  ns_manager : manager_step (node_manager_ s) (node_manager_ s');
  ns_ready : is_ready_ s' = is_ready_ s;
  ns_handlers : handlers_ s' = handlers_ s;
  ns_finish : is_finish_ s = true -> is_finish_ s' = true;
}.

(** Every operation of [p] is such a step, whatever happens in between. *)
Inductive all_ops {A} : ops A -> Prop :=
| all_done a : all_ops (Done a)
| all_op u c :
    (forall s p s', c s = Ret p s' -> node_step s s') ->
    (forall s p s', c s = Ret p s' -> all_ops p) -> all_ops (Op u c).

Lemma all_ops_bind {A B} (p : ops A) (k : A -> ops B) :
  all_ops p -> (forall a, all_ops (k a)) -> all_ops (p ≫= k).
Proof.
  intros Hp Hk. induction Hp as [a|u c Hs _ IH]; [apply Hk|]. constructor; intros s p s'.
  - intros E. destruct (c s) as [q s1| | |] eqn:Ec; try discriminate. injection E as <- <-. eauto.
  - intros E. destruct (c s) as [q s1| | |] eqn:Ec; try discriminate. injection E as <- <-. eauto.
Qed.

Lemma all_ops_op {A} u (c : M SchedulerNode A) :
  (forall s a s', c s = Ret a s' -> node_step s s') -> all_ops (op u c).
Proof.
  intros Hc. constructor; intros s p s' (a & s1 & E & [= <- <-])%bind_inv; [eauto|constructor].
Qed.

Lemma all_ops_same {A} u (c : M SchedulerNode A) :
  (forall s, match c s with Ret _ s' => s' = s | _ => True end) -> all_ops (op u c).
Proof.
  intros Hc. apply all_ops_op. intros s a s' E. specialize (Hc s). rewrite E in Hc. subst.
  split; by try constructor.
Qed.

Lemma all_ops_manager {A} u (c : M NodeManager A) :
  (forall m a m', c m = Ret a m' -> manager_step m m') -> all_ops (op u (with_manager c)).
Proof.
  intros Hc. apply all_ops_op. intros s a s' E. apply with_manager_Ret in E as (m & E & ->).
  split; cbn; eauto.
Qed.

Lemma all_ops_send u conn meta protos data : all_ops (op u (SendMessage conn meta protos data)).
Proof. apply all_ops_op. intros s a s' [= _ <-]. split; by try constructor. Qed.

Lemma all_ops_if {A} (b : bool) (p q : ops A) : all_ops p -> all_ops q -> all_ops (if b then p else q).
Proof. by destruct b. Qed.

Lemma on_message_all now conn meta data : all_ops (on_message_ops now conn meta data).
Proof.
  apply all_ops_bind.
  { apply all_ops_same. intros s. unfold mbind, M_bind, getS. by destruct (handlers_ s !! cmd meta). }
  assert (forall u, all_ops (op u (exception_if_null (bool_decide (is_Some data))))) as Hnull.
  { intros u. apply all_ops_same. intros s. by case_bool_decide. }
  intros []; (apply all_ops_bind; [done|]); intros _.
  - apply all_ops_bind; [apply all_ops_manager; intros ? [] ?; apply ms_heartbeat|]. intros _.
    apply all_ops_bind; [apply all_ops_if;
      [apply all_ops_manager; intros ? [] ?; apply ms_node_finish|constructor]|]. intros _.
    apply all_ops_bind; [apply all_ops_if; [by apply all_ops_same|constructor]|]. intros b.
    apply all_ops_bind.
    { apply all_ops_if; [|constructor]. apply all_ops_op. intros s [] s' [= <-]. split; by try constructor. }
    intros _. do 4 (apply all_ops_bind; [by apply all_ops_same|intros ?]). apply all_ops_send.
  - apply all_ops_bind; [apply all_ops_manager; intros ???; apply ms_register|]. intros k.
    apply all_ops_bind; [apply all_ops_same; intros s; by destruct (k <? 0)|]. intros _.
    apply all_ops_bind; [apply all_ops_manager; intros ? [] ?; apply ms_heartbeat|]. intros _. apply all_ops_send.
  - apply all_ops_bind; [apply all_ops_manager; intros ? [] ?; apply ms_finish|]. intros _. apply all_ops_send.
  - apply all_ops_bind; [by apply all_ops_same|]. intros l. apply all_ops_send.
Qed.

Lemma manager_step_grows m m' : manager_step m m' -> grows m m'.
Proof.
  intros []; [done|by eapply UpdateHeartbeat_grows| |by eapply NextRankId_grows| |].
  - unfold UpdateNodeFinishState in *. step_inv. split; nmcbn; auto.
  - unfold AddFinishNode in *. step_inv. split; nmcbn; auto.
  - unfold CheckClusterTimeout in *. step_inv. case_match; [|done]. split; nmcbn; auto.
Qed.

Lemma UpdateHeartbeat_keeps_wf now id m m' : wf m -> UpdateHeartbeat now id m = Ret tt m' -> wf m'.
Proof. intros Hwf E. destruct (UpdateHeartbeat_wf now id m Hwf) as (? & ? & ? & _). congruence. Qed.

Lemma manager_step_wf m m' : wf m -> num_nodes m <= INT_MAX -> manager_step m m' -> wf m'.
Proof.
  intros Hwf Hsz []; [done|by eapply UpdateHeartbeat_keeps_wf| | | |].
  - unfold UpdateNodeFinishState in *. step_inv. by apply (wf_ext m).
  - destruct (NextRankId_wf r m Hwf Hsz) as (k' & m2 & E & Hwf2 & _). congruence.
  - unfold AddFinishNode in *. step_inv. by apply (wf_ext m).
  - unfold CheckClusterTimeout in *. step_inv. case_match; by apply (wf_ext m).
Qed.

Lemma manager_step_defaults m m' : defaults m -> manager_step m m' -> defaults m'.
Proof.
  intros Hm []; [done|..];
    try match goal with E : ?c m = Ret _ _ |- _ => by apply (keeps_Ret defaults c m) in E; auto with rpc end.
  - unfold UpdateNodeFinishState in *. by step_inv.
  - unfold AddFinishNode in *. by step_inv.
Qed.

Lemma manager_step_ready m m' :
  manager_step m m' -> is_cluster_ready_ m' = is_cluster_ready_ m.
Proof.
  intros [].
  - done.
  - unfold UpdateHeartbeat, node_at in *. step_inv. case_match; simplify_eq; done.
  - unfold UpdateNodeFinishState in *. by step_inv.
  - unfold NextRankId in *. step_inv. repeat case_match; step_inv; done.
  - unfold AddFinishNode in *. by step_inv.
  - unfold CheckClusterTimeout in *. step_inv. by case_match.
Qed.

(** The table of handlers after [InitCommandHandler]. *)
Definition all_handlers : gmap NodeCommand SchedulerHandler :=
  <[FETCH_SERVER := H_ProcessFetchServers]> (<[FINISH := H_ProcessFinish]>
    (<[REGISTER := H_ProcessRegister]> (<[HEARTBEAT := H_ProcessHeartbeat]> ∅))).

(** What holds of the scheduler at every moment. *)
Record node_inv (s : SchedulerNode) : Prop := {
  si_wf : wf (node_manager_ s);
  si_total : total_node_num_ (node_manager_ s) = u32 (server_num_ cfg + worker_num_ cfg);
  si_defaults : defaults (node_manager_ s);
  si_cluster : is_cluster_ready_ (node_manager_ s) = true ->
    is_cluster_finish_ (node_manager_ s) = true \/
    total_node_num_ (node_manager_ s) <= num_nodes (node_manager_ s);
  si_handlers : handlers_ s = all_handlers;
}.

(** And of its threads. *)
Record sys_inv (y : sched_sys) : Prop := {
  yi_node : node_inv (sys_node y);
  yi_handler : all_ops (sys_handler y);
  yi_ready : is_ready_ (sys_node y) = true ->
    sys_stop y = S_end \/ is_cluster_ready_ (node_manager_ (sys_node y)) = true;
  yi_set_ready : sys_timer y = T_set_ready -> is_cluster_ready_ (node_manager_ (sys_node y)) = true;
  yi_end : sys_timer y = T_end -> is_finish_ (sys_node y) = true;
  yi_joined : match sys_stop y with S_join_server | S_joined | S_end => sys_timer y = T_end | _ => True end;
}.

Lemma cluster_ready_grows m m' :
  grows m m' -> is_cluster_finish_ m = true \/ total_node_num_ m <= num_nodes m ->
  is_cluster_finish_ m' = true \/ total_node_num_ m' <= num_nodes m'.
Proof.
  intros G [Hf|Ht]; [left; by apply (g_finish _ _ G)|right].
  rewrite (g_total _ _ G). pose proof (grows_num _ _ G). lia.
Qed.

Lemma node_step_inv s s' :
  node_inv s -> num_nodes (node_manager_ s) <= INT_MAX -> node_step s s' -> node_inv s'.
Proof.
  intros [] Hsz [Hm _ Hh _]. pose proof (manager_step_grows _ _ Hm) as G.
  pose proof (manager_step_ready _ _ Hm) as R. split.
  - by eapply manager_step_wf.
  - by rewrite (g_total _ _ G).
  - by eapply manager_step_defaults.
  - rewrite R. intros Hc. eapply cluster_ready_grows; eauto.
  - congruence.
Qed.

(** An operation of the handlers, or CheckClusterTimeout. *)
Lemma node_step_sys s s' p p' t t' pc :
  sys_inv (mkSys s p t pc) -> num_nodes (node_manager_ s) <= INT_MAX -> node_step s s' -> all_ops p' ->
  t' = t \/ t <> T_end /\ (t' = T_update) -> sys_inv (mkSys s' p' t' pc).
Proof.
  intros [Hn _ Hr Hs He Hj] Hsz Hst Hp' Ht. pose proof Hst as [Hm Er _ Hf].
  pose proof (manager_step_ready _ _ Hm) as R. cbn in *.
  split; cbn; rewrite ?R, ?Er; try done.
  - by eapply node_step_inv.
  - destruct Ht as [->|[_ ->]]; [done|discriminate].
  - destruct Ht as [->|[_ ->]]; [auto|discriminate].
  - destruct Ht as [->|[Ht ->]]; [done|]. by destruct pc.
Qed.

Lemma UpdateClusterState_inv now s m :
  node_inv s -> UpdateClusterState cfg now (node_manager_ s) = Ret tt m ->
  node_inv (set_manager m s).
Proof.
  intros [] Hu. destruct (UpdateClusterState_grows _ _ _ _ Hu) as [G R]. split; cbn.
  - by eapply UpdateClusterState_wf.
  - by rewrite (g_total _ _ G).
  - by apply (keeps_Ret defaults) in Hu; auto with rpc.
  - intros [Hr|[Hr|Hr]]%R; [|by left|right; lia]. eapply cluster_ready_grows; eauto.
  - done.
Qed.

Lemma timer_op_grows elapsed now t s t' s' :
  timer_op cfg elapsed now t s = Ret t' s' -> grows (node_manager_ s) (node_manager_ s').
Proof.
  destruct t; cbn; try (by intros [= _ <-]); intros ([] & s1 & E & [= <- <-])%bind_inv;
    apply with_manager_Ret in E as (m & E & ->).
  - by apply manager_step_grows, ms_timeout.
  - by apply UpdateClusterState_grows in E as [? _].
Qed.

Lemma timer_step_inv elapsed now s p t pc t' s' :
  sys_inv (mkSys s p t pc) -> num_nodes (node_manager_ s) <= INT_MAX ->
  timer_op cfg elapsed now t s = Ret t' s' -> sys_inv (mkSys s' p t' pc).
Proof.
  intros Hi Hsz E. pose proof (timer_op_grows _ _ _ _ _ _ E) as G. pose proof Hi as [Hn Hp Hr Hs He Hj].
  destruct t; cbn in *.
  - injection E as <- <-. split; cbn; try done; destruct (is_finish_ s); try done; by destruct pc.
  - injection E as <- <-. destruct (_ && _); split; cbn; try done; by destruct pc.
  - apply bind_inv in E as ([] & s1 & E & [= <- <-]). apply with_manager_Ret in E as (m & E & ->).
    pose proof (ms_timeout _ _ E) as Hm. eapply node_step_sys; [done..| |done|by right]. by split.
  - apply bind_inv in E as ([] & s1 & E & [= <- <-]). apply with_manager_Ret in E as (m & E & ->).
    split; cbn; try done; [by eapply UpdateClusterState_inv| |by destruct pc].
    intros [?|?]%Hr; [by left|right]. by apply (g_ready _ _ G).
  - injection E as <- <-. destruct (is_cluster_ready_ _) eqn:Er; split; cbn; rewrite ?Er; try done; by destruct pc.
  - injection E as <- <-. destruct Hn. split; cbn; try done; [auto|by destruct pc].
  - injection E as <- <-. destruct (is_cluster_finish_ _); split; cbn; try done; by destruct pc.
  - injection E as <- <-. destruct Hn. split; cbn; try done; by destruct pc.
  - by injection E as <- <-.
Qed.

Lemma stop_step_inv y y' : sys_inv y -> stop_op y = Some y' -> sys_inv y'.
Proof.
  destruct y as [s p t pc]. intros [Hn Hp Hr Hs He Hj] E. cbn in *. destruct pc; repeat case_match; simplify_eq.
  all: split; cbn; auto; try by destruct Hn; split.
  all: intros Hrd; destruct (Hr Hrd); [discriminate|by right].
Qed.

Lemma sched_step_grows y y' :
  all_ops (sys_handler y) -> sched_step cfg y y' ->
  all_ops (sys_handler y') /\ grows (node_manager_ (sys_node y)) (node_manager_ (sys_node y')).
Proof.
  intros Hp Hs. destruct Hs as [now conn meta data s t pc Hv|s u c t pc p s' E|elapsed now s p t pc t' s' E|y y' E].
  - split; [apply on_message_all|done].
  - inversion Hp as [|? ? Hst Hall]; subst. split; [eauto|]. by eapply manager_step_grows, ns_manager, Hst.
  - split; [done|]. by eapply timer_op_grows.
  - destruct y as [s p t pc]. cbn in *. destruct pc; repeat case_match; by simplify_eq.
Qed.

Lemma sched_step_inv y y' :
  sys_inv y -> num_nodes (node_manager_ (sys_node y)) <= INT_MAX -> sched_step cfg y y' -> sys_inv y'.
Proof.
  intros Hi Hsz Hs. destruct Hs as [now conn meta data s t pc Hv|s u c t pc p s' E|elapsed now s p t pc t' s' E|y y' E].
  - destruct Hi. split; cbn in *; try done. apply on_message_all.
  - pose proof (yi_handler _ Hi) as Hp. inversion Hp as [|? ? Hst Hall]; subst. eapply node_step_sys; eauto.
  - by eapply timer_step_inv.
  - by eapply stop_step_inv.
Qed.

Lemma Initialize_inv uuid s0 : Initialize cfg uuid SchedulerNode_init = Ret tt s0 ->
  node_inv s0 /\ is_ready_ s0 = false /\ is_finish_ s0 = false.
Proof.
  unfold Initialize, InitCommandHandler, CreateTcpServer, InitNodeNum. intros E. sched_inv. split; [|done].
  split; cbn; try done. by apply (wf_ext NodeManager_init), wf_init.
Qed.

Lemma sys_reachable_inv y :
  sys_reachable cfg y -> num_nodes (node_manager_ (sys_node y)) <= INT_MAX -> sys_inv y.
Proof.
  intros (uuid & s0 & Hi & Hr). apply Initialize_inv in Hi as (Hi & Hf & _).
  apply (rtc_ind_r (fun y => all_ops (sys_handler y) /\
    (num_nodes (node_manager_ (sys_node y)) <= INT_MAX -> sys_inv y)) (started s0)) in Hr; [apply Hr|..].
  - split; [constructor|]. intros _. split; cbn; try done; [constructor|congruence].
  - clear. intros y z _ Hs [Hp IH]. destruct (sched_step_grows _ _ Hp Hs) as [Hp' G]. split; [done|].
    intros Hsz. pose proof (grows_num _ _ G). eapply sched_step_inv; [apply IH| |done]; lia.
Qed.

Lemma reachable_inv s : reachable cfg s -> num_nodes (node_manager_ s) <= INT_MAX -> node_inv s.
Proof. intros (y & Hy & <-) Hsz. by apply sys_reachable_inv. Qed.

(** The turn of the timer in the large. *)
Lemma timer_before_runs elapsed s s' p pc :
  timer_before_sleep cfg elapsed s = Ret tt s' ->
  rtc (sched_step cfg) (mkSys s p T_ready_test pc) (mkSys s' p T_update pc).
Proof.
  unfold timer_before_sleep. rewrite (bind_Ret getS _ s s s eq_refl). case_match eqn:Eb; intros E.
  - eapply rtc_l; [apply (step_timer _ elapsed 0 s p T_ready_test pc T_timeout s); cbn|].
    { unfold mbind, M_bind, getS, mret, M_ret. by rewrite Eb. }
    apply rtc_once, (step_timer _ elapsed 0). cbn. by rewrite (bind_Ret _ _ _ _ _ E).
  - injection E as <-. apply rtc_once, (step_timer _ elapsed 0). cbn.
    unfold mbind, M_bind, getS, mret, M_ret. by rewrite Eb.
Qed.

Lemma timer_after_runs now s s' p pc :
  timer_after_sleep cfg now s = Ret tt s' ->
  rtc (sched_step cfg) (mkSys s p T_update pc) (mkSys s' p T_loop pc).
Proof.
  intros ([] & s1 & E1 & E)%bind_inv. apply bind_inv in E as ([] & s2 & [= E2] & [= E3]).
  eapply rtc_l; [apply (step_timer _ 0 now s p T_update pc T_ready s1); cbn; by rewrite (bind_Ret _ _ _ _ _ E1)|].
  trans (mkSys s2 p T_finish pc).
  - destruct (is_cluster_ready_ (node_manager_ s1)) eqn:Er; subst s2.
    + eapply rtc_l; [apply (step_timer _ 0 0 _ p T_ready pc T_set_ready s1)|by apply rtc_once, (step_timer _ 0 0)].
      cbn. unfold mbind, M_bind, getS, mret, M_ret. by rewrite Er.
    + apply rtc_once, (step_timer _ 0 0). cbn. unfold mbind, M_bind, getS, mret, M_ret. by rewrite Er.
  - destruct (is_cluster_finish_ (node_manager_ s2)) eqn:Er; subst s'.
    + eapply rtc_l; [apply (step_timer _ 0 0 _ p T_finish pc T_set_finish s2)|by apply rtc_once, (step_timer _ 0 0)].
      cbn. unfold mbind, M_bind, getS, mret, M_ret. by rewrite Er.
    + apply rtc_once, (step_timer _ 0 0). cbn. unfold mbind, M_bind, getS, mret, M_ret. by rewrite Er.
Qed.

Lemma message_runs now conn meta data s s' t pc :
  serving pc = true -> on_message now conn meta data s = Ret tt s' ->
  rtc (sched_step cfg) (mkSys s (Done tt) t pc) (mkSys s' (Done tt) t pc).
Proof.
  intros Hpc E. eapply rtc_l; [by apply (step_message cfg now conn meta data)|].
  apply handler_runs. by rewrite run_on_message.
Qed.
(** Between two messages and two turns of the timer, before a Stop. *)
Lemma started_message now conn meta data s s' :
  sys_reachable cfg (started s) -> on_message now conn meta data s = Ret tt s' -> sys_reachable cfg (started s').
Proof.
  intros (uuid & s0 & Hi & Hr) E. exists uuid, s0. split; [done|]. etrans; [exact Hr|]. by eapply message_runs.
Qed.

Lemma started_turn elapsed now s s1 s' :
  sys_reachable cfg (started s) -> is_finish_ s = false -> timer_before_sleep cfg elapsed s = Ret tt s1 ->
  timer_after_sleep cfg now s1 = Ret tt s' -> sys_reachable cfg (started s').
Proof.
  intros (uuid & s0 & Hi & Hr) Hf E1 E2. exists uuid, s0. split; [done|]. etrans; [exact Hr|].
  eapply rtc_l; [|etrans; [by eapply timer_before_runs|by eapply timer_after_runs]].
  apply (step_timer _ 0 0). cbn. unfold mbind, M_bind, gets, mret, M_ret. by rewrite Hf.
Qed.

Lemma started_reachable s : sys_reachable cfg (started s) -> reachable cfg s.
Proof. intros Hr. by exists (started s). Qed.
End invariants.

(** ** Properties *)
Section properties.
Context `{ProtobufLaws HeartbeatMessage} `{ProtobufLaws HeartbeatRespMessage}
  `{ProtobufLaws RegisterMessage} `{ProtobufLaws RegisterRespMessage}
  `{ProtobufLaws FinishMessage} `{ProtobufLaws FetchServersRespMessage}.
Context (cfg : ClusterConfig).

Lemma Initialize_spec uuid :
  is_Some (scheduler_host_ cfg) ->
  exists s0, Initialize cfg uuid SchedulerNode_init = Ret tt s0 /\
    handlers_ s0 !! HEARTBEAT = Some H_ProcessHeartbeat /\
    handlers_ s0 !! REGISTER = Some H_ProcessRegister /\
    handlers_ s0 !! FINISH = Some H_ProcessFinish /\
    handlers_ s0 !! FETCH_SERVER = Some H_ProcessFetchServers /\
    nodes_info_ (node_manager_ s0) = ∅ /\ next_server_rank_id_ (node_manager_ s0) = -1 /\
    sent s0 = [].
Proof.
  intros Hh. unfold Initialize, InitCommandHandler, CreateTcpServer, InitNodeNum.
  erewrite (bind_Ret (S := SchedulerNode)) by done. rewrite bind_assoc.
  erewrite (bind_Ret (S := SchedulerNode)) by done.
  rewrite bool_decide_true by done. eexists. split; [done|]. cbn. by split_and!.
Qed.

(** Registration of a node that is not in the table, on any connection. *)
Lemma ProcessRegister_new now conn meta r s :
  wf (node_manager_ s) -> num_nodes (node_manager_ s) < INT_MAX ->
  nodes_info_ (node_manager_ s) !! reg_node_id r = None -> reg_role r <> SCHEDULER ->
  exists s' k, ProcessRegister now conn meta (Some (SerializeAsString r)) s = Ret tt s' /\
    k = next_rank (reg_role r) (node_manager_ s) + 1 /\
    sent s' = sent s ++ [mkResponse conn meta PROTOBUF
                           (SerializeAsString (mkRegisterRespMessage (reg_node_id r) k))] /\
    handlers_ s' = handlers_ s /\ wf (node_manager_ s') /\
    (exists n, nodes_info_ (node_manager_ s') = <[reg_node_id r := n]> (nodes_info_ (node_manager_ s))
       /\ rank_id_ n = k /\ node_role_ n = reg_role r).
Proof.
  intros Hwf Hsz Hf Hr. unfold ProcessRegister.
  rewrite bool_decide_true by done. rewrite (bind_Ret (exception_if_null true) _ s tt s eq_refl).
  cbn [default from_option id]. rewrite parse_serialize.
  destruct (NextRankId_new r (node_manager_ s)) as (m1 & n & E & Hwf1 & Hn & Hrole & Hk & _);
    [done|lia|done|done|].
  assert (0 <= rank_id_ n) as Hpos.
  { rewrite Hk. destruct (wf_next _ Hwf). destruct (reg_role r); cbn; lia || done. }
  rewrite (bind_Ret _ _ s (rank_id_ n) (set_manager m1 s)); cycle 1.
  { apply with_manager_Ret. by exists m1. }
  destruct (Z.ltb_spec (rank_id_ n) 0); [lia|]. rewrite (bind_Ret (mret tt) _ _ tt _ eq_refl).
  destruct (UpdateHeartbeat_wf now (reg_node_id r) m1 Hwf1) as (m2 & E2 & Hwf2 & _).
  rewrite (bind_Ret _ _ _ tt (set_manager m2 s)); cycle 1.
  { apply with_manager_Ret. by exists m2. }
  eexists _, (rank_id_ n). split; [done|]. cbn. split_and!; try done.
  exists n. split_and!; try done. rewrite <- Hn.
  unfold UpdateHeartbeat in E2. apply bind_inv in E2 as (a & m3 & En & E3).
  unfold node_at in En. rewrite Hn, lookup_insert_eq in En. injection En as <- <-.
  by injection E3 as <-.
Qed.

(** A node that is in the table is told the rank it has there. *)
Lemma ProcessRegister_known now conn meta r s n :
  wf (node_manager_ s) -> nodes_info_ (node_manager_ s) !! reg_node_id r = Some n ->
  0 <= i32 (rank_id_ n) ->
  exists s', ProcessRegister now conn meta (Some (SerializeAsString r)) s = Ret tt s' /\
    sent s' = sent s ++ [mkResponse conn meta PROTOBUF
      (SerializeAsString (mkRegisterRespMessage (reg_node_id r) (i32 (rank_id_ n))))].
Proof.
  intros Hwf Hn Hpos. unfold ProcessRegister.
  rewrite bool_decide_true by done. rewrite (bind_Ret (exception_if_null true) _ s tt s eq_refl).
  cbn [default from_option id]. rewrite parse_serialize.
  rewrite (bind_Ret _ _ s (i32 (rank_id_ n)) s); cycle 1.
  { unfold with_manager, NextRankId. rewrite (bind_Ret getS _ _ _ _ eq_refl), Hn.
    by destruct s. }
  destruct (Z.ltb_spec (i32 (rank_id_ n)) 0); [lia|].
  rewrite (bind_Ret (mret tt) _ _ tt _ eq_refl).
  destruct (UpdateHeartbeat_wf now (reg_node_id r) (node_manager_ s) Hwf) as (m2 & E2 & _).
  rewrite (bind_Ret _ _ _ tt (set_manager m2 s)); [by eexists|].
  apply with_manager_Ret. by exists m2.
Qed.

(** A heartbeat that does not announce the end of the node. *)
Lemma ProcessHeartbeat_alive now conn meta x s :
  wf (node_manager_ s) ->
  exists s' m1 r, ProcessHeartbeat now conn meta
      (Some (SerializeAsString (mkHeartbeatMessage x false))) s = Ret tt s' /\
    UpdateHeartbeat now x (node_manager_ s) = Ret tt m1 /\ node_manager_ s' = m1 /\
    handlers_ s' = handlers_ s /\ sent s' = sent s ++ [r].
Proof.
  intros Hwf. unfold ProcessHeartbeat.
  rewrite bool_decide_true by done. rewrite (bind_Ret (exception_if_null true) _ s tt s eq_refl).
  cbn [default from_option id]. rewrite parse_serialize. cbn [hb_node_id hb_is_node_finish andb].
  destruct (UpdateHeartbeat_wf now x (node_manager_ s) Hwf) as (m1 & E1 & _).
  rewrite (bind_Ret _ _ _ tt (set_manager m1 s)); cycle 1.
  { apply with_manager_Ret. by exists m1. }
  eexists _, m1, _. split; [done|]. by split_and!.
Qed.

(** What such a heartbeat is answered with. *)
Lemma ProcessHeartbeat_reports now conn meta x s :
  wf (node_manager_ s) ->
  exists s' attrs, ProcessHeartbeat now conn meta
      (Some (SerializeAsString (mkHeartbeatMessage x false))) s = Ret tt s' /\
    sent s' = sent s ++ [mkResponse conn meta PROTOBUF
      (SerializeAsString (mkHeartbeatRespMessage attrs))] /\
    attrs !! NodeAttribute_num IS_CLUSTER_FINISH = Some (is_cluster_finish_ (node_manager_ s)) /\
    forall a, is_Some (attrs !! NodeAttribute_num a).
Proof.
  intros Hwf. unfold ProcessHeartbeat.
  rewrite bool_decide_true by done. rewrite (bind_Ret (exception_if_null true) _ s tt s eq_refl).
  cbn [default from_option id]. rewrite parse_serialize. cbn [hb_node_id hb_is_node_finish andb].
  destruct (UpdateHeartbeat_wf now x (node_manager_ s) Hwf) as (m1 & E1 & _).
  rewrite (bind_Ret _ _ _ tt (set_manager m1 s)); cycle 1.
  { apply with_manager_Ret. by exists m1. }
  eexists _, _. split; [done|]. cbn [sent]. split; [done|]. split.
  - replace (is_cluster_finish_ (node_manager_ s)) with (is_cluster_finish_ m1); [done|].
    unfold UpdateHeartbeat, node_at, mbind, M_bind, modify in E1. case_match; case_match; by simplify_eq.
  - intros []; cbn; by eexists.
Qed.

(** The turn of the timer that ends the scheduler. *)
Lemma timer_finishes now s :
  wf (node_manager_ s) ->
  (forall id t, heartbeats_ (node_manager_ s) !! id = Some t -> now <= t + heartbeat_timeout_ cfg) ->
  Z.of_nat (size (finish_nodes_id_ (node_manager_ s))) <= INT_MAX ->
  finish_reached (node_manager_ s) (finish_nodes_id_ (node_manager_ s)) = true ->
  exists s', timer_after_sleep cfg now s = Ret tt s' /\ is_finish_ s' = true /\
    is_cluster_finish_ (node_manager_ s') = true /\ wf (node_manager_ s') /\ handlers_ s' = handlers_ s.
Proof.
  intros Hwf Hfresh Hsz Hr. destruct (UpdateClusterState_finishes _ _ _ Hwf Hfresh Hsz Hr) as (m' & E & Hf).
  pose proof (UpdateClusterState_wf _ _ _ _ Hwf E) as Hwf'.
  unfold timer_after_sleep. rewrite (bind_Ret _ _ s tt (set_manager m' s)); cycle 1.
  { apply with_manager_Ret. by exists m'. }
  rewrite (bind_Ret (modify _) _ _ tt _ eq_refl). eexists. split; [done|].
  cbn [node_manager_ set_manager]. destruct (is_cluster_ready_ m'); cbn; rewrite Hf; by split_and!.
Qed.

Lemma on_message_handler now conn meta data s :
  handlers_ s = all_handlers ->
  (cmd meta = HEARTBEAT -> on_message now conn meta data s = ProcessHeartbeat now conn meta data s) /\
  (cmd meta = REGISTER -> on_message now conn meta data s = ProcessRegister now conn meta data s).
Proof.
  intros Hh. unfold on_message. rewrite (bind_Ret getS _ s s s eq_refl), Hh. by split; intros ->.
Qed.

(** C3: in every reachable state of the scheduler, whatever messages it received in
    whatever order and however the operations of its handlers, of its timer and of
    Stop were interleaved, the registered servers hold the ranks 0 .. n-1 without
    gaps or repetitions, n being the number that were assigned, and so do the
    registered workers.  Every other entry of the table is a default node, which a
    heartbeat before the registration has inserted. *)
Theorem scheduler_ranks s :
  reachable cfg s -> num_nodes (node_manager_ s) <= INT_MAX ->
  rank_table SERVER (next_server_rank_id_ (node_manager_ s)) (nodes_info_ (node_manager_ s)) /\
  rank_table WORKER (next_worker_rank_id_ (node_manager_ s)) (nodes_info_ (node_manager_ s)) /\
  forall id n, nodes_info_ (node_manager_ s) !! id = Some n ->
    node_role_ n = SERVER \/ node_role_ n = WORKER \/ n = NodeInfo_default.
Proof.
  intros Hr Hsz. apply reachable_inv in Hr as [[Hs Hw _ _ _] _ Hd _ _]; [|done].
  split; [done|]. split; [done|]. intros id n Hn. specialize (Hd id n Hn). cbn in Hd.
  destruct (node_role_ n); auto.
Qed.

(** C25: the flag for which Start waits is set only once as many nodes as configured
    are in the table of the scheduler, or after the cluster has finished; or by a
    Stop, at its end, when the scheduler itself has finished.  This holds in every
    interleaving of the handlers, the timer and Stop. *)
Theorem scheduler_ready y :
  sys_reachable cfg y -> num_nodes (node_manager_ (sys_node y)) <= INT_MAX -> Start_poll (sys_node y) = true ->
  u32 (server_num_ cfg + worker_num_ cfg) <= num_nodes (node_manager_ (sys_node y)) \/
  is_cluster_finish_ (node_manager_ (sys_node y)) = true \/
  sys_stop y = S_end /\ sys_timer y = T_end /\ is_finish_ (sys_node y) = true.
Proof.
  intros Hr Hsz Hrd. apply sys_reachable_inv in Hr as [[_ Ht _ Hc _] _ Hr _ He Hj]; [|done].
  rewrite <- Ht. destruct (Hr Hrd) as [Es|Er].
  - rewrite Es in Hj. right. right. auto.
  - destruct (Hc Er); auto.
Qed.

(** The maps of the node manager are used without a common mutex: while a handler
    enters a heartbeat under [heartbeat_mutex_] the timer can be at
    UpdateClusterState, which takes none. *)
Theorem manager_race now x :
  is_Some (scheduler_host_ cfg) ->
  exists y c p s', sys_reachable cfg y /\ sys_timer y = T_update /\
    sys_handler y = Op (Maps [heartbeat_mutex_]) c /\ race y /\
    c (sys_node y) = Ret p s' /\ heartbeats_ (node_manager_ s') = <[x := now]> (heartbeats_ (node_manager_ (sys_node y))).
Proof.
  intros Hh. set (uuid := EmptyString). set (meta := mkMessageMeta HEARTBEAT 1 WORKER 0 0). destruct (Initialize_spec uuid Hh) as (s0 & E0 & Hhb & _ & _ & _ & N0 & _).
  destruct (Initialize_inv cfg uuid s0 E0) as (_ & _ & Hf).
  set (data := Some (SerializeAsString (mkHeartbeatMessage x false))).
  assert (rtc (sched_step cfg) (started s0) (mkSys s0 (Done tt) T_update S_idle)) as R1.
  { set (e := cluster_available_timeout_ cfg). eapply rtc_l; [|apply rtc_once]; apply (step_timer _ e 0).
    - cbn. unfold mbind, M_bind, gets, mret, M_ret. by rewrite Hf.
    - cbn. unfold mbind, M_bind, getS, mret, M_ret. fold e. by rewrite Z.gtb_ltb, Z.ltb_irrefl, andb_false_r. }
  eexists (mkSys s0 (Op _ _) T_update S_idle), _, _, _. split; [exists uuid, s0; split; [done|]|].
  { etrans; [exact R1|]. eapply rtc_l; [by apply (step_message _ now 0 meta data)|].
    eapply rtc_l; [apply step_handler|eapply rtc_once, step_handler].
    - unfold mbind, M_bind, getS. change (cmd meta) with HEARTBEAT. rewrite Hhb. reflexivity.
    - reflexivity. }
  split; [done|]. split; [reflexivity|]. split; [cbn; intros l _; apply not_elem_of_nil|]. cbn [sys_node].
  unfold data. cbn [default from_option id]. rewrite parse_serialize. cbn [hb_node_id].
  unfold mbind, M_bind, with_manager, UpdateHeartbeat, node_at, mbind, M_bind.
  rewrite N0, lookup_empty. split; reflexivity.
Qed.

(** A registration.  In every reachable state, a REGISTER message from a node
    that is not in the table is answered on the same connection, under the
    request's meta, with the node's id and the next rank of its role, and the
    node is entered in the table with that rank. *)
Theorem scheduler_registers now conn meta r s :
  reachable cfg s -> num_nodes (node_manager_ s) < INT_MAX ->
  cmd meta = REGISTER -> reg_role r <> SCHEDULER ->
  nodes_info_ (node_manager_ s) !! reg_node_id r = None ->
  exists s' d n, on_message now conn meta (Some (SerializeAsString r)) s = Ret tt s' /\
    sent s' = sent s ++ [mkResponse conn meta PROTOBUF d] /\
    (ParseFromArray d : RegisterRespMessage) = mkRegisterRespMessage (reg_node_id r) (rank_id_ n) /\
    rank_id_ n = next_rank (reg_role r) (node_manager_ s) + 1 /\
    nodes_info_ (node_manager_ s') !! reg_node_id r = Some n /\ node_role_ n = reg_role r.
Proof.
  intros Hr Hsz Hc Hrole Hf. apply reachable_inv in Hr as [Hwf _ _ _ Hh]; [|lia].
  destruct (ProcessRegister_new now conn meta r s) as (s' & k & E & Hk & Hs & _ & _ & n & Hn & Hkn & Hrn);
    [done..|].
  eexists s', _, n. split_and!; [|exact Hs|..].
  - unfold on_message. rewrite (bind_Ret getS _ s s s eq_refl). by rewrite Hc, Hh.
  - rewrite parse_serialize. congruence.
  - congruence.
  - by rewrite Hn, lookup_insert_eq.
  - done.
Qed.

(** C40: a heartbeat from a node that has not registered enters it in the table as
    a default node, so its later registration is taken for a repetition: a
    server [x] that sends a heartbeat first and a server [y] that registers
    properly are both told that their rank is 0. *)
Theorem early_heartbeat_duplicates_rank uuid now conn meta_h meta_r x y :
  is_Some (scheduler_host_ cfg) -> x <> y -> cmd meta_h = HEARTBEAT -> cmd meta_r = REGISTER ->
  exists s0 s, Initialize cfg uuid SchedulerNode_init = Ret tt s0 /\
    (_ ← on_message now conn meta_h (Some (SerializeAsString (mkHeartbeatMessage x false)));
     _ ← on_message now conn meta_r (Some (SerializeAsString (mkRegisterMessage "" 0 y SERVER)));
     on_message now conn meta_r (Some (SerializeAsString (mkRegisterMessage "" 0 x SERVER)))) s0
      = Ret tt s /\
    (exists h, (fun r => ParseFromArray (resp_data r)) <$> sent s =
       [h; mkRegisterRespMessage y 0; mkRegisterRespMessage x 0]).
Proof.
  intros Hh Hxy Hmh Hmr. destruct (Initialize_spec uuid Hh) as (s0 & E0 & _ & _ & _ & _ & N0 & R0 & S0).
  exists s0. pose proof (Initialize_inv cfg uuid s0 E0) as [[W0 _ _ _ H0'] _].
  destruct (ProcessHeartbeat_alive now conn meta_h x s0 W0)
    as (s1 & m1 & r1 & E1 & U1 & M1 & H1' & S1).
  assert (nodes_info_ m1 = <[x := NodeInfo_default]> ∅ /\ next_server_rank_id_ m1 = -1) as [N1 R1].
  { unfold UpdateHeartbeat in U1. apply bind_inv in U1 as (a & m & En & U1).
    unfold node_at in En. rewrite N0, lookup_empty in En. injection En as <- <-.
    injection U1 as <-. nmcbn. by rewrite N0. }
  assert (wf m1) as W1 by by eapply UpdateHeartbeat_keeps_wf.
  destruct (ProcessRegister_new now conn meta_r (mkRegisterMessage "" 0 y SERVER) s1)
    as (s2 & k & E2 & Hk & S2 & H2' & W2 & n & N2 & Hn & _); rewrite ?M1; try done.
  { unfold num_nodes. rewrite N1, insert_empty, map_size_singleton. done. }
  { cbn. rewrite N1, lookup_insert_ne by done. apply lookup_empty. }
  rewrite M1 in Hk, N2. cbn in Hk, N2. rewrite R1 in Hk. cbn in Hk.
  destruct (ProcessRegister_known now conn meta_r (mkRegisterMessage "" 0 x SERVER) s2
    NodeInfo_default) as (s3 & E3 & S3); [done| |done|].
  { cbn. by rewrite N2, lookup_insert_ne, N1, lookup_insert_eq by done. }
  exists s3. split; [done|]. split.
  - rewrite (bind_Ret _ _ s0 tt s1) by (rewrite <- E1; by apply on_message_handler).
    rewrite (bind_Ret _ _ s1 tt s2)
      by (rewrite <- E2; apply on_message_handler; [by rewrite H1'|done]).
    rewrite <- E3. apply on_message_handler; [by rewrite H2', H1'|done].
  - eexists. rewrite S3, S2, S1, S0, Hk. cbn [app fmap list_fmap resp_data].
    by rewrite !parse_serialize.
Qed.
End properties.

(** ** Examples *)
Section examples.
Import ExampleEncoding.

Definition example_config : ClusterConfig :=
  mkClusterConfig 1 1 (Some "127.0.0.1"%string) 8080 1 30 30000 100 18000.

Definition fresh_scheduler : SchedulerNode :=
  match Initialize example_config "u" SchedulerNode_init with Ret _ s => s | _ => SchedulerNode_init end.

Lemma fresh_started : sys_reachable example_config (started fresh_scheduler).
Proof. exists "u"%string, fresh_scheduler. split; [done|apply rtc_refl]. Qed.
Lemma fresh_reachable : reachable example_config fresh_scheduler.
Proof. apply started_reachable, fresh_started. Qed.

Lemma fresh_small : num_nodes (node_manager_ fresh_scheduler) = 0.
Proof. reflexivity. Qed.

Definition after {A} (c : M SchedulerNode A) (s : SchedulerNode) : SchedulerNode :=
  match c s with Ret _ s' => s' | _ => s end.

Definition example_meta (c : NodeCommand) : MessageMeta := mkMessageMeta c 1 WORKER 0 0.

(** A server sends a heartbeat before it registers, and two servers and a worker
    register. *)
Definition register_data (id : string) (role : NodeRole) : option (list Z) :=
  Some (SerializeAsString (mkRegisterMessage "10.0.0.1" 80 id role)).
Definition heartbeat_data (id : string) : option (list Z) := Some (SerializeAsString (mkHeartbeatMessage id false)).
Definition register_as (id : string) (role : NodeRole) : M SchedulerNode unit :=
  on_message 10 5 (example_meta REGISTER) (register_data id role).
Definition nodes_1 : SchedulerNode := Eval vm_compute in
  after (on_message 9 4 (example_meta HEARTBEAT) (heartbeat_data "x")) fresh_scheduler.
Definition nodes_2 : SchedulerNode := Eval vm_compute in after (register_as "a" SERVER) nodes_1.
Definition nodes_3 : SchedulerNode := Eval vm_compute in after (register_as "w" WORKER) nodes_2.
Definition four_nodes : SchedulerNode := Eval vm_compute in after (register_as "b" SERVER) nodes_3.

Lemma registers_started id role s s' :
  sys_reachable example_config (started s) -> register_as id role s = Ret tt s' ->
  sys_reachable example_config (started s').
Proof. apply started_message. Qed.

Lemma four_reachable : reachable example_config four_nodes.
Proof.
  apply started_reachable, (registers_started "b" SERVER nodes_3); [|vm_compute; reflexivity].
  apply (registers_started "w" WORKER nodes_2); [|vm_compute; reflexivity].
  apply (registers_started "a" SERVER nodes_1); [|vm_compute; reflexivity].
  apply (started_message _ 9 4 (example_meta HEARTBEAT) (heartbeat_data "x") fresh_scheduler);
    [apply fresh_started|vm_compute; reflexivity].
Qed.

Lemma scheduler_ranks_witness :
  rank_table SERVER 1 (nodes_info_ (node_manager_ four_nodes)) /\
  rank_table WORKER 0 (nodes_info_ (node_manager_ four_nodes)) /\
  nodes_info_ (node_manager_ four_nodes) !! "x"%string = Some NodeInfo_default /\
  size (nodes_info_ (node_manager_ four_nodes)) = 4%nat.
Proof.
  destruct (scheduler_ranks example_config four_nodes) as (Hs & Hw & _).
  - apply four_reachable.
  - vm_compute. discriminate.
  - split; [exact Hs|]. split; [exact Hw|]. split; vm_compute; reflexivity.
Defined.

Lemma scheduler_registers_witness :
  exists s' d n,
    on_message 10 5 (example_meta REGISTER)
      (Some (SerializeAsString (mkRegisterMessage "" 0 "w" WORKER))) fresh_scheduler = Ret tt s' /\
    sent s' = [] ++ [mkResponse 5 (example_meta REGISTER) PROTOBUF d] /\
    (ParseFromArray d : RegisterRespMessage) = mkRegisterRespMessage "w" (rank_id_ n) /\
    rank_id_ n = -1 + 1 /\
    nodes_info_ (node_manager_ s') !! "w"%string = Some n /\ node_role_ n = WORKER.
Proof.
  apply (scheduler_registers example_config 10 5 (example_meta REGISTER)
    (mkRegisterMessage "" 0 "w" WORKER) fresh_scheduler).
  - apply fresh_reachable.
  - rewrite fresh_small. reflexivity.
  - reflexivity.
  - discriminate.
  - reflexivity.
Defined.

Lemma early_heartbeat_duplicates_rank_witness :
  exists s0 s, Initialize example_config "u" SchedulerNode_init = Ret tt s0 /\
    (_ ← on_message 1 2 (example_meta HEARTBEAT)
           (Some (SerializeAsString (mkHeartbeatMessage "x" false)));
     _ ← on_message 1 2 (example_meta REGISTER)
           (Some (SerializeAsString (mkRegisterMessage "" 0 "y" SERVER)));
     on_message 1 2 (example_meta REGISTER)
       (Some (SerializeAsString (mkRegisterMessage "" 0 "x" SERVER)))) s0 = Ret tt s /\
    (exists h, (fun r => ParseFromArray (resp_data r)) <$> sent s =
       [h; mkRegisterRespMessage "y" 0; mkRegisterRespMessage "x" 0]).
Proof.
  apply (early_heartbeat_duplicates_rank example_config "u" 1 2 (example_meta HEARTBEAT)
    (example_meta REGISTER) "x" "y").
  - exists "127.0.0.1"%string. reflexivity.
  - discriminate.
  - reflexivity.
  - reflexivity.
Defined.

(** One worker configured, registered, and a turn of the timer. *)
Definition ready_config : ClusterConfig :=
  mkClusterConfig 1 0 (Some "127.0.0.1"%string) 8080 1 30 30000 100 18000.

Definition ready_s0 : SchedulerNode := after (Initialize ready_config "u") SchedulerNode_init.
Definition ready_s1 : SchedulerNode :=
  after (on_message 10 5 (example_meta REGISTER)
    (Some (SerializeAsString (mkRegisterMessage "" 0 "w" WORKER)))) ready_s0.
Definition ready_s2 : SchedulerNode := after (timer_after_sleep ready_config 11) ready_s1.

Lemma ready_s0_started : sys_reachable ready_config (started ready_s0).
Proof. exists "u"%string, ready_s0. split; [vm_compute; reflexivity|apply rtc_refl]. Qed.
Lemma ready_s1_started : sys_reachable ready_config (started ready_s1).
Proof.
  eapply (started_message _ 10 5 (example_meta REGISTER)
    (Some (SerializeAsString (mkRegisterMessage "" 0 "w" WORKER)))); [apply ready_s0_started|vm_compute; reflexivity].
Qed.
Lemma ready_s2_started : sys_reachable ready_config (started ready_s2).
Proof.
  eapply (started_turn _ 0 11 ready_s1 ready_s1); [apply ready_s1_started|vm_compute; reflexivity..].
Qed.

Lemma scheduler_ready_witness :
  1 <= num_nodes (node_manager_ ready_s2) \/ is_cluster_finish_ (node_manager_ ready_s2) = true \/ S_idle = S_end.
Proof.
  destruct (scheduler_ready ready_config (started ready_s2)) as [H|[H|[H _]]].
  - apply ready_s2_started.
  - vm_compute. discriminate.
  - vm_compute. reflexivity.
  - left. exact H.
  - right. left. exact H.
  - right. right. exact H.
Defined.
End examples.
