(* ===== verification/Collective.v ===== *)
(** * Collective communication

    The part of AbstractNode (src/even-http/ps/core/abstract_node.{h,cc}) that
    matches collective messages with the receives that wait for them:
    CollectiveReceiveAsync, RunReceiveCallback, CollectiveWait and the two
    counters of request ids per rank.

    CollectiveReceiveAsync runs on the callers' threads, RunReceiveCallback on
    the event thread.  RunReceiveCallback releases the mutex before it calls the
    callback, which takes it again, and once more before it erases the callback,
    so it is three steps with a program counter between them; the other
    operations hold the mutex throughout and are one step each. *)
From S2P Require Import Prelude Convert Securec.

(** A [VectorPtr]: [None] is the null pointer. *)
Abbreviation VectorPtr := (option (list Z)).

(** The keys are <rank_id, rank_request_id>.  A callback of
    [receive_callbacks_] is determined by its key and the pointer [output] it
    captured; [outputs] holds the objects those pointers point to. *)
Record collective : Type := mkCollective {
  receive_messages_done_ : gmap (Z * Z) bool;
  received_data_ : gmap (Z * Z) VectorPtr;
  receive_callbacks_ : gmap (Z * Z) Z;
  receive_callbacks_mutex_ : bool; (* held *)
  expected_rank_request_ids_ : gmap Z Z; (* uint64_t *)
  actual_rank_request_ids_ : gmap Z Z; (* uint64_t *)
  outputs : gmap Z VectorPtr;
}.

Definition collective_init : collective := mkCollective ∅ ∅ ∅ false ∅ ∅ ∅.

Definition set_done (f : gmap (Z * Z) bool -> gmap (Z * Z) bool) (c : collective) : collective :=
  mkCollective (f (receive_messages_done_ c)) (received_data_ c) (receive_callbacks_ c)
    (receive_callbacks_mutex_ c) (expected_rank_request_ids_ c) (actual_rank_request_ids_ c)
    (outputs c).
Definition set_data (f : gmap (Z * Z) VectorPtr -> gmap (Z * Z) VectorPtr) (c : collective)
    : collective :=
  mkCollective (receive_messages_done_ c) (f (received_data_ c)) (receive_callbacks_ c)
    (receive_callbacks_mutex_ c) (expected_rank_request_ids_ c) (actual_rank_request_ids_ c)
    (outputs c).
Definition set_callbacks (f : gmap (Z * Z) Z -> gmap (Z * Z) Z) (c : collective) : collective :=
  mkCollective (receive_messages_done_ c) (received_data_ c) (f (receive_callbacks_ c))
    (receive_callbacks_mutex_ c) (expected_rank_request_ids_ c) (actual_rank_request_ids_ c)
    (outputs c).
Definition set_mutex (b : bool) (c : collective) : collective :=
  mkCollective (receive_messages_done_ c) (received_data_ c) (receive_callbacks_ c)
    b (expected_rank_request_ids_ c) (actual_rank_request_ids_ c) (outputs c).
Definition set_expected (f : gmap Z Z -> gmap Z Z) (c : collective) : collective :=
  mkCollective (receive_messages_done_ c) (received_data_ c) (receive_callbacks_ c)
    (receive_callbacks_mutex_ c) (f (expected_rank_request_ids_ c)) (actual_rank_request_ids_ c)
    (outputs c).
Definition set_actual (f : gmap Z Z -> gmap Z Z) (c : collective) : collective :=
  mkCollective (receive_messages_done_ c) (received_data_ c) (receive_callbacks_ c)
    (receive_callbacks_mutex_ c) (expected_rank_request_ids_ c) (f (actual_rank_request_ids_ c))
    (outputs c).
Definition set_output (f : gmap Z VectorPtr -> gmap Z VectorPtr) (c : collective) : collective :=
  mkCollective (receive_messages_done_ c) (received_data_ c) (receive_callbacks_ c)
    (receive_callbacks_mutex_ c) (expected_rank_request_ids_ c) (actual_rank_request_ids_ c)
    (f (outputs c)).

Ltac ccbn := cbn [receive_messages_done_ received_data_ receive_callbacks_
  receive_callbacks_mutex_ expected_rank_request_ids_ actual_rank_request_ids_ outputs
  set_done set_data set_callbacks set_mutex set_expected set_actual set_output] in *.

(** Runs the monad on a known state. *)
Ltac crun := unfold mbind, M_bind, mret, M_ret, getS, modify in *; ccbn; cbn [negb];
  cbv beta iota zeta.

(** Taking a mutex that is held never returns here: every step but the one that
    holds it is over. *)
Definition lock : M collective unit := fun c =>
  if receive_callbacks_mutex_ c then Undef "deadlock on receive_callbacks_mutex_"
  else Ret tt (set_mutex true c).
Definition unlock : M collective unit := modify (set_mutex false).

Definition NextExpectedRankRequestId (rank_id : Z) : M collective Z :=
  c ← getS;
  let rank_request_id :=
    match expected_rank_request_ids_ c !! rank_id with Some n => u64 (n + 1) | None => 1 end in
  _ ← modify (set_expected (insert rank_id rank_request_id));
  mret rank_request_id.

Definition NextActualRankRequestId (rank_id : Z) : M collective Z :=
  c ← getS;
  let rank_request_id :=
    match actual_rank_request_ids_ c !! rank_id with Some n => u64 (n + 1) | None => 1 end in
  _ ← modify (set_actual (insert rank_id rank_request_id));
  mret rank_request_id.

(** [received_data_[key]] read as an expression. *)
Definition data_at (key : Z * Z) (c : collective) : VectorPtr :=
  default None (received_data_ c !! key).

(** Lines 248-251, and the body of the callback between its lock and unlock. *)
Definition take_data (key : Z * Z) (output : Z) : M collective unit :=
  c ← getS;
  _ ← modify (set_output (insert output (data_at key c)));
  _ ← modify (set_data (delete key));
  modify (set_done (insert key true)).

(** [rank_ok] is what ValidateRankId said. *)
Definition CollectiveReceiveAsync (rank_ok : bool) (rank_id : Z) (output : option Z)
    : M collective (Z * Z) :=
  match output with
  | None => throw "The pointer is null."
  | Some output =>
    _ ← (if negb rank_ok then throw "The node role or rank_id is illegal!" else mret tt);
    _ ← lock;
    rank_request_id ← NextExpectedRankRequestId rank_id;
    let key := (rank_id, rank_request_id) in
    _ ← modify (set_done (insert key false));
    c ← getS;
    _ ← (if bool_decide (is_Some (received_data_ c !! key)) then take_data key output
         else modify (set_callbacks (insert key output)));
    _ ← unlock;
    mret key
  end.

(** ** RunReceiveCallback *)

(** Where the event thread is: outside, about to call the callback of a key, or
    about to erase it. *)
Inductive pc : Type :=
| Idle
| AtCallback (key : Z * Z) (output : Z)
| AtErase (key : Z * Z).

(** Lines 575-592 and the lookup: everything before the mutex is released. *)
Definition RunReceiveCallback_arrive (rank_id : Z) (data : option (list Z)) (size : Z)
    : M collective pc :=
  match data with
  | None => throw "The pointer is null."
  | Some data =>
    _ ← lock;
    rank_request_id ← NextActualRankRequestId rank_id;
    let key := (rank_id, rank_request_id) in
    match buf_memcpy_s (replicate (Z.to_nat size) 0) 0 size data 0 size with
    | None => undef "read past the end of the data"
    | Some (ret, received_data) =>
      _ ← (if negb (ret =? 0) then throw "The memcpy_s error" else mret tt);
      _ ← modify (set_data (insert key (Some received_data)));
      c ← getS;
      _ ← unlock;
      mret (match receive_callbacks_ c !! key with
            | Some output => AtCallback key output
            | None => Idle
            end)
    end
  end.

(** Line 595: the callback, lines 255-261. *)
Definition RunReceiveCallback_call (key : Z * Z) (output : Z) : M collective pc :=
  _ ← lock;
  _ ← take_data key output;
  _ ← unlock;
  mret (AtErase key).

(** Lines 598-602. *)
Definition RunReceiveCallback_erase (key : Z * Z) : M collective pc :=
  _ ← lock;
  _ ← modify (set_callbacks (delete key));
  _ ← unlock;
  mret Idle.

(** The predicate CollectiveWait waits for; [operator[]] inserts false. *)
Definition CollectiveWait_poll (request_id : Z * Z) : M collective bool := fun c =>
  match receive_messages_done_ c !! request_id with
  | Some b => Ret b c
  | None => Ret false (set_done (insert request_id false) c)
  end.

(** ** Interleavings *)

(** The node with the program counter of its event thread, the messages that
    arrived and the receives that were issued, as (rank, data) and
    (rank, output), oldest first. *)
Record system : Type := mkSystem {
  node : collective;
  thread : pc;
  arrived : list (Z * list Z);
  issued : list (Z * Z);
}.

Definition system_init : system := mkSystem collective_init Idle [] [].

Inductive collective_step : system -> system -> Prop :=
| step_receive rank output key c c' p ms rs :
    output ∉ rs.*2 ->
    CollectiveReceiveAsync true rank (Some output) c = Ret key c' ->
    collective_step (mkSystem c p ms rs) (mkSystem c' p ms (rs ++ [(rank, output)]))
| step_arrive rank d c p c' ms rs :
    RunReceiveCallback_arrive rank (Some d) (zlen d) c = Ret p c' ->
    collective_step (mkSystem c Idle ms rs) (mkSystem c' p (ms ++ [(rank, d)]) rs)
| step_call key output c p c' ms rs :
    RunReceiveCallback_call key output c = Ret p c' ->
    collective_step (mkSystem c (AtCallback key output) ms rs) (mkSystem c' p ms rs)
| step_erase key c p c' ms rs :
    RunReceiveCallback_erase key c = Ret p c' ->
    collective_step (mkSystem c (AtErase key) ms rs) (mkSystem c' p ms rs)
| step_poll key c b c' p ms rs :
    CollectiveWait_poll key c = Ret b c' ->
    collective_step (mkSystem c p ms rs) (mkSystem c' p ms rs).

(** What belongs to one rank. *)
Definition of_rank {A} (r : Z) (l : list (Z * A)) : list A := (filter (fun p => p.1 = r) l).*2.

Lemma of_rank_snoc {A} r (l : list (Z * A)) r' x :
  of_rank r (l ++ [(r', x)]) = if decide (r' = r) then of_rank r l ++ [x] else of_rank r l.
Proof.
  unfold of_rank. rewrite filter_app, fmap_app. cbn.
  case_decide; [done|]. by rewrite app_nil_r.
Qed.

Lemma of_rank_snoc_Some {A} r (l : list (Z * A)) r' (x y : A) j :
  of_rank r (l ++ [(r', x)]) !! j = Some y <->
  of_rank r l !! j = Some y \/ (r = r' /\ j = length (of_rank r' l) /\ y = x).
Proof.
  rewrite of_rank_snoc. case_decide as E; [subst r'|].
  - rewrite lookup_snoc_Some. split.
    + intros [[_ H]|[-> ->]]; [by left|by right].
    + intros [H|(_ & -> & ->)]; [left|by right]. split; [by eapply lookup_lt_Some|done].
  - split; [by left|]. intros [H|(-> & _)]; done.
Qed.

Lemma of_rank_snoc_None {A} r (l : list (Z * A)) r' (x : A) j :
  of_rank r (l ++ [(r', x)]) !! j = None <->
  of_rank r l !! j = None /\ ~ (r = r' /\ j = length (of_rank r' l)).
Proof.
  rewrite !eq_None_not_Some. split.
  - intros H. split.
    + intros [y Hy]. apply H. exists y. apply of_rank_snoc_Some. by left.
    + intros [-> ->]. apply H. exists x. apply of_rank_snoc_Some. by right.
  - intros [H1 H2] [y [Hy|(-> & -> & _)]%of_rank_snoc_Some]; [apply H1; by exists y|by apply H2].
Qed.

Definition counter (n : nat) : option Z := if decide (n = O) then None else Some (Z.of_nat n).

(** The [j]-th request of a rank, counted from 0, has this key. *)
Definition key (r : Z) (j : nat) : Z * Z := (r, Z.of_nat (S j)).

Lemma key_inj r j r' j' : key r j = key r' j' <-> r = r' /\ j = j'.
Proof. unfold key. split; [intros [= -> ?]; split; [done|lia]|by intros [-> ->]]. Qed.

Definition at_call (p : pc) (k : Z * Z) : bool :=
  match p with AtCallback k' _ => bool_decide (k' = k) | _ => false end.
Definition at_erase (p : pc) (k : Z * Z) : bool :=
  match p with AtErase k' => bool_decide (k' = k) | _ => false end.

(** What the tables hold under the key [k] of a request, given the output of its
    receive and the data of its message, when they have been issued and have
    arrived. *)
Record entry_ok (c : collective) (p : pc) (k : Z * Z) (iss : option Z) (arr : option (list Z))
    : Prop := {
  eo_data : received_data_ c !! k =
    match arr, iss with
    | Some d, None => Some (Some d)
    | Some d, Some _ => if at_call p k then Some (Some d) else None
    | None, _ => None
    end;
  eo_callback : receive_callbacks_ c !! k =
    match iss, arr with
    | Some o, None => Some o
    | Some o, Some _ => if at_call p k || at_erase p k then Some o else None
    | None, _ => None
    end;
  eo_done : is_Some iss -> receive_messages_done_ c !! k = Some (bool_decide (is_Some arr) && negb (at_call p k));
  eo_output o d : iss = Some o -> arr = Some d ->
    if at_call p k then p = AtCallback k o else outputs c !! o = Some (Some d);
  eo_thread : at_call p k || at_erase p k = true -> is_Some iss /\ is_Some arr;
}.

Record inv (s : system) : Prop := {
  inv_mutex : receive_callbacks_mutex_ (node s) = false;
  inv_expected r : expected_rank_request_ids_ (node s) !! r = counter (length (of_rank r (issued s)));
  inv_actual r : actual_rank_request_ids_ (node s) !! r = counter (length (of_rank r (arrived s)));
  inv_outputs : NoDup (issued s).*2;
  inv_entry r j : entry_ok (node s) (thread s) (key r j)
    (of_rank r (issued s) !! j) (of_rank r (arrived s) !! j);
  inv_thread : match thread s with
    | Idle => True
    | AtCallback k _ | AtErase k => exists r j, k = key r j
    end;
}.

Ltac scbn := cbn [node thread arrived issued] in *.

Lemma inv_init : inv system_init.
Proof. split; cbn; try done; [constructor|]. intros r j. split; cbn; try done. by intros [? ?]. Qed.

(** An output belongs to one receive only. *)
Lemma output_unique rs r j r' j' (o : Z) :
  NoDup rs.*2 -> of_rank r rs !! j = Some o -> of_rank r' rs !! j' = Some o -> r = r' /\ j = j'.
Proof.
  induction rs as [|[r0 o0] rs IH] using rev_ind; [done|].
  rewrite fmap_app. intros (Hnd & Hdis & _)%NoDup_app Hj Hj'.
  assert (forall r j, of_rank r rs !! j = Some o -> o ∈ rs.*2) as Hin.
  { intros r1 j1 H1%list_elem_of_lookup_2. unfold of_rank in H1.
    apply list_elem_of_fmap in H1 as (p & -> & [_ Hp]%list_elem_of_filter).
    by apply list_elem_of_fmap_2. }
  assert (forall r1 j1, of_rank r1 rs !! j1 = Some o -> o <> o0) as Hne.
  { intros r1 j1 H1 ->. apply (Hdis o0); [by eapply Hin|]. by apply list_elem_of_singleton. }
  apply of_rank_snoc_Some in Hj as [Hj|(-> & -> & ->)], Hj' as [Hj'|(-> & -> & E)]; auto;
    exfalso; by eapply Hne.
Qed.

(** ** The steps preserve the invariant *)
Lemma next_counter n :
  Z.of_nat (S n) < 2 ^ 64 ->
  match counter n with Some v => u64 (v + 1) | None => 1 end = Z.of_nat (S n).
Proof.
  intros H. unfold counter. case_decide; [by subst|].
  rewrite uwrap_small; unfold in_u; lia.
Qed.

Lemma counter_S n : counter (S n) = Some (Z.of_nat (S n)).
Proof. done. Qed.

Lemma receive_eq r o c n :
  receive_callbacks_mutex_ c = false -> expected_rank_request_ids_ c !! r = counter n ->
  Z.of_nat (S n) < 2 ^ 64 ->
  CollectiveReceiveAsync true r (Some o) c = Ret (key r n)
    (match received_data_ c !! key r n with
     | Some v => mkCollective (<[key r n := true]> (<[key r n := false]> (receive_messages_done_ c)))
         (delete (key r n) (received_data_ c)) (receive_callbacks_ c) false
         (<[r := Z.of_nat (S n)]> (expected_rank_request_ids_ c)) (actual_rank_request_ids_ c)
         (<[o := v]> (outputs c))
     | None => mkCollective (<[key r n := false]> (receive_messages_done_ c))
         (received_data_ c) (<[key r n := o]> (receive_callbacks_ c)) false
         (<[r := Z.of_nat (S n)]> (expected_rank_request_ids_ c)) (actual_rank_request_ids_ c)
         (outputs c)
     end).
Proof.
  intros Hm He Hb. unfold CollectiveReceiveAsync, NextExpectedRankRequestId, lock, unlock, take_data.
  crun. rewrite Hm. crun. rewrite He, (next_counter n Hb). fold (key r n). unfold data_at. crun.
  destruct (received_data_ c !! key r n) as [v|] eqn:Ed.
  - rewrite bool_decide_true by done. crun. by rewrite Ed.
  - rewrite bool_decide_false; [done|]. by intros [? ?].
Qed.

Lemma arrive_eq r d c n :
  receive_callbacks_mutex_ c = false -> actual_rank_request_ids_ c !! r = counter n ->
  Z.of_nat (S n) < 2 ^ 64 -> 0 < zlen d <= SECUREC_MEM_MAX_LEN ->
  RunReceiveCallback_arrive r (Some d) (zlen d) c = Ret
    (match receive_callbacks_ c !! key r n with
     | Some o => AtCallback (key r n) o
     | None => Idle
     end)
    (mkCollective (receive_messages_done_ c) (<[key r n := Some d]> (received_data_ c))
       (receive_callbacks_ c) false (expected_rank_request_ids_ c)
       (<[r := Z.of_nat (S n)]> (actual_rank_request_ids_ c)) (outputs c)).
Proof.
  intros Hm Ha Hb Hd. unfold RunReceiveCallback_arrive, NextActualRankRequestId, lock, unlock.
  crun. rewrite Hm. crun. rewrite Ha, (next_counter n Hb). fold (key r n).
  rewrite (buf_copy_all d Hd). crun. done.
Qed.

(** The counters after one more request of the rank [r]. *)
Lemma counter_snoc {A} (cnt : gmap Z Z) (l : list (Z * A)) r x :
  (forall r', cnt !! r' = counter (length (of_rank r' l))) ->
  forall r', <[r := Z.of_nat (S (length (of_rank r l)))]> cnt !! r' =
    counter (length (of_rank r' (l ++ [(r, x)]))).
Proof.
  intros H r'. rewrite of_rank_snoc, lookup_insert. case_decide; [subst|].
  - by rewrite length_app, Nat.add_1_r.
  - apply H.
Qed.

(** An entry depends on the tables at its own key only. *)
Lemma entry_ok_frame c c' p p' k iss arr :
  entry_ok c p k iss arr ->
  received_data_ c' !! k = received_data_ c !! k ->
  receive_callbacks_ c' !! k = receive_callbacks_ c !! k ->
  receive_messages_done_ c' !! k = receive_messages_done_ c !! k ->
  (forall o, iss = Some o -> outputs c' !! o = outputs c !! o) ->
  at_call p' k = at_call p k -> at_erase p' k = at_erase p k ->
  (at_call p k = true -> p' = p) ->
  entry_ok c' p' k iss arr.
Proof.
  intros [] E1 E2 E3 E4 E5 E6 E7. split; rewrite ?E1, ?E2, ?E3, ?E5, ?E6; try done.
  intros o d Ho Hd. specialize (eo_output0 o d Ho Hd). destruct (at_call p k); [|by rewrite E4].
  by rewrite E7.
Qed.

Lemma of_rank_fresh {A} r (l : list (Z * A)) r' (x : A) j :
  key r j <> key r' (length (of_rank r' l)) -> of_rank r (l ++ [(r', x)]) !! j = of_rank r l !! j.
Proof.
  intros Hne. rewrite of_rank_snoc. case_decide as E; [subst r'|done].
  destruct (Nat.lt_trichotomy j (length (of_rank r l))) as [?|[->|?]]; [|done|].
  - by rewrite lookup_app_l.
  - rewrite !lookup_ge_None_2; [done|lia|]. rewrite length_app. cbn. lia.
Qed.

Lemma of_rank_last {A} r (l : list (Z * A)) (x : A) :
  of_rank r (l ++ [(r, x)]) !! length (of_rank r l) = Some x.
Proof. rewrite of_rank_snoc, decide_True by done. by apply list_lookup_middle. Qed.

Lemma of_rank_end {A} r (l : list (Z * A)) : of_rank r l !! length (of_rank r l) = None.
Proof. by apply lookup_ge_None_2. Qed.

(** The output of an issued receive is not the one of a new receive. *)
Lemma issued_in {r j o} (rs : list (Z * Z)) : of_rank r rs !! j = Some o -> o ∈ rs.*2.
Proof.
  intros H%list_elem_of_lookup_2. unfold of_rank in H.
  apply list_elem_of_fmap in H as (p & -> & [_ Hp]%list_elem_of_filter).
  by apply list_elem_of_fmap_2.
Qed.

Lemma NoDup_snoc (rs : list (Z * Z)) r o : o ∉ rs.*2 -> NoDup rs.*2 -> NoDup (rs ++ [(r, o)]).*2.
Proof.
  intros Ho Hn. rewrite fmap_app. apply NoDup_app. split_and!; [done| |by apply NoDup_singleton].
  intros x Hx ->%list_elem_of_singleton. done.
Qed.

Lemma inv_receive c p ms rs r o key0 c' :
  inv (mkSystem c p ms rs) -> o ∉ rs.*2 -> Z.of_nat (S (length (of_rank r rs))) < 2 ^ 64 ->
  CollectiveReceiveAsync true r (Some o) c = Ret key0 c' ->
  inv (mkSystem c' p ms (rs ++ [(r, o)])).
Proof.
  intros [Im Ie Ia Io Ient It] Ho Hb E; cbn [node thread arrived issued] in *.
  rewrite (receive_eq r o c _ Im (Ie r) Hb) in E. injection E as _ <-.
  set (n := length (of_rank r rs)) in *.
  pose proof (Ient r n) as Hent. unfold n in Hent at 2. rewrite of_rank_end in Hent.
  destruct Hent as [Ed Ec _ _ Et].
  assert (at_call p (key r n) = false /\ at_erase p (key r n) = false) as [Hac Hae].
  { destruct (at_call p (key r n)), (at_erase p (key r n)); try done;
      destruct Et as [[? ?] _]; done. }
  assert (of_rank r (rs ++ [(r, o)]) !! n = Some o) as El by apply of_rank_last.
  destruct (of_rank r ms !! n) as [d|] eqn:Em; rewrite Ed.
  - split; scbn.
    + done.
    + by apply counter_snoc.
    + done.
    + by apply NoDup_snoc.
    + intros r' j. destruct (decide (key r' j = key r n)) as [[-> ->]%key_inj|Hne].
      * rewrite El, Em.
        split; ccbn; rewrite ?Hac, ?Hae; cbn; try done.
        -- by rewrite lookup_delete_eq.
        -- by rewrite lookup_insert_eq.
        -- intros o' d' [= <-] [= <-]. by rewrite lookup_insert_eq.
      * rewrite of_rank_fresh by done. eapply entry_ok_frame; [apply Ient|..]; ccbn; try done.
        -- by rewrite lookup_delete_ne.
        -- by rewrite !lookup_insert_ne.
        -- intros o' Ho'. rewrite lookup_insert_ne; [done|]. intros <-. by apply Ho, (issued_in _ Ho').
    + done.
  - split; scbn.
    + done.
    + by apply counter_snoc.
    + done.
    + by apply NoDup_snoc.
    + intros r' j. destruct (decide (key r' j = key r n)) as [[-> ->]%key_inj|Hne].
      * rewrite El, Em.
        split; ccbn; rewrite ?Hac, ?Hae; cbn; try done.
        -- by rewrite lookup_insert_eq.
        -- by rewrite lookup_insert_eq.
      * rewrite of_rank_fresh by done. eapply entry_ok_frame; [apply Ient|..]; ccbn; try done;
          by rewrite lookup_insert_ne.
    + done.
Qed.

Lemma inv_arrive c ms rs r d p c' :
  inv (mkSystem c Idle ms rs) -> Z.of_nat (S (length (of_rank r ms))) < 2 ^ 64 ->
  0 < zlen d <= SECUREC_MEM_MAX_LEN ->
  RunReceiveCallback_arrive r (Some d) (zlen d) c = Ret p c' ->
  inv (mkSystem c' p (ms ++ [(r, d)]) rs).
Proof.
  intros [Im Ie Ia Io Ient It] Hb Hd E; scbn.
  rewrite (arrive_eq r d c _ Im (Ia r) Hb Hd) in E. injection E as <- <-.
  set (n := length (of_rank r ms)) in *.
  pose proof (Ient r n) as Hent. unfold n in Hent at 3. rewrite of_rank_end in Hent.
  destruct Hent as [Ed Ec Edn _ _]. cbn in Ed, Ec.
  assert (of_rank r (ms ++ [(r, d)]) !! n = Some d) as El by apply of_rank_last.
  assert (forall o r' j, key r' j <> key r n -> at_call (AtCallback (key r n) o) (key r' j) = false)
    as Hat. { intros. cbn. rewrite bool_decide_false; congruence. }
  split; scbn.
  - done.
  - done.
  - by apply counter_snoc.
  - done.
  - intros r' j. destruct (decide (key r' j = key r n)) as [[-> ->]%key_inj|Hne].
    + rewrite El. destruct (of_rank r rs !! n) as [o|] eqn:Ei; rewrite Ec.
      * assert (at_call (AtCallback (key r n) o) (key r n) = true) as Ht by (cbn; by rewrite bool_decide_true).
        split; ccbn; rewrite ?Ht; cbn; try done.
        -- by rewrite lookup_insert_eq.
        -- intros o' d' Ho' _. by simplify_eq.
      * split; ccbn; cbn; try done. by rewrite lookup_insert_eq.
    + rewrite of_rank_fresh by done. eapply entry_ok_frame; [apply Ient|..]; ccbn; try done.
      * by rewrite lookup_insert_ne.
      * destruct (of_rank r rs !! n); rewrite Ec; [by apply Hat|done].
      * by destruct (receive_callbacks_ c !! key r n).
  - destruct (receive_callbacks_ c !! key r n); [by exists r, n|done].
Qed.

Lemma inv_call c ms rs k o p c' :
  inv (mkSystem c (AtCallback k o) ms rs) -> RunReceiveCallback_call k o c = Ret p c' ->
  inv (mkSystem c' p ms rs).
Proof.
  intros [Im Ie Ia Io Ient It] E; scbn. destruct It as (r & n & ->).
  unfold RunReceiveCallback_call, lock, unlock, take_data, data_at in E. crun. rewrite Im in E.
  crun. injection E as <- <-.
  assert (at_call (AtCallback (key r n) o) (key r n) = true) as Ht by (cbn; by rewrite bool_decide_true).
  pose proof (Ient r n) as [Ed Ec _ Eo Et]. rewrite Ht in Ed, Ec, Eo, Et. cbn in Et.
  destruct (Et eq_refl) as [[o' Ei] [d Em]]. rewrite Ei, Em in *. cbn in Ec.
  specialize (Eo _ _ eq_refl eq_refl). injection Eo as ->. rewrite Ed. cbn [default from_option id].
  split; scbn; ccbn; try done.
  - intros r' j. destruct (decide (key r' j = key r n)) as [[-> ->]%key_inj|Hne].
    + rewrite Ei, Em. assert (at_erase (AtErase (key r n)) (key r n) = true) as Ht'
        by (cbn; by rewrite bool_decide_true).
      split; ccbn; rewrite ?Ht'; cbn; try done.
      * by rewrite lookup_delete_eq.
      * by rewrite lookup_insert_eq.
      * intros ? ? [= <-] [= <-]. by rewrite lookup_insert_eq.
    + eapply entry_ok_frame; [apply Ient|..]; ccbn; try done.
      * by rewrite lookup_delete_ne.
      * by rewrite lookup_insert_ne.
      * intros o2 Ho2. rewrite lookup_insert_ne; [done|]. intros <-.
        destruct (output_unique rs r' j r n o' Io Ho2 Ei) as [-> ->]. done.
      * cbn. rewrite bool_decide_false; congruence.
      * cbn. rewrite bool_decide_false; congruence.
      * cbn. rewrite bool_decide_false; congruence.
  - by exists r, n.
Qed.

Lemma inv_erase c ms rs k p c' :
  inv (mkSystem c (AtErase k) ms rs) -> RunReceiveCallback_erase k c = Ret p c' ->
  inv (mkSystem c' p ms rs).
Proof.
  intros [Im Ie Ia Io Ient It] E; scbn. destruct It as (r & n & ->).
  unfold RunReceiveCallback_erase, lock, unlock in E. crun. rewrite Im in E.
  crun. injection E as <- <-.
  assert (at_erase (AtErase (key r n)) (key r n) = true) as Ht by (cbn; by rewrite bool_decide_true).
  pose proof (Ient r n) as [Ed Ec Edn Eo Et]. rewrite Ht in Et. cbn in Et.
  destruct (Et eq_refl) as [[o' Ei] [d Em]]. rewrite Ei, Em in *. cbn in Ed, Edn, Eo.
  split; scbn; ccbn; try done.
  intros r' j. destruct (decide (key r' j = key r n)) as [[-> ->]%key_inj|Hne].
  - rewrite Ei, Em. split; ccbn; cbn; try done. by rewrite lookup_delete_eq.
  - eapply entry_ok_frame; [apply Ient|..]; ccbn; try done.
    + by rewrite lookup_delete_ne.
    + cbn. rewrite bool_decide_false; congruence.
Qed.

Lemma inv_poll c p ms rs k b c' :
  inv (mkSystem c p ms rs) -> CollectiveWait_poll k c = Ret b c' -> inv (mkSystem c' p ms rs).
Proof.
  intros [Im Ie Ia Io Ient It] E; scbn. unfold CollectiveWait_poll in E.
  destruct (receive_messages_done_ c !! k) as [b'|] eqn:Ek; injection E as <- <-; [by split|].
  split; scbn; ccbn; try done. intros r j. pose proof (Ient r j) as [].
  split; ccbn; try done. intros Hi. specialize (eo_done0 Hi). rewrite lookup_insert_ne; [done|].
  intros ->. congruence.
Qed.

(** A message that was accepted is not empty. *)
Lemma arrive_size r d c p c' :
  RunReceiveCallback_arrive r (Some d) (zlen d) c = Ret p c' ->
  0 < zlen d <= SECUREC_MEM_MAX_LEN.
Proof.
  unfold RunReceiveCallback_arrive. intros E. step_inv. pose proof (zlen_nonneg d).
  unfold buf_memcpy_s in *.
  destruct (Z.eqb_spec (zlen d) 0), (Z.gtb_spec (zlen d) SECUREC_MEM_MAX_LEN); try lia;
    cbn [orb] in *; change (negb (ERANGE =? 0)) with true in *; discriminate.
Qed.

Lemma of_rank_length {A} r (l : list (Z * A)) : (length (of_rank r l) <= length l)%nat.
Proof. unfold of_rank. rewrite length_fmap. apply length_filter. Qed.

Definition small (s : system) : Prop :=
  Z.of_nat (length (issued s)) < 2 ^ 64 /\ Z.of_nat (length (arrived s)) < 2 ^ 64.

Lemma step_inv_preserved s s' : inv s -> small s' -> collective_step s s' -> inv s'.
Proof.
  intros Hi [Hs1 Hs2] Hst. revert Hi Hs1 Hs2.
  destruct Hst as [r o k c c' p ms rs Ho E|r d c p c' ms rs E|k o c p c' ms rs E|k c p c' ms rs E
    |k c b c' p ms rs E]; intros Hi Hs1 Hs2; scbn.
  - eapply inv_receive; [done|done| |done]. rewrite length_app in Hs1. cbn in Hs1.
    pose proof (of_rank_length r rs). lia.
  - eapply inv_arrive; [done| |by eapply arrive_size|done]. rewrite length_app in Hs2. cbn in Hs2.
    pose proof (of_rank_length r ms). lia.
  - by eapply inv_call.
  - by eapply inv_erase.
  - by eapply inv_poll.
Qed.

Lemma step_small s s' : collective_step s s' -> small s' -> small s.
Proof.
  unfold small. intros [] [H1 H2]; scbn; rewrite ?length_app in *; split; lia.
Qed.

Lemma collective_reachable_inv s : rtc collective_step system_init s -> small s -> inv s.
Proof.
  intros Hr. revert Hr. apply (rtc_ind_r (fun s => small s -> inv s)); [intros; apply inv_init|].
  intros s1 s2 _ Hs IH Hsm.
  eapply step_inv_preserved; [|done|done]. apply IH. by eapply step_small.
Qed.

(** C5: collective messages are matched in order.  However receives, arrivals and
    the steps of the event thread interleave, the j-th receive issued for a
    rank gets the data of the j-th message that arrived from it and of no
    other: a wait on it succeeds only when that message has arrived and its
    data is in the caller's output, and once the event thread is idle it
    succeeds if the message has arrived. *)
Theorem collective_fifo s r j o :
  rtc collective_step system_init s -> small s ->
  of_rank r (issued s) !! j = Some o ->
  (forall c', CollectiveWait_poll (key r j) (node s) = Ret true c' ->
     exists d, of_rank r (arrived s) !! j = Some d /\ outputs (node s) !! o = Some (Some d)) /\
  (forall d, thread s = Idle -> of_rank r (arrived s) !! j = Some d ->
     CollectiveWait_poll (key r j) (node s) = Ret true (node s) /\
     outputs (node s) !! o = Some (Some d)).
Proof.
  intros Hr Hs Hi. apply collective_reachable_inv in Hr as [_ _ _ _ Hent _]; [|done].
  specialize (Hent r j) as [_ _ Hd Ho _]. rewrite Hi in *. specialize (Hd ltac:(done)).
  unfold CollectiveWait_poll. rewrite Hd. split.
  - intros c' [= E _]. apply andb_prop in E as [[d Em]%bool_decide_eq_true Hc].
    exists d. split; [done|]. specialize (Ho _ _ eq_refl Em).
    by destruct (at_call (thread s) (key r j)).
  - intros d Hidle Em. specialize (Ho _ _ eq_refl Em). rewrite Hidle in *. by rewrite Em.
Qed.

(** Two messages of rank 1: the first finds its receive waiting, the second waits
    for its receive. *)
Definition example_node : collective :=
  let run {A} (m : M collective A) c := match m c with Ret _ c' => c' | _ => c end in
  let c1 := run (CollectiveReceiveAsync true 1 (Some 10)) collective_init in
  let c2 := run (RunReceiveCallback_arrive 1 (Some [7]) 1) c1 in
  let c3 := run (RunReceiveCallback_call (key 1 0) 10) c2 in
  let c4 := run (RunReceiveCallback_erase (key 1 0)) c3 in
  let c5 := run (RunReceiveCallback_arrive 1 (Some [8; 9]) 2) c4 in
  run (CollectiveReceiveAsync true 1 (Some 11)) c5.

Definition example_system : system :=
  mkSystem example_node Idle [(1, [7]); (1, [8; 9])] [(1, 10); (1, 11)].

Lemma example_run : rtc collective_step system_init example_system.
Proof.
  unfold example_system.
  eapply rtc_l; [eapply (step_receive 1 10); [by apply not_elem_of_nil|vm_compute; reflexivity]|].
  eapply rtc_l; [eapply (step_arrive 1 [7]); vm_compute; reflexivity|].
  eapply rtc_l; [eapply step_call; vm_compute; reflexivity|].
  eapply rtc_l; [eapply step_erase; vm_compute; reflexivity|].
  eapply rtc_l; [eapply (step_arrive 1 [8; 9]); vm_compute; reflexivity|].
  apply rtc_once. eapply (step_receive 1 11 _ _ _ _ _ [(1, 10)]); [|vm_compute; reflexivity].
  by intros [=]%list_elem_of_singleton.
Qed.

Lemma collective_fifo_witness :
  CollectiveWait_poll (key 1 1) (node example_system) = Ret true (node example_system) /\
  outputs (node example_system) !! 11 = Some (Some [8; 9]).
Proof.
  apply (collective_fifo example_system 1 1 11 example_run);
    [split; vm_compute; reflexivity|reflexivity..].
Defined.

(** An empty collective message makes RunReceiveCallback raise an exception
    while it holds the mutex, so that every later receive and arrival blocks. *)
Theorem empty_collective_message_blocks r c :
  receive_callbacks_mutex_ c = false ->
  exists c', RunReceiveCallback_arrive r (Some []) 0 c = Throw "The memcpy_s error" c' /\
    (forall r' o, CollectiveReceiveAsync true r' (Some o) c' =
       Undef "deadlock on receive_callbacks_mutex_") /\
    (forall r' d n, RunReceiveCallback_arrive r' (Some d) n c' =
       Undef "deadlock on receive_callbacks_mutex_").
Proof.
  intros Hm. unfold RunReceiveCallback_arrive at 1, NextActualRankRequestId, lock. crun.
  rewrite Hm. crun. eexists. split; [done|].
  unfold CollectiveReceiveAsync, RunReceiveCallback_arrive, lock. by crun.
Qed.

Lemma empty_collective_message_blocks_witness :
  exists c', RunReceiveCallback_arrive 3 (Some []) 0 collective_init = Throw "The memcpy_s error" c' /\
    CollectiveReceiveAsync true 1 (Some 2) c' = Undef "deadlock on receive_callbacks_mutex_".
Proof.
  destruct (empty_collective_message_blocks 3 collective_init) as (c' & E & H & _).
  - reflexivity.
  - exists c'. split; [exact E|apply H].
Defined.
