(* ===== verification/Requests.v ===== *)
(** * Requests and responses

    The part of AbstractNode (src/even-http/ps/core/abstract_node.{h,cc}) that
    matches the responses of the servers with the requests that wait for them:
    the tracker of expected and actual responses, the table of received data,
    the callbacks that hand the data to the caller of Send, and Wait.

    All clients share one event base (tcp_client.cc, event_base_), so responses
    are handled one after the other on one event thread.  Handling a response
    takes and releases several mutexes; each critical section is one step, with
    a program counter between them, and the steps of the threads that call Send
    and Wait come in between.  The callbacks capture the locals of Send by
    reference: [live] holds the requests whose Send has not returned. *)
From S2P Require Import Prelude Convert Securec Messages.

Abbreviation VectorPtr := (option (list Z)).

(** The callbacks of the two Send operations that have an output, as the
    variables they capture; the output is the address of a vector of pointers,
    of length one for the pointer of the first kind. *)
Inductive MessageCallback : Type :=
| TakeOne (rank_id output : Z)
| TakeAll (rank_ids : list Z) (output : Z).

Definition callback_output (cb : MessageCallback) : Z :=
  match cb with TakeOne _ o | TakeAll _ o => o end.
Definition callback_ranks (cb : MessageCallback) : list Z :=
  match cb with TakeOne r _ => [r] | TakeAll rs _ => rs end.

Record requests : Type := mkRequests {
  next_request_id_ : Z; (* uint64_t *)
  message_tracker_ : gmap Z (Z * Z); (* <expected, actual>, uint32_t each *)
  receive_messages_ : gmap Z (gmap Z VectorPtr);
  message_callbacks_ : gmap Z MessageCallback;
  live : gset Z;
  outs : gmap Z (list VectorPtr);
}.

Definition requests_init : requests := mkRequests 0 ∅ ∅ ∅ ∅ ∅.

Definition set_next (z : Z) (c : requests) : requests :=
  mkRequests z (message_tracker_ c) (receive_messages_ c) (message_callbacks_ c) (live c) (outs c).
Definition set_tracker (f : gmap Z (Z * Z) -> gmap Z (Z * Z)) (c : requests) : requests :=
  mkRequests (next_request_id_ c) (f (message_tracker_ c)) (receive_messages_ c)
    (message_callbacks_ c) (live c) (outs c).
Definition set_received (f : gmap Z (gmap Z VectorPtr) -> gmap Z (gmap Z VectorPtr))
    (c : requests) : requests :=
  mkRequests (next_request_id_ c) (message_tracker_ c) (f (receive_messages_ c))
    (message_callbacks_ c) (live c) (outs c).
Definition set_message_callbacks (f : gmap Z MessageCallback -> gmap Z MessageCallback)
    (c : requests) : requests :=
  mkRequests (next_request_id_ c) (message_tracker_ c) (receive_messages_ c)
    (f (message_callbacks_ c)) (live c) (outs c).
Definition set_live (f : gset Z -> gset Z) (c : requests) : requests :=
  mkRequests (next_request_id_ c) (message_tracker_ c) (receive_messages_ c)
    (message_callbacks_ c) (f (live c)) (outs c).
Definition set_outs (f : gmap Z (list VectorPtr) -> gmap Z (list VectorPtr)) (c : requests)
    : requests :=
  mkRequests (next_request_id_ c) (message_tracker_ c) (receive_messages_ c)
    (message_callbacks_ c) (live c) (f (outs c)).

Ltac rcbn := cbn [next_request_id_ message_tracker_ receive_messages_ message_callbacks_ live outs
  set_next set_tracker set_received set_message_callbacks set_live set_outs] in *.

(** Runs the monad on a known state. *)
Ltac rrun := unfold mbind, M_bind, mret, M_ret, getS, modify in *; rcbn; cbn [negb fst snd] in *;
  cbv beta iota zeta in *.

Definition AddMessageTrack (expected_response : Z) : M requests Z :=
  c ← getS;
  let request_id := u64 (next_request_id_ c + 1) in
  _ ← modify (set_next request_id);
  _ ← modify (set_tracker (insert request_id (u32 expected_response, 0)));
  mret request_id.

(** [message_tracker_[request_id]]: [operator[]] inserts <0, 0>. *)
Definition tracker_at (request_id : Z) : M requests (Z * Z) :=
  c ← getS;
  match message_tracker_ c !! request_id with
  | Some p => mret p
  | None => _ ← modify (set_tracker (insert request_id (0, 0))); mret (0, 0)
  end.

Definition CheckMessageTrack (request_id : Z) : M requests bool :=
  p ← tracker_at request_id;
  mret (p.1 =? u32 (p.2 + 1)).

Definition NotifyMessageArrival (meta_request_id : Z) : M requests unit :=
  p ← tracker_at meta_request_id;
  modify (set_tracker (insert meta_request_id (p.1, u32 (p.2 + 1)))).

Definition set_message_callback (request_id : Z) (callback : option MessageCallback)
    : M requests unit :=
  match callback with
  | None => mret tt
  | Some cb => modify (set_message_callbacks (insert request_id cb))
  end.

Definition ProcessSendDataResp (meta : MessageMeta) (data : option (list Z)) (size : Z)
    : M requests unit :=
  _ ← exception_if_null (bool_decide (is_Some data));
  let rank_id := u32 (rank_id meta) in
  let request_id := request_id meta in
  match
    if size >? 0
    then buf_memcpy_s (replicate (Z.to_nat size) 0) 0 size (default [] data) 0 size
    else Some (0, replicate (Z.to_nat size) 0)
  with
  | None => undef "read past the end of the data"
  | Some (ret, received_data) =>
    _ ← (if negb (ret =? 0) then throw "The memcpy_s error" else mret tt);
    c ← getS;
    match receive_messages_ c !! request_id with
    | Some res =>
      modify (set_received (insert request_id (<[rank_id := Some received_data]> res)))
    | None => modify (set_received (insert request_id {[rank_id := Some received_data]}))
    end
  end.

(** The bodies of the callbacks, lines 145-149 and 179-185.  [res[rank_id]] is a
    null pointer when the rank is missing. *)
Definition res_at (res : gmap Z VectorPtr) (rank_id : Z) : VectorPtr :=
  default None (res !! rank_id).

Definition run_callback (request_id : Z) (cb : MessageCallback) : M requests unit :=
  c ← getS;
  if bool_decide (request_id ∈ live c) then
    let res : gmap Z VectorPtr := default ∅ (receive_messages_ c !! request_id) in
    _ ← modify (set_outs
          match cb with
          | TakeOne rank_id output => insert output [res_at res rank_id]
          | TakeAll rank_ids output => alter (fun l => l ++ (res_at res <$> rank_ids)) output
          end);
    modify (set_received (delete request_id))
  else undef "the captured locals are gone".

(** ** The event thread *)

(** Where the handling of a response is: before RunMessageCallback, about to
    call the callback, about to erase it, before NotifyMessageArrival. *)
Inductive epc : Type :=
| EIdle
| AtCheck (request_id : Z)
| AtRun (request_id : Z) (cb : MessageCallback)
| AtDrop (request_id : Z)
| AtNotify (request_id : Z).

(** RunMessageCallback up to the first unlock, lines 538-544. *)
Definition RunMessageCallback_check (request_id : Z) : M requests epc :=
  b ← CheckMessageTrack request_id;
  c ← getS;
  mret (if (b : bool) then match message_callbacks_ c !! request_id with
                  | Some cb => AtRun request_id cb
                  | None => AtNotify request_id
                  end
        else AtNotify request_id).

(** Line 547. *)
Definition RunMessageCallback_call (request_id : Z) (cb : MessageCallback) : M requests epc :=
  _ ← run_callback request_id cb;
  mret (AtDrop request_id).

(** Lines 550-554. *)
Definition RunMessageCallback_erase (request_id : Z) : M requests epc :=
  _ ← modify (set_message_callbacks (delete request_id));
  mret (AtNotify request_id).

(** ** Send and Wait *)

(** What Send does before it writes to the connections: track the request and
    install the callback, if it has an output.  Nothing refers to the new
    request id before the messages are sent, so the two critical sections are
    one step. *)
Definition Send_begin (expected_response : Z) (callback : option MessageCallback)
    : M requests Z :=
  request_id ← AddMessageTrack expected_response;
  _ ← modify (set_live (union {[request_id]}));
  _ ← set_message_callback request_id callback;
  mret request_id.

(** The predicate of wait_for. *)
Definition Wait_poll (request_id : Z) : M requests bool :=
  p ← tracker_at request_id;
  mret (p.1 =? p.2).

(** Wait wakes up, because it was notified or because the timeout has expired:
    it goes on waiting ([None]) or returns, and Send with it. *)
Definition Wait_wake (request_id : Z) (expired : bool) : M requests (option bool) :=
  res ← Wait_poll request_id;
  if (res : bool) || expired then
    _ ← modify (set_tracker (delete request_id));
    _ ← modify (set_live (fun l => l ∖ {[request_id]}));
    mret (Some res)
  else mret None.

(** ** Interleavings *)

(** A call of Send: the ranks it sent to and its callback. *)
Record frame : Type := mkFrame { f_ranks : list Z; f_callback : option MessageCallback }.

Record world : Type := mkWorld {
  tables : requests;
  ethread : epc;
  frames : gmap Z frame;
  replies : gmap (Z * Z) (list Z); (* the responses so far, by request and rank *)
}.

Definition world_init : world := mkWorld requests_init EIdle ∅ ∅.

(** What the overloads of Send guarantee of their callback and what their
    callers must: an output of its own, empty at first. *)
Definition callback_ok (ranks : list Z) (callback : option MessageCallback) (c : requests) : Prop :=
  match callback with
  | None => True
  | Some cb => callback_ranks cb = ranks /\ outs c !! callback_output cb = None
  end.
Definition alloc_output (callback : option MessageCallback) (c : requests) : requests :=
  match callback with
  | None => c
  | Some cb => set_outs (insert (callback_output cb) []) c
  end.

Inductive request_step : world -> world -> Prop :=
| rs_send ranks cb id c c' p fs rp :
    NoDup ranks -> Z.of_nat (length ranks) < 2 ^ 32 -> callback_ok ranks cb c ->
    Send_begin (Z.of_nat (length ranks)) cb (alloc_output cb c) = Ret id c' ->
    request_step (mkWorld c p fs rp) (mkWorld c' p (<[id := mkFrame ranks cb]> fs) rp)
| rs_response id f r d meta c c' fs rp :
    fs !! id = Some f -> r ∈ f_ranks f -> rp !! (id, r) = None ->
    request_id meta = id -> u32 (rank_id meta) = r ->
    ProcessSendDataResp meta (Some d) (zlen d) c = Ret tt c' ->
    request_step (mkWorld c EIdle fs rp) (mkWorld c' (AtCheck id) fs (<[(id, r) := d]> rp))
| rs_check id c p c' fs rp :
    RunMessageCallback_check id c = Ret p c' ->
    request_step (mkWorld c (AtCheck id) fs rp) (mkWorld c' p fs rp)
| rs_run id cb c p c' fs rp :
    RunMessageCallback_call id cb c = Ret p c' ->
    request_step (mkWorld c (AtRun id cb) fs rp) (mkWorld c' p fs rp)
| rs_drop id c p c' fs rp :
    RunMessageCallback_erase id c = Ret p c' ->
    request_step (mkWorld c (AtDrop id) fs rp) (mkWorld c' p fs rp)
| rs_notify id c c' fs rp :
    NotifyMessageArrival id c = Ret tt c' ->
    request_step (mkWorld c (AtNotify id) fs rp) (mkWorld c' EIdle fs rp)
| rs_wait id expired res c p c' fs rp :
    id ∈ live c -> Wait_wake id expired c = Ret res c' ->
    request_step (mkWorld c p fs rp) (mkWorld c' p fs rp).

(** ** Invariant *)
Definition busy (p : epc) (id : Z) : bool :=
  match p with
  | EIdle => false
  | AtCheck i | AtRun i _ | AtDrop i | AtNotify i => bool_decide (i = id)
  end.
Definition before_call (p : epc) (id : Z) : bool :=
  match p with AtCheck i | AtRun i _ => bool_decide (i = id) | _ => false end.
Definition before_erase (p : epc) (id : Z) : bool :=
  match p with AtCheck i | AtRun i _ | AtDrop i => bool_decide (i = id) | _ => false end.

(** The ranks that have answered, and whether all have (at least one). *)
Definition answered (rep : Z -> option (list Z)) (ranks : list Z) : list Z :=
  filter (fun r => is_Some (rep r)) ranks.
Definition complete (rep : Z -> option (list Z)) (ranks : list Z) : bool :=
  bool_decide (ranks <> []) && bool_decide (length (answered rep ranks) = length ranks).

Definition nat_count (rep : Z -> option (list Z)) (p : epc) (id : Z) (ranks : list Z) : Z :=
  Z.of_nat (length (answered rep ranks)) - (if busy p id then 1 else 0).

Definition epc_id (p : epc) : option Z :=
  match p with
  | EIdle => None
  | AtCheck i | AtRun i _ | AtDrop i | AtNotify i => Some i
  end.

Record request_ok (c : requests) (p : epc) (id : Z) (f : frame) (rep : Z -> option (list Z))
    : Prop := {
  ro_ranks : NoDup (f_ranks f);
  ro_bound : Z.of_nat (length (f_ranks f)) < 2 ^ 32;
  ro_reply r : is_Some (rep r) -> r ∈ f_ranks f;
  ro_busy : busy p id = true -> 0 < Z.of_nat (length (answered rep (f_ranks f)));
  ro_tracker : id ∈ live c -> message_tracker_ c !! id =
    Some (Z.of_nat (length (f_ranks f)), nat_count rep p id (f_ranks f));
  ro_dead : id ∉ live c -> message_tracker_ c !! id = None \/
    exists m, message_tracker_ c !! id = Some (0, m) /\ 0 <= m <= nat_count rep p id (f_ranks f);
  ro_ranks_of cb : f_callback f = Some cb -> callback_ranks cb = f_ranks f;
  ro_received cb r : id ∈ live c -> f_callback f = Some cb ->
    complete rep (f_ranks f) && negb (before_call p id) = false ->
    default ∅ (receive_messages_ c !! id) !! r = Some <$> rep r;
  ro_callback : id ∈ live c -> message_callbacks_ c !! id =
    if complete rep (f_ranks f) && negb (before_erase p id) then None else f_callback f;
  ro_outs cb : id ∈ live c -> f_callback f = Some cb -> outs c !! callback_output cb =
    Some (if complete rep (f_ranks f) && negb (before_call p id) then rep <$> f_ranks f else []);
  ro_run cb : p = AtRun id cb -> f_callback f = Some cb /\ complete rep (f_ranks f) = true;
  ro_drop : p = AtDrop id -> complete rep (f_ranks f) = true;
}.

Record requests_inv (w : world) : Prop := {
  ri_next : next_request_id_ (tables w) = Z.of_nat (size (frames w));
  ri_frame id : is_Some (frames w !! id) -> 1 <= id <= next_request_id_ (tables w);
  ri_live id : id ∈ live (tables w) -> is_Some (frames w !! id);
  ri_received id : is_Some (receive_messages_ (tables w) !! id) -> is_Some (frames w !! id);
  ri_callbacks id : is_Some (message_callbacks_ (tables w) !! id) -> is_Some (frames w !! id);
  ri_replies id r : is_Some (replies w !! (id, r)) -> is_Some (frames w !! id);
  ri_thread id : epc_id (ethread w) = Some id -> is_Some (frames w !! id);
  ri_request id f : frames w !! id = Some f ->
    request_ok (tables w) (ethread w) id f (fun r => replies w !! (id, r));
  ri_outs id f cb : frames w !! id = Some f -> f_callback f = Some cb ->
    is_Some (outs (tables w) !! callback_output cb);
  ri_distinct id id' f f' cb cb' : frames w !! id = Some f -> frames w !! id' = Some f' ->
    f_callback f = Some cb -> f_callback f' = Some cb' ->
    callback_output cb = callback_output cb' -> id = id';
}.

Lemma answered_agree rep rep' ranks :
  (forall r, r ∈ ranks -> rep' r = rep r) -> answered rep' ranks = answered rep ranks.
Proof.
  unfold answered. induction ranks as [|r l IH]; [done|]. intros E.
  rewrite !filter_cons, (E r), IH by (intros; try apply E; by constructor). done.
Qed.

Lemma answered_ext rep rep' ranks :
  (forall r, rep' r = rep r) -> answered rep' ranks = answered rep ranks.
Proof. intros E. by apply answered_agree. Qed.

Lemma answered_le rep ranks : (length (answered rep ranks) <= length ranks)%nat.
Proof. apply length_filter. Qed.

Lemma answered_none rep ranks : (forall r, rep r = None) -> answered rep ranks = [].
Proof.
  intros E. unfold answered. induction ranks as [|r l IH]; cbn; [done|].
  rewrite decide_False; [done|]. rewrite E. by intros [? ?].
Qed.

(** One more rank has answered. *)
Lemma answered_insert rep rep' ranks r0 :
  NoDup ranks -> r0 ∈ ranks -> rep r0 = None -> is_Some (rep' r0) ->
  (forall r, r <> r0 -> rep' r = rep r) ->
  length (answered rep' ranks) = S (length (answered rep ranks)).
Proof.
  intros Hnd Hin H0 H0' E. induction Hnd as [|r l Hr Hnd IH].
  { by apply not_elem_of_nil in Hin. }
  unfold answered in *. rewrite !filter_cons. destruct (decide (r = r0)) as [->|Hne].
  - rewrite decide_True, decide_False by (rewrite ?H0; auto using is_Some_None).
    cbn. do 2 f_equal. apply answered_agree. intros r Hin'. apply E. by intros ->.
  - apply elem_of_cons in Hin as [->|Hin]; [done|]. rewrite (E r Hne).
    case_decide; cbn; [f_equal|]; by apply IH.
Qed.

Lemma complete_ext rep rep' ranks :
  (forall r, rep' r = rep r) -> complete rep' ranks = complete rep ranks.
Proof. intros E. unfold complete. by rewrite (answered_ext _ _ _ E). Qed.

Lemma complete_reply rep ranks r : complete rep ranks = true -> r ∈ ranks -> is_Some (rep r).
Proof.
  intros [_ H%bool_decide_eq_true]%andb_prop Hr. induction ranks as [|r' l IH].
  { by apply not_elem_of_nil in Hr. }
  pose proof (answered_le rep l). unfold answered in *. rewrite filter_cons in H.
  case_decide; cbn in H; [|lia]. apply elem_of_cons in Hr as [->|Hr]; [done|]. apply IH; [lia|done].
Qed.

Lemma complete_missing rep ranks r : r ∈ ranks -> rep r = None -> complete rep ranks = false.
Proof.
  intros Hr E. apply not_true_is_false. intros H. apply (complete_reply _ _ r) in H; [|done].
  rewrite E in H. by destruct H.
Qed.

(** What happens elsewhere does not concern a request. *)
Lemma request_ok_frame c p id f rep c' p' rep' :
  request_ok c p id f rep ->
  message_tracker_ c' !! id = message_tracker_ c !! id ->
  receive_messages_ c' !! id = receive_messages_ c !! id ->
  message_callbacks_ c' !! id = message_callbacks_ c !! id ->
  (id ∈ live c' <-> id ∈ live c) ->
  (forall cb, f_callback f = Some cb ->
     outs c' !! callback_output cb = outs c !! callback_output cb) ->
  busy p' id = busy p id -> before_call p' id = before_call p id ->
  before_erase p' id = before_erase p id -> p' = p \/ epc_id p' <> Some id ->
  (forall r, rep' r = rep r) ->
  request_ok c' p' id f rep'.
Proof.
  intros [] Et Er Ec El Eo Eb E1 E2 Ep Erep.
  split; unfold nat_count in *;
    rewrite ?(answered_ext _ _ _ Erep), ?(complete_ext _ _ _ Erep), ?Et, ?Er, ?Ec, ?El, ?Eb, ?E1, ?E2;
    try done; intros.
  - rewrite Erep in *. auto.
  - rewrite Erep. rewrite ?(complete_ext _ _ _ Erep), ?E1, ?El in *. eauto.
  - rewrite Eo, (list_fmap_ext rep' rep) by auto. rewrite ?El in *. auto.
  - subst. destruct Ep as [<-|Hp]; [auto|by destruct Hp].
  - subst. destruct Ep as [<-|Hp]; [auto|by destruct Hp].
Qed.

(** Another request than the one the event thread is at. *)
Lemma busy_other p id id' : epc_id p = Some id' -> id <> id' ->
  busy p id = false /\ before_call p id = false /\ before_erase p id = false.
Proof. destruct p; cbn; intros [= ->] Hne; by rewrite bool_decide_eq_false_2. Qed.

Lemma before_call_busy p id : busy p id = false -> before_call p id = false.
Proof. by destruct p. Qed.

Lemma busy_idle p id : epc_id p = None ->
  busy p id = false /\ before_call p id = false /\ before_erase p id = false.
Proof. by destruct p. Qed.

Definition at_most (p : epc) (id : Z) : Prop := epc_id p = None \/ epc_id p = Some id.

Lemma at_most_other p id0 id : at_most p id0 -> id <> id0 ->
  busy p id = false /\ before_call p id = false /\ before_erase p id = false.
Proof. intros [E|E] Hne; [by apply busy_idle|by eapply busy_other]. Qed.

Ltac wcbn := cbn [tables ethread frames replies] in *.

(** A step that concerns one request keeps the invariant if it does so for that
    request. *)
Lemma inv_local c p c' p' fs rp rp' id0 f0 :
  requests_inv (mkWorld c p fs rp) -> fs !! id0 = Some f0 ->
  next_request_id_ c' = next_request_id_ c ->
  (forall id, id <> id0 -> message_tracker_ c' !! id = message_tracker_ c !! id /\
     receive_messages_ c' !! id = receive_messages_ c !! id /\
     message_callbacks_ c' !! id = message_callbacks_ c !! id /\
     (id ∈ live c' <-> id ∈ live c)) ->
  (forall o, outs c' !! o = outs c !! o \/
     exists cb, f_callback f0 = Some cb /\ o = callback_output cb /\ is_Some (outs c' !! o)) ->
  p' = p \/ (at_most p id0 /\ at_most p' id0) ->
  (forall id r, id <> id0 -> rp' !! (id, r) = rp !! (id, r)) ->
  request_ok c' p' id0 f0 (fun r => rp' !! (id0, r)) ->
  requests_inv (mkWorld c' p' fs rp').
Proof.
  intros [In Ifr Il Ircv Icb Irp Ith Ireq Iout Idist] Hf En Eoth Eout Ep Erp Hok.
  assert (forall id, (id = id0 -> is_Some (fs !! id)) /\ (id = id0 \/ id <> id0)) as Hid.
  { intros id. split; [intros ->; eauto|]. destruct (decide (id = id0)); auto. }
  split; wcbn; rewrite ?En; try done.
  - intros id Hl. destruct (Hid id) as [? [?|Hne]]; [auto|]. apply Il. by apply (Eoth id Hne).
  - intros id Hl. destruct (Hid id) as [? [?|Hne]]; [auto|]. apply Ircv.
    destruct (Eoth id Hne) as (_ & <- & _). done.
  - intros id Hl. destruct (Hid id) as [? [?|Hne]]; [auto|]. apply Icb.
    destruct (Eoth id Hne) as (_ & _ & <- & _). done.
  - intros id r Hr. destruct (Hid id) as [? [?|Hne]]; [auto|]. apply (Irp id r).
    by rewrite <- Erp.
  - intros id Hi. destruct Ep as [->|[_ [E|E]]]; [auto|congruence|]. rewrite E in Hi.
    injection Hi as <-. eauto.
  - intros id f Hif. destruct (decide (id = id0)) as [->|Hne]; [by rewrite Hf in Hif; injection Hif as <-|].
    destruct (Eoth id Hne) as (E1 & E2 & E3 & E4).
    assert (busy p' id = busy p id /\ before_call p' id = before_call p id /\
            before_erase p' id = before_erase p id) as (Eb1 & Eb2 & Eb3).
    { destruct Ep as [->|[H1 H2]]; [done|].
      destruct (at_most_other _ _ _ H1 Hne) as (-> & -> & ->).
      by destruct (at_most_other _ _ _ H2 Hne) as (-> & -> & ->). }
    eapply request_ok_frame; [by apply Ireq|exact E1|exact E2|exact E3|exact E4|
      |exact Eb1|exact Eb2|exact Eb3| |].
    + intros cb Hcb. destruct (Eout (callback_output cb)) as [?|(cb' & Hcb' & E & _)]; [done|].
      destruct Hne. by eapply Idist.
    + destruct Ep as [->|[_ [E|E]]]; [by left|right; by rewrite E|right; rewrite E; congruence].
    + intros r. by apply Erp.
  - intros id f cb Hif Hcb. destruct (Eout (callback_output cb)) as [->|(? & _ & _ & ?)]; eauto.
Qed.

Lemma live_id c p fs rp id :
  requests_inv (mkWorld c p fs rp) -> id ∈ live c ->
  exists f, fs !! id = Some f /\ request_ok c p id f (fun r => rp !! (id, r)).
Proof.
  intros I Hl. destruct (ri_live _ I id Hl) as [f Hf]. exists f. split; [done|].
  by apply (ri_request _ I).
Qed.

Lemma thread_id c p fs rp id :
  requests_inv (mkWorld c p fs rp) -> epc_id p = Some id ->
  exists f, fs !! id = Some f /\ request_ok c p id f (fun r => rp !! (id, r)).
Proof.
  intros I Hl. destruct (ri_thread _ I id Hl) as [f Hf]. exists f. split; [done|].
  by apply (ri_request _ I).
Qed.

Lemma ProcessSendDataResp_eq meta d c c' :
  ProcessSendDataResp meta (Some d) (zlen d) c = Ret tt c' ->
  c' = set_received (insert (request_id meta)
    (<[u32 (rank_id meta) := Some d]> (default ∅ (receive_messages_ c !! request_id meta)))) c.
Proof.
  unfold ProcessSendDataResp. intros E. step_inv. cbn [default from_option id] in *.
  match goal with E : exception_if_null _ _ = _ |- _ => injection E as <- end.
  remember (if zlen d >? 0
    then buf_memcpy_s (replicate (Z.to_nat (zlen d)) 0) 0 (zlen d) d 0 (zlen d)
    else Some (0, replicate (Z.to_nat (zlen d)) 0)) as copy eqn:Ecopy.
  destruct copy as [[ret l]|]; [|discriminate].
  destruct (Z.eqb_spec ret 0) as [->|]; cbn [negb] in *; [|discriminate]. step_inv.
  assert (l = d) as ->; [|destruct (receive_messages_ _ !! _); step_inv; done].
  pose proof (zlen_nonneg d). destruct (Z.gtb_spec (zlen d) 0).
  - destruct (Z.leb_spec (zlen d) SECUREC_MEM_MAX_LEN).
    + rewrite buf_copy_all in Ecopy by lia. congruence.
    + unfold buf_memcpy_s in Ecopy. destruct (Z.gtb_spec (zlen d) SECUREC_MEM_MAX_LEN); [|lia].
      rewrite orb_true_r in Ecopy. discriminate.
  - rewrite (zlen_0_nil d ltac:(lia)) in Ecopy |- *. by injection Ecopy.
Qed.

(** And it does store what the tables can hold. *)
Lemma ProcessSendDataResp_Ret meta d c :
  zlen d <= SECUREC_MEM_MAX_LEN ->
  ProcessSendDataResp meta (Some d) (zlen d) c =
  Ret tt (set_received (insert (request_id meta)
    (<[u32 (rank_id meta) := Some d]> (default ∅ (receive_messages_ c !! request_id meta)))) c).
Proof.
  intros Hd. unfold ProcessSendDataResp. rewrite bool_decide_eq_true_2 by done.
  rewrite (bind_Ret (exception_if_null true) _ c tt c eq_refl). cbn [default from_option id].
  assert ((if zlen d >? 0
      then buf_memcpy_s (replicate (Z.to_nat (zlen d)) 0) 0 (zlen d) d 0 (zlen d)
      else Some (0, replicate (Z.to_nat (zlen d)) 0)) = Some (0, d)) as ->.
  { pose proof (zlen_nonneg d). destruct (Z.gtb_spec (zlen d) 0).
    - by rewrite buf_copy_all by lia.
    - by rewrite (zlen_0_nil d) by lia. }
  rewrite (bind_Ret (mret tt) _ c tt c eq_refl), (bind_Ret getS _ c c c eq_refl).
  by destruct (receive_messages_ c !! request_id meta).
Qed.

(** ** The steps preserve the invariant *)
Lemma tracker_at_eq id c :
  let p := default (0, 0) (message_tracker_ c !! id) in
  tracker_at id c = Ret p (set_tracker (insert id p) c).
Proof.
  unfold tracker_at. rrun. destruct (message_tracker_ c !! id) as [p|] eqn:E; [|done].
  cbn. f_equal. destruct c; unfold set_tracker; rcbn. by rewrite insert_id.
Qed.

Lemma u32_count rep p id ranks :
  Z.of_nat (length ranks) < 2 ^ 32 -> busy p id = true ->
  0 < Z.of_nat (length (answered rep ranks)) ->
  u32 (nat_count rep p id ranks + 1) = Z.of_nat (length (answered rep ranks)).
Proof.
  intros Hb Hbusy Hpos. pose proof (answered_le rep ranks). unfold nat_count. rewrite Hbusy.
  rewrite uwrap_small; unfold in_u; lia.
Qed.

(** The callback, if there is one. *)
Definition with_callback {A} (f : MessageCallback -> A -> A) (cb : option MessageCallback) (x : A) : A :=
  match cb with None => x | Some cb => f cb x end.

Lemma Send_begin_eq n cb id c c' :
  in_u 32 n -> 0 <= next_request_id_ c -> next_request_id_ c + 1 < 2 ^ 64 ->
  Send_begin n cb (alloc_output cb c) = Ret id c' ->
  id = next_request_id_ c + 1 /\
  c' = mkRequests id (<[id := (n, 0)]> (message_tracker_ c)) (receive_messages_ c)
    (with_callback (insert id) cb (message_callbacks_ c)) ({[id]} ∪ live c)
    (with_callback (fun cb => insert (callback_output cb) []) cb (outs c)).
Proof.
  intros Hn H0 Hnext E.
  assert (next_request_id_ (alloc_output cb c) = next_request_id_ c) as En by by destruct cb.
  unfold Send_begin, AddMessageTrack in E. rrun. rewrite En in E.
  rewrite (uwrap_small 64), (uwrap_small 32) in E by (unfold in_u; lia || done).
  destruct cb; cbn in E; injection E as <- <-; done.
Qed.

Lemma request_ok_fresh c p id ranks cb rep :
  NoDup ranks -> Z.of_nat (length ranks) < 2 ^ 32 -> (forall r, rep r = None) ->
  busy p id = false -> epc_id p <> Some id ->
  (forall cb', cb = Some cb' -> callback_ranks cb' = ranks /\
     outs c !! callback_output cb' = Some []) ->
  message_tracker_ c !! id = Some (Z.of_nat (length ranks), 0) ->
  receive_messages_ c !! id = None -> id ∈ live c -> message_callbacks_ c !! id = cb ->
  request_ok c p id (mkFrame ranks cb) rep.
Proof.
  intros Hnd Hn Hrep Hb Hrun Hcb Ht Hr Hl Hc.
  assert (complete rep ranks = false) as Hcomp.
  { destruct ranks as [|r l]; [done|]. apply (complete_missing _ _ r); [constructor|done]. }
  split; cbn [f_ranks f_callback]; unfold nat_count; rewrite ?answered_none, ?Hb, ?Hcomp by done;
    try done.
  - intros r. rewrite Hrep. by intros [? ?].
  - intros cb' E. by apply Hcb.
  - intros cb' r _ _ _. rewrite Hr, Hrep. cbn. by rewrite lookup_empty.
  - intros cb' _ E. by apply Hcb.
  - intros cb' ->. by destruct Hrun.
  - intros ->. by destruct Hrun.
Qed.

Lemma with_callback_ne id new cb (m : gmap Z MessageCallback) :
  id <> new -> with_callback (insert new) cb m !! id = m !! id.
Proof. intros. destruct cb; cbn; [by rewrite lookup_insert_ne|done]. Qed.

Lemma with_callback_eq new cb (m : gmap Z MessageCallback) :
  m !! new = None -> with_callback (insert new) cb m !! new = cb.
Proof. intros. destruct cb; cbn; [by rewrite lookup_insert_eq|done]. Qed.

Lemma busy_epc p id : busy p id = true -> epc_id p = Some id.
Proof. destruct p; cbn; by intros ?%bool_decide_eq_true || done; subst. Qed.

Section send.
Context (ranks : list Z) (cb : option MessageCallback) (c : requests) (p : epc)
  (fs : gmap Z frame) (rp : gmap (Z * Z) (list Z)).
Context (Hnd : NoDup ranks) (Hn : Z.of_nat (length ranks) < 2 ^ 32) (Hcb : callback_ok ranks cb c)
  (Hinv : requests_inv (mkWorld c p fs rp)).
Let new := next_request_id_ c + 1.
Let c' := mkRequests new (<[new := (Z.of_nat (length ranks), 0)]> (message_tracker_ c))
  (receive_messages_ c) (with_callback (insert new) cb (message_callbacks_ c)) ({[new]} ∪ live c)
  (with_callback (fun cb => insert (callback_output cb) []) cb (outs c)).

Lemma send_old id : is_Some (fs !! id) -> id <> new.
Proof. intros Hs. apply (ri_frame _ Hinv) in Hs. wcbn. unfold new. lia. Qed.

Lemma send_outs id f cb' : fs !! id = Some f -> f_callback f = Some cb' ->
  outs c' !! callback_output cb' = outs c !! callback_output cb' /\
  forall cb0, cb = Some cb0 -> callback_output cb0 <> callback_output cb'.
Proof.
  intros Hf Hcb'. destruct (ri_outs _ Hinv _ _ _ Hf Hcb') as [l Hl]. unfold c'; wcbn; rcbn.
  destruct cb as [cb0|]; cbn; [|done]. destruct Hcb as [_ Hnone].
  assert (callback_output cb0 <> callback_output cb') as Hne by congruence.
  split; [by rewrite lookup_insert_ne|]. by intros ? [= <-].
Qed.

Lemma send_new_ok : request_ok c' p new (mkFrame ranks cb) (fun r => rp !! (new, r)).
Proof.
  pose proof Hinv as [In Ifr Il Ircv Icb Irp Ith Ireq Iout Idist]; wcbn.
  apply request_ok_fresh; unfold c'; rcbn; try done.
  - intros r. apply eq_None_not_Some. by intros ?%Irp%send_old.
  - apply not_true_is_false. intros E%busy_epc. by apply (send_old new); [apply Ith|].
  - intros E. by apply (send_old new); [apply Ith|].
  - intros cb' E. pose proof Hcb as H. rewrite E in *. destruct H as [? _]. cbn.
    by rewrite lookup_insert_eq.
  - by rewrite lookup_insert_eq.
  - apply eq_None_not_Some. by intros ?%Ircv%send_old.
  - apply elem_of_union_l. by apply elem_of_singleton.
  - apply with_callback_eq, eq_None_not_Some. by intros ?%Icb%send_old.
Qed.

Lemma send_old_ok id f : fs !! id = Some f -> request_ok c' p id f (fun r => rp !! (id, r)).
Proof.
  intros Hf. pose proof (send_old id ltac:(eauto)) as Hne.
  eapply request_ok_frame; [by apply (ri_request _ Hinv)|..]; unfold c'; wcbn; rcbn; try done.
  - by rewrite lookup_insert_ne.
  - by apply with_callback_ne.
  - rewrite elem_of_union, elem_of_singleton. split; [by intros [?|?]|by right].
  - intros cb' Hcb'. by eapply send_outs.
  - by left.
Qed.

Lemma inv_send : requests_inv (mkWorld c' p (<[new := mkFrame ranks cb]> fs) rp).
Proof.
  pose proof Hinv as [In Ifr Il Ircv Icb Irp Ith Ireq Iout Idist]; wcbn.
  assert (forall id', is_Some (fs !! id') -> is_Some (<[new := mkFrame ranks cb]> fs !! id')) as Hup.
  { intros id' Hs. rewrite lookup_insert_ne; [done|]. intros <-. by apply send_old in Hs. }
  assert (is_Some (<[new := mkFrame ranks cb]> fs !! new)) as Hnew.
  { rewrite lookup_insert_eq. by eexists. }
  split; wcbn.
  - rewrite map_size_insert_None; [unfold c', new; rcbn; lia|].
    apply eq_None_not_Some. by intros ?%send_old.
  - intros id. destruct (decide (id = new)) as [->|Hne]; [unfold c', new; rcbn; lia|].
    rewrite lookup_insert_ne by done. intros Hs%Ifr. unfold c', new; rcbn; lia.
  - intros id [->%elem_of_singleton|Hl]%elem_of_union; [done|by apply Hup, Il].
  - intros id Hs. by apply Hup, Ircv.
  - intros id. destruct (decide (id = new)) as [->|Hne]; [done|]. unfold c'; rcbn.
    rewrite with_callback_ne by done. intros Hs. by apply Hup, Icb.
  - intros id r Hs. by eapply Hup, Irp.
  - intros id Hs. by apply Hup, Ith.
  - intros id f. destruct (decide (id = new)) as [->|Hne].
    + rewrite lookup_insert_eq. intros [= <-]. apply send_new_ok.
    + rewrite lookup_insert_ne by done. apply send_old_ok.
  - intros id f cb'. destruct (decide (id = new)) as [->|Hne].
    + rewrite lookup_insert_eq. intros [= <-] [= E]. unfold c'; rcbn. rewrite E. cbn.
      rewrite lookup_insert_eq. by eexists.
    + rewrite lookup_insert_ne by done. intros Hf Hcb'. destruct (send_outs _ _ _ Hf Hcb') as [-> _].
      by eapply Iout.
  - intros id id' f f' cb1 cb2.
    destruct (decide (id = new)) as [->|Hne], (decide (id' = new)) as [->|Hne'];
      rewrite ?lookup_insert_eq, ?lookup_insert_ne by done; [done|..|by apply Idist].
    + intros [= <-] Hf' Hcb1 Hcb' E. by destruct (proj2 (send_outs _ _ _ Hf' Hcb') cb1).
    + intros Hf [= <-] Hcb' Hcb2 E. by destruct (proj2 (send_outs _ _ _ Hf Hcb') cb2).
Qed.
End send.

Lemma elsewhere (c : requests) : forall id id0 : Z, id <> id0 ->
  message_tracker_ c !! id = message_tracker_ c !! id /\
  receive_messages_ c !! id = receive_messages_ c !! id /\
  message_callbacks_ c !! id = message_callbacks_ c !! id /\ (id ∈ live c <-> id ∈ live c).
Proof. done. Qed.

(** The request of the step itself, after a response has been stored. *)
Lemma response_ok c id f rep rep' r d :
  request_ok c EIdle id f rep -> r ∈ f_ranks f -> rep r = None ->
  (forall r', rep' r' = if decide (r' = r) then Some d else rep r') ->
  request_ok (set_received (insert id (<[r := Some d]> (default ∅ (receive_messages_ c !! id)))) c)
    (AtCheck id) id f rep'.
Proof.
  intros Hok Hr Hnone Erep.
  assert (length (answered rep' (f_ranks f)) = S (length (answered rep (f_ranks f)))) as El.
  { apply (answered_insert _ _ _ r); [apply Hok|done..| |].
    - rewrite Erep, decide_True by done. by eexists.
    - intros r' ?. by rewrite Erep, decide_False. }
  pose proof (complete_missing rep (f_ranks f) r Hr Hnone) as Hc.
  destruct Hok. unfold nat_count in *.
  split; unfold nat_count; rcbn; rewrite ?El; cbn [busy before_call before_erase] in *;
    rewrite ?bool_decide_eq_true_2, ?andb_false_r by done; try done.
  - intros r' [d' Hd]. rewrite Erep in Hd. case_decide; [by subst|]. eauto.
  - intros Hl. rewrite ro_tracker0 by done. do 2 f_equal. lia.
  - intros Hl. destruct (ro_dead0 Hl) as [?|(m & ? & ?)]; [by left|right]. exists m. split; [done|lia].
  - intros cb r' Hl Hcb _. rewrite lookup_insert_eq. cbn. rewrite Erep.
    case_decide; [subst; by rewrite lookup_insert_eq|]. rewrite lookup_insert_ne by done.
    eapply ro_received0; [done..|]. by rewrite Hc.
  - intros Hl. rewrite ro_callback0 by done. by rewrite Hc.
  - intros cb Hl Hcb. rewrite (ro_outs0 cb) by done. by rewrite Hc.
Qed.

Lemma inv_response id f r d meta c c' fs rp :
  fs !! id = Some f -> r ∈ f_ranks f -> rp !! (id, r) = None ->
  request_id meta = id -> u32 (rank_id meta) = r ->
  requests_inv (mkWorld c EIdle fs rp) ->
  ProcessSendDataResp meta (Some d) (zlen d) c = Ret tt c' ->
  requests_inv (mkWorld c' (AtCheck id) fs (<[(id, r) := d]> rp)).
Proof.
  intros Hf Hr Hnone <- <- Hinv ->%ProcessSendDataResp_eq.
  eapply inv_local; [exact Hinv|exact Hf|done| | | | |].
  - intros id Hne. rcbn. by rewrite lookup_insert_ne.
  - by left.
  - right. split; [by left|by right].
  - intros id r' Hne. rewrite lookup_insert_ne; [done|]. by intros [= <- _].
  - eapply response_ok; [by apply (ri_request _ Hinv)|done|done|]. intros r'.
    case_decide; [subst; by rewrite lookup_insert_eq|]. rewrite lookup_insert_ne; [done|]. congruence.
Qed.

(** Reading the tracker may insert <0, 0>, but not for a live request. *)
Lemma request_ok_touch c p id f rep :
  request_ok c p id f rep -> 0 <= nat_count rep p id (f_ranks f) ->
  request_ok (set_tracker (insert id (default (0, 0) (message_tracker_ c !! id))) c) p id f rep.
Proof.
  intros [] Hc. split; rcbn; try done; intros; rewrite lookup_insert_eq; cbn.
  - by rewrite ro_tracker0.
  - right. destruct ro_dead0 as [->|(m & -> & ?)]; [done|cbn; by exists 0|cbn; by exists m].
Qed.

(** The event thread moves on in the handling of a response. *)
Lemma request_ok_move c p p' id f rep :
  request_ok c p id f rep -> busy p' id = busy p id ->
  (forall cb, p' = AtRun id cb -> f_callback f = Some cb /\ complete rep (f_ranks f) = true) ->
  p' <> AtDrop id ->
  (id ∈ live c -> is_Some (f_callback f) -> complete rep (f_ranks f) = true ->
   before_call p' id = before_call p id /\ before_erase p' id = before_erase p id) ->
  request_ok c p' id f rep.
Proof.
  intros [] Eb Erun Edrop Epc. split; unfold nat_count in *; rewrite ?Eb; try done.
  - intros cb r Hl Hcb Hf. eapply ro_received0; [done..|].
    destruct (complete rep (f_ranks f)); [|done]. by destruct Epc as [<- _].
  - intros Hl. rewrite ro_callback0 by done. destruct (complete rep (f_ranks f)); [|done].
    destruct (f_callback f) eqn:Hcb; [|by repeat case_match]. by destruct Epc as [_ ->].
  - intros cb Hl Hcb. rewrite (ro_outs0 cb) by done. destruct (complete rep (f_ranks f)); [|done].
    by destruct Epc as [-> _].
Qed.

(** What the check says of a request that is being answered. *)
Lemma check_complete c id f rep :
  request_ok c (AtCheck id) id f rep ->
  let q := default (0, 0) (message_tracker_ c !! id) in
  (q.1 =? u32 (q.2 + 1)) = bool_decide (id ∈ live c) && complete rep (f_ranks f).
Proof.
  intros Hok. pose proof (u32_count rep (AtCheck id) id (f_ranks f) (ro_bound _ _ _ _ _ Hok)) as Hu.
  cbn [busy] in Hu. rewrite bool_decide_eq_true_2 in Hu by done.
  destruct Hok. cbn [busy] in *. rewrite bool_decide_eq_true_2 in * by done.
  specialize (ro_busy0 eq_refl). specialize (Hu eq_refl ro_busy0).
  pose proof (answered_le rep (f_ranks f)). cbv zeta. case_bool_decide as Hl.
  - rewrite ro_tracker0 by done. cbn [default from_option Datatypes.id fst snd]. rewrite Hu. unfold complete. cbn.
    rewrite bool_decide_eq_true_2; [|intros E; rewrite E in *; cbn in *; lia].
    cbn. case_bool_decide; lia.
  - cbn. apply Z.eqb_neq.
    destruct ro_dead0 as [->|(m & -> & ?)]; [done|by cbn|cbn [default from_option Datatypes.id fst snd]].
    unfold nat_count in *. cbn [busy] in *. rewrite bool_decide_eq_true_2 in * by done.
    rewrite uwrap_small by (unfold in_u; lia). lia.
Qed.

Lemma count_nonneg c p id f rep :
  request_ok c p id f rep -> 0 <= nat_count rep p id (f_ranks f).
Proof. intros []. unfold nat_count. destruct (busy p id); lia. Qed.

Lemma inv_check id c p c' fs rp :
  requests_inv (mkWorld c (AtCheck id) fs rp) ->
  RunMessageCallback_check id c = Ret p c' -> requests_inv (mkWorld c' p fs rp).
Proof.
  intros Hinv E. destruct (thread_id _ _ _ _ id Hinv eq_refl) as (f & Hf & Hok).
  unfold RunMessageCallback_check, CheckMessageTrack in E. rrun. rewrite tracker_at_eq in E.
  rcbn. rewrite (check_complete _ _ _ _ Hok) in E. injection E as <- <-.
  match goal with |- requests_inv (mkWorld _ ?q _ _) => set (p' := q) end.
  assert (at_most p' id /\ busy p' id = true) as [Hp Hb].
  { split; [right|]; subst p'; repeat case_match; cbn; by rewrite ?bool_decide_eq_true_2. }
  eapply inv_local; [exact Hinv|exact Hf|done| | | |done|].
  - intros id' Hne. rcbn. by rewrite lookup_insert_ne.
  - by left.
  - right. split; [by right|done].
  - assert (id ∈ live c -> complete (fun r => rp !! (id, r)) (f_ranks f) = true ->
            message_callbacks_ c !! id = f_callback f) as Hcb.
    { intros Hl Hc. rewrite (ro_callback _ _ _ _ _ Hok) by done. cbn.
      by rewrite bool_decide_eq_true_2, andb_false_r by done. }
    apply request_ok_move with (AtCheck id).
    + apply request_ok_touch; [done|by eapply count_nonneg].
    + rewrite Hb. cbn. by rewrite bool_decide_eq_true_2.
    + subst p'. intros cb. case_bool_decide; cbn [andb]; [|done].
      destruct (complete _ _); [|done]. rewrite Hcb by done. destruct (f_callback f); [|done].
      by intros [= ->].
    + subst p'. repeat case_match; done.
    + rcbn. intros Hl [cb Hs] Hc. subst p'. rewrite bool_decide_eq_true_2, Hc, Hcb, Hs by done. done.
Qed.

(** The callback writes the responses, in the order of the ranks. *)
Lemma run_callback_eq c id f rep cb c' :
  request_ok c (AtRun id cb) id f rep -> run_callback id cb c = Ret tt c' ->
  id ∈ live c /\
  c' = set_received (delete id) (set_outs (insert (callback_output cb) (rep <$> f_ranks f)) c).
Proof.
  intros Hok E. unfold run_callback in E. rrun. case_bool_decide as Hl; [|discriminate].
  split; [done|]. injection E as <-.
  destruct (ro_run _ _ _ _ _ Hok cb eq_refl) as [Hcb Hc].
  pose proof (ro_received _ _ _ _ _ Hok cb) as Hrcv. pose proof (ro_outs _ _ _ _ _ Hok cb Hl Hcb) as Ho.
  cbn in Hrcv, Ho. rewrite bool_decide_eq_true_2, andb_false_r in Hrcv, Ho by done.
  rewrite <- (ro_ranks_of _ _ _ _ _ Hok cb Hcb).
  assert (forall r, res_at (default ∅ (receive_messages_ c !! id)) r = rep r) as Hres.
  { intros r. unfold res_at. rewrite Hrcv by done. by destruct (rep r). }
  unfold set_received, set_outs. rcbn. f_equal. destruct cb as [r o|rs o]; cbn in *.
  - by rewrite Hres.
  - apply map_eq. intros o'. destruct (decide (o' = o)) as [->|Hne].
    + rewrite lookup_alter_eq, lookup_insert_eq, Ho. cbn. f_equal. by apply list_fmap_ext.
    + by rewrite lookup_alter_ne, lookup_insert_ne.
Qed.

Lemma inv_run id cb c p c' fs rp :
  requests_inv (mkWorld c (AtRun id cb) fs rp) ->
  RunMessageCallback_call id cb c = Ret p c' -> requests_inv (mkWorld c' p fs rp).
Proof.
  intros Hinv E. destruct (thread_id _ _ _ _ id Hinv eq_refl) as (f & Hf & Hok).
  unfold RunMessageCallback_call in E. step_inv.
  match goal with E : run_callback _ _ _ = _ |- _ =>
    destruct (run_callback_eq _ _ _ _ _ _ Hok E) as [Hl ->] end.
  destruct (ro_run _ _ _ _ _ Hok cb eq_refl) as [Hcb Hc].
  eapply inv_local; [exact Hinv|exact Hf|done| | | |done|].
  - intros id' Hne. rcbn. by rewrite lookup_delete_ne.
  - intros o. rcbn. destruct (decide (o = callback_output cb)) as [->|Hne].
    + right. exists cb. rewrite lookup_insert_eq. by repeat split.
    + left. by rewrite lookup_insert_ne.
  - right. split; by right.
  - destruct Hok. split; rcbn; try done.
    + intros cb' r _ _. rewrite Hc. done.
    + intros cb' _ Hcb'. rewrite Hcb in Hcb'. injection Hcb' as <-. rewrite Hc.
      by rewrite lookup_insert_eq.
Qed.

Lemma inv_drop id c p c' fs rp :
  requests_inv (mkWorld c (AtDrop id) fs rp) ->
  RunMessageCallback_erase id c = Ret p c' -> requests_inv (mkWorld c' p fs rp).
Proof.
  intros Hinv E. destruct (thread_id _ _ _ _ id Hinv eq_refl) as (f & Hf & Hok).
  injection E as <- <-.
  eapply inv_local; [exact Hinv|exact Hf|done| | | |done|].
  - intros id' Hne. rcbn. by rewrite lookup_delete_ne.
  - by left.
  - right. split; by right.
  - destruct Hok. split; rcbn; try done.
    intros Hl. by rewrite lookup_delete_eq, ro_drop0.
Qed.

Lemma inv_notify id c c' fs rp :
  requests_inv (mkWorld c (AtNotify id) fs rp) ->
  NotifyMessageArrival id c = Ret tt c' -> requests_inv (mkWorld c' EIdle fs rp).
Proof.
  intros Hinv E. destruct (thread_id _ _ _ _ id Hinv eq_refl) as (f & Hf & Hok).
  unfold NotifyMessageArrival in E. rewrite (bind_Ret _ _ _ _ _ (tracker_at_eq id c)) in E.
  injection E as <-.
  eapply inv_local; [exact Hinv|exact Hf|done| | | |done|].
  - intros id' Hne. rcbn. by rewrite !lookup_insert_ne.
  - by left.
  - right. split; [by right|by left].
  - pose proof (u32_count (fun r => rp !! (id, r)) (AtNotify id) id (f_ranks f)) as Hu.
    destruct Hok. cbn [busy before_call before_erase] in *.
    rewrite bool_decide_eq_true_2 in * by done.
    specialize (ro_busy0 eq_refl). pose proof (answered_le (fun r => rp !! (id, r)) (f_ranks f)).
    split; rcbn; try done; rewrite lookup_insert_eq.
    + intros Hl. rewrite ro_tracker0 by done. cbn [default from_option Datatypes.id fst snd].
      rewrite Hu by done. do 2 f_equal. unfold nat_count. cbn. lia.
    + intros Hl. right. unfold nat_count in *. cbn [busy] in *.
      rewrite bool_decide_eq_true_2 in * by done.
      destruct (ro_dead0 Hl) as [->|(m & -> & ?)]; cbn [default from_option Datatypes.id fst snd].
      * exists 1. split; [done|lia].
      * exists (m + 1). rewrite uwrap_small by (unfold in_u; lia). split; [done|lia].
Qed.

Lemma inv_wait id expired res c p c' fs rp :
  id ∈ live c -> requests_inv (mkWorld c p fs rp) ->
  Wait_wake id expired c = Ret res c' -> requests_inv (mkWorld c' p fs rp).
Proof.
  intros Hl Hinv E. destruct (live_id _ _ _ _ id Hinv Hl) as (f & Hf & Hok).
  unfold Wait_wake, Wait_poll in E. rrun. rewrite tracker_at_eq in E.
  eapply inv_local with (rp := rp); [exact Hinv|exact Hf| | | |by left|done|]; destruct (_ || _);
    injection E as <- <-; rcbn; try done.
  - intros id' Hne. rewrite lookup_delete_ne, lookup_insert_ne by done.
    rewrite elem_of_difference, elem_of_singleton. by repeat split; try tauto.
  - intros id' Hne. by rewrite lookup_insert_ne.
  - by left.
  - by left.
  - assert (id ∉ live c ∖ {[id]}) by (rewrite elem_of_difference, elem_of_singleton; tauto).
    destruct Hok. split; rcbn; try done. left. by rewrite lookup_delete_eq.
  - apply request_ok_touch; [done|by eapply count_nonneg].
Qed.

(** ** Properties *)
Definition few (w : world) : Prop := Z.of_nat (size (frames w)) < 2 ^ 64 - 1.

Lemma requests_inv_init : requests_inv world_init.
Proof.
  split; cbn; try done; intros; repeat match goal with
    | H : is_Some (∅ !! _) |- _ => rewrite lookup_empty in H; by destruct H
    | H : ∅ !! _ = Some _ |- _ => by rewrite lookup_empty in H
    | H : _ ∈ ∅ |- _ => by apply not_elem_of_empty in H
    end.
Qed.

Lemma request_step_inv w w' : requests_inv w -> few w' -> request_step w w' -> requests_inv w'.
Proof.
  intros Hinv Hf Hst. revert Hinv Hf. destruct Hst; intros Hinv Hf.
  - unfold few in Hf. wcbn. pose proof (ri_next _ Hinv) as Hn. wcbn. rewrite map_size_insert in Hf.
    assert (next_request_id_ c + 1 < 2 ^ 64) by (destruct (fs !! id); cbn in Hf; lia).
    match goal with E : Send_begin _ _ _ = _ |- _ =>
      apply Send_begin_eq in E as [-> ->]; [|unfold in_u; lia..] end.
    by apply inv_send.
  - by eapply inv_response.
  - by eapply inv_check.
  - by eapply inv_run.
  - by eapply inv_drop.
  - by eapply inv_notify.
  - by eapply inv_wait.
Qed.

Lemma request_step_few w w' : request_step w w' -> few w' -> few w.
Proof.
  intros Hst. destruct Hst; unfold few; wcbn; try done. rewrite map_size_insert.
  destruct (fs !! id); cbn; lia.
Qed.

Lemma requests_reachable_inv w : rtc request_step world_init w -> few w -> requests_inv w.
Proof.
  intros Hr. revert Hr. apply (rtc_ind_r (fun w => few w -> requests_inv w)).
  - intros _. apply requests_inv_init.
  - intros w1 w2 _ Hst IH Hf. eapply request_step_inv; [|done|done]. apply IH.
    by eapply request_step_few.
Qed.

Lemma answered_all rep ranks :
  (forall r, r ∈ ranks -> is_Some (rep r)) -> answered rep ranks = ranks.
Proof.
  unfold answered. induction ranks as [|r l IH]; [done|]. intros H.
  rewrite filter_cons, decide_True by (apply H; constructor). f_equal. apply IH.
  intros r' Hr'. apply H. by constructor.
Qed.

(** C4: Send to ranks that are all different returns true exactly when every rank it
    sent to has answered, and its output then holds the answers in the order of the ranks.  However sends,
    responses, timeouts and the steps of the event thread interleave, while a
    Send is waiting: the condition of its Wait holds only if all ranks have
    answered and the output vector holds their answers, and it does hold once
    all have answered and the event thread is idle. *)
Theorem wait_outputs w id f :
  rtc request_step world_init w -> few w ->
  frames w !! id = Some f -> id ∈ live (tables w) ->
  (forall c', Wait_poll id (tables w) = Ret true c' ->
     (forall r, r ∈ f_ranks f -> is_Some (replies w !! (id, r))) /\
     forall cb, f_callback f = Some cb -> outs (tables w) !! callback_output cb =
       Some ((fun r => replies w !! (id, r)) <$> f_ranks f)) /\
  (ethread w = EIdle -> (forall r, r ∈ f_ranks f -> is_Some (replies w !! (id, r))) ->
     exists c', Wait_poll id (tables w) = Ret true c').
Proof.
  intros Hr Hfew Hf Hl. apply requests_reachable_inv in Hr; [|done].
  destruct (ri_request _ Hr _ _ Hf).
  unfold Wait_poll. rewrite (bind_Ret _ _ _ _ _ (tracker_at_eq id (tables w))), ro_tracker0 by done.
  unfold mret, M_ret. cbn [default from_option Datatypes.id fst snd]. split.
  - intros c' [= E%Z.eqb_eq _]. unfold nat_count in E.
    pose proof (answered_le (fun r => replies w !! (id, r)) (f_ranks f)).
    destruct (busy (ethread w) id) eqn:Hb; [lia|].
    assert (forall r, r ∈ f_ranks f -> complete (fun r => replies w !! (id, r)) (f_ranks f) = true)
      as Hc.
    { intros r Hr'. unfold complete. rewrite !bool_decide_eq_true_2; [done|lia|].
      intros E'. rewrite E' in Hr'. by apply not_elem_of_nil in Hr'. }
    split.
    { intros r Hr'. apply (complete_reply (fun r => replies w !! (id, r)) (f_ranks f)); eauto. }
    intros cb Hcb. rewrite (ro_outs0 cb) by done. f_equal. destruct (f_ranks f) as [|r l] eqn:E'.
    { by case_match. }
    rewrite (Hc r) by constructor. rewrite before_call_busy; done.
  - intros Hidle Hall. eexists. f_equal. unfold nat_count.
    rewrite Hidle, (answered_all _ _ Hall). apply Z.eqb_eq. cbn. lia.
Qed.

(** Two ranks answer a Send in the other order. *)
Definition example_meta (r : Z) : MessageMeta := mkMessageMeta SEND_DATA 1 SERVER r 0.
Definition example_cb : MessageCallback := TakeAll [0; 1] 5.
Definition example_frame : frame := mkFrame [0; 1] (Some example_cb).
Definition example_frames : gmap Z frame := {[1 := example_frame]}.

Definition state_after {A} (m : M requests A) (c : requests) : requests :=
  match m c with Ret _ c' => c' | _ => c end.

Definition ex1 : requests := Eval vm_compute in
  state_after (Send_begin 2 (Some example_cb)) (alloc_output (Some example_cb) requests_init).
Definition ex2 : requests := Eval vm_compute in
  state_after (ProcessSendDataResp (example_meta 1) (Some [9]) 1) ex1.
Definition ex3 : requests := Eval vm_compute in state_after (RunMessageCallback_check 1) ex2.
Definition ex4 : requests := Eval vm_compute in state_after (NotifyMessageArrival 1) ex3.
Definition ex5 : requests := Eval vm_compute in
  state_after (ProcessSendDataResp (example_meta 0) (Some [7; 8]) 2) ex4.
Definition ex6 : requests := Eval vm_compute in state_after (RunMessageCallback_check 1) ex5.
Definition ex7 : requests := Eval vm_compute in
  state_after (RunMessageCallback_call 1 example_cb) ex6.
Definition ex8 : requests := Eval vm_compute in state_after (RunMessageCallback_erase 1) ex7.
Definition ex9 : requests := Eval vm_compute in state_after (NotifyMessageArrival 1) ex8.

Definition reply1 : gmap (Z * Z) (list Z) := <[(1, 1) := [9]]> ∅.
Definition reply2 : gmap (Z * Z) (list Z) := <[(1, 0) := [7; 8]]> reply1.
Definition example_world : world := mkWorld ex9 EIdle example_frames reply2.

Lemma example_send : request_step world_init (mkWorld ex1 EIdle example_frames ∅).
Proof.
  apply (rs_send [0; 1] (Some example_cb) 1 requests_init ex1 EIdle ∅ ∅).
  - apply (bool_decide_unpack _). vm_compute. exact I.
  - vm_compute. reflexivity.
  - split; reflexivity.
  - vm_compute. reflexivity.
Qed.

Lemma example_response r d c c' rp :
  r = 0 \/ r = 1 -> rp !! (1, r) = None ->
  ProcessSendDataResp (example_meta r) (Some d) (zlen d) c = Ret tt c' ->
  request_step (mkWorld c EIdle example_frames rp)
    (mkWorld c' (AtCheck 1) example_frames (<[(1, r) := d]> rp)).
Proof.
  intros Hr Hnone E. apply (rs_response 1 example_frame r d (example_meta r)); try done.
  - destruct Hr as [->| ->]; [left|right; left].
  - by destruct Hr as [->| ->].
Qed.

(** Up to where the event thread is about to call the callback. *)
Lemma example_mid :
  rtc request_step world_init (mkWorld ex6 (AtRun 1 example_cb) example_frames reply2).
Proof.
  eapply rtc_l; [exact example_send|].
  eapply rtc_l; [apply (example_response 1 [9] ex1 ex2); [by right|done|vm_compute; reflexivity]|].
  eapply rtc_l; [apply (rs_check 1 ex2 (AtNotify 1) ex3); vm_compute; reflexivity|].
  eapply rtc_l; [apply (rs_notify 1 ex3 ex4); vm_compute; reflexivity|].
  eapply rtc_l; [apply (example_response 0 [7; 8] ex4 ex5); [by left|done|vm_compute; reflexivity]|].
  apply rtc_once, (rs_check 1 ex5 (AtRun 1 example_cb) ex6). vm_compute. reflexivity.
Qed.

Lemma example_requests_run : rtc request_step world_init example_world.
Proof.
  etrans; [exact example_mid|].
  eapply rtc_l; [apply (rs_run 1 example_cb ex6 (AtDrop 1) ex7); vm_compute; reflexivity|].
  eapply rtc_l; [apply (rs_drop 1 ex7 (AtNotify 1) ex8); vm_compute; reflexivity|].
  apply rtc_once, (rs_notify 1 ex8 ex9). vm_compute. reflexivity.
Qed.

Lemma wait_outputs_witness :
  exists c', Wait_poll 1 (tables example_world) = Ret true c' /\
    outs (tables example_world) !! 5 = Some [Some [7; 8]; Some [9]].
Proof.
  destruct (wait_outputs example_world 1 example_frame example_requests_run) as [H1 H2].
  - vm_compute. reflexivity.
  - reflexivity.
  - apply (bool_decide_unpack _). vm_compute. exact I.
  - destruct H2 as [c' Hc'].
    + reflexivity.
    + intros r [->|[->|[]%elem_of_nil]%elem_of_cons]%elem_of_cons; vm_compute; eexists; reflexivity.
    + exists c'. split; [exact Hc'|]. exact (proj2 (H1 c' Hc') example_cb eq_refl).
Defined.

(** A response that arrives after its Send has returned does not run the
    callback, whose references to the locals of Send are no longer valid. *)
Theorem late_response_ignored w id :
  rtc request_step world_init w -> few w -> ethread w = AtCheck id -> id ∉ live (tables w) ->
  exists c', RunMessageCallback_check id (tables w) = Ret (AtNotify id) c'.
Proof.
  intros Hr Hfew Ht Hl. apply requests_reachable_inv in Hr; [|done].
  destruct (ri_thread _ Hr id) as [f Hf]; [by rewrite Ht|].
  pose proof (ri_request _ Hr _ _ Hf) as Hok. rewrite Ht in Hok.
  unfold RunMessageCallback_check, CheckMessageTrack. rrun. rewrite tracker_at_eq. rcbn.
  rewrite (check_complete _ _ _ _ Hok), bool_decide_eq_false_2 by done. by eexists.
Qed.

(** The first rank answers after the timeout. *)
Definition late1 : requests := Eval vm_compute in state_after (Wait_wake 1 true) ex1.
Definition late2 : requests := Eval vm_compute in
  state_after (ProcessSendDataResp (example_meta 1) (Some [9]) 1) late1.
Definition late_world : world := mkWorld late2 (AtCheck 1) example_frames reply1.

Lemma example_timeout c c' p rp :
  bool_decide (1 ∈ live c) = true -> Wait_wake 1 true c = Ret (Some false) c' ->
  request_step (mkWorld c p example_frames rp) (mkWorld c' p example_frames rp).
Proof. intros Hl%bool_decide_eq_true E. by eapply rs_wait. Qed.

Lemma late_run : rtc request_step world_init late_world.
Proof.
  eapply rtc_l; [exact example_send|].
  eapply rtc_l; [apply (example_timeout ex1 late1); vm_compute; reflexivity|].
  apply rtc_once, (example_response 1 [9] late1 late2); [by right|done|vm_compute; reflexivity].
Qed.

Lemma late_response_ignored_witness :
  exists c', RunMessageCallback_check 1 (tables late_world) = Ret (AtNotify 1) c'.
Proof.
  apply (late_response_ignored late_world 1 late_run).
  - vm_compute. reflexivity.
  - reflexivity.
  - apply (bool_decide_unpack _). vm_compute. exact I.
Defined.

(** C38: the callback is called after the mutex has been released.  If Wait times
    out in between, Send returns and the callback then writes through
    references to locals that are gone. *)
Theorem timeout_during_callback_dangles :
  exists w, rtc request_step world_init w /\ ethread w = AtRun 1 example_cb /\
    RunMessageCallback_call 1 example_cb (tables w) = Undef "the captured locals are gone".
Proof.
  exists (mkWorld (state_after (Wait_wake 1 true) ex6) (AtRun 1 example_cb) example_frames reply2).
  split; [|split; [reflexivity|vm_compute; reflexivity]].
  eapply rtc_r; [exact example_mid|]. apply (example_timeout ex6); vm_compute; reflexivity.
Qed.
