(* ===== verification/AbstractNode.v ===== *)
(** * Nodes of the cluster

    src/even-http/ps/core/abstract_node.{h,cc} (what servers and workers share)
    with node.{h,cc}: registration, heartbeats, fetching the servers'
    addresses, sending to other nodes.  The tables of requests and of
    collective messages are those of Requests.v and Collective.v.

    A method that waits on a condition variable returns what it waits for and
    what it does next ([blocking]), so that the steps of the other threads can
    come in between.  Sending a message is recorded in [outbox]; its bytes are
    what TcpClient::SendMessage of Sending.v puts on the wire. *)
From S2P Require Import Prelude Convert Messages Config Requests Collective.

(** A TcpClient, as the address it was made for. *)
Definition client : Type := string * Z.

Record outgoing : Type := mkOutgoing {
  out_client : client;
  out_meta : MessageMeta;
  out_protos : Protos;
  out_data : list Z;
}.

(** The methods [handlers_] points to. *)
Inductive NodeHandler : Set :=
| H_ProcessHeartbeatResp | H_ProcessRegisterResp | H_ProcessFetchServersResp.

(** [events] are the calls of [on_node_event_message_], which is whether one is
    set; [rq] and [col] are the tables of requests and of collective messages. *)
Record AbstractNode : Type := mkNode {
  node_info_ : NodeInfo;
  is_ready_ : bool;
  is_finish_ : bool;
  is_timeout_ : bool;
  is_already_stopped_ : bool;
  is_already_finished_ : bool;
  client_to_scheduler_ : option client;
  on_node_event_message_ : bool;
  events : list NodeEvent;
  nodes_address_ : gmap (NodeRole * Z) (string * Z);
  connected_nodes_ : gmap Z client; (* int *)
  handlers_ : gmap NodeCommand (option NodeHandler);
  scheduler_time_ : Z; (* seconds *)
  rq : requests;
  col : collective;
  outbox : list outgoing;
}.

Definition AbstractNode_init : AbstractNode :=
  mkNode NodeInfo_default false false false true false None false [] ∅ ∅ ∅ 0 requests_init
    collective_init [].

Definition set_info (f : NodeInfo -> NodeInfo) (n : AbstractNode) : AbstractNode :=
  mkNode (f (node_info_ n)) (is_ready_ n) (is_finish_ n) (is_timeout_ n) (is_already_stopped_ n)
    (is_already_finished_ n) (client_to_scheduler_ n) (on_node_event_message_ n) (events n)
    (nodes_address_ n) (connected_nodes_ n) (handlers_ n) (scheduler_time_ n) (rq n) (col n)
    (outbox n).
Definition set_ready (x : bool) (n : AbstractNode) : AbstractNode :=
  mkNode (node_info_ n) x (is_finish_ n) (is_timeout_ n) (is_already_stopped_ n)
    (is_already_finished_ n) (client_to_scheduler_ n) (on_node_event_message_ n) (events n)
    (nodes_address_ n) (connected_nodes_ n) (handlers_ n) (scheduler_time_ n) (rq n) (col n)
    (outbox n).
Definition set_finish (x : bool) (n : AbstractNode) : AbstractNode :=
  mkNode (node_info_ n) (is_ready_ n) x (is_timeout_ n) (is_already_stopped_ n)
    (is_already_finished_ n) (client_to_scheduler_ n) (on_node_event_message_ n) (events n)
    (nodes_address_ n) (connected_nodes_ n) (handlers_ n) (scheduler_time_ n) (rq n) (col n)
    (outbox n).
Definition set_timeout (x : bool) (n : AbstractNode) : AbstractNode :=
  mkNode (node_info_ n) (is_ready_ n) (is_finish_ n) x (is_already_stopped_ n)
    (is_already_finished_ n) (client_to_scheduler_ n) (on_node_event_message_ n) (events n)
    (nodes_address_ n) (connected_nodes_ n) (handlers_ n) (scheduler_time_ n) (rq n) (col n)
    (outbox n).
Definition set_stopped (x : bool) (n : AbstractNode) : AbstractNode :=
  mkNode (node_info_ n) (is_ready_ n) (is_finish_ n) (is_timeout_ n) x (is_already_finished_ n)
    (client_to_scheduler_ n) (on_node_event_message_ n) (events n) (nodes_address_ n)
    (connected_nodes_ n) (handlers_ n) (scheduler_time_ n) (rq n) (col n) (outbox n).
Definition set_finished (x : bool) (n : AbstractNode) : AbstractNode :=
  mkNode (node_info_ n) (is_ready_ n) (is_finish_ n) (is_timeout_ n) (is_already_stopped_ n) x
    (client_to_scheduler_ n) (on_node_event_message_ n) (events n) (nodes_address_ n)
    (connected_nodes_ n) (handlers_ n) (scheduler_time_ n) (rq n) (col n) (outbox n).
Definition set_client (x : option client) (n : AbstractNode) : AbstractNode :=
  mkNode (node_info_ n) (is_ready_ n) (is_finish_ n) (is_timeout_ n) (is_already_stopped_ n)
    (is_already_finished_ n) x (on_node_event_message_ n) (events n) (nodes_address_ n)
    (connected_nodes_ n) (handlers_ n) (scheduler_time_ n) (rq n) (col n) (outbox n).
Definition set_event_handler (x : bool) (n : AbstractNode) : AbstractNode :=
  mkNode (node_info_ n) (is_ready_ n) (is_finish_ n) (is_timeout_ n) (is_already_stopped_ n)
    (is_already_finished_ n) (client_to_scheduler_ n) x (events n) (nodes_address_ n)
    (connected_nodes_ n) (handlers_ n) (scheduler_time_ n) (rq n) (col n) (outbox n).
Definition set_events (f : list NodeEvent -> list NodeEvent) (n : AbstractNode) : AbstractNode :=
  mkNode (node_info_ n) (is_ready_ n) (is_finish_ n) (is_timeout_ n) (is_already_stopped_ n)
    (is_already_finished_ n) (client_to_scheduler_ n) (on_node_event_message_ n) (f (events n))
    (nodes_address_ n) (connected_nodes_ n) (handlers_ n) (scheduler_time_ n) (rq n) (col n)
    (outbox n).
Definition set_addresses (f : gmap (NodeRole * Z) (string * Z) -> gmap (NodeRole * Z) (string * Z))
    (n : AbstractNode) : AbstractNode :=
  mkNode (node_info_ n) (is_ready_ n) (is_finish_ n) (is_timeout_ n) (is_already_stopped_ n)
    (is_already_finished_ n) (client_to_scheduler_ n) (on_node_event_message_ n) (events n)
    (f (nodes_address_ n)) (connected_nodes_ n) (handlers_ n) (scheduler_time_ n) (rq n) (col n)
    (outbox n).
Definition set_connected (f : gmap Z client -> gmap Z client) (n : AbstractNode) : AbstractNode :=
  mkNode (node_info_ n) (is_ready_ n) (is_finish_ n) (is_timeout_ n) (is_already_stopped_ n)
    (is_already_finished_ n) (client_to_scheduler_ n) (on_node_event_message_ n) (events n)
    (nodes_address_ n) (f (connected_nodes_ n)) (handlers_ n) (scheduler_time_ n) (rq n) (col n)
    (outbox n).
Definition set_handlers (f : gmap NodeCommand (option NodeHandler) -> gmap NodeCommand (option NodeHandler))
    (n : AbstractNode) : AbstractNode :=
  mkNode (node_info_ n) (is_ready_ n) (is_finish_ n) (is_timeout_ n) (is_already_stopped_ n)
    (is_already_finished_ n) (client_to_scheduler_ n) (on_node_event_message_ n) (events n)
    (nodes_address_ n) (connected_nodes_ n) (f (handlers_ n)) (scheduler_time_ n) (rq n) (col n)
    (outbox n).
Definition set_scheduler_time (x : Z) (n : AbstractNode) : AbstractNode :=
  mkNode (node_info_ n) (is_ready_ n) (is_finish_ n) (is_timeout_ n) (is_already_stopped_ n)
    (is_already_finished_ n) (client_to_scheduler_ n) (on_node_event_message_ n) (events n)
    (nodes_address_ n) (connected_nodes_ n) (handlers_ n) x (rq n) (col n) (outbox n).
Definition set_rq (x : requests) (n : AbstractNode) : AbstractNode :=
  mkNode (node_info_ n) (is_ready_ n) (is_finish_ n) (is_timeout_ n) (is_already_stopped_ n)
    (is_already_finished_ n) (client_to_scheduler_ n) (on_node_event_message_ n) (events n)
    (nodes_address_ n) (connected_nodes_ n) (handlers_ n) (scheduler_time_ n) x (col n) (outbox n).
Definition set_col (x : collective) (n : AbstractNode) : AbstractNode :=
  mkNode (node_info_ n) (is_ready_ n) (is_finish_ n) (is_timeout_ n) (is_already_stopped_ n)
    (is_already_finished_ n) (client_to_scheduler_ n) (on_node_event_message_ n) (events n)
    (nodes_address_ n) (connected_nodes_ n) (handlers_ n) (scheduler_time_ n) (rq n) x (outbox n).
Definition set_outbox (f : list outgoing -> list outgoing) (n : AbstractNode) : AbstractNode :=
  mkNode (node_info_ n) (is_ready_ n) (is_finish_ n) (is_timeout_ n) (is_already_stopped_ n)
    (is_already_finished_ n) (client_to_scheduler_ n) (on_node_event_message_ n) (events n)
    (nodes_address_ n) (connected_nodes_ n) (handlers_ n) (scheduler_time_ n) (rq n) (col n)
    (f (outbox n)).

(** Computes the fields of a node after updates. *)
Ltac ncbn := cbn [node_info_ is_ready_ is_finish_ is_timeout_ is_already_stopped_
  is_already_finished_ client_to_scheduler_ on_node_event_message_ events nodes_address_
  connected_nodes_ handlers_ scheduler_time_ rq col outbox set_info set_ready set_finish
  set_timeout set_stopped set_finished set_client set_event_handler set_events set_addresses
  set_connected set_handlers set_scheduler_time set_rq set_col set_outbox] in *.

(** A call on the tables of requests, or of collective messages. *)
Definition with_requests {A} (m : M requests A) : M AbstractNode A := fun n =>
  match m (rq n) with
  | Ret a c => Ret a (set_rq c n)
  | Throw e c => Throw e (set_rq c n)
  | Undef w => Undef w
  | Fuel => Fuel
  end.
Definition with_collective {A} (m : M collective A) : M AbstractNode A := fun n =>
  match m (col n) with
  | Ret a c => Ret a (set_col c n)
  | Throw e c => Throw e (set_col c n)
  | Undef w => Undef w
  | Fuel => Fuel
  end.

(** ** Methods that wait *)

(** The conditions a thread waits for, with the timeout in seconds. *)
Inductive await : Type :=
| AwaitResponse (request_id timeout : Z)
| AwaitConnected (timeout : Z)
| AwaitStart (timeout : Z)
| AwaitFinish (timeout : Z).

(** Returned, or waiting; [k] goes on with what wait_for returns. *)
#[warnings="-register-all"]
Inductive blocking (A : Type) : Type :=
| Finished (a : A)
| Awaiting (w : await) (k : bool -> AbstractNode -> outcome AbstractNode (blocking A)).
Arguments Finished {A} _.
Arguments Awaiting {A} _ _.

Definition B (A : Type) : Type := M AbstractNode (blocking A).

Definition bret {A} (a : A) : B A := mret (Finished a).
Definition lift {A} (m : M AbstractNode A) : B A :=
  mbind (M := M AbstractNode) (fun a => bret a) m.
Definition wait_for (w : await) : B bool := mret (Awaiting w (fun r => bret r)).

Fixpoint continue {A C} (f : A -> B C) (b : blocking A) {struct b} : B C :=
  match b with
  | Finished a => f a
  | Awaiting w k => fun n =>
    Ret (Awaiting w (fun r n' =>
      match k r n' with
      | Ret b' n'' => continue f b' n''
      | Throw e n'' => Throw e n''
      | Undef w => Undef w
      | Fuel => Fuel
      end)) n
  end.
Definition bbind {A C} (m : B A) (f : A -> B C) : B C :=
  mbind (M := M AbstractNode) (continue f) m.

Declare Scope blocking_scope.
Delimit Scope blocking_scope with blocking.
Notation "x <~ m ; k" := (bbind m (fun x => k))
  (at level 20, m at level 100, k at level 200, right associativity) : blocking_scope.
#[local] Open Scope blocking_scope.

Definition kTimeoutInSeconds : Z := 30.
Definition kCommTimeoutInSeconds : Z := 3.

Section node.
Context `{Protobuf RegisterMessage} `{Protobuf RegisterRespMessage} `{Protobuf HeartbeatMessage}
  `{Protobuf HeartbeatRespMessage} `{Protobuf FetchServersMessage}
  `{Protobuf FetchServersRespMessage} `{Protobuf FinishMessage}.
Context (cfg : ClusterConfig).
(** Whether TcpClient::Init succeeds for an address. *)
Context (connect : client -> bool).

(** ** node.cc *)
Definition Node_rank_id : M AbstractNode Z :=
  n ← getS;
  if negb (is_ready_ n) then throw "The cluster is not ready yet to get rank id!"
  else mret (rank_id_ (node_info_ n)).

Definition WaitForStart (timeout : Z) : B bool := wait_for (AwaitStart timeout).

Definition set_event_callback (callback : bool) : M AbstractNode unit :=
  modify (set_event_handler callback).

(** ** Messages to other nodes *)

(** [client->SendMessage(meta, protos, data, size)], whose result is ignored. *)
Definition client_SendMessage (c : client) (meta : MessageMeta) (protos : Protos)
    (data : option (list Z)) (size : Z) : M AbstractNode unit :=
  match data with
  | None => throw "The pointer is null."
  | Some data =>
    if size >? zlen data then undef "read past the end of the data"
    else modify (set_outbox (fun l => l ++ [mkOutgoing c meta protos (ztake size data)]))
  end.

Definition GetOrCreateTcpClient (rank_id : Z) : M AbstractNode client :=
  n ← getS;
  match connected_nodes_ n !! i32 rank_id with
  | Some c => mret c
  | None =>
    match nodes_address_ n !! (SERVER, u32 (i32 rank_id)) with
    | None => throw "Worker node Fetch servers failed!"
    | Some addr =>
      if connect addr then
        _ ← modify (set_connected (insert (i32 rank_id) addr));
        mret addr
      else throw "TcpClient::Init"
    end
  end.

(** A Send that has begun: its frame is left when it throws. *)
Definition leaving {A} (request_id : Z) (m : M AbstractNode A) : M AbstractNode A := fun n =>
  match m n with
  | Throw e n' => Throw e (set_rq (set_live (fun l => l ∖ {[request_id]}) (rq n')) n')
  | o => o
  end.
Definition track (expected_response : Z) : M AbstractNode Z :=
  with_requests (request_id ← AddMessageTrack expected_response;
                 _ ← modify (set_live (union {[request_id]}));
                 mret request_id).

Definition AbstractNode_Wait (request_id timeout : Z) : B bool :=
  wait_for (AwaitResponse request_id timeout).

Definition with_request_id (request_id : Z) (meta : MessageMeta) : MessageMeta :=
  mkMessageMeta (cmd meta) request_id (role meta) (rank_id meta) (user_cmd meta).

Definition SendMessageSync (c : option client) (meta : MessageMeta) (protos : Protos)
    (data : option (list Z)) (size timeout : Z) : B bool :=
  match c with
  | None => throw "The pointer is null."
  | Some c =>
    _ <~ lift (exception_if_null (bool_decide (is_Some data)));
    request_id <~ lift (track 1);
    _ <~ lift (leaving request_id
                 (client_SendMessage c (with_request_id request_id meta) protos data size));
    AbstractNode_Wait request_id timeout
  end.

(** The overload for a [CommMessage]: the id goes into its meta; what is put on
    the wire is TcpClient_SendComm of Sending.v. *)
Definition client_SendComm `{Protobuf CommMessage, Protobuf MessageMeta} (c : client)
    (message : CommMessage) : M AbstractNode unit :=
  _ ← IntToUint (i32 (ByteSizeLong message));
  _ ← SizeToUint (ByteSizeLong (pb_meta message));
  modify (set_outbox (fun l => l ++ [mkOutgoing c (pb_meta message) PROTOBUF (data message)])).
Definition SendMessageSync_comm `{Protobuf CommMessage, Protobuf MessageMeta} (c : option client)
    (message : CommMessage) (timeout : Z) : B bool :=
  request_id <~ lift (track 1);
  let message := mkCommMessage (with_request_id request_id (pb_meta message)) (data message) in
  _ <~ lift (leaving request_id
               match c with
               | None => undef "SendMessage of a null client"
               | Some c => client_SendComm c message
               end);
  AbstractNode_Wait request_id timeout.

Definition SendMessageAsync (c : option client) (meta : MessageMeta) (protos : Protos)
    (data : option (list Z)) (size : Z) : M AbstractNode Z :=
  match c with
  | None => throw "The pointer is null."
  | Some c =>
    _ ← exception_if_null (bool_decide (is_Some data));
    request_id ← with_requests (AddMessageTrack 1);
    _ ← client_SendMessage c (with_request_id request_id meta) protos data size;
    mret request_id
  end.

(** The meta of a data message of this node. *)
Definition data_meta (n : AbstractNode) (c : NodeCommand) (request_id command : Z) : MessageMeta :=
  mkMessageMeta c request_id (node_role_ (node_info_ n)) (i32 (rank_id_ (node_info_ n))) command.

Definition check_rank (node_role : NodeRole) (rank_id : Z) : M AbstractNode unit :=
  if negb (ValidateRankId cfg node_role rank_id)
  then throw "The node role or rank_id is illegal!" else mret tt.

(** Send to one node. *)
Definition Send_one (node_role : NodeRole) (rank_id : Z) (data : option (list Z))
    (len command timeout : Z) : B bool :=
  _ <~ lift (exception_if_null (bool_decide (is_Some data)));
  _ <~ lift (check_rank node_role rank_id);
  n <~ lift getS;
  c <~ lift (GetOrCreateTcpClient rank_id);
  SendMessageSync (Some c) (data_meta n SEND_DATA 0 command) RAW data len timeout.

(** The loop of the two Sends to several nodes. *)
Fixpoint send_loop (node_role : NodeRole) (request_id command : Z) (rank_ids : list Z)
    (data : list (option (list Z))) (lens : list Z) : M AbstractNode unit :=
  match rank_ids, data with
  | rank_id :: rank_ids, send :: data =>
    _ ← check_rank node_role rank_id;
    n ← getS;
    match lens with
    | [] => throw "std::out_of_range"
    | len :: lens =>
      c ← GetOrCreateTcpClient rank_id;
      _ ← client_SendMessage c (data_meta n SEND_DATA request_id command) RAW send len;
      send_loop node_role request_id command rank_ids data lens
    end
  | _, _ => mret tt
  end.

(** Send to several nodes, without and with an output. *)
Definition Send_many (node_role : NodeRole) (rank_ids : list Z) (data : list (option (list Z)))
    (lens : list Z) (command timeout : Z) : B bool :=
  request_id <~ lift (track (zlen data));
  _ <~ lift (leaving request_id
    (if negb (zlen rank_ids =? zlen data)
     then throw "The number of rank ids is not equal to the number of data!"
     else send_loop node_role request_id command rank_ids data lens));
  AbstractNode_Wait request_id timeout.

Definition Send_many_output (node_role : NodeRole) (rank_ids : list Z)
    (data : list (option (list Z))) (data_lens : list Z) (command : Z) (output : option Z)
    (timeout : Z) : B bool :=
  match output with
  | None => throw "The pointer is null."
  | Some output =>
    request_id <~ lift (track (zlen data));
    _ <~ lift (leaving request_id
      (_ ← (if negb (zlen rank_ids =? zlen data)
            then throw "The number of rank ids, data, comm_message_resp should be equal!"
            else mret tt);
       _ ← with_requests (set_message_callback request_id (Some (TakeAll rank_ids output)));
       send_loop node_role request_id command rank_ids data data_lens));
    AbstractNode_Wait request_id timeout
  end.

(** Send to one node with an output. *)
Definition Send_output (node_role : NodeRole) (rank_id : Z) (message : option (list Z))
    (len command : Z) (output : option Z) (timeout : Z) : B bool :=
  _ <~ lift (exception_if_null (bool_decide (is_Some message)));
  match output with
  | None => throw "The pointer is null."
  | Some output =>
    _ <~ lift (check_rank node_role rank_id);
    request_id <~ lift (track 1);
    _ <~ lift (leaving request_id
      (_ ← with_requests (set_message_callback request_id (Some (TakeOne rank_id output)));
       n ← getS;
       c ← GetOrCreateTcpClient rank_id;
       client_SendMessage c (data_meta n SEND_DATA request_id command) RAW message len));
    AbstractNode_Wait request_id timeout
  end.

(** The loop of Broadcast; std::map iterates in the order of the keys, on which
    nothing here depends. *)
Fixpoint broadcast_loop (request_id command : Z) (message : option (list Z)) (size : Z)
    (l : list ((NodeRole * Z) * (string * Z))) : M AbstractNode unit :=
  match l with
  | [] => mret tt
  | (k, _) :: l =>
    n ← getS;
    c ← GetOrCreateTcpClient k.2;
    _ ← client_SendMessage c (data_meta n SEND_DATA request_id command) RAW message size;
    broadcast_loop request_id command message size l
  end.

Definition Broadcast (node_role : NodeRole) (message : option (list Z)) (size command timeout : Z)
    : B bool :=
  _ <~ lift (exception_if_null (bool_decide (is_Some message)));
  _ <~ lift (if negb (bool_decide (node_role = SERVER))
             then throw "Currently only supports broadcast to server nodes" else mret tt);
  n <~ lift getS;
  request_id <~ lift (track (Z.of_nat (base.size (nodes_address_ n))));
  _ <~ lift (leaving request_id
    (broadcast_loop request_id command message size (map_to_list (nodes_address_ n))));
  AbstractNode_Wait request_id timeout.

Definition CollectiveSendAsync (node_role : NodeRole) (rank_id : Z) (data : option (list Z))
    (size : Z) : M AbstractNode Z :=
  _ ← exception_if_null (bool_decide (is_Some data));
  _ ← check_rank node_role rank_id;
  n ← getS;
  c ← GetOrCreateTcpClient rank_id;
  SendMessageAsync (Some c) (data_meta n COLLECTIVE_SEND_DATA 0 0) RAW data size.

(** ** Messages to the scheduler *)
Definition scheduler_meta (c : NodeCommand) : MessageMeta :=
  mkMessageMeta c 0 SERVER 0 0.

Definition Register (c : option client) : B unit :=
  match c with
  | None => throw "The pointer is null."
  | Some c =>
    n <~ lift getS;
    let i := node_info_ n in
    let register_message := mkRegisterMessage (ip_ i) (port_ i) (node_id_ i) (node_role_ i) in
    res <~ SendMessageSync (Some c) (scheduler_meta REGISTER) PROTOBUF
             (Some (SerializeAsString register_message)) (ByteSizeLong register_message)
             kCommTimeoutInSeconds;
    lift (if (res : bool) then mret tt else throw "register timeout!")
  end.

(** It returns true even when there was no answer. *)
Definition Heartbeat (c : option client) (is_node_finish : bool) : B bool :=
  n <~ lift getS;
  let heartbeat_message := mkHeartbeatMessage (node_id_ (node_info_ n)) is_node_finish in
  _ <~ SendMessageSync c (scheduler_meta HEARTBEAT) PROTOBUF
         (Some (SerializeAsString heartbeat_message)) (ByteSizeLong heartbeat_message)
         kCommTimeoutInSeconds;
  bret true.

Definition FetchServers (c : option client) : B unit :=
  n <~ lift getS;
  let fetch_servers := mkFetchServersMessage (node_id_ (node_info_ n)) in
  res <~ SendMessageSync c (scheduler_meta FETCH_SERVER) PROTOBUF
           (Some (SerializeAsString fetch_servers)) (ByteSizeLong fetch_servers)
           kCommTimeoutInSeconds;
  lift (if (res : bool) then mret tt else throw "Fetch servers address timeout!").

Definition WaitForDisconnect (timeout : Z) : B bool := wait_for (AwaitFinish timeout).

Definition Disconnect (c : option client) (timeout : Z) : B bool :=
  n <~ lift getS;
  let finish_message := mkFinishMessage (node_id_ (node_info_ n)) in
  _ <~ SendMessageSync c (scheduler_meta FINISH) PROTOBUF
         (Some (SerializeAsString finish_message)) (ByteSizeLong finish_message)
         kCommTimeoutInSeconds;
  WaitForDisconnect timeout.

Definition UpdateSchedulerTime (now : Z) : M AbstractNode unit := modify (set_scheduler_time now).

Definition CheckSchedulerTimeout (now : Z) (n : AbstractNode) : bool :=
  scheduler_time_ n + scheduler_timeout_ cfg <? now.

(** A turn of the loop of StartHeartbeatTimer; [now] is the time after the
    heartbeat. *)
Definition heartbeat_turn (now : Z) (c : option client) : B unit :=
  n <~ lift getS;
  if is_finish_ n then bret tt else
  b <~ Heartbeat c false;
  if negb b then
    n <~ lift getS;
    lift (if negb (CheckSchedulerTimeout now n) && on_node_event_message_ n then
            _ ← modify (set_finish true);
            modify (set_events (fun l => l ++ [SCHEDULER_TIMEOUT]))
          else mret tt)
  else lift (UpdateSchedulerTime now).

(** ** Responses of the scheduler, on the event thread *)
Definition ProcessRegisterResp (data : option (list Z)) : M AbstractNode unit :=
  match data with
  | None => throw "The pointer is null."
  | Some data =>
    let register_resp_message : RegisterRespMessage := ParseFromArray data in
    n ← getS;
    if negb (bool_decide (rr_node_id register_resp_message = node_id_ (node_info_ n)))
    then throw "The node id received is not match the current node id"
    else modify (set_info (fun i => mkNodeInfo (ip_ i) (port_ i) (node_id_ i) (node_role_ i)
                                      (u32 (rr_rank_id register_resp_message))))
  end.

(** [node_attribute().at(key)] *)
Definition attribute_at (m : HeartbeatRespMessage) (a : NodeAttribute) : M AbstractNode bool :=
  match node_attribute m !! NodeAttribute_num a with
  | Some b => mret b
  | None => throw "std::out_of_range"
  end.

Definition notify_event (e : NodeEvent) : M AbstractNode unit :=
  modify (set_events (fun l => l ++ [e])).

Definition ProcessHeartbeatResp (data : option (list Z)) : B unit :=
  match data with
  | None => throw "The pointer is null."
  | Some data =>
    let resp : HeartbeatRespMessage := ParseFromArray data in
    ready <~ lift (attribute_at resp IS_CLUSTER_READY);
    _ <~ lift (modify (set_ready ready));
    finish <~ lift (attribute_at resp IS_CLUSTER_FINISH);
    n <~ lift getS;
    _ <~ (if (finish : bool) then
            _ <~ Heartbeat (client_to_scheduler_ n) true;
            lift (modify (set_finish true))
          else bret tt);
    lift (timeout ← attribute_at resp IS_CLUSTER_TIMEOUT;
          _ ← modify (set_timeout timeout);
          n ← getS;
          _ ← (if is_timeout_ n && on_node_event_message_ n then
                 _ ← modify (set_ready true); notify_event CLUSTER_TIMEOUT
               else mret tt);
          node_timeout ← attribute_at resp IS_NODE_TIMEOUT;
          if (node_timeout : bool) && on_node_event_message_ n
          then notify_event NODE_TIMEOUT else mret tt)
  end.

Definition add_server (m : gmap (NodeRole * Z) (string * Z)) (it : ServersMeta)
    : gmap (NodeRole * Z) (string * Z) :=
  <[(SERVER, u32 (sm_rank_id it)) := (sm_ip it, u16 (sm_port it))]> m.

Definition ProcessFetchServersResp (data : option (list Z)) : M AbstractNode unit :=
  match data with
  | None => throw "The pointer is null."
  | Some data =>
    let resp : FetchServersRespMessage := ParseFromArray data in
    modify (set_addresses (fun m => foldl add_server m (servers_meta resp)))
  end.

Definition NodeCommandHandlers : gmap NodeCommand (option NodeHandler) :=
  <[FINISH := None]>
  (<[FETCH_SERVER := Some H_ProcessFetchServersResp]>
  (<[REGISTER := Some H_ProcessRegisterResp]>
  (<[HEARTBEAT := Some H_ProcessHeartbeatResp]> ∅))).

Definition InitCommandHandler : M AbstractNode unit :=
  modify (set_handlers (fun h => NodeCommandHandlers ∪ h)).

(** The callback of the client to the scheduler. *)
Definition on_scheduler_message (meta : MessageMeta) (data : option (list Z)) : B unit :=
  n <~ lift getS;
  match handlers_ n !! cmd meta with
  | None => throw "The cmd is not supported!"
  | Some h =>
    _ <~ match h with
         | None => bret tt
         | Some H_ProcessHeartbeatResp => ProcessHeartbeatResp data
         | Some H_ProcessRegisterResp => lift (ProcessRegisterResp data)
         | Some H_ProcessFetchServersResp => lift (ProcessFetchServersResp data)
         end;
    lift (with_requests (NotifyMessageArrival (request_id meta)))
  end.

Definition InitClientToScheduler : B bool :=
  match scheduler_host_ cfg with
  | None => undef "null scheduler_host_"
  | Some host =>
    let c := (host, scheduler_port_ cfg) in
    _ <~ lift (modify (set_client (Some c)));
    _ <~ lift (if connect c then mret tt else throw "TcpClient::Init");
    wait_for (AwaitConnected (cluster_available_timeout_ cfg))
  end.

(** The callback of a client to a server, when nothing comes in between its
    steps. *)
Definition RunMessageCallback (request_id : Z) : M requests unit :=
  p ← RunMessageCallback_check request_id;
  match p with
  | AtRun request_id cb =>
    _ ← RunMessageCallback_call request_id cb;
    _ ← RunMessageCallback_erase request_id;
    mret tt
  | _ => mret tt
  end.

Definition on_server_message (meta : MessageMeta) (data : option (list Z)) (size : Z)
    : M AbstractNode unit :=
  _ ← match cmd meta with
      | SEND_DATA => with_requests (_ ← ProcessSendDataResp meta data size;
                                    RunMessageCallback (request_id meta))
      | COLLECTIVE_SEND_DATA => mret tt
      | _ => throw "The cmd is not supported!"
      end;
  with_requests (NotifyMessageArrival (request_id meta)).
End node.

(** ** Lemmas *)
Lemma bbind_lift {A C} (m : M AbstractNode A) (f : A -> B C) n a n' :
  m n = Ret a n' -> bbind (lift m) f n = f a n'.
Proof. intros E. unfold bbind, lift, mbind, M_bind. by rewrite E. Qed.

Lemma bbind_lift_Throw {A C} (m : M AbstractNode A) (f : A -> B C) n e n' :
  m n = Throw e n' -> bbind (lift m) f n = Throw e n'.
Proof. intros E. unfold bbind, lift, mbind, M_bind. by rewrite E. Qed.

(** A wait inside a longer operation. *)
Lemma bbind_Awaiting {A C} (m : B A) (f : A -> B C) n w k n' :
  m n = Ret (Awaiting w k) n' -> bbind m f n = Ret (Awaiting w (fun r => bbind (k r) f)) n'.
Proof. intros E. unfold bbind, mbind, M_bind. by rewrite E. Qed.

Lemma bbind_Finished {A C} (m : B A) (f : A -> B C) n a n' :
  m n = Ret (Finished a) n' -> bbind m f n = f a n'.
Proof. intros E. unfold bbind, mbind, M_bind. by rewrite E. Qed.

Lemma with_requests_Ret {A} (m : M requests A) n a c :
  m (rq n) = Ret a c -> with_requests m n = Ret a (set_rq c n).
Proof. unfold with_requests. by intros ->. Qed.

(** The tables after a request with [k] expected responses was tracked. *)
Definition tracked (k : Z) (c : requests) : requests :=
  let request_id := u64 (next_request_id_ c + 1) in
  set_live (union {[request_id]})
    (set_tracker (insert request_id (u32 k, 0)) (set_next request_id c)).

Lemma track_eq k n :
  track k n = Ret (next_request_id_ (tracked k (rq n))) (set_rq (tracked k (rq n)) n).
Proof. done. Qed.

Definition send_to (c : client) (meta : MessageMeta) (protos : Protos) (data : list Z)
    (n : AbstractNode) : AbstractNode :=
  set_outbox (fun l => l ++ [mkOutgoing c meta protos data]) n.

Lemma client_SendMessage_eq c meta protos data size n :
  size <= zlen data ->
  client_SendMessage c meta protos (Some data) size n =
  Ret tt (send_to c meta protos (ztake size data) n).
Proof.
  intros Hs. unfold client_SendMessage. destruct (Z.gtb_spec size (zlen data)); [lia|done].
Qed.

Lemma leaving_Ret {A} id (m : M AbstractNode A) n a n' :
  m n = Ret a n' -> leaving id m n = Ret a n'.
Proof. unfold leaving. by intros ->. Qed.

(** Sending and waiting, followed by [f]. *)
Lemma SendMessageSync_bind {C} c meta protos data size timeout (f : bool -> B C) n :
  size <= zlen data ->
  let id := next_request_id_ (tracked 1 (rq n)) in
  bbind (SendMessageSync (Some c) meta protos (Some data) size timeout) f n =
  Ret (Awaiting (AwaitResponse id timeout) f)
    (send_to c (with_request_id id meta) protos (ztake size data) (set_rq (tracked 1 (rq n)) n)).
Proof.
  intros Hs id. unfold SendMessageSync, bbind at 1, mbind, M_bind.
  rewrite (bbind_lift _ _ n tt n) by done.
  rewrite (bbind_lift _ _ _ _ _ (track_eq 1 n)).
  erewrite bbind_lift; [|apply leaving_Ret, client_SendMessage_eq; done]. done.
Qed.

(** The overload for a [CommMessage] tracks one answer and sends the message with
    the id, as long as the sizes fit their types. *)
Lemma SendMessageSync_comm_eq `{ProtobufLaws CommMessage, ProtobufLaws MessageMeta} c message timeout n :
  let id := next_request_id_ (tracked 1 (rq n)) in
  let sent := mkCommMessage (with_request_id id (pb_meta message)) (data message) in
  ByteSizeLong sent < 2 ^ 31 -> ByteSizeLong (pb_meta sent) < 2 ^ 32 ->
  SendMessageSync_comm (Some c) message timeout n =
  Ret (Awaiting (AwaitResponse id timeout) (fun r => bret r))
    (send_to c (pb_meta sent) PROTOBUF (data message) (set_rq (tracked 1 (rq n)) n)).
Proof.
  intros id sent Hc Hm. unfold SendMessageSync_comm.
  rewrite (bbind_lift _ _ _ _ _ (track_eq 1 n)). cbv zeta. fold id. fold sent.
  erewrite bbind_lift; [reflexivity|]. apply leaving_Ret. unfold client_SendComm.
  assert (0 <= ByteSizeLong sent) as Hc0 by (rewrite size_serialize; apply zlen_nonneg).
  assert (0 <= ByteSizeLong (pb_meta sent)) as Hm0 by (rewrite size_serialize; apply zlen_nonneg).
  rewrite (swrap_small 32 (ByteSizeLong sent)) by (unfold in_s; lia).
  assert (0 <= ByteSizeLong sent <= INT_MAX) as Hr by (unfold INT_MAX; lia).
  rewrite (bind_Ret _ _ _ _ _ (IntToUint_fits _ _ Hr)).
  by rewrite (bind_Ret _ _ _ _ _ (SizeToUint_fits _ _ (conj Hm0 Hm))).
Qed.

(** The heartbeat thread never reports that the scheduler is lost.  Heartbeat
    returns true whether or not the scheduler answered, so a turn of the loop
    ends with the time of the scheduler refreshed and no event, also after a
    timeout. *)
Theorem heartbeat_never_times_out `{Protobuf HeartbeatMessage} `{!ProtobufLaws HeartbeatMessage}
    cfg now c n w k n1 :
  heartbeat_turn cfg now c n = Ret (Awaiting w k) n1 ->
  forall answered n2, exists n3, k answered n2 = Ret (Finished tt) n3 /\
    events n3 = events n2 /\ is_finish_ n3 = is_finish_ n2 /\ scheduler_time_ n3 = now.
Proof.
  unfold heartbeat_turn. rewrite (bbind_lift getS _ n n n eq_refl).
  destruct (is_finish_ n); [discriminate|]. destruct c as [c|]; [|discriminate].
  unfold Heartbeat, bbind at 1, mbind, M_bind.
  rewrite (bbind_lift getS _ n n n eq_refl).
  rewrite SendMessageSync_bind by (rewrite size_serialize; lia).
  intros [= <- <- <-] answered n2. cbn. by eexists.
Qed.

Section send_many.
Context (cfg : ClusterConfig) (connect : client -> bool).

(** The client a message to a rank goes to, when there is one. *)
Definition reach (n : AbstractNode) (r : Z) : option client :=
  match connected_nodes_ n !! i32 r with
  | Some c => Some c
  | None => a ← nodes_address_ n !! (SERVER, u32 (i32 r)); if connect a then Some a else None
  end.

(** Everything but the connections and the outbox. *)
Definition same_but_sent (n n' : AbstractNode) : Prop :=
  node_info_ n' = node_info_ n /\ nodes_address_ n' = nodes_address_ n /\ rq n' = rq n /\
  is_ready_ n' = is_ready_ n /\ is_finish_ n' = is_finish_ n /\ events n' = events n /\
  forall r, reach n' r = reach n r.

Lemma GetOrCreateTcpClient_reach n r c :
  reach n r = Some c ->
  exists n', GetOrCreateTcpClient connect r n = Ret c n' /\ same_but_sent n n' /\
    outbox n' = outbox n.
Proof.
  unfold reach, GetOrCreateTcpClient. intros Hr.
  rewrite (bind_Ret getS _ n n n eq_refl).
  destruct (connected_nodes_ n !! i32 r) as [c'|] eqn:Ec.
  { injection Hr as ->. exists n. by repeat split. }
  destruct (nodes_address_ n !! (SERVER, u32 (i32 r))) as [a|] eqn:Ea; cbn in Hr; [|done].
  destruct (connect a) eqn:Eco; [|done]. injection Hr as ->.
  eexists. split; [done|]. split; [|done]. repeat split. intros r'. unfold reach. ncbn.
  destruct (decide (i32 r' = i32 r)) as [E|Hne].
  - by rewrite E, lookup_insert_eq, Ec, Ea; cbn; rewrite Eco.
  - by rewrite lookup_insert_ne.
Qed.

Lemma GetOrCreateTcpClient_unreach n r :
  reach n r = None -> exists e, GetOrCreateTcpClient connect r n = Throw e n.
Proof.
  unfold reach, GetOrCreateTcpClient. intros Hr.
  rewrite (bind_Ret getS _ n n n eq_refl).
  destruct (connected_nodes_ n !! i32 r); [done|].
  destruct (nodes_address_ n !! (SERVER, u32 (i32 r))) as [a|]; cbn in Hr; [|by eexists].
  destruct (connect a); [done|by eexists].
Qed.

(** What is sent to one rank. *)
Definition message_to (n : AbstractNode) (id command : Z) (it : Z * list Z * Z) : outgoing :=
  mkOutgoing (default (""%string, 0) (reach n it.1.1)) (data_meta n SEND_DATA id command) RAW
    (ztake it.2 it.1.2).

Definition item_ok (n : AbstractNode) (role : NodeRole) (it : Z * list Z * Z) : Prop :=
  ValidateRankId cfg role it.1.1 = true /\ is_Some (reach n it.1.1) /\ it.2 <= zlen it.1.2.

(** The legal and reachable ranks at the front are served, then the loop goes on
    with the others. *)
Lemma send_loop_eq role id command items ranks data lens n :
  Forall (item_ok n role) items ->
  exists n', send_loop cfg connect role id command (items.*1.*1 ++ ranks)
      ((Some <$> items.*1.*2) ++ data) (items.*2 ++ lens) n =
    send_loop cfg connect role id command ranks data lens n' /\ same_but_sent n n' /\
    outbox n' = outbox n ++ (message_to n id command <$> items).
Proof.
  revert n. induction items as [|[[r d] l] items IH]; intros n Hok.
  { exists n. rewrite app_nil_r. by repeat split. }
  apply Forall_cons in Hok as [(Hv & [c Hc] & Hl) Hok]; cbn in Hv, Hc, Hl.
  destruct (GetOrCreateTcpClient_reach n r c Hc) as (n1 & E1 & (H1 & H2 & H3 & H4 & H5 & H6 & H7) & H8).
  set (n2 := send_to c (data_meta n SEND_DATA id command) RAW (ztake l d) n1).
  assert (forall r', reach n2 r' = reach n r') as Hreach by (intros; apply H7).
  destruct (IH n2) as (n' & E & (G1 & G2 & G3 & G4 & G5 & G6 & G7) & G8).
  { eapply Forall_impl; [exact Hok|]. intros it (? & ? & ?). by repeat split; rewrite ?Hreach. }
  exists n'. split_and!.
  - cbn [fmap list_fmap send_loop fst snd app]. unfold check_rank. rewrite Hv. cbn [negb].
    rewrite (bind_Ret (mret tt) _ n tt n eq_refl), (bind_Ret getS _ n n n eq_refl).
    rewrite (bind_Ret _ _ _ _ _ E1), (bind_Ret _ _ _ tt n2); [exact E|].
    by apply client_SendMessage_eq.
  - repeat split; intros; try congruence; [| |etrans; eauto..]; subst n2; cbn in *; congruence.
  - rewrite G8. unfold n2, send_to. ncbn. rewrite H8, <- app_assoc. f_equal. cbn. f_equal.
    + unfold message_to. cbn. by rewrite Hc.
    + apply list_fmap_ext. intros i it _. unfold message_to, data_meta. ncbn.
      rewrite Hreach. cbn. by rewrite H1.
Qed.

(** C32: Send to several nodes.  The ranks at the front that are legal and can be
    reached get one message each, in order, over the connection to the server of
    that rank, with its own data and the same new request id.  When these are all
    the ranks, the tracker expects one response for each and Send waits for them.
    When the next rank is out of the range of its role, Send raises
    "The node role or rank_id is illegal!": nothing goes to that rank or to a
    later one, the messages before it stay sent, and the tracker keeps the entry
    that nobody waits for.  When the numbers of ranks and of data differ, Send
    raises an exception and sends nothing. *)
Theorem Send_many_spec role command timeout items n :
  Forall (item_ok n role) items ->
  let id := u64 (next_request_id_ (rq n) + 1) in
  (exists n', Send_many cfg connect role items.*1.*1 (Some <$> items.*1.*2) items.*2 command timeout n
     = Ret (Awaiting (AwaitResponse id timeout) (fun r => bret r)) n' /\
     outbox n' = outbox n ++ (message_to n id command <$> items) /\
     message_tracker_ (rq n') !! id = Some (u32 (zlen items), 0)) /\
  (forall r ranks (send : option (list Z)) data lens, ValidateRankId cfg role r = false -> length ranks = length data ->
     exists n', Send_many cfg connect role (items.*1.*1 ++ r :: ranks)
         ((Some <$> items.*1.*2) ++ send :: data) (items.*2 ++ lens) command timeout n
       = Throw "The node role or rank_id is illegal!" n' /\
       outbox n' = outbox n ++ (message_to n id command <$> items) /\
       message_tracker_ (rq n') !! id = Some (u32 (zlen items + zlen (send :: data)), 0)) /\
  (forall ranks data lens, length ranks <> length data ->
     exists n', Send_many cfg connect role ranks data lens command timeout n
       = Throw "The number of rank ids is not equal to the number of data!" n' /\
       outbox n' = outbox n).
Proof.
  intros Hok id.
  assert (forall k, Forall (item_ok (set_rq (tracked k (rq n)) n) role) items) as Hok'.
  { intros k. eapply Forall_impl; [exact Hok|]. intros it (? & ? & ?). by repeat split. }
  split_and!.
  - destruct (send_loop_eq role id command items [] [] [] _ (Hok' (zlen items)))
      as (n' & E & (_ & _ & Hrq & _) & Hout).
    exists n'. split_and!.
    + unfold Send_many. rewrite (bbind_lift _ _ _ _ _ (track_eq _ n)).
      replace (zlen (Some <$> items.*1.*2)) with (zlen items) by (unfold zlen; by rewrite !length_fmap).
      erewrite bbind_lift; [done|]. apply leaving_Ret.
      replace (zlen items.*1.*1) with (zlen items) by (unfold zlen; by rewrite !length_fmap).
      rewrite Z.eqb_refl. rewrite !app_nil_r in E. exact E.
    + rewrite Hout. f_equal.
    + rewrite Hrq. unfold tracked. ncbn. cbn. by rewrite lookup_insert_eq.
  - intros r ranks send data lens Hr Hlen.
    destruct (send_loop_eq role id command items (r :: ranks) (send :: data) lens _
      (Hok' (zlen items + zlen (send :: data)))) as (n' & E & (_ & _ & Hrq & _) & Hout).
    eexists. split_and!.
    + unfold Send_many. rewrite (bbind_lift _ _ _ _ _ (track_eq _ n)).
      replace (zlen ((Some <$> items.*1.*2) ++ send :: data)) with (zlen items + zlen (send :: data))
        by (rewrite zlen_app; unfold zlen; by rewrite !length_fmap).
      apply bbind_lift_Throw. unfold leaving.
      replace (zlen (items.*1.*1 ++ r :: ranks)) with (zlen items + zlen (send :: data))
        by (rewrite zlen_app; unfold zlen; rewrite !length_fmap; cbn [length]; lia).
      rewrite Z.eqb_refl. cbn [negb].
      change (next_request_id_ (tracked _ _)) with id. rewrite E. cbn [send_loop]. unfold check_rank.
      rewrite Hr. reflexivity.
    + ncbn. rewrite Hout. f_equal.
    + ncbn. cbn. rewrite Hrq. unfold tracked. ncbn. cbn. by rewrite lookup_insert_eq.
  - intros ranks data lens Hne. unfold Send_many. rewrite (bbind_lift _ _ _ _ _ (track_eq _ n)).
    replace (zlen ranks =? zlen data) with false by (symmetry; apply Z.eqb_neq; unfold zlen; lia).
    eexists. by split.
Qed.
End send_many.

(** A node that knows two servers. *)
Definition example_node : AbstractNode :=
  set_addresses (fun _ => <[(SERVER, 1) := ("10.0.0.2"%string, 90)]>
    (<[(SERVER, 0) := ("10.0.0.1"%string, 80)]> ∅)) AbstractNode_init.
Definition example_cfg : ClusterConfig := mkClusterConfig 1 2 None 0 1 30 30000 100 18000.

Lemma Send_many_spec_witness :
  (exists n', Send_many example_cfg (fun _ => true) SERVER [1; 0] [Some [5]; Some [6; 7]] [1; 2] 0 3
      example_node = Ret (Awaiting (AwaitResponse 1 3) (fun r => bret r)) n' /\
    out_client <$> outbox n' = [("10.0.0.2"%string, 90); ("10.0.0.1"%string, 80)]) /\
  (exists n', Send_many example_cfg (fun _ => true) SERVER [1; 2; 0] [Some [5]; Some [6]; Some [7]] [1; 1; 1] 0 3
      example_node = Throw "The node role or rank_id is illegal!" n' /\
    out_client <$> outbox n' = [("10.0.0.2"%string, 90)]).
Proof.
  split.
  - destruct (Send_many_spec example_cfg (fun _ => true) SERVER 0 3 [(1, [5], 1); (0, [6; 7], 2)]
      example_node) as [(n' & E & Ho & _) _].
    + repeat (constructor; [split_and!; [reflexivity|eexists; reflexivity|done]|]). constructor.
    + exists n'. split; [exact E|]. rewrite Ho. vm_compute. reflexivity.
  - destruct (Send_many_spec example_cfg (fun _ => true) SERVER 0 3 [(1, [5], 1)] example_node)
      as (_ & H & _).
    + repeat (constructor; [split_and!; [reflexivity|eexists; reflexivity|done]|]). constructor.
    + destruct (H 2 [0] (Some [6]) [Some [7]] [1; 1]) as (n' & E & Ho & _); [reflexivity..|].
      exists n'. split; [exact E|]. rewrite Ho. vm_compute. reflexivity.
Defined.

Section examples.
Import ExampleEncoding.

Lemma heartbeat_never_times_out_witness :
  exists w k n1, heartbeat_turn example_cfg 77 (Some ("10.0.0.9"%string, 70)) example_node
      = Ret (Awaiting w k) n1 /\
    exists n3, k false n1 = Ret (Finished tt) n3 /\ events n3 = events n1 /\
      is_finish_ n3 = is_finish_ n1 /\ scheduler_time_ n3 = 77.
Proof.
  do 3 eexists. split; [reflexivity|].
  eapply (heartbeat_never_times_out example_cfg 77 (Some ("10.0.0.9"%string, 70)) example_node).
  reflexivity.
Defined.
End examples.
