(* ===== verification/Cluster.v ===== *)
(** * Servers, workers and the cluster

    src/even-http/ps/core/server_node.{h,cc} and worker_node.{h,cc}, and the
    exchanges between the nodes and the scheduler: the messages one side sends
    are handed to the handlers of the other. *)
From S2P Require Import Prelude Convert Securec Messages Config NodeManager Scheduler.
From S2P Require Import Requests Collective AbstractNode.

#[local] Open Scope blocking_scope.

Section start.
Context `{Protobuf RegisterMessage} `{Protobuf RegisterRespMessage} `{Protobuf HeartbeatMessage}
  `{Protobuf HeartbeatRespMessage} `{Protobuf FetchServersMessage}
  `{Protobuf FetchServersRespMessage} `{Protobuf FinishMessage}.
Context (cfg : ClusterConfig) (connect : client -> bool).
(** The port TcpServer::Init binds for an address, or [None] when it fails. *)
Context (bind_port : string -> option Z).

Definition set_identity (uuid : string) (role : NodeRole) (i : NodeInfo) : NodeInfo :=
  mkNodeInfo (ip_ i) (port_ i) uuid role (rank_id_ i).
Definition set_address (ip : string) (port : Z) (i : NodeInfo) : NodeInfo :=
  mkNodeInfo ip port (node_id_ i) (node_role_ i) (rank_id_ i).

(** ** ServerNode *)
Definition ServerNode_CreateTcpServer (if_address : list ifaddr)
    : M AbstractNode (string * Z) :=
  r ← GetAvailableInterfaceAndIP if_address;
  match bind_port r.2 with
  | Some port => mret (r.2, port)
  | None => throw "TcpServer::Init"
  end.

Definition ServerNode_Initialize (if_address : list ifaddr) (uuid : string) : B unit :=
  server <~ lift (ServerNode_CreateTcpServer if_address);
  _ <~ lift (modify (set_stopped false));
  _ <~ lift (modify (set_info (set_identity uuid SERVER)));
  _ <~ lift (modify (set_info (set_address server.1 server.2)));
  _ <~ lift InitCommandHandler;
  connected <~ InitClientToScheduler cfg connect;
  lift (if negb connected then throw "Server node init client timeout!" else mret tt).

(** What Start does after Initialize, on servers and on workers. *)
Definition Start_initialized (timeout : Z) : B bool :=
  n <~ lift getS;
  _ <~ Register (client_to_scheduler_ n);
  started <~ WaitForStart timeout;
  if negb started then bret false else
  n <~ lift getS;
  _ <~ (if negb (is_timeout_ n) then FetchServers (client_to_scheduler_ n) else bret tt);
  bret true.

Definition ServerNode_Start (if_address : list ifaddr) (uuid : string) (timeout : Z) : B bool :=
  _ <~ ServerNode_Initialize if_address uuid;
  Start_initialized timeout.

(** The threads that are stopped and joined are those of Threads.v. *)
Definition ServerNode_Stop : M AbstractNode bool :=
  n ← getS;
  _ ← (if negb (is_already_stopped_ n) then
         _ ← modify (set_stopped true); modify (set_finish true)
       else mret tt);
  mret true.

Definition ServerNode_Finish (timeout : Z) : B bool :=
  n <~ lift getS;
  if is_already_finished_ n then bret true else
  _ <~ lift (modify (set_finished true));
  Disconnect (client_to_scheduler_ n) timeout.

(** ** WorkerNode *)
Definition WorkerNode_Initialize (uuid : string) : B unit :=
  _ <~ lift (modify (set_stopped false));
  _ <~ lift (modify (set_info (set_identity uuid WORKER)));
  _ <~ lift InitCommandHandler;
  connected <~ InitClientToScheduler cfg connect;
  lift (if negb connected then throw "Worker node init client timeout!" else mret tt).

Definition WorkerNode_Start (uuid : string) (timeout : Z) : B bool :=
  _ <~ WorkerNode_Initialize uuid;
  Start_initialized timeout.

Definition WorkerNode_Stop : M AbstractNode bool :=
  n ← getS;
  _ ← (if negb (is_already_stopped_ n) then
         _ ← modify (set_ready true);
         _ ← modify (set_timeout true);
         _ ← modify (set_finish true);
         modify (set_stopped true)
       else mret tt);
  mret true.

Definition WorkerNode_Finish (timeout : Z) : B bool :=
  n <~ lift getS;
  if is_already_finished_ n then bret true else
  _ <~ lift (modify (set_finished true));
  Disconnect (client_to_scheduler_ n) timeout.

Definition ServerNode_destructor : M AbstractNode bool := ServerNode_Stop.
Definition WorkerNode_destructor : M AbstractNode bool := WorkerNode_Stop.
End start.

(** ** Requests on a server *)

(** [request_handler_] is whether a handler is set, [handled] its calls
    (connection, meta, data) and [replies] what was sent back. *)
Record ServerNode : Type := mkServerNode {
  base : AbstractNode;
  request_handler_ : bool;
  handled : list (Z * MessageMeta * list Z);
  replies : list (Z * MessageMeta * Protos * list Z);
}.

Definition set_handler (n : ServerNode) : ServerNode :=
  mkServerNode (base n) true (handled n) (replies n).
Definition add_handled (x : Z * MessageMeta * list Z) (n : ServerNode) : ServerNode :=
  mkServerNode (base n) (request_handler_ n) (handled n ++ [x]) (replies n).
Definition add_reply (x : Z * MessageMeta * Protos * list Z) (n : ServerNode) : ServerNode :=
  mkServerNode (base n) (request_handler_ n) (handled n) (replies n ++ [x]).

(** [server_->SendMessage(conn, meta, protos, data, size)] *)
Definition server_SendMessage (conn : Z) (meta : MessageMeta) (protos : Protos)
    (data : option (list Z)) (size : Z) : M ServerNode unit :=
  match data with
  | None => throw "The pointer is null."
  | Some data =>
    if size >? zlen data then undef "read past the end of the data"
    else modify (add_reply (conn, meta, protos, ztake size data))
  end.

Definition Response (conn : Z) (meta : MessageMeta) (data : option (list Z)) (size : Z)
    : M ServerNode unit :=
  _ ← exception_if_null (bool_decide (is_Some data));
  n ← getS;
  let i := node_info_ (base n) in
  let meta := mkMessageMeta (cmd meta) (request_id meta) (node_role_ i) (i32 (rank_id_ i))
                (user_cmd meta) in
  server_SendMessage conn meta RAW data size.

Definition ProcessSendData (conn : Z) (meta : MessageMeta) (data : option (list Z)) (size : Z)
    : M ServerNode unit :=
  match data with
  | None => throw "The pointer is null."
  | Some data =>
    match buf_memcpy_s (replicate (Z.to_nat size) 0) 0 size data 0 size with
    | None => undef "read past the end of the data"
    | Some (ret, res) =>
      _ ← (if negb (ret =? 0) then throw "The memcpy_s error" else mret tt);
      n ← getS;
      if request_handler_ n then modify (add_handled (conn, meta, res))
      else throw "std::bad_function_call"
    end
  end.

Definition ProcessCollectiveSendData (conn : Z) (meta : MessageMeta) (data : option (list Z))
    (size : Z) : M ServerNode unit :=
  server_SendMessage conn meta RAW data size.

(** RunReceiveCallback when nothing comes in between its steps. *)
Definition RunReceiveCallback (meta : MessageMeta) (data : option (list Z)) (size : Z)
    : M collective unit :=
  p ← RunReceiveCallback_arrive (u32 (rank_id meta)) data size;
  match p with
  | AtCallback key output =>
    _ ← RunReceiveCallback_call key output;
    _ ← RunReceiveCallback_erase key;
    mret tt
  | _ => mret tt
  end.

Definition on_base {A} (m : M AbstractNode A) : M ServerNode A := fun n =>
  let put b := mkServerNode b (request_handler_ n) (handled n) (replies n) in
  match m (base n) with
  | Ret a b => Ret a (put b)
  | Throw e b => Throw e (put b)
  | Undef w => Undef w
  | Fuel => Fuel
  end.

(** The callback CreateTcpServer installs. *)
Definition on_request (conn : Z) (meta : MessageMeta) (data : option (list Z)) (size : Z)
    : M ServerNode unit :=
  match cmd meta with
  | SEND_DATA => ProcessSendData conn meta data size
  | COLLECTIVE_SEND_DATA =>
    _ ← ProcessCollectiveSendData conn meta data size;
    on_base (with_collective (RunReceiveCallback meta data size))
  | _ => throw "The cmd is not supported!"
  end.

(** ** Exchanges with the scheduler *)
(** Entries of different ranks do not overwrite each other. *)
Lemma foldl_add_server l m x :
  (forall y, y ∈ l -> u32 (sm_rank_id y) = u32 (sm_rank_id x) -> y = x) -> x ∈ l ->
  foldl add_server m l !! (SERVER, u32 (sm_rank_id x)) = Some (sm_ip x, u16 (sm_port x)).
Proof.
  induction l as [|y l IH] using rev_ind; intros Huniq Hx; [by apply not_elem_of_nil in Hx|].
  rewrite foldl_app. cbn. unfold add_server at 1.
  destruct (decide (u32 (sm_rank_id y) = u32 (sm_rank_id x))) as [E|Hne].
  - assert (y = x) as ->; [|by rewrite lookup_insert_eq].
    apply Huniq; [|done]. apply elem_of_app. right. by apply list_elem_of_singleton.
  - rewrite lookup_insert_ne by congruence. apply IH.
    + intros z Hz. apply Huniq, elem_of_app. by left.
    + apply elem_of_app in Hx as [Hx| ->%list_elem_of_singleton]; done.
Qed.

(** What a node learns of a server from the list of the scheduler. *)
Lemma fetched_address mgr m i info :
  wf mgr -> num_nodes mgr <= INT_MAX ->
  nodes_info_ mgr !! i = Some info -> node_role_ info = SERVER ->
  foldl add_server m (FetchServersMeta mgr) !! (SERVER, rank_id_ info) =
  Some (ip_ info, u16 (port_ info)).
Proof.
  intros Hwf Hsz Hi Hrole.
  assert (forall j x, nodes_info_ mgr !! j = Some x -> node_role_ x = SERVER ->
    u32 (rank_id_ x) = rank_id_ x) as Hu.
  { intros j x Hj Hx. destruct (rank_small SERVER _ _ mgr j x Hwf Hsz eq_refl eq_refl
      ltac:(done) (wf_servers _ Hwf) Hj Hx). apply uwrap_small. unfold in_u, INT_MAX in *. lia. }
  pose proof (foldl_add_server (FetchServersMeta mgr) m
    (mkServersMeta (rank_id_ info) (ip_ info) (port_ info))) as Hf. cbn in Hf.
  rewrite (Hu i info) in Hf by done. apply Hf.
  - intros y (j & x & Hj & Hx & ->)%(FetchServersMeta_elem _ _ Hwf Hsz). cbn.
    rewrite (Hu j x) by done. intros E.
    assert (j = i) as -> by by eapply (rt_inj _ _ _ (wf_servers _ Hwf)). congruence.
  - apply (FetchServersMeta_elem _ _ Hwf Hsz). by exists i, info.
Qed.

Section exchange.
Context `{ProtobufLaws RegisterMessage} `{ProtobufLaws RegisterRespMessage}
  `{ProtobufLaws HeartbeatMessage} `{ProtobufLaws HeartbeatRespMessage}
  `{ProtobufLaws FetchServersMessage} `{ProtobufLaws FetchServersRespMessage}
  `{ProtobufLaws FinishMessage}.
Context (cfg : ClusterConfig).

(** The response to a tracked request lets its Wait return true. *)
Lemma response_wakes c :
  let id := next_request_id_ (tracked 1 c) in
  exists c1 c2, NotifyMessageArrival id (tracked 1 c) = Ret tt c1 /\
    Wait_wake id false c1 = Ret (Some true) c2.
Proof.
  intros id. eexists _, _. split.
  - unfold NotifyMessageArrival. rewrite (bind_Ret _ _ _ _ _ (tracker_at_eq id _)). done.
  - unfold Wait_wake, Wait_poll. rewrite bind_assoc.
    rewrite (bind_Ret _ _ _ _ _ (tracker_at_eq id _)).
    unfold tracked, id. rcbn. rewrite !lookup_insert_eq. done.
Qed.

Lemma NotifyMessageArrival_returns id c : exists c1, NotifyMessageArrival id c = Ret tt c1.
Proof.
  eexists. unfold NotifyMessageArrival. by rewrite (bind_Ret _ _ _ _ _ (tracker_at_eq id c)).
Qed.

(** Without one it returns false when it times out. *)
Lemma no_response_expires c :
  exists c1, Wait_wake (next_request_id_ (tracked 1 c)) true (tracked 1 c) = Ret (Some false) c1.
Proof.
  eexists. unfold Wait_wake, Wait_poll. rewrite bind_assoc.
  rewrite (bind_Ret _ _ _ _ _ (tracker_at_eq _ _)). unfold tracked. rcbn. by rewrite !lookup_insert_eq.
Qed.

(** A response of the scheduler whose handler leaves the requests alone. *)
Lemma on_scheduler_message_wakes meta data n n1 h (m : M AbstractNode unit) :
  let id := next_request_id_ (tracked 1 (rq n)) in
  AbstractNode.handlers_ n1 !! cmd meta = Some (Some h) -> request_id meta = id ->
  rq n1 = tracked 1 (rq n) ->
  match h with
  | H_ProcessRegisterResp => m = ProcessRegisterResp data
  | H_ProcessFetchServersResp => m = ProcessFetchServersResp data
  | H_ProcessHeartbeatResp => False
  end ->
  forall n2, m n1 = Ret tt n2 -> rq n2 = rq n1 ->
  exists c3 c4, on_scheduler_message meta data n1 = Ret (Finished tt) (set_rq c3 n2) /\
    with_requests (Wait_wake id false) (set_rq c3 n2) = Ret (Some true) (set_rq c4 (set_rq c3 n2)).
Proof.
  intros id Hh Hid Hrq Hm n2 E E2. destruct (response_wakes (rq n)) as (c3 & c4 & E3 & E4).
  exists c3, c4. split.
  - unfold on_scheduler_message. rewrite (bbind_lift getS _ _ _ _ eq_refl), Hh.
    destruct h; [done| |]; subst m; erewrite bbind_lift by done; unfold lift;
      (erewrite (bind_Ret (S := AbstractNode)); [done|]); apply with_requests_Ret;
      by rewrite E2, Hrq, Hid.
  - by apply with_requests_Ret.
Qed.

(** One exchange of a node with the scheduler: [op] sends a message and waits,
    the scheduler handles the message and responds, the node handles the
    response, and [op] wakes up and goes on to [r], its return or its next
    wait. *)
Definition scheduler_exchange {A} (now conn : Z) (op : B A) (n : AbstractNode) (s : SchedulerNode)
    (n' : AbstractNode) (s' : SchedulerNode) (r : blocking A) : Prop :=
  exists req id k n1 resp n2,
    op n = Ret (Awaiting (AwaitResponse id kCommTimeoutInSeconds) k) n1 /\
    outbox n1 = outbox n ++ [req] /\
    on_message now conn (out_meta req) (Some (out_data req)) s = Ret tt s' /\
    sent s' = sent s ++ [resp] /\
    on_scheduler_message (resp_meta resp) (Some (resp_data resp)) n1 = Ret (Finished tt) n2 /\
    with_requests (Wait_wake id false) n2 = Ret (Some true) n' /\
    k true n' = Ret r n'.

Lemma next_rank_u32 role m :
  wf m -> num_nodes m < INT_MAX -> role <> SCHEDULER -> in_u 32 (next_rank role m + 1).
Proof.
  intros [_ _ [? ?] Hc _] ? ?. unfold in_u, INT_MAX in *. destruct role; cbn; done || lia.
Qed.

(** C7: registration from end to end.  The REGISTER message of a node that the
    scheduler does not know, handed to the scheduler, and the scheduler's
    response, handed to the node, enter the node, and nothing else, in the table
    of the scheduler, under the next rank of its role; they leave the node with
    that rank, and Register returns. *)
Theorem register_exchange now conn c n s :
  reachable cfg s -> num_nodes (node_manager_ s) < INT_MAX ->
  node_role_ (AbstractNode.node_info_ n) <> SCHEDULER ->
  nodes_info_ (node_manager_ s) !! node_id_ (AbstractNode.node_info_ n) = None ->
  AbstractNode.handlers_ n = NodeCommandHandlers ->
  exists n3 s1 info,
    scheduler_exchange now conn (Register (Some c)) n s n3 s1 (Finished tt) /\
    nodes_info_ (node_manager_ s1) =
      <[node_id_ (AbstractNode.node_info_ n) := info]> (nodes_info_ (node_manager_ s)) /\
    node_role_ info = node_role_ (AbstractNode.node_info_ n) /\
    rank_id_ info = next_rank (node_role_ (AbstractNode.node_info_ n)) (node_manager_ s) + 1 /\
    rank_id_ (AbstractNode.node_info_ n3) = rank_id_ info.
Proof.
  intros Hr Hsz Hrole Hnew Hh. apply reachable_inv in Hr as [Hwf _ _ _ Hsh]; [|lia].
  set (i := AbstractNode.node_info_ n) in *. set (id := next_request_id_ (tracked 1 (rq n))).
  set (r := mkRegisterMessage (ip_ i) (port_ i) (node_id_ i) (node_role_ i)).
  set (meta := with_request_id id (scheduler_meta REGISTER)).
  set (n1 := send_to c meta PROTOBUF (SerializeAsString r) (set_rq (tracked 1 (rq n)) n)).
  destruct (ProcessRegister_new now conn meta r s)
    as (s1 & rank & E1 & Hk & Hs & _ & Hwf1 & info & Hinfo & Hrank & Hri); [done..|].
  assert (in_u 32 rank) as Hb.
  { rewrite Hk. by apply next_rank_u32. }
  set (n2 := set_info (fun i => mkNodeInfo (ip_ i) (port_ i) (node_id_ i) (node_role_ i) rank) n1).
  assert (AbstractNode.handlers_ n1 !! cmd meta = Some (Some H_ProcessRegisterResp)) as Hh1.
  { change (AbstractNode.handlers_ n1) with (AbstractNode.handlers_ n). by rewrite Hh. }
  destruct (on_scheduler_message_wakes meta
    (Some (SerializeAsString (mkRegisterRespMessage (node_id_ i) rank))) n n1
    H_ProcessRegisterResp _ Hh1 eq_refl eq_refl eq_refl n2)
    as (c3 & c4 & E3 & E4).
  { unfold ProcessRegisterResp. rewrite parse_serialize, (bind_Ret getS _ n1 n1 n1 eq_refl).
    cbn [rr_node_id rr_rank_id]. rewrite bool_decide_eq_true_2 by done. cbn [negb].
    by rewrite (uwrap_small 32) by done. }
  { done. }
  eexists _, s1, info. split_and!; [eexists _, id, _, n1, _, _;
    split_and!; [| | |exact Hs|exact E3|exact E4|]|..].
  - unfold Register. rewrite (bbind_lift getS _ n n n eq_refl).
    rewrite SendMessageSync_bind by (rewrite size_serialize; lia).
    rewrite size_serialize, ztake_all by done. reflexivity.
  - done.
  - rewrite <- E1. by apply on_message_handler.
  - done.
  - done.
  - done.
  - by rewrite Hrank.
  - cbn. congruence.
Qed.

(** C8: the addresses of the servers from end to end.  The FETCH_SERVER message of
    a node handed to the scheduler, and the scheduler's response handed to the
    node, leave the node with the address of every registered server under its
    rank, and FetchServers returns. *)
Theorem fetch_exchange now conn c n s :
  reachable cfg s -> num_nodes (node_manager_ s) <= INT_MAX ->
  AbstractNode.handlers_ n = NodeCommandHandlers ->
  exists n3 s1,
    scheduler_exchange now conn (FetchServers (Some c)) n s n3 s1 (Finished tt) /\
    forall i info, nodes_info_ (node_manager_ s) !! i = Some info -> node_role_ info = SERVER ->
      nodes_address_ n3 !! (SERVER, rank_id_ info) = Some (ip_ info, u16 (port_ info)).
Proof.
  intros Hr Hsz Hh. apply reachable_inv in Hr as [Hwf _ _ _ Hsh]; [|lia].
  set (id := next_request_id_ (tracked 1 (rq n))).
  set (meta := with_request_id id (scheduler_meta FETCH_SERVER)).
  set (d := SerializeAsString (mkFetchServersMessage (node_id_ (AbstractNode.node_info_ n)))).
  set (n1 := send_to c meta PROTOBUF d (set_rq (tracked 1 (rq n)) n)).
  set (servers := FetchServersMeta (node_manager_ s)).
  assert (AbstractNode.handlers_ n1 !! cmd meta = Some (Some H_ProcessFetchServersResp)) as Hh1.
  { change (AbstractNode.handlers_ n1) with (AbstractNode.handlers_ n). by rewrite Hh. }
  destruct (on_scheduler_message_wakes meta
    (Some (SerializeAsString (mkFetchServersRespMessage servers))) n n1
    H_ProcessFetchServersResp _ Hh1 eq_refl eq_refl eq_refl
    (set_addresses (fun m => foldl add_server m servers) n1)) as (c3 & c4 & E3 & E4).
  { unfold ProcessFetchServersResp. by rewrite parse_serialize. }
  { done. }
  eexists _, _. split; [eexists _, id, _, n1, (mkResponse conn meta PROTOBUF _), _;
    split_and!; [| | | |exact E3|exact E4|]|..].
  - unfold FetchServers. rewrite (bbind_lift getS _ n n n eq_refl).
    rewrite SendMessageSync_bind by (rewrite size_serialize; lia).
    rewrite size_serialize, ztake_all by done. reflexivity.
  - done.
  - unfold on_message. rewrite (bind_Ret getS _ s s s eq_refl), Hsh.
    change (all_handlers !! _) with (Some H_ProcessFetchServers). unfold ProcessFetchServers.
    rewrite bool_decide_eq_true_2 by done.
    rewrite (bind_Ret (exception_if_null true) _ s tt s eq_refl), (bind_Ret getS _ s s s eq_refl).
    reflexivity.
  - done.
  - done.
  - intros i info Hi Hrole.
    change (nodes_address_ _) with (foldl add_server (nodes_address_ n) servers).
    by eapply fetched_address.
Qed.

(** *** The end of a cluster *)

(** The response to FINISH has no handler and only wakes its request. *)
Lemma finish_response_wakes meta data n n1 :
  let id := next_request_id_ (tracked 1 (rq n)) in
  AbstractNode.handlers_ n1 !! cmd meta = Some None -> request_id meta = id ->
  rq n1 = tracked 1 (rq n) ->
  exists c3 c4, on_scheduler_message meta data n1 = Ret (Finished tt) (set_rq c3 n1) /\
    with_requests (Wait_wake id false) (set_rq c3 n1) = Ret (Some true) (set_rq c4 (set_rq c3 n1)).
Proof.
  intros id Hh Hid Hrq. destruct (response_wakes (rq n)) as (c3 & c4 & E3 & E4).
  exists c3, c4. split; [|by apply with_requests_Ret].
  unfold on_scheduler_message. rewrite (bbind_lift getS _ _ _ _ eq_refl), Hh.
  unfold bbind at 1, mbind at 1, M_bind at 1. cbn [bret mret M_ret continue]. unfold lift.
  erewrite (bind_Ret (S := AbstractNode)); [done|]. apply with_requests_Ret. by rewrite Hrq, Hid.
Qed.

(** The first half of Finish: the scheduler notes the node, which then waits for
    its [is_finish_]. *)
Lemma finish_handshake now conn c finish timeout n s :
  finish = ServerNode_Finish \/ finish = WorkerNode_Finish ->
  Scheduler.handlers_ s = all_handlers -> AbstractNode.handlers_ n = NodeCommandHandlers ->
  client_to_scheduler_ n = Some c -> is_already_finished_ n = false ->
  exists n3 s1,
    scheduler_exchange now conn (finish timeout) n s n3 s1
      (Awaiting (AwaitFinish timeout) (fun r => bret r)) /\
    node_manager_ s1 = set_finish_nodes (fun l => {[node_id_ (AbstractNode.node_info_ n)]} ∪ l)
      (node_manager_ s) /\
    Scheduler.handlers_ s1 = all_handlers /\ AbstractNode.handlers_ n3 = NodeCommandHandlers /\
    client_to_scheduler_ n3 = Some c /\ AbstractNode.is_finish_ n3 = AbstractNode.is_finish_ n /\
    AbstractNode.node_info_ n3 = AbstractNode.node_info_ n.
Proof.
  intros Hfin Hsh Hh Hc Hf. set (n0 := set_finished true n).
  set (id := next_request_id_ (tracked 1 (rq n))).
  set (meta := with_request_id id (scheduler_meta FINISH)).
  set (d := SerializeAsString (mkFinishMessage (node_id_ (AbstractNode.node_info_ n)))).
  set (n1 := send_to c meta PROTOBUF d (set_rq (tracked 1 (rq n)) n0)).
  destruct (finish_response_wakes meta (Some d) n n1) as (c3 & c4 & E3 & E4); [|done|done|].
  { change (AbstractNode.handlers_ n1) with (AbstractNode.handlers_ n). by rewrite Hh. }
  eexists _, _. split; [eexists _, id, _, n1, (mkResponse conn meta PROTOBUF d), _;
    split_and!; [| | | |exact E3|exact E4|]|..].
  - replace (finish timeout) with (ServerNode_Finish timeout) by (by destruct Hfin as [->| ->]).
    unfold ServerNode_Finish. rewrite (bbind_lift getS _ n n n eq_refl), Hf, Hc.
    rewrite (bbind_lift (modify (set_finished true)) _ n tt n0 eq_refl). unfold Disconnect.
    rewrite (bbind_lift getS _ n0 n0 n0 eq_refl).
    rewrite SendMessageSync_bind by (rewrite size_serialize; lia).
    rewrite size_serialize, ztake_all by done. reflexivity.
  - done.
  - unfold on_message. rewrite (bind_Ret getS _ s s s eq_refl), Hsh.
    change (all_handlers !! _) with (Some H_ProcessFinish). unfold ProcessFinish.
    rewrite bool_decide_eq_true_2 by done. cbn [default from_option id out_data].
    erewrite bind_Ret by reflexivity. erewrite bind_Ret by reflexivity. reflexivity.
  - done.
  - done.
  - unfold d. cbn. by rewrite parse_serialize.
Qed.

Lemma Heartbeat_eq c b n :
  let id := next_request_id_ (tracked 1 (rq n)) in
  let d := SerializeAsString (mkHeartbeatMessage (node_id_ (AbstractNode.node_info_ n)) b) in
  Heartbeat (Some c) b n = Ret (Awaiting (AwaitResponse id kCommTimeoutInSeconds) (fun _ => bret true))
    (send_to c (with_request_id id (scheduler_meta HEARTBEAT)) PROTOBUF d (set_rq (tracked 1 (rq n)) n)).
Proof.
  intros id d. unfold Heartbeat. rewrite (bbind_lift getS _ n n n eq_refl).
  rewrite SendMessageSync_bind by (rewrite size_serialize; lia). by rewrite size_serialize, ztake_all.
Qed.

(** A response that says the cluster has finished: its handler sends a heartbeat
    of its own and waits, and is done with [is_finish_] set whatever comes. *)
Lemma finish_heartbeat_resp d attrs n c :
  ParseFromArray d = mkHeartbeatRespMessage attrs ->
  attrs !! NodeAttribute_num IS_CLUSTER_FINISH = Some true ->
  (forall a, is_Some (attrs !! NodeAttribute_num a)) -> client_to_scheduler_ n = Some c ->
  exists k n1, ProcessHeartbeatResp (Some d) n =
      Ret (Awaiting (AwaitResponse (next_request_id_ (tracked 1 (rq n))) kCommTimeoutInSeconds) k) n1 /\
    rq n1 = tracked 1 (rq n) /\ AbstractNode.is_finish_ n1 = AbstractNode.is_finish_ n /\
    forall b n2, exists n3, k b n2 = Ret (Finished tt) n3 /\ AbstractNode.is_finish_ n3 = true.
Proof.
  intros Hd Hf Ha Hc. unfold ProcessHeartbeatResp. rewrite Hd. unfold attribute_at.
  cbn [node_attribute]. rewrite Hf.
  destruct (Ha IS_CLUSTER_READY) as [ready ->], (Ha IS_CLUSTER_TIMEOUT) as [timeout ->],
    (Ha IS_NODE_TIMEOUT) as [node_timeout ->].
  do 4 erewrite bbind_lift by reflexivity. cbn [client_to_scheduler_ set_ready]. rewrite Hc.
  erewrite bbind_Awaiting; [|apply bbind_Awaiting, Heartbeat_eq].
  eexists _, _. split; [reflexivity|]. split; [done|]. split; [done|]. intros b n2.
  erewrite bbind_Finished by reflexivity.
  unfold lift, mbind, M_bind, modify, getS. ncbn. cbn [mret M_ret].
  destruct timeout, node_timeout, (on_node_event_message_ n2) eqn:E; cbn; rewrite ?E; by eexists.
Qed.

(** C9: the end of a cluster from end to end.  The last node to finish calls
    Finish: the scheduler notes it, the next turn of its timer ends the
    scheduler, and the response to the node's next heartbeat says so.  The
    handler of that response sends a heartbeat of its own from the thread that
    would have to receive the answer, so it waits until its timeout; then the
    node has finished too, and Finish returns true. *)
Theorem finish_exchange now conn c finish timeout now' t n s :
  finish = ServerNode_Finish \/ finish = WorkerNode_Finish ->
  reachable cfg s -> num_nodes (node_manager_ s) <= INT_MAX ->
  AbstractNode.handlers_ n = NodeCommandHandlers -> client_to_scheduler_ n = Some c ->
  is_already_finished_ n = false -> AbstractNode.is_finish_ n = false ->
  (forall i u, heartbeats_ (node_manager_ s) !! i = Some u -> now' <= u + heartbeat_timeout_ cfg) ->
  let finished := {[node_id_ (AbstractNode.node_info_ n)]} ∪ finish_nodes_id_ (node_manager_ s) in
  Z.of_nat (size finished) <= INT_MAX -> finish_reached (node_manager_ s) finished = true ->
  exists n3 s1 k s2 req id1 k1 n4 s3 resp id2 k2 n5 n6 n7,
    scheduler_exchange now conn (finish timeout) n s n3 s1 (Awaiting (AwaitFinish timeout) k) /\
    timer_after_sleep cfg now' s1 = Ret tt s2 /\ Scheduler.is_finish_ s2 = true /\
    heartbeat_turn cfg t (Some c) n3 = Ret (Awaiting (AwaitResponse id1 kCommTimeoutInSeconds) k1) n4 /\
    outbox n4 = outbox n3 ++ [req] /\
    on_message now' conn (out_meta req) (Some (out_data req)) s2 = Ret tt s3 /\
    sent s3 = sent s2 ++ [resp] /\
    on_scheduler_message (resp_meta resp) (Some (resp_data resp)) n4 =
      Ret (Awaiting (AwaitResponse id2 kCommTimeoutInSeconds) k2) n5 /\
    AbstractNode.is_finish_ n5 = false /\
    with_requests (Wait_wake id2 true) n5 = Ret (Some false) n6 /\
    k2 false n6 = Ret (Finished tt) n7 /\ AbstractNode.is_finish_ n7 = true /\
    k true n7 = Ret (Finished true) n7.
Proof.
  intros Hfinish Hr Hsz Hh Hc Hf Hnf Hfresh finished Hfin Hreached.
  apply reachable_inv in Hr as [Hwf _ _ _ Hsh]; [|done].
  destruct (finish_handshake now conn c finish timeout n s Hfinish Hsh Hh Hc Hf)
    as (n3 & s1 & Ex & Hm & Hsh1 & Hh3 & Hc3 & Hf3 & Hi3).
  destruct (timer_finishes cfg now' s1) as (s2 & Et & Hs2 & Hcf & Hwf2 & Hsh2);
    rewrite ?Hm; try done; [by eapply wf_ext; [..|exact Hwf]|].
  set (id1 := next_request_id_ (tracked 1 (rq n3))).
  set (meta := with_request_id id1 (scheduler_meta HEARTBEAT)).
  destruct (ProcessHeartbeat_reports now' conn meta (node_id_ (AbstractNode.node_info_ n3)) s2 Hwf2)
    as (s3 & attrs & E3 & Hsent & Hattr & Hall).
  rewrite Hcf in Hattr. set (n4 := send_to c meta PROTOBUF (SerializeAsString (mkHeartbeatMessage
    (node_id_ (AbstractNode.node_info_ n3)) false)) (set_rq (tracked 1 (rq n3)) n3)).
  destruct (finish_heartbeat_resp (SerializeAsString (mkHeartbeatRespMessage attrs)) attrs n4 c)
    as (k2 & n5 & E5 & Hrq5 & Hf5 & Hk2); [apply parse_serialize|done..|].
  destruct (no_response_expires (rq n4)) as (c6 & E6).
  destruct (Hk2 false (set_rq c6 n5)) as (n7 & E7 & Hf7).
  destruct (NotifyMessageArrival_returns id1 (rq n7)) as (c8 & E8).
  eexists n3, s1, _, s2, _, id1, _, n4, s3, _, _, _, n5, _, _.
  split_and!; [exact Ex|exact Et|exact Hs2| | | |exact Hsent| | | | | |].
  - unfold heartbeat_turn. rewrite (bbind_lift getS _ n3 n3 n3 eq_refl), Hf3, Hnf.
    by erewrite bbind_Awaiting by apply Heartbeat_eq.
  - done.
  - rewrite <- E3. apply on_message_handler; [congruence|done].
  - unfold on_scheduler_message. rewrite (bbind_lift getS _ n4 n4 n4 eq_refl).
    change (AbstractNode.handlers_ n4) with (AbstractNode.handlers_ n3). rewrite Hh3.
    change (NodeCommandHandlers !! _) with (Some (Some H_ProcessHeartbeatResp)). cbv beta iota.
    by erewrite bbind_Awaiting by exact E5.
  - rewrite Hf5. change (AbstractNode.is_finish_ n4) with (AbstractNode.is_finish_ n3). congruence.
  - apply with_requests_Ret. rewrite Hrq5. exact E6.
  - cbv beta. erewrite bbind_Finished by exact E7. unfold lift.
    by erewrite (bind_Ret (S := AbstractNode)) by (apply with_requests_Ret; exact E8).
  - done.
  - done.
Qed.
End exchange.

(** ** A request from end to end *)
Section request.
Context (cfg : ClusterConfig) (connect : client -> bool).

(** The tables of a fresh request with the callback of Send_output, after its
    only response. *)
Lemma one_response c o r meta reply :
  let id := next_request_id_ (tracked 1 c) in
  let c1 := set_message_callbacks (insert id (TakeOne r o)) (tracked 1 c) in
  request_id meta = id -> u32 (rank_id meta) = r -> receive_messages_ c !! id = None ->
  zlen reply <= SECUREC_MEM_MAX_LEN ->
  exists c2, (_ ← ProcessSendDataResp meta (Some reply) (zlen reply);
              RunMessageCallback (request_id meta)) c1 = Ret tt c2 /\
    outs c2 = <[o := [Some reply]]> (outs c) /\ message_tracker_ c2 !! id = Some (1, 0).
Proof.
  intros id c1 Hid Hr Hnone Hlen.
  set (c2 := set_received (insert id (<[r := Some reply]> ∅)) c1).
  assert (ProcessSendDataResp meta (Some reply) (zlen reply) c1 = Ret tt c2) as E1.
  { rewrite ProcessSendDataResp_Ret, Hid, Hr by done. unfold c2, c1. rcbn.
    change (receive_messages_ (tracked 1 c)) with (receive_messages_ c). by rewrite Hnone. }
  rewrite (bind_Ret _ _ _ _ _ E1), Hid.
  assert (message_tracker_ c2 !! id = Some (1, 0)) as Ht by apply lookup_insert_eq.
  assert (message_callbacks_ c2 !! id = Some (TakeOne r o)) as Hcb by apply lookup_insert_eq.
  assert (receive_messages_ c2 !! id = Some (<[r := Some reply]> ∅)) as Hrm
    by apply lookup_insert_eq.
  assert (id ∈ live c2) as Hlive by (apply elem_of_union_l; by apply elem_of_singleton).
  assert (set_tracker (insert id (1, 0)) c2 = c2) as Hid2.
  { destruct c2; unfold set_tracker; rcbn. by rewrite insert_id. }
  unfold RunMessageCallback. erewrite (bind_Ret _ _ c2 (AtRun id (TakeOne r o)) c2); cycle 1.
  { unfold RunMessageCallback_check, CheckMessageTrack. rewrite bind_assoc.
    rewrite (bind_Ret _ _ _ _ _ (tracker_at_eq id c2)), Ht.
    cbn [default from_option Datatypes.id]. rewrite Hid2.
    rewrite (bind_Ret (mret _) _ c2 _ c2 eq_refl), (bind_Ret getS _ c2 c2 c2 eq_refl), Hcb. done. }
  unfold RunMessageCallback_call, run_callback. rewrite !bind_assoc.
  rewrite (bind_Ret getS _ c2 c2 c2 eq_refl), bool_decide_eq_true_2, Hrm by done.
  eexists. split; [reflexivity|]. rcbn. split; [|done].
  unfold res_at. cbn [default from_option Datatypes.id]. by rewrite lookup_insert_eq.
Qed.
(** Sending a request with an output to one rank. *)
Lemma Send_output_eq role r message command o timeout n c :
  ValidateRankId cfg role r = true -> reach connect n r = Some c ->
  let id := next_request_id_ (tracked 1 (rq n)) in
  exists n1, Send_output cfg connect role r (Some message) (zlen message) command (Some o) timeout n
      = Ret (Awaiting (AwaitResponse id timeout) (fun b => bret b)) n1 /\
    outbox n1 = outbox n ++ [mkOutgoing c (data_meta n SEND_DATA id command) RAW message] /\
    rq n1 = set_message_callbacks (insert id (TakeOne r o)) (tracked 1 (rq n)).
Proof.
  intros Hv Hc id.
  set (n0 := set_rq (set_message_callbacks (insert id (TakeOne r o)) (tracked 1 (rq n))) n).
  destruct (GetOrCreateTcpClient_reach connect n0 r c Hc) as (n1 & E1 & (_ & _ & Hrq & _) & Hout).
  exists (send_to c (data_meta n SEND_DATA id command) RAW message n1). split_and!.
  - unfold Send_output. rewrite bool_decide_eq_true_2 by done.
    rewrite (bbind_lift (exception_if_null true) _ n tt n eq_refl).
    unfold check_rank. rewrite Hv. rewrite (bbind_lift (mret tt) _ n tt n eq_refl).
    rewrite (bbind_lift _ _ _ _ _ (track_eq 1 n)).
    erewrite bbind_lift; [done|]. apply leaving_Ret.
    rewrite (bind_Ret _ _ _ tt n0) by done. rewrite (bind_Ret getS _ n0 n0 n0 eq_refl).
    rewrite (bind_Ret _ _ _ _ _ E1), client_SendMessage_eq by done.
    by rewrite ztake_all by done.
  - unfold send_to. ncbn. by rewrite Hout.
  - exact Hrq.
Qed.

(** The message of a Send with an output goes to the server, the reply of its
    handler comes back. *)
Lemma request_exchange role r message command o timeout n c s conn reply :
  let id := next_request_id_ (tracked 1 (rq n)) in
  ValidateRankId cfg role r = true -> reach connect n r = Some c -> 0 <= r <= INT_MAX ->
  receive_messages_ (rq n) !! id = None ->
  0 < zlen message <= SECUREC_MEM_MAX_LEN -> zlen reply <= SECUREC_MEM_MAX_LEN ->
  request_handler_ s = true -> rank_id_ (AbstractNode.node_info_ (base s)) = r ->
  exists req n1 s1 s2 rmeta n2 c3,
    Send_output cfg connect role r (Some message) (zlen message) command (Some o) timeout n
      = Ret (Awaiting (AwaitResponse id timeout) (fun b => bret b)) n1 /\
    outbox n1 = outbox n ++ [req] /\ out_client req = c /\
    on_request conn (out_meta req) (Some (out_data req)) (zlen (out_data req)) s = Ret tt s1 /\
    handled s1 = handled s ++ [(conn, out_meta req, message)] /\
    Response conn (out_meta req) (Some reply) (zlen reply) s1 = Ret tt s2 /\
    replies s2 = replies s ++ [(conn, rmeta, RAW, reply)] /\
    on_server_message rmeta (Some reply) (zlen reply) n1 = Ret tt n2 /\
    outs (rq n2) !! o = Some [Some reply] /\ Wait_wake id false (rq n2) = Ret (Some true) c3.
Proof.
  intros id Hv Hc Hr Hnone Hm Hrep Hh Hrank.
  destruct (Send_output_eq role r message command o timeout n c Hv Hc) as (n1 & E1 & Hout & Hrq).
  set (i := AbstractNode.node_info_ (base s)) in *.
  set (rmeta := mkMessageMeta SEND_DATA id (node_role_ i) (i32 r) command).
  destruct (one_response (rq n) o r rmeta reply) as (c2 & E2 & Ho & Ht); [done| |done..|].
  { cbn. unfold INT_MAX in Hr. rewrite swrap_small by (unfold in_s; lia || done).
    apply uwrap_small. unfold in_u. lia. }
  change (message_tracker_ c2 !! id = Some (1, 0)) in Ht.
  set (c2' := set_tracker (insert id (1, 1)) c2).
  assert (NotifyMessageArrival id c2 = Ret tt c2') as E3.
  { unfold NotifyMessageArrival. rewrite (bind_Ret _ _ _ _ _ (tracker_at_eq id c2)), Ht.
    cbn [default from_option Datatypes.id fst snd]. change (u32 (0 + 1)) with 1.
    unfold modify, c2', set_tracker. rcbn. by rewrite insert_insert_eq. }
  exists (mkOutgoing c (data_meta n SEND_DATA id command) RAW message), n1,
    (add_handled (conn, data_meta n SEND_DATA id command, message) s),
    (add_reply (conn, rmeta, RAW, reply)
       (add_handled (conn, data_meta n SEND_DATA id command, message) s)), rmeta,
    (set_rq c2' (set_rq c2 n1)). eexists.
  split_and!; try done.
  - unfold on_request, ProcessSendData. cbn [cmd out_meta out_data data_meta].
    rewrite buf_copy_all by done. rewrite (bind_Ret (mret tt) _ s tt s eq_refl).
    by rewrite (bind_Ret getS _ s s s eq_refl), Hh.
  - unfold Response. rewrite bool_decide_eq_true_2 by done.
    rewrite (bind_Ret (exception_if_null true) _ _ tt _ eq_refl), (bind_Ret getS _ _ _ _ eq_refl).
    unfold server_SendMessage. destruct (Z.gtb_spec (zlen reply) (zlen reply)); [lia|].
    rewrite ztake_all by done. change (AbstractNode.node_info_ (base _)) with i.
    by rewrite Hrank.
  - unfold on_server_message. cbn [cmd]. erewrite (bind_Ret (S := AbstractNode)); cycle 1.
    { apply with_requests_Ret. rewrite Hrq. exact E2. }
    by apply with_requests_Ret.
  - ncbn. unfold c2'. rcbn. by rewrite Ho, lookup_insert_eq.
  - unfold Wait_wake, Wait_poll. rewrite bind_assoc. ncbn.
    rewrite (bind_Ret _ _ _ _ _ (tracker_at_eq id _)). unfold c2'. rcbn.
    rewrite lookup_insert_eq. reflexivity.
Qed.

(** C6: a request from end to end.  The message of a Send with an output to rank r,
    handed to the server of that rank, reaches its request handler unchanged;
    the handler's response, handed to the sender, ends up in the output of
    the Send, whose Wait then returns true. *)
Theorem request_roundtrip role r message command o timeout n c s conn reply :
  let id := next_request_id_ (tracked 1 (rq n)) in
  ValidateRankId cfg role r = true -> reach connect n r = Some c -> 0 <= r <= INT_MAX ->
  receive_messages_ (rq n) !! id = None ->
  0 < zlen message <= SECUREC_MEM_MAX_LEN -> zlen reply <= SECUREC_MEM_MAX_LEN ->
  request_handler_ s = true -> rank_id_ (AbstractNode.node_info_ (base s)) = r ->
  exists req n1 s1 s2 rmeta n2 c3,
    Send_output cfg connect role r (Some message) (zlen message) command (Some o) timeout n
      = Ret (Awaiting (AwaitResponse id timeout) (fun b => bret b)) n1 /\
    outbox n1 = outbox n ++ [req] /\ out_client req = c /\
    on_request conn (out_meta req) (Some (out_data req)) (zlen (out_data req)) s = Ret tt s1 /\
    handled s1 = handled s ++ [(conn, out_meta req, message)] /\
    Response conn (out_meta req) (Some reply) (zlen reply) s1 = Ret tt s2 /\
    replies s2 = replies s ++ [(conn, rmeta, RAW, reply)] /\
    on_server_message rmeta (Some reply) (zlen reply) n1 = Ret tt n2 /\
    outs (rq n2) !! o = Some [Some reply] /\ Wait_wake id false (rq n2) = Ret (Some true) c3.
Proof. apply request_exchange. Qed.
End request.

(** ** Examples *)
Section examples.
Import ExampleEncoding.

(** A worker after Initialize, before it registers. *)
Definition example_worker : AbstractNode :=
  set_info (set_identity "w" WORKER)
    (set_handlers (fun _ => NodeCommandHandlers) AbstractNode_init).

(** The scheduler once a server has registered. *)
Definition one_server : SchedulerNode := Eval vm_compute in
  after (on_message 10 5 (Scheduler.example_meta REGISTER)
    (Some (SerializeAsString (mkRegisterMessage "10.0.0.1" 80 "s" SERVER)))) fresh_scheduler.

Lemma one_server_reachable : reachable example_config one_server.
Proof.
  apply started_reachable.
  eapply (started_message _ 10 5 (Scheduler.example_meta REGISTER)
    (Some (SerializeAsString (mkRegisterMessage "10.0.0.1" 80 "s" SERVER)))); [apply fresh_started|].
  vm_compute. reflexivity.
Qed.

(** A second server after Initialize, before it registers. *)
Definition second_server : AbstractNode :=
  set_info (set_identity "t" SERVER)
    (set_handlers (fun _ => NodeCommandHandlers) AbstractNode_init).

Lemma register_exchange_witness :
  exists n3 s1 info,
    scheduler_exchange 10 5 (Register (Some ("127.0.0.1"%string, 8080))) second_server
      one_server n3 s1 (Finished tt) /\
    nodes_info_ (node_manager_ s1) = <["t"%string := info]> (nodes_info_ (node_manager_ one_server)) /\
    node_role_ info = SERVER /\ rank_id_ info = 1 /\
    rank_id_ (AbstractNode.node_info_ n3) = rank_id_ info.
Proof.
  apply (register_exchange example_config 10 5 ("127.0.0.1"%string, 8080) second_server one_server).
  - apply one_server_reachable.
  - vm_compute. reflexivity.
  - discriminate.
  - vm_compute. reflexivity.
  - reflexivity.
Defined.

(** A cluster of one worker, registered, when it finishes. *)
Definition last_worker : AbstractNode :=
  AbstractNode.set_client (Some ("127.0.0.1"%string, 8080)) example_worker.

Lemma finish_exchange_witness :
  exists n3 s1 k s2,
    scheduler_exchange 20 5 (WorkerNode_Finish 30) last_worker ready_s1 n3 s1 (Awaiting (AwaitFinish 30) k) /\
    timer_after_sleep ready_config 21 s1 = Ret tt s2 /\ Scheduler.is_finish_ s2 = true.
Proof.
  destruct (finish_exchange ready_config 20 5 ("127.0.0.1"%string, 8080) WorkerNode_Finish 30 21 22
    last_worker ready_s1)
    as (n3 & s1 & k & s2 & _ & _ & _ & _ & _ & _ & _ & _ & _ & _ & _ & H1 & H2 & H3 & _).
  - right. reflexivity.
  - apply started_reachable, ready_s1_started.
  - vm_compute. discriminate.
  - reflexivity.
  - reflexivity.
  - reflexivity.
  - reflexivity.
  - intros i u. change (heartbeats_ (node_manager_ ready_s1)) with ({["w"%string := 10]} : gmap string Z).
    intros [_ <-]%lookup_singleton_Some. discriminate.
  - vm_compute. discriminate.
  - vm_compute. reflexivity.
  - exists n3, s1, k, s2. split; [exact H1|]. split; [exact H2|exact H3].
Defined.

Lemma fetch_exchange_witness :
  exists n3, nodes_address_ n3 !! (SERVER, 0) = Some ("10.0.0.1"%string, 80).
Proof.
  destruct (fetch_exchange example_config 20 5 ("127.0.0.1"%string, 8080) example_worker one_server)
    as (n3 & _ & _ & H).
  - apply one_server_reachable.
  - vm_compute. discriminate.
  - reflexivity.
  - exists n3. apply (H "s"%string (mkNodeInfo "10.0.0.1" 80 "s" SERVER 0)); vm_compute; reflexivity.
Defined.

(** A server of rank 1 with a handler. *)
Definition example_server : ServerNode :=
  mkServerNode (set_info (fun _ => mkNodeInfo "10.0.0.2" 90 "s" SERVER 1) AbstractNode_init) true [] [].

Lemma request_roundtrip_witness :
  exists n2 c3, outs (rq n2) !! 4 = Some [Some [8; 9]] /\
    Wait_wake 1 false (rq n2) = Ret (Some true) c3.
Proof.
  destruct (request_roundtrip example_cfg (fun _ => true) SERVER 1 [5; 6] 0 4 3 example_node
    ("10.0.0.2"%string, 90) example_server 7 [8; 9])
    as (_ & _ & _ & _ & _ & n2 & c3 & _ & _ & _ & _ & _ & _ & _ & _ & Ho & Hw).
  - reflexivity.
  - reflexivity.
  - split; discriminate.
  - reflexivity.
  - split; [reflexivity|discriminate].
  - discriminate.
  - reflexivity.
  - reflexivity.
  - exists n2, c3. split; [exact Ho|exact Hw].
Defined.
End examples.
