(* ===== verification/Threads.v ===== *)
(** * The threads of a node

    src/even-http/ps/core: server_node.cc, worker_node.cc, scheduler_node.cc and
    abstract_node.cc, with the event loops of tcp_server.cc and tcp_client.cc.
    Start creates the threads of a node: the one that runs the loop of its TCP
    server, the one that runs the loop of its client to the scheduler, and the
    timer (the heartbeats of a node, the cluster state of the scheduler).  Stop
    ends and joins them.  A call is the list of statements it has still to
    execute; between any two of them the other threads may take steps.  What the
    messages carry is the subject of AbstractNode, Cluster and Scheduler; here a
    callback is what it does to the flags that the threads share.

    event_base_loopbreak and event_base_dispatch are libevent's: a loop that is
    told to break ends after the callback it is in, and starting a loop forgets
    what it was told before.  std::thread::join waits for the end of the thread,
    raises when a thread joins itself or one that was joined, and is undefined
    through a null pointer. *)
From S2P Require Import Prelude.
#[local] Open Scope Z_scope.

Inductive NodeKind : Set := Server | Worker | Scheduler.
#[global] Instance NodeKind_eq_dec : EqDecision NodeKind.
Proof. solve_decision. Defined.

(** A thread that calls Start or Stop: one of the program, or the one in which
    the client to the scheduler runs its callbacks. *)
Inductive caller : Set := Main | ClientThread.
#[global] Instance caller_eq_dec : EqDecision caller.
Proof. solve_decision. Defined.

(** heart_beat_thread_ and update_state_thread_: before the test of the loop or
    in a turn of it. *)
Inductive timer_state : Set := TimerNull | TimerTest | TimerTurn | TimerEnded | TimerJoined.
(** server_thread_, scheduler_thread_ and client_to_scheduler_thread_: created
    and not yet in the loop, waiting for events or in a callback. *)
Inductive loop_state : Set :=
| LoopNull | LoopCreated | LoopWaiting | LoopCallback | LoopEnded | LoopJoined.

(** The thread of an event loop, the flag of its base that event_base_got_break
    reads, and is_stop_ of the TcpServer or TcpClient. *)
Record event_loop : Set := mkLoop { at_ : loop_state; event_break : bool; is_stop_ : bool }.
Definition loop_null : event_loop := mkLoop LoopNull false true.

Record node : Set := mkNode {
  is_ready_ : bool;
  is_finish_ : bool;
  is_timeout_ : bool;
  is_already_stopped_ : bool;
  is_connected_ : bool; (* of client_to_scheduler_ *)
  timer : timer_state;
  client : event_loop;
  server : event_loop;
}.
Definition Node_init : node := mkNode false false false true false TimerNull loop_null loop_null.

Definition set_ready (b : bool) (n : node) : node :=
  mkNode b (is_finish_ n) (is_timeout_ n) (is_already_stopped_ n) (is_connected_ n) (timer n) (client n) (server n).
Definition set_finish (n : node) : node :=
  mkNode (is_ready_ n) true (is_timeout_ n) (is_already_stopped_ n) (is_connected_ n) (timer n) (client n) (server n).
Definition set_timeout (b : bool) (n : node) : node :=
  mkNode (is_ready_ n) (is_finish_ n) b (is_already_stopped_ n) (is_connected_ n) (timer n) (client n) (server n).
Definition set_stopped (b : bool) (n : node) : node :=
  mkNode (is_ready_ n) (is_finish_ n) (is_timeout_ n) b (is_connected_ n) (timer n) (client n) (server n).
Definition set_connected (b : bool) (n : node) : node :=
  mkNode (is_ready_ n) (is_finish_ n) (is_timeout_ n) (is_already_stopped_ n) b (timer n) (client n) (server n).
Definition set_timer (t : timer_state) (n : node) : node :=
  mkNode (is_ready_ n) (is_finish_ n) (is_timeout_ n) (is_already_stopped_ n) (is_connected_ n) t (client n) (server n).
Definition set_client (l : event_loop) (n : node) : node :=
  mkNode (is_ready_ n) (is_finish_ n) (is_timeout_ n) (is_already_stopped_ n) (is_connected_ n) (timer n) l (server n).
Definition set_server (l : event_loop) (n : node) : node :=
  mkNode (is_ready_ n) (is_finish_ n) (is_timeout_ n) (is_already_stopped_ n) (is_connected_ n) (timer n) (client n) l.

(** ** Statements *)
Inductive op : Set :=
| CreateTcpServer (* Init of the server and its thread *)
| CreateClient (* Init of the client to the scheduler and its thread *)
| WaitConnected
| Register
| StartTimer (* StartHeartbeatTimer, StartUpdateClusterStateTimer *)
| WaitForStart
| FetchServers
| SetStopped (b : bool) | SetFinish | SetReady | SetTimeout
| JoinTimer | StopClient | StopConnected | JoinClient | StopServer | JoinServer.
#[global] Instance op_eq_dec : EqDecision op.
Proof. solve_decision. Defined.

Definition Start (k : NodeKind) : list op :=
  match k with
  | Server => [CreateTcpServer; SetStopped false; CreateClient; WaitConnected; Register; StartTimer;
               WaitForStart; FetchServers]
  | Worker => [SetStopped false; CreateClient; WaitConnected; Register; StartTimer; WaitForStart;
               FetchServers]
  | Scheduler => [CreateTcpServer; SetStopped false; StartTimer; WaitForStart]
  end.

(** The body of Stop, under the test of is_already_stopped_. *)
Definition ServerNode_Stop : list op :=
  [SetStopped true; SetFinish; JoinTimer; StopClient; StopConnected; JoinClient; StopServer; JoinServer].
Definition WorkerNode_Stop : list op :=
  [SetReady; SetTimeout; SetFinish; JoinTimer; StopClient; StopConnected; JoinClient; SetStopped true].
Definition SchedulerNode_Stop : list op :=
  [SetStopped true; JoinTimer; StopServer; JoinServer; SetReady].
Definition Stop (k : NodeKind) : list op :=
  match k with
  | Server => ServerNode_Stop | Worker => WorkerNode_Stop | Scheduler => SchedulerNode_Stop
  end.

Inductive result : Set :=
| Done (n : node)
| Leaves (n : node) (* returns false *)
| Blocks
| Raises (* an exception leaves the call *)
| Undefined.

(** TcpServer::Stop and TcpClient::Stop, through a pointer that may be null. *)
Definition loop_Stop (l : event_loop) : option event_loop :=
  match at_ l with
  | LoopNull => None
  | _ => Some (if event_break l then mkLoop (at_ l) true true
               else if negb (is_stop_ l) then mkLoop (at_ l) true true else l)
  end.

(** [own] is whether the thread is the one that joins. *)
Definition loop_join (own : bool) (l : event_loop) (k : event_loop -> node) : result :=
  match at_ l with
  | LoopNull => Undefined
  | LoopJoined => Raises
  | LoopEnded => Done (k (mkLoop LoopJoined (event_break l) (is_stop_ l)))
  | _ => if own then Raises else Blocks
  end.

(** [ok]: whether what the statement waits for came in time, where it waits for
    the scheduler. *)
Definition exec (me : caller) (ok : bool) (o : op) (n : node) : result :=
  match o with
  | CreateTcpServer => Done (set_server (mkLoop LoopCreated false false) n)
  | CreateClient => Done (set_connected false (set_client (mkLoop LoopCreated false false) n))
  | WaitConnected => if ok then if is_connected_ n then Done n else Blocks else Raises
  | Register => if ok then Done n else Raises
  | StartTimer => Done (set_timer TimerTest n)
  | WaitForStart => if ok then if is_ready_ n then Done n else Blocks else Leaves n
  | FetchServers => if is_timeout_ n then Done n else if ok then Done n else Raises
  | SetStopped b => Done (set_stopped b n)
  | SetFinish => Done (set_finish n)
  | SetReady => Done (set_ready true n)
  | SetTimeout => Done (set_timeout true n)
  | JoinTimer =>
    match timer n with
    | TimerNull => Undefined
    | TimerJoined => Raises
    | TimerEnded => Done (set_timer TimerJoined n)
    | _ => Blocks
    end
  | StopClient => match loop_Stop (client n) with Some l => Done (set_client l n) | None => Undefined end
    (* the clients to the servers share the event base, and only the client that
       created it has is_stop_ false *)
  | StopConnected => Done n
  | JoinClient => loop_join (bool_decide (me = ClientThread)) (client n) (fun l => set_client l n)
  | StopServer => match loop_Stop (server n) with Some l => Done (set_server l n) | None => Undefined end
  | JoinServer => loop_join false (server n) (fun l => set_server l n)
  end.

(** ** Steps of the other threads *)

(** What a turn of the timer does.  A node sends a heartbeat, and Heartbeat
    returns true also when no answer came, so that the turn changes none of the
    flags.  The scheduler may find the cluster ready or finished. *)
Inductive turn : Set := Turn (cluster_ready cluster_finish : bool).
Definition turn_of (k : NodeKind) (t : turn) : bool :=
  match k, t with Scheduler, _ | _, Turn false false => true | _, _ => false end.

Definition timer_step (t : turn) (n : node) : option node :=
  match timer n with
  | TimerTest => Some (set_timer (if is_finish_ n then TimerEnded else TimerTurn) n)
  | TimerTurn =>
    let n := set_timer TimerTest n in
    let '(Turn cluster_ready cluster_finish) := t in
    let n := if cluster_ready then set_ready true n else n in
    Some (if cluster_finish then set_finish n else n)
  | _ => None
  end.

(** event_base_dispatch: the start of the loop, an event, the return of its
    callback, the end; it may also fail. *)
Inductive loop_event : Set := Begin | Event | Return | Break | DispatchFails.
Definition loop_step (e : loop_event) (l : event_loop) : option event_loop :=
  match e, at_ l with
  | Begin, LoopCreated => Some (mkLoop LoopWaiting false (is_stop_ l))
  | Event, LoopWaiting => if event_break l then None else Some (mkLoop LoopCallback false (is_stop_ l))
  | Return, LoopCallback => Some (mkLoop LoopWaiting (event_break l) (is_stop_ l))
  | Break, LoopWaiting => if event_break l then Some (mkLoop LoopEnded true (is_stop_ l)) else None
  | DispatchFails, LoopWaiting => Some (mkLoop LoopEnded (event_break l) (is_stop_ l))
  | _, _ => None
  end.

(** What a callback that returns has done to the node: nothing, the connection
    was made, or ProcessHeartbeatResp with what the response says; [handled] is
    whether an event callback is set, which here does not call Stop.  On the
    scheduler a heartbeat may say that all nodes have finished. *)
Inductive effect : Set :=
| NoEffect
| Connected
| HeartbeatResp (ready finish timeout handled : bool)
| AllFinished.
Definition apply_effect (f : effect) (n : node) : node :=
  match f with
  | NoEffect => n
  | Connected => set_connected true n
  | HeartbeatResp ready finish timeout handled =>
    let n := set_ready ready n in
    let n := if finish then set_finish n else n in
    let n := set_timeout timeout n in
    if timeout && handled then set_ready true n else n
  | AllFinished => set_finish n
  end.
Definition client_effect (e : loop_event) (f : effect) : bool :=
  match e, f with _, NoEffect | Return, Connected | Return, HeartbeatResp _ _ _ _ => true | _, _ => false end.
Definition server_effect (k : NodeKind) (e : loop_event) (f : effect) : bool :=
  match k, e, f with _, _, NoEffect | Scheduler, Return, AllFinished => true | _, _, _ => false end.

(** ** Interleavings *)
Inductive call : Set :=
| Doing (me : caller) (rest : list op)
| Returned (b : bool)
| Raised
| Crashed.

Definition in_client (c : call) : bool :=
  match c with Doing ClientThread _ => true | _ => false end.

Section steps.
Context (k : NodeKind).
(** Whether event_base_dispatch may fail. *)
Context (failing : bool).

Definition dispatch_ok (e : loop_event) : bool :=
  match e with DispatchFails => failing | _ => true end.

Inductive step : node * call -> node * call -> Prop :=
| step_done me ok o rest n n' :
    exec me ok o n = Done n' -> step (n, Doing me (o :: rest)) (n', Doing me rest)
| step_leaves me ok o rest n n' :
    exec me ok o n = Leaves n' -> step (n, Doing me (o :: rest)) (n', Returned false)
| step_raises me ok o rest n :
    exec me ok o n = Raises -> step (n, Doing me (o :: rest)) (n, Raised)
| step_undefined me ok o rest n :
    exec me ok o n = Undefined -> step (n, Doing me (o :: rest)) (n, Crashed)
| step_returns me n : step (n, Doing me []) (n, Returned true)
| step_timer t n n' c :
    turn_of k t = true -> timer_step t n = Some n' -> step (n, c) (n', c)
| step_client e f n l c :
    in_client c = false -> dispatch_ok e = true -> client_effect e f = true ->
    loop_step e (client n) = Some l -> step (n, c) (apply_effect f (set_client l n), c)
| step_server e f n l c :
    dispatch_ok e = true -> server_effect k e f = true ->
    loop_step e (server n) = Some l -> step (n, c) (apply_effect f (set_server l n), c).

(** What a run of Start can lead to. *)
Definition starting : node * call -> Prop := rtc step (Node_init, Doing Main (Start k)).
(** A call of Stop on a node that is not stopped. *)
Definition stopping (me : caller) (n : node) : node * call := (n, Doing me (Stop k)).
End steps.

(** ** The state after Start *)

(** A loop nobody has told to stop, and one whose dispatch has begun. *)
Definition fresh (l : event_loop) : bool :=
  match at_ l with
  | LoopNull => true
  | LoopJoined => false
  | _ => negb (event_break l) && negb (is_stop_ l)
  end.
Definition begun (l : event_loop) : bool :=
  match at_ l with LoopWaiting | LoopCallback | LoopEnded => true | _ => false end.
Definition created (l : event_loop) : bool := match at_ l with LoopNull => false | _ => true end.
Definition timer_alive (t : timer_state) : bool :=
  match t with TimerTest | TimerTurn | TimerEnded => true | _ => false end.

Definition timer_null (t : timer_state) : bool := match t with TimerNull => true | _ => false end.

(** What holds when [rest] of Start is still to be done. *)
Definition start_cond (k : NodeKind) (rest : list op) (n : node) : bool :=
  (if bool_decide (StartTimer ∈ rest) then timer_null (timer n) else timer_alive (timer n)) &&
  fresh (client n) && fresh (server n) &&
  (if is_connected_ n then begun (client n) else true) &&
  (bool_decide (WaitConnected ∈ rest) || bool_decide (k = Scheduler) || is_connected_ n) &&
  (bool_decide (CreateTcpServer ∈ rest) || bool_decide (k = Worker) || created (server n)).

Definition start_inv (k : NodeKind) (s : node * call) : Prop :=
  match s.2 with
  | Doing me rest => me = Main /\ (exists past, Start k = past ++ rest) /\ start_cond k rest s.1 = true
  | Returned _ => start_cond k [] s.1 = true
  | Raised => True
  | Crashed => False
  end.

(** The threads that run beside a call keep its condition. *)
Lemma timer_step_start k rest t n n' :
  timer_step t n = Some n' -> start_cond k rest n = true -> start_cond k rest n' = true.
Proof.
  destruct n as [r f t' st cn tm c sv], t as [[] []]; unfold timer_step, start_cond; cbn;
  destruct tm, f; intros [= <-]; cbn; destruct (bool_decide (StartTimer ∈ rest)); done.
Qed.

Lemma loop_step_fresh e l l' : loop_step e l = Some l' -> fresh l = true -> fresh l' = true.
Proof. destruct l as [[] [] []], e; intros [= <-]; done. Qed.
Lemma loop_step_begun e l l' : loop_step e l = Some l' -> begun l' = true.
Proof. destruct l as [[] [] []], e; intros [= <-]; done. Qed.

Ltac split_andb := repeat match goal with H : (_ && _) = true |- _ => apply andb_true_iff in H as [? ?] end.
Ltac join_andb := repeat (apply andb_true_iff; split).

Lemma client_step_start k rest e f l n :
  client_effect e f = true -> loop_step e (client n) = Some l ->
  start_cond k rest n = true -> start_cond k rest (apply_effect f (set_client l n)) = true.
Proof.
  intros Hf Hl Hc. pose proof (loop_step_begun _ _ _ Hl) as Hb.
  unfold start_cond in *. split_andb.
  assert (fresh l = true) as Hfl by (by eapply loop_step_fresh).
  destruct e, f as [| |? [] [] []|]; try discriminate Hf; cbn; rewrite ?Hb, ?orb_true_r;
    join_andb; try done; by case_match.
Qed.

Lemma server_step_start k rest e f l n :
  server_effect k e f = true -> loop_step e (server n) = Some l ->
  start_cond k rest n = true -> start_cond k rest (apply_effect f (set_server l n)) = true.
Proof.
  intros Hf Hl Hc. pose proof (loop_step_begun _ _ _ Hl) as Hb.
  assert (created l = true) as Hcr by (by destruct l as [[] ? ?]).
  unfold start_cond in *. split_andb.
  assert (fresh l = true) as Hfl by (by eapply loop_step_fresh).
  destruct k, e, f as [| |? [] [] []|]; try discriminate Hf; cbn; rewrite ?Hcr, ?orb_true_r;
    join_andb; done.
Qed.

(** [H : concrete list = past ++ rest] becomes one goal for each suffix. *)
Ltac suffixes H past :=
  repeat (destruct past as [|? past]; cbn [app] in H;
          [first [discriminate H | injection H as; subst] | first [discriminate H | injection H as ? H; subst]]).

(** Memberships in concrete lists are computed. *)
Ltac membership :=
  repeat match goal with
  | |- context [bool_decide ?P] =>
    let b := eval vm_compute in (bool_decide P) in change (bool_decide P) with b
  | H : context [bool_decide ?P] |- _ =>
    let b := eval vm_compute in (bool_decide P) in change (bool_decide P) with b in H
  end.

Lemma start_op k me ok o rest n :
  start_inv k (n, Doing me (o :: rest)) ->
  match exec me ok o n with
  | Done n' => start_inv k (n', Doing me rest)
  | Leaves n' => start_inv k (n', Returned false)
  | Undefined => False
  | _ => True
  end.
Proof.
  intros (-> & (past & E) & Hc). cbn [fst snd] in *.
  assert (exists past', Start k = past' ++ rest) as Hpast
    by (exists (past ++ [o]); by rewrite <- app_assoc).
  unfold start_inv. cbn [fst snd]. unfold start_cond in *.
  destruct n as [[] f tm st [] t c sv], k; suffixes E past; cbn [exec]; membership; cbn in *;
    split_andb; destruct tm, ok; try done;
    try (split; [done|]; split; [done|]); join_andb; done.
Qed.

Lemma starting_inv k failing s : starting k failing s -> start_inv k s.
Proof.
  intros Hs. refine (rtc_ind_r (start_inv k) _ _ _ s Hs); clear s Hs.
  - split; [done|]. split; [by exists []|]. by destruct k.
  - intros s s' _ Hstep Hinv. destruct Hstep as [me ok o rest n n' E|me ok o rest n n' E|me ok o rest n E
      |me ok o rest n E|me n|t n n' c Ht E|e f n l c Hc Hd He E|e f n l c Hd He E];
      try (pose proof (start_op k me ok o rest n Hinv) as Hop; by rewrite E in Hop).
    + by destruct Hinv as (-> & _ & Hc).
    + destruct c; cbn in *; (try destruct Hinv as (? & ? & ?)); eauto using timer_step_start.
    + destruct c; cbn in *; (try destruct Hinv as (? & ? & ?)); eauto using client_step_start.
    + destruct c; cbn in *; (try destruct Hinv as (? & ? & ?)); eauto using server_step_start.
Qed.

(** ** Stop *)

(** What holds of a loop while it is to be stopped and joined. *)
Definition loop_cond (stop join : bool) (l : event_loop) : bool :=
  if join then begun l && (if stop then negb (event_break l) && negb (is_stop_ l) else event_break l)
  else match at_ l with LoopJoined => true | _ => false end.

Definition stop_cond (k : NodeKind) (rest : list op) (n : node) : bool :=
  (bool_decide (SetFinish ∈ rest) || is_finish_ n) &&
  (if bool_decide (JoinTimer ∈ rest) then timer_alive (timer n)
   else match timer n with TimerJoined => true | _ => false end) &&
  loop_cond (bool_decide (StopClient ∈ rest)) (bool_decide (JoinClient ∈ rest)) (client n) &&
  (bool_decide (k = Worker) ||
   loop_cond (bool_decide (StopServer ∈ rest)) (bool_decide (JoinServer ∈ rest)) (server n)).

Definition stop_inv (k : NodeKind) (s : node * call) : Prop :=
  match s.2 with
  | Doing me rest => me = Main /\ (exists past, Stop k = past ++ rest) /\ stop_cond k rest s.1 = true
  | Returned b => b = true /\ stop_cond k [] s.1 = true
  | _ => False
  end.

Lemma loop_step_cond e l l' stop join :
  loop_step e l = Some l' -> loop_cond stop join l = true -> loop_cond stop join l' = true.
Proof. destruct l as [[] [] []], e, stop, join; cbn; intros [= <-]; done. Qed.

Lemma timer_step_stop k rest t n n' :
  timer_step t n = Some n' -> stop_cond k rest n = true -> stop_cond k rest n' = true.
Proof.
  destruct n as [r f t' st cn tm c sv], t as [[] []]; unfold timer_step, stop_cond; cbn;
  destruct tm, f; intros [= <-]; cbn; rewrite ?orb_true_r; intros; split_andb; join_andb; try done;
    by destruct (bool_decide (JoinTimer ∈ rest)), (bool_decide (SetFinish ∈ rest)).
Qed.

Lemma effect_cond k rest f n :
  stop_cond k rest n = true -> stop_cond k rest (apply_effect f n) = true.
Proof.
  unfold stop_cond. intros. split_andb.
  destruct f as [| |? [] [] []|]; cbn; rewrite ?orb_true_r; join_andb; done.
Qed.

Lemma client_step_stop k rest e l n :
  loop_step e (client n) = Some l -> stop_cond k rest n = true -> stop_cond k rest (set_client l n) = true.
Proof. unfold stop_cond. intros. split_andb. join_andb; try done. by eapply loop_step_cond. Qed.

Lemma server_step_stop k rest e l n :
  loop_step e (server n) = Some l -> stop_cond k rest n = true -> stop_cond k rest (set_server l n) = true.
Proof.
  unfold stop_cond. intros Hl Hc. split_andb. join_andb; try done. cbn.
  destruct (bool_decide (k = Worker)); [done|]. by eapply loop_step_cond.
Qed.

(** A statement of Stop keeps the condition, and waits only for a thread that is
    on its way to its end. *)
Definition ending (o : op) (n : node) : Prop :=
  match o with
  | JoinTimer => is_finish_ n = true /\ (timer n = TimerTest \/ timer n = TimerTurn)
  | JoinClient => event_break (client n) = true /\ (at_ (client n) = LoopWaiting \/ at_ (client n) = LoopCallback)
  | JoinServer => event_break (server n) = true /\ (at_ (server n) = LoopWaiting \/ at_ (server n) = LoopCallback)
  | _ => False
  end.

Ltac finish_stop_op :=
  first [ done | by cbn; auto | by (split; [done|]; split; [done|]; cbn; join_andb) ].

Lemma stop_op k ok o rest n :
  k <> Scheduler -> stop_inv k (n, Doing Main (o :: rest)) ->
  match exec Main ok o n with
  | Done n' => stop_inv k (n', Doing Main rest)
  | Blocks => ending o n
  | _ => False
  end.
Proof.
  intros Hk (_ & (past & E) & Hc). cbn [fst snd] in *.
  assert (exists past', Stop k = past' ++ rest) as Hpast
    by (exists (past ++ [o]); by rewrite <- app_assoc).
  unfold stop_inv. cbn [fst snd]. unfold stop_cond in *.
  destruct n as [r f tm st cn t [ca cb cs] [sa sb ss]], k; [..|done]; suffixes E past; cbn [exec];
    membership; cbn in *; split_andb;
    try (split; [done|]; split; [done|]; join_andb; done);
    first [ destruct t; finish_stop_op | destruct ca, cb, cs; finish_stop_op
          | destruct sa, sb, ss; finish_stop_op ].
Qed.

Lemma stop_step k failing s s' :
  k <> Scheduler -> step k failing s s' -> stop_inv k s -> stop_inv k s'.
Proof.
  intros Hk Hstep Hinv. destruct Hstep as [me ok o rest n n' E|me ok o rest n n' E|me ok o rest n E
    |me ok o rest n E|me n|t n n' c Ht E|e f n l c Hc Hd He E|e f n l c Hd He E];
    try (destruct Hinv as (-> & Hinv); pose proof (stop_op k ok o rest n Hk (conj eq_refl Hinv)) as Hop;
         by rewrite E in Hop).
  - by destruct Hinv as (-> & _ & Hc).
  - destruct c; cbn in *; decompose [and] Hinv; try done; eauto 6 using timer_step_stop.
  - destruct c; cbn in *; decompose [and] Hinv; try done; eauto 6 using effect_cond, client_step_stop.
  - destruct c; cbn in *; decompose [and] Hinv; try done; eauto 6 using effect_cond, server_step_stop.
Qed.

Lemma stop_steps k failing s s' :
  k <> Scheduler -> rtc (step k failing) s s' -> stop_inv k s -> stop_inv k s'.
Proof. intros Hk Hs Hinv. induction Hs; eauto using stop_step. Qed.

(** The thread that is waited for comes to its end. *)
Lemma timer_ends k failing n c :
  is_finish_ n = true -> timer n = TimerTest \/ timer n = TimerTurn ->
  rtc (step k failing) (n, c) (set_timer TimerEnded n, c).
Proof.
  intros Hf Ht. destruct n as [r f tm st cn t cl sv]. cbn in *. subst f.
  destruct Ht as [-> | ->]; [apply rtc_once|eapply rtc_l; [|apply rtc_once]];
    apply (step_timer _ _ (Turn false false)); try done; by destruct k.
Qed.

Lemma client_ends k failing n c :
  in_client c = false -> event_break (client n) = true ->
  at_ (client n) = LoopWaiting \/ at_ (client n) = LoopCallback ->
  rtc (step k failing) (n, c) (set_client (mkLoop LoopEnded true (is_stop_ (client n))) n, c).
Proof.
  intros Hc Hb Ht. destruct n as [r f tm st cn t [a b s] sv]. cbn in *. subst b.
  destruct Ht as [-> | ->].
  - apply rtc_once. by apply (step_client _ _ Break NoEffect).
  - eapply rtc_l; [by apply (step_client _ _ Return NoEffect)|].
    apply rtc_once. exact (step_client k failing Break NoEffect
      (mkNode r f tm st cn t (mkLoop LoopWaiting true s) sv) _ c Hc eq_refl eq_refl eq_refl).
Qed.

Lemma server_ends k failing n c :
  event_break (server n) = true ->
  at_ (server n) = LoopWaiting \/ at_ (server n) = LoopCallback ->
  rtc (step k failing) (n, c) (set_server (mkLoop LoopEnded true (is_stop_ (server n))) n, c).
Proof.
  intros Hb Ht. destruct n as [r f tm st cn t cl [a b s]]. cbn in *. subst b.
  destruct Ht as [-> | ->].
  - apply rtc_once. apply (step_server _ _ Break NoEffect); [done|by destruct k|done].
  - eapply rtc_l; [apply (step_server _ _ Return NoEffect); [done|by destruct k|done]|].
    apply rtc_once. refine (step_server k failing Break NoEffect
      (mkNode r f tm st cn t cl (mkLoop LoopWaiting true s)) _ c eq_refl _ eq_refl). by destruct k.
Qed.

Lemma stop_advances k failing o rest n :
  k <> Scheduler -> stop_inv k (n, Doing Main (o :: rest)) ->
  exists n', rtc (step k failing) (n, Doing Main (o :: rest)) (n', Doing Main rest).
Proof.
  intros Hk Hinv. pose proof (stop_op k true o rest n Hk Hinv) as Hop.
  destruct (exec Main true o n) as [n'|n'| | |] eqn:E; try done.
  { exists n'. apply rtc_once. by eapply step_done. }
  destruct o; try done; destruct Hop as [Hf Ht].
  - eexists. eapply rtc_r; [by apply timer_ends|]. by eapply (step_done _ _ _ true).
  - eexists. eapply rtc_r; [by apply client_ends|]. by eapply (step_done _ _ _ true).
  - eexists. eapply rtc_r; [by apply server_ends|]. by eapply (step_done _ _ _ true).
Qed.

Lemma stop_ends k failing rest n :
  k <> Scheduler -> stop_inv k (n, Doing Main rest) ->
  exists n', rtc (step k failing) (n, Doing Main rest) (n', Returned true).
Proof.
  intros Hk. revert n. induction rest as [|o rest IH]; intros n Hinv.
  - exists n. apply rtc_once, step_returns.
  - destruct (stop_advances k failing o rest n Hk Hinv) as [n1 H1].
    destruct (IH n1) as [n2 H2]; [by eapply stop_steps|].
    exists n2. by etrans.
Qed.

(** The node is stopped: every thread it has was joined. *)
Definition all_joined (k : NodeKind) (n : node) : Prop :=
  timer n = TimerJoined /\ at_ (client n) = LoopJoined /\ (k = Server -> at_ (server n) = LoopJoined).

Lemma stop_cond_joined k n : k <> Scheduler -> stop_cond k [] n = true -> all_joined k n.
Proof.
  unfold stop_cond, loop_cond, all_joined. intros Hk Hc. membership. cbn in Hc. split_andb.
  destruct (timer n), (at_ (client n)); try done. split; [done|]. split; [done|]. intros ->.
  by destruct (at_ (server n)).
Qed.

(** C10: Stop comes to its end.  After Start has returned on a worker, or on
    a server whose thread has reached its event loop, a call of Stop from the
    program never raises, never touches a null pointer and is never stuck: from
    every state that any interleaving with the heartbeat thread, the callbacks
    and failing event loops leads to, it can still return, and when it returns
    it has joined every thread of the node. *)
Theorem Stop_completes k failing n b s :
  k <> Scheduler ->
  starting k failing (n, Returned b) ->
  (k = Server -> at_ (server n) <> LoopCreated) ->
  rtc (step k failing) (stopping k Main n) s ->
  match s.2 with
  | Doing _ _ => exists n', rtc (step k failing) s (n', Returned true)
  | Returned r => r = true /\ all_joined k s.1
  | Raised | Crashed => False
  end.
Proof.
  intros Hk Hst%starting_inv Hsv Hrun.
  assert (stop_inv k (stopping k Main n)) as Hinv.
  { split; [done|]. split; [by exists []|]. cbn [fst].
    unfold start_inv, start_cond in Hst. cbn [fst snd] in Hst. unfold stop_cond.
    destruct n as [r f tm sp cn t [ca cb cs] [sa sb ss]], k; [..|done]; membership; cbn in *; split_andb;
      subst cn; destruct t, ca, cb, cs; try done; destruct sa, sb, ss; try done; by specialize (Hsv eq_refl). }
  apply (stop_steps k failing _ s Hk Hrun) in Hinv. destruct s as [n' []]; cbn [snd].
  - destruct Hinv as (-> & Hinv). by apply stop_ends.
  - destruct Hinv as [-> Hc]. split; [done|]. by apply stop_cond_joined.
  - done.
  - done.
Qed.

(** ** Runs *)

(** A move of one thread, and what it does where it can be made. *)
Inductive move : Set :=
| Exec (ok : bool) (* the next statement of the call *)
| TimerMoves (t : turn)
| ClientMoves (e : loop_event) (f : effect)
| ServerMoves (e : loop_event) (f : effect).

Definition do_move (k : NodeKind) (failing : bool) (m : move) (s : node * call) : option (node * call) :=
  let '(n, c) := s in
  match m with
  | Exec ok =>
    match c with
    | Doing me [] => Some (n, Returned true)
    | Doing me (o :: rest) =>
      match exec me ok o n with
      | Done n' => Some (n', Doing me rest)
      | Leaves n' => Some (n', Returned false)
      | Blocks => None
      | Raises => Some (n, Raised)
      | Undefined => Some (n, Crashed)
      end
    | _ => None
    end
  | TimerMoves t => if turn_of k t then n' ← timer_step t n; Some (n', c) else None
  | ClientMoves e f =>
    if negb (in_client c) && dispatch_ok failing e && client_effect e f
    then l ← loop_step e (client n); Some (apply_effect f (set_client l n), c) else None
  | ServerMoves e f =>
    if dispatch_ok failing e && server_effect k e f
    then l ← loop_step e (server n); Some (apply_effect f (set_server l n), c) else None
  end.

Lemma do_move_step k failing m s s' : do_move k failing m s = Some s' -> step k failing s s'.
Proof.
  destruct s as [n c], m as [ok|t|e f|e f]; cbn.
  - destruct c as [me [|o rest]| | |]; try done; [by intros [= <-]; constructor|].
    destruct (exec me ok o n) eqn:E; intros [= <-]; eauto using step.
  - destruct (turn_of k t) eqn:Et; [|done]. destruct (timer_step t n) eqn:E; intros [= <-]. eauto using step.
  - destruct (negb (in_client c)) eqn:Ec; [|done]. destruct (dispatch_ok failing e) eqn:Ed; [|done].
    destruct (client_effect e f) eqn:Ef; [|done]. cbn. destruct (loop_step e (client n)) eqn:E; intros [= <-].
    apply negb_true_iff in Ec. eauto using step.
  - destruct (dispatch_ok failing e) eqn:Ed; [|done]. destruct (server_effect k e f) eqn:Ef; [|done].
    cbn. destruct (loop_step e (server n)) eqn:E; intros [= <-]. eauto using step.
Qed.

Definition do_moves (k : NodeKind) (failing : bool) (ms : list move) (s : node * call)
    : option (node * call) :=
  foldl (fun r m => s ← r; do_move k failing m s) (Some s) ms.

Lemma do_moves_rtc k failing ms s s' : do_moves k failing ms s = Some s' -> rtc (step k failing) s s'.
Proof.
  unfold do_moves. revert s. induction ms as [|m ms IH]; cbn [foldl]; intros s E.
  - injection E as <-. done.
  - cbn [mbind option_bind] in E. destruct (do_move k failing m s) as [s1|] eqn:E1.
    + eapply rtc_l; [by eapply do_move_step|]. by apply IH.
    + exfalso. clear -E. induction ms; [done|]. by apply IHms.
Qed.

(** A start of a worker that becomes ready, and one of a server whose thread is
    slow. *)
Definition ready_resp : effect := HeartbeatResp true false false false.
Definition connecting : list move :=
  [Exec true; Exec true; ClientMoves Begin NoEffect; ClientMoves Event NoEffect;
   ClientMoves Return Connected; Exec true; Exec true; Exec true; TimerMoves (Turn false false);
   ClientMoves Event NoEffect; ClientMoves Return ready_resp; Exec true; Exec true; Exec true].
Definition started_worker : node := Eval vm_compute in
  from_option fst Node_init (do_moves Worker false connecting (Node_init, Doing Main (Start Worker))).
Definition started_server : node := Eval vm_compute in
  from_option fst Node_init (do_moves Server false (Exec true :: connecting) (Node_init, Doing Main (Start Server))).

Lemma started_worker_starting : starting Worker false (started_worker, Returned true).
Proof. apply (do_moves_rtc _ _ connecting). vm_compute. reflexivity. Qed.
Lemma started_server_starting : starting Server false (started_server, Returned true).
Proof. apply (do_moves_rtc _ _ (Exec true :: connecting)). vm_compute. reflexivity. Qed.

Lemma Stop_completes_witness :
  exists s, rtc (step Worker false) (stopping Worker Main started_worker) (s, Doing Main [JoinTimer;
    StopClient; StopConnected; JoinClient; SetStopped true]) /\
    exists n', rtc (step Worker false) (s, Doing Main [JoinTimer; StopClient; StopConnected;
      JoinClient; SetStopped true]) (n', Returned true).
Proof.
  assert (rtc (step Worker false) (stopping Worker Main started_worker)
    (set_finish (set_timeout true (set_ready true started_worker)), Doing Main [JoinTimer;
    StopClient; StopConnected; JoinClient; SetStopped true])) as Hrun
    by (apply (do_moves_rtc _ _ [Exec true; Exec true; Exec true]); vm_compute; reflexivity).
  eexists. split; [exact Hrun|].
  refine (Stop_completes Worker false started_worker true _ _ started_worker_starting _ Hrun); done.
Defined.

(** ** Where Stop does not end *)

(** A loop that nothing will end: not begun, or running and not told to stop. *)
Definition endless (l : event_loop) : bool :=
  match at_ l with LoopCreated => true | LoopWaiting | LoopCallback => negb (event_break l) | _ => false end.

Lemma endless_step e l l' : e <> DispatchFails -> loop_step e l = Some l' -> endless l = true -> endless l' = true.
Proof. destruct l as [[] [] []], e; intros He [= <-]; done. Qed.

Lemma apply_effect_server f n : server (apply_effect f n) = server n.
Proof. by destruct f as [| |? [] [] []|]. Qed.
Lemma apply_effect_client f n : client (apply_effect f n) = client n.
Proof. by destruct f as [| |? [] [] []|]. Qed.
Lemma apply_effect_timer f n : timer (apply_effect f n) = timer n.
Proof. by destruct f as [| |? [] [] []|]. Qed.

Lemma timer_step_loops t n n' : timer_step t n = Some n' -> client n' = client n /\ server n' = server n.
Proof. destruct n as [r f tm st cn [] cl sv], t as [[] []]; intros [= <-]; done. Qed.

Lemma waiting_forever k n s' :
  endless (server n) = true -> rtc (step k false) (n, Doing Main [JoinServer]) s' ->
  exists n', s' = (n', Doing Main [JoinServer]).
Proof.
  intros He Hrun.
  enough (exists n', s' = (n', Doing Main [JoinServer]) /\ endless (server n') = true)
    as (n' & -> & _) by eauto.
  refine (rtc_ind_r (fun s => exists n', s = (n', Doing Main [JoinServer]) /\ endless (server n') = true)
    _ _ _ s' Hrun); [eauto|]; clear s' Hrun.
  intros s s' _ Hstep (n' & -> & Hn).
  assert (forall ok, exec Main ok JoinServer n' = Blocks) as Hb.
  { intros ok. cbn. unfold loop_join. unfold endless in Hn. by destruct (at_ (server n')). }
  inversion Hstep as [me ok o rest n0 n1 E|me ok o rest n0 n1 E|me ok o rest n0 E|me ok o rest n0 E|me n0
    |t n0 n1 c Ht E|e f n0 l c Hc Hd Hf E|e f n0 l c Hd Hf E]; subst;
    try (rewrite Hb in E; discriminate E).
  - exists n1. split; [done|]. by destruct (timer_step_loops _ _ _ E) as [_ ->].
  - eexists. split; [done|]. by rewrite apply_effect_server.
  - eexists. split; [done|]. rewrite apply_effect_server. cbn.
    eapply endless_step; [|exact E|done]. by intros ->.
Qed.

(** C39: A server can be stopped too early.  event_base_loopbreak does nothing to a
    loop that has not begun, and Start does not wait for the thread of the TCP
    server to enter its loop.  There is a run in which Start returns true, Stop
    is then called and tells the TCP server to stop before the loop begins, and
    from then on, unless the dispatch fails, Stop waits for the end of that
    thread forever. *)
Theorem early_Stop_hangs :
  exists n n', starting Server false (n, Returned true) /\
    rtc (step Server false) (stopping Server Main n) (n', Doing Main [JoinServer]) /\
    forall s, rtc (step Server false) (n', Doing Main [JoinServer]) s ->
      exists n'', s = (n'', Doing Main [JoinServer]).
Proof.
  exists started_server.
  pose (moves := [Exec true; Exec true; TimerMoves (Turn false false); TimerMoves (Turn false false);
    Exec true; Exec true; Exec true; ClientMoves Break NoEffect; Exec true; Exec true]).
  pose (s := do_moves Server false moves (stopping Server Main started_server)).
  exists (from_option fst Node_init s). split; [apply started_server_starting|]. split.
  - apply (do_moves_rtc _ _ moves). vm_compute. reflexivity.
  - intros s'. apply waiting_forever. vm_compute. reflexivity.
Qed.

Lemma Stop_cannot_leave k ok me o n n' : o ∈ Stop k -> exec me ok o n <> Leaves n'.
Proof.
  destruct k; cbn; intros Ho; repeat (apply elem_of_cons in Ho as [-> | Ho]; [cbn; try unfold loop_join;
    repeat case_match; done|]); by apply elem_of_nil in Ho.
Qed.

(** A call that has still to join its own thread. *)
Definition self_join (k : NodeKind) (s : node * call) : Prop :=
  match s.2 with
  | Doing me rest => me = ClientThread /\ (exists past, Stop k = past ++ rest) /\ JoinClient ∈ rest /\
                     at_ (client s.1) = LoopCallback
  | Returned _ => False
  | _ => True
  end.

Lemma exec_keeps_callback k ok me o n n' :
  o ∈ Stop k -> o <> JoinClient -> exec me ok o n = Done n' ->
  at_ (client n) = LoopCallback -> at_ (client n') = LoopCallback.
Proof.
  intros Ho Hne. destruct n as [r f tm st cn t [a b s] [sa sb ss]]. cbn [client at_].
  destruct k; cbn in Ho; repeat (apply elem_of_cons in Ho as [-> | Ho]; [cbn; try unfold loop_join, loop_Stop;
    cbn; repeat case_match; intros; simplify_eq/=; done|]); by apply elem_of_nil in Ho.
Qed.

Lemma self_join_step k failing s s' : step k failing s s' -> self_join k s -> self_join k s'.
Proof.
  intros Hstep Hs. destruct Hstep as [me ok o rest n n' E|me ok o rest n n' E|me ok o rest n E
    |me ok o rest n E|me n|t n n' c Ht E|e f n l c Hc Hd He E|e f n l c Hd He E]; try done.
  - destruct Hs as (-> & (past & Ep) & Hj & Ha). cbn [fst snd] in *.
    assert (o ∈ Stop k) as Ho by (rewrite Ep; set_solver).
    assert (o <> JoinClient) as Hne by (intros ->; cbn in E; unfold loop_join in E; by rewrite Ha in E).
    split; [done|]. split; [exists (past ++ [o]); by rewrite <- app_assoc|].
    split; [by apply elem_of_cons in Hj as [<-|?]|]. by eapply exec_keeps_callback.
  - destruct Hs as (-> & (past & Ep) & _ & _).
    by destruct (Stop_cannot_leave k ok ClientThread o n n'); [rewrite Ep; set_solver|].
  - destruct Hs as (_ & _ & Hj & _). by apply elem_of_nil in Hj.
  - destruct c; try done. destruct Hs as (? & ? & ? & Ha).
    destruct (timer_step_loops _ _ _ E) as [Ec _]. split; [done|]. split; [done|]. split; [done|].
    cbn in *. by rewrite Ec.
  - destruct c as [me rest| | |]; try done. by destruct Hs as (-> & _).
  - destruct c as [me rest| | |]; try done. destruct Hs as (? & ? & ? & Ha). split; [done|]. split; [done|].
    split; [done|]. cbn [fst] in *. by rewrite apply_effect_client.
Qed.

(** Stop must not be called from an event callback.  A node calls its event
    callback on the thread of its client to the scheduler, when a heartbeat
    response says that the cluster has timed out.  If that callback calls Stop,
    the call never returns, in no interleaving: it comes to the join of its own
    thread with an exception, or waits before. *)
Theorem Stop_in_callback_never_returns k failing n s :
  k <> Scheduler -> at_ (client n) = LoopCallback ->
  rtc (step k failing) (stopping k ClientThread n) s -> forall b, s.2 <> Returned b.
Proof.
  intros Hk Ha Hrun b Eb.
  assert (self_join k s) as Hs.
  { refine (rtc_ind_r (self_join k) _ _ _ s Hrun); [|by intros; eapply self_join_step].
    split; [done|]. split; [by exists []|]. split; [|done]. destruct k; cbn; [set_solver..|done]. }
  unfold self_join in Hs. by rewrite Eb in Hs.
Qed.

(** The run of the server of node_manager_test.cpp, whose callback calls Stop. *)
Definition callback_moves : list move :=
  [Exec true; Exec true; TimerMoves (Turn false false); TimerMoves (Turn false false); Exec true;
   Exec true; Exec true; Exec true].
Definition server_in_callback : node := Eval vm_compute in
  from_option fst Node_init (do_moves Server false [ClientMoves Event NoEffect] (started_server, Returned true)).

Lemma Stop_in_callback_never_returns_witness :
  starting Server false (server_in_callback, Returned true) /\
  exists n', rtc (step Server false) (stopping Server ClientThread server_in_callback) (n', Raised) /\
    Raised <> Returned true.
Proof.
  split.
  { unfold starting. etrans; [apply started_server_starting|].
    apply (do_moves_rtc _ _ [ClientMoves Event NoEffect]). vm_compute. reflexivity. }
  assert (rtc (step Server false) (stopping Server ClientThread server_in_callback)
    (from_option fst Node_init (do_moves Server false callback_moves
       (stopping Server ClientThread server_in_callback)), Raised)) as Hrun
    by (apply (do_moves_rtc _ _ callback_moves); vm_compute; reflexivity).
  eexists. split; [exact Hrun|].
  exact (Stop_in_callback_never_returns Server false server_in_callback _ ltac:(done) eq_refl Hrun true).
Defined.

(** ** A start that failed *)

(** Without a timer Stop goes through a null pointer: when Start raises before
    StartHeartbeatTimer, is_already_stopped_ is false already, so the destructor
    of the node, which calls Stop, does so. *)
Definition null_join (k : NodeKind) (s : node * call) : Prop :=
  match s.2 with
  | Doing me rest => timer s.1 = TimerNull /\ JoinTimer ∈ rest /\ exists past, Stop k = past ++ rest
  | Returned _ => False
  | _ => True
  end.

Lemma timer_null_stays k failing me rest n s :
  timer n = TimerNull -> JoinTimer ∈ rest -> (exists past, Stop k = past ++ rest) ->
  rtc (step k failing) (n, Doing me rest) s ->
  match s.2 with Returned _ => False | _ => True end.
Proof.
  intros Ht Hj Hp Hrun.
  enough (null_join k s) as Hs by (unfold null_join in Hs; by destruct s.2).
  refine (rtc_ind_r (null_join k) _ _ _ s Hrun); [done|]. clear s Hrun.
  intros s s' _ Hstep Hs. destruct Hstep as [me' ok o r n0 n' E|me' ok o r n0 n' E|me' ok o r n0 E
    |me' ok o r n0 E|me' n0|t n0 n' c Ht' E|e f n0 l c Hc Hd He E|e f n0 l c Hd He E]; try done; unfold null_join in *; cbn [fst snd] in *.
  - destruct Hs as (H0 & H1 & past & H2).
    assert (o <> JoinTimer) as Hne by (intros ->; cbn in E; by rewrite H0 in E).
    split; [|split; [by apply elem_of_cons in H1 as [<-|?]|exists (past ++ [o]); by rewrite <- app_assoc]].
    assert (o ∈ Stop k) as Ho by (rewrite H2; set_solver). clear -E H0 Ho Hne.
    destruct n0 as [r0 f0 tm0 st0 cn0 t0 cl0 sv0]. destruct k; cbn in Ho;
      repeat (apply elem_of_cons in Ho as [-> | Ho]; [cbn in E; try unfold loop_join in E;
        repeat case_match; simplify_eq/=; done|]); by apply elem_of_nil in Ho.
  - destruct Hs as (H0 & H1 & past & H2).
    by destruct (Stop_cannot_leave k ok me' o n0 n'); [rewrite H2; set_solver|].
  - destruct Hs as (_ & H1 & _). by apply elem_of_nil in H1.
  - destruct c; try done. destruct Hs as (H0 & _). unfold timer_step in E. by rewrite H0 in E.
  - destruct c; try done. by rewrite apply_effect_timer.
  - destruct c; try done. by rewrite apply_effect_timer.
Qed.

Lemma failed_Start_Stop k failing n s :
  timer n = TimerNull -> rtc (step k failing) (stopping k Main n) s -> forall b, s.2 <> Returned b.
Proof.
  intros Ht Hrun b Eb. assert (JoinTimer ∈ Stop k) as Hj by (destruct k; cbn; set_solver).
  pose proof (timer_null_stays k failing Main (Stop k) n s Ht Hj (ex_intro _ [] eq_refl) Hrun) as Hs.
  by rewrite Eb in Hs.
Qed.

(** A server that gets no connection to the scheduler, and its destructor. *)
Lemma unconnected_server_crashes :
  exists n n', starting Server false (n, Raised) /\ is_already_stopped_ n = false /\
    rtc (step Server false) (stopping Server Main n) (n', Crashed).
Proof.
  pose (s := do_moves Server false [Exec true; Exec true; Exec true; Exec false] (Node_init, Doing Main (Start Server))).
  exists (from_option fst Node_init s). eexists. split; [|split].
  - apply (do_moves_rtc _ _ [Exec true; Exec true; Exec true; Exec false]). vm_compute. reflexivity.
  - reflexivity.
  - apply (do_moves_rtc _ _ [Exec true; Exec true; Exec true]). vm_compute. reflexivity.
Qed.

(** ** The scheduler *)

(** A timer that has ended saw is_finish_, which nothing resets. *)
Definition ended_finished (n : node) : Prop :=
  match timer n with TimerEnded | TimerJoined => is_finish_ n = true | _ => True end.

Lemma ended_finished_step k failing s s' :
  step k failing s s' -> ended_finished s.1 -> ended_finished s'.1.
Proof.
  intros Hstep Hs. destruct Hstep as [me ok o rest n n' E|me ok o rest n n' E|me ok o rest n E
    |me ok o rest n E|me n|t n n' c Ht E|e f n l c Hc Hd He E|e f n l c Hd He E]; try done; cbn [fst] in *.
  - destruct o, n as [r fi tm st cn [] cl sv]; cbn in E; unfold loop_join, ended_finished in *; cbn in *;
      repeat case_match; simplify_eq/=; done.
  - destruct o, n as [r fi tm st cn [] cl sv]; cbn in E; unfold loop_join, ended_finished in *; cbn in *;
      repeat case_match; simplify_eq/=; done.
  - destruct n as [r [] tm st cn [] cl sv], t as [[] []]; revert E; intros [= <-]; done.
  - unfold ended_finished in *. rewrite apply_effect_timer. cbn. destruct (timer n); try done;
      by destruct f as [| |? [] [] []|].
  - unfold ended_finished in *. rewrite apply_effect_timer. cbn. destruct (timer n); try done;
      by destruct f as [| |? [] [] []|].
Qed.

(** The timer is joined, or still to be joined. *)
Definition join_due (k : NodeKind) (s : node * call) : Prop :=
  match s.2 with
  | Doing me rest => (exists past, Stop k = past ++ rest) /\ (JoinTimer ∈ rest \/ timer s.1 = TimerJoined)
  | Returned _ => timer s.1 = TimerJoined
  | _ => True
  end.

Lemma exec_joins k ok me o n n' :
  o ∈ Stop k -> exec me ok o n = Done n' ->
  (o = JoinTimer \/ timer n = TimerJoined) -> timer n' = TimerJoined.
Proof.
  destruct n as [r f tm st cn t cl sv]. intros Ho E Ht. destruct k; cbn in Ho;
    repeat (apply elem_of_cons in Ho as [-> | Ho]; [cbn in E; try unfold loop_join in E;
      repeat case_match; simplify_eq/=; destruct Ht; done|]); by apply elem_of_nil in Ho.
Qed.

Lemma join_due_step k failing s s' : step k failing s s' -> join_due k s -> join_due k s'.
Proof.
  intros Hstep Hs. destruct Hstep as [me ok o rest n n' E|me ok o rest n n' E|me ok o rest n E
    |me ok o rest n E|me n|t n n' c Ht E|e f n l c Hc Hd He E|e f n l c Hd He E]; try done;
    unfold join_due in *; cbn [fst snd] in *.
  - destruct Hs as [[past Ep] Hj]. assert (o ∈ Stop k) as Ho by (rewrite Ep; set_solver).
    split; [exists (past ++ [o]); by rewrite <- app_assoc|].
    destruct Hj as [[<-|Hj]%elem_of_cons|Hj]; [right|by left|right]; eapply exec_joins; eauto.
  - destruct Hs as [[past Ep] _]. by destruct (Stop_cannot_leave k ok me o n n'); [rewrite Ep; set_solver|].
  - destruct Hs as [_ [Hj|Hj]]; [by apply elem_of_nil in Hj|done].
  - assert (timer n <> TimerJoined) as Hne by (intros Ej; unfold timer_step in E; by rewrite Ej in E).
    destruct c; try done. destruct Hs as (? & [?|?]); [by eauto|done].
  - destruct c; rewrite ?apply_effect_timer; done.
  - destruct c; rewrite ?apply_effect_timer; done.
Qed.

(** Stop of the scheduler does not end the timer: it returns only after a
    message or the timer has set is_finish_. *)
Lemma Stop_returned_finished k failing n c s b :
  starting k failing (n, c) -> rtc (step k failing) (stopping k Main n) s -> s.2 = Returned b ->
  timer s.1 = TimerJoined /\ is_finish_ s.1 = true.
Proof.
  intros Hst Hrun Eb.
  assert (ended_finished n) as Hn.
  { change n with (n, c).1. refine (rtc_ind_r (fun s => ended_finished s.1) _ _ _ _ Hst); [done|].
    intros; by eapply ended_finished_step. }
  assert (ended_finished s.1) as Hs.
  { refine (rtc_ind_r (fun s => ended_finished s.1) _ _ _ s Hrun); [done|]. intros; by eapply ended_finished_step. }
  assert (join_due k s) as Hj.
  { refine (rtc_ind_r (join_due k) _ _ _ s Hrun); [|by intros; eapply join_due_step].
    split; [by exists []|]. left. destruct k; cbn; set_solver. }
  unfold join_due in Hj. rewrite Eb in Hj. split; [done|]. unfold ended_finished in Hs. by rewrite Hj in Hs.
Qed.
