(* ===== verification/TcpServer.v ===== *)
(** * The TCP server

    src/even-http/ps/core/tcp_server.{h,cc}: the listener, the table of
    connections and the callbacks libevent runs on the server's event thread.
    The frames are those of Framing.v and Sending.v.

    libevent and the sockets are parameters: the results of the calls that can
    fail are arguments, and [evbuffer_remove] is a function with its documented
    law (it takes between one byte and the size of the buffer off the front of
    a non-empty input). *)
From S2P Require Import Prelude Convert Securec Messages Framing Sending Config.

Definition kMessageChunkLength : Z := 4096.

(** What the connections' [TcpConnection] objects hold: the output of their
    buffer event and the message handler. *)
Record TcpConnection : Type := mkConnection {
  buffer_event_ : bufferevent;
  tcp_message_handler_ : TcpMessageHandler MessageMeta;
}.

(** [message_callback_] and [client_disconnection_] are whether the callbacks are
    set; [received] and [disconnected] are their calls, [closed] the
    descriptors bufferevent_free closed. [client_accept_] is the connection a
    user's function returns, if one is set. *)
Record TcpServer : Type := mkServer {
  base_ : bool;
  signal_event_ : bool;
  listener_ : bool;
  server_address_ : string;
  server_port_ : Z; (* uint16_t *)
  is_stop_ : bool;
  loop_break : bool;
  connections_ : gmap Z TcpConnection;
  client_accept_ : option (option TcpConnection);
  client_disconnection_ : bool;
  message_callback_ : bool;
  on_timer_callback_ : bool;
  on_timer_once_callback_ : bool;
  timer_calls : list bool; (* true: the callback of a timer that fires once *)
  received : list (Z * delivery MessageMeta);
  disconnected : list Z;
  closed : list Z;
}.

Definition TcpServer_init (address : string) (port : Z) : TcpServer :=
  mkServer false false false address port true false ∅ None false false false false [] [] [] [].

Definition set_base (x : bool) (s : TcpServer) : TcpServer :=
  mkServer x (signal_event_ s) (listener_ s) (server_address_ s) (server_port_ s) (is_stop_ s)
    (loop_break s) (connections_ s) (client_accept_ s) (client_disconnection_ s)
    (message_callback_ s) (on_timer_callback_ s) (on_timer_once_callback_ s) (timer_calls s) (received s) (disconnected s) (closed s).
Definition set_signal (x : bool) (s : TcpServer) : TcpServer :=
  mkServer (base_ s) x (listener_ s) (server_address_ s) (server_port_ s) (is_stop_ s)
    (loop_break s) (connections_ s) (client_accept_ s) (client_disconnection_ s)
    (message_callback_ s) (on_timer_callback_ s) (on_timer_once_callback_ s) (timer_calls s) (received s) (disconnected s) (closed s).
Definition set_listener (x : bool) (s : TcpServer) : TcpServer :=
  mkServer (base_ s) (signal_event_ s) x (server_address_ s) (server_port_ s) (is_stop_ s)
    (loop_break s) (connections_ s) (client_accept_ s) (client_disconnection_ s)
    (message_callback_ s) (on_timer_callback_ s) (on_timer_once_callback_ s) (timer_calls s) (received s) (disconnected s) (closed s).
Definition set_port (x : Z) (s : TcpServer) : TcpServer :=
  mkServer (base_ s) (signal_event_ s) (listener_ s) (server_address_ s) x (is_stop_ s)
    (loop_break s) (connections_ s) (client_accept_ s) (client_disconnection_ s)
    (message_callback_ s) (on_timer_callback_ s) (on_timer_once_callback_ s) (timer_calls s) (received s) (disconnected s) (closed s).
Definition set_stop (x : bool) (s : TcpServer) : TcpServer :=
  mkServer (base_ s) (signal_event_ s) (listener_ s) (server_address_ s) (server_port_ s) x
    (loop_break s) (connections_ s) (client_accept_ s) (client_disconnection_ s)
    (message_callback_ s) (on_timer_callback_ s) (on_timer_once_callback_ s) (timer_calls s) (received s) (disconnected s) (closed s).
Definition set_break (x : bool) (s : TcpServer) : TcpServer :=
  mkServer (base_ s) (signal_event_ s) (listener_ s) (server_address_ s) (server_port_ s)
    (is_stop_ s) x (connections_ s) (client_accept_ s) (client_disconnection_ s)
    (message_callback_ s) (on_timer_callback_ s) (on_timer_once_callback_ s) (timer_calls s) (received s) (disconnected s) (closed s).
Definition set_connections (f : gmap Z TcpConnection -> gmap Z TcpConnection) (s : TcpServer)
    : TcpServer :=
  mkServer (base_ s) (signal_event_ s) (listener_ s) (server_address_ s) (server_port_ s)
    (is_stop_ s) (loop_break s) (f (connections_ s)) (client_accept_ s) (client_disconnection_ s)
    (message_callback_ s) (on_timer_callback_ s) (on_timer_once_callback_ s) (timer_calls s) (received s) (disconnected s) (closed s).
Definition set_message_callback (x : bool) (s : TcpServer) : TcpServer :=
  mkServer (base_ s) (signal_event_ s) (listener_ s) (server_address_ s) (server_port_ s)
    (is_stop_ s) (loop_break s) (connections_ s) (client_accept_ s) (client_disconnection_ s) x
    (on_timer_callback_ s) (on_timer_once_callback_ s) (timer_calls s) (received s) (disconnected s) (closed s).
Definition set_received (f : list (Z * delivery MessageMeta) -> list (Z * delivery MessageMeta)) (s : TcpServer)
    : TcpServer :=
  mkServer (base_ s) (signal_event_ s) (listener_ s) (server_address_ s) (server_port_ s)
    (is_stop_ s) (loop_break s) (connections_ s) (client_accept_ s) (client_disconnection_ s)
    (message_callback_ s) (on_timer_callback_ s) (on_timer_once_callback_ s) (timer_calls s) (f (received s)) (disconnected s) (closed s).
Definition set_disconnected (f : list Z -> list Z) (s : TcpServer) : TcpServer :=
  mkServer (base_ s) (signal_event_ s) (listener_ s) (server_address_ s) (server_port_ s)
    (is_stop_ s) (loop_break s) (connections_ s) (client_accept_ s) (client_disconnection_ s)
    (message_callback_ s) (on_timer_callback_ s) (on_timer_once_callback_ s) (timer_calls s) (received s) (f (disconnected s)) (closed s).
Definition set_closed (f : list Z -> list Z) (s : TcpServer) : TcpServer :=
  mkServer (base_ s) (signal_event_ s) (listener_ s) (server_address_ s) (server_port_ s)
    (is_stop_ s) (loop_break s) (connections_ s) (client_accept_ s) (client_disconnection_ s)
    (message_callback_ s) (on_timer_callback_ s) (on_timer_once_callback_ s) (timer_calls s) (received s) (disconnected s) (f (closed s)).

Definition set_callbacks (disconnection : bool) (accept : option (option TcpConnection)) (s : TcpServer)
    : TcpServer :=
  mkServer (base_ s) (signal_event_ s) (listener_ s) (server_address_ s) (server_port_ s)
    (is_stop_ s) (loop_break s) (connections_ s) accept disconnection
    (message_callback_ s) (on_timer_callback_ s) (on_timer_once_callback_ s) (timer_calls s)
    (received s) (disconnected s) (closed s).
Definition set_timers (timer once : bool) (s : TcpServer) : TcpServer :=
  mkServer (base_ s) (signal_event_ s) (listener_ s) (server_address_ s) (server_port_ s)
    (is_stop_ s) (loop_break s) (connections_ s) (client_accept_ s) (client_disconnection_ s)
    (message_callback_ s) timer once (timer_calls s) (received s) (disconnected s) (closed s).
Definition add_timer_call (once : bool) (s : TcpServer) : TcpServer :=
  mkServer (base_ s) (signal_event_ s) (listener_ s) (server_address_ s) (server_port_ s)
    (is_stop_ s) (loop_break s) (connections_ s) (client_accept_ s) (client_disconnection_ s)
    (message_callback_ s) (on_timer_callback_ s) (on_timer_once_callback_ s)
    (timer_calls s ++ [once]) (received s) (disconnected s) (closed s).

(** Computes the fields of a server after updates. *)
Ltac srvcbn := cbn [base_ signal_event_ listener_ server_address_ server_port_ is_stop_
    loop_break connections_ client_accept_ client_disconnection_ message_callback_
    on_timer_callback_ on_timer_once_callback_ timer_calls received disconnected closed set_base set_signal set_listener set_port
    set_stop set_break set_connections set_message_callback set_received set_disconnected
    set_closed set_callbacks set_timers add_timer_call] in *.

(** ** Start and stop *)

(** What the system calls of Init return: [evthread_use_pthreads], whether
    [event_base_new] and [evconnlistener_new_bind] succeeded, the port
    [getsockname] reports, whether [evsignal_new] succeeded, [event_add]. *)
Record init_results : Type := mkInitResults {
  use_pthreads : Z;
  base_new : bool;
  new_bind : bool;
  sock_name : option Z;
  signal_new : bool;
  add_signal : Z;
}.

Section server.
Context (inet_addr : string -> Z).
(** The largest array [new] can allocate, and what fresh storage holds. *)
Context (max_alloc junk : Z).
Context `{Protobuf MessageMeta}.

Definition Init (r : init_results) : M TcpServer unit :=
  _ ← (if negb (use_pthreads r =? 0) then throw "Use event pthread failed!" else mret tt);
  _ ← modify (set_stop false);
  _ ← modify (set_base (base_new r));
  _ ← exception_if_null (base_new r);
  s ← getS;
  _ ← (if negb (CheckIp inet_addr (server_address_ s))
       then throw "The tcp server ip is illegal!" else mret tt);
  _ ← modify (set_listener (new_bind r));
  _ ← exception_if_null (new_bind r);
  _ ← (if server_port_ s =? 0 then
         match sock_name r with
         | None => throw "Get sock name failed!"
         | Some port => modify (set_port port)
         end
       else mret tt);
  _ ← modify (set_signal (signal_new r));
  _ ← exception_if_null (signal_new r);
  if add_signal r <? 0 then throw "Cannot create signal event." else mret tt.

(** [ret] is what the event loop returned. *)
Definition Start (ret : Z) : M TcpServer unit :=
  s ← getS;
  _ ← exception_if_null (base_ s);
  if ret <? -1 then throw "Event base dispatch with unexpected error code!" else mret tt.

(** [event_base_got_break], then [event_base_loopbreak]. *)
Definition Stop (ret : Z) : M TcpServer unit :=
  s ← getS;
  if negb (base_ s) then undef "event_base_got_break of a null base"
  else if loop_break s then modify (set_stop true)
  else if negb (is_stop_ s) then
    _ ← modify (set_stop true);
    modify (set_break (ret =? 0))
  else mret tt.

(** [ev] is whether evtimer_new succeeded. *)
Definition StartTimer (time : Z) (ev : bool) : M TcpServer unit :=
  s ← getS;
  _ ← exception_if_null (base_ s);
  _ ← (if time =? 0 then throw "The time should not be 0!" else mret tt);
  exception_if_null ev.

Definition StartTimerOnlyOnce (time : Z) (ev : bool) : M TcpServer unit :=
  s ← getS;
  _ ← exception_if_null (base_ s);
  _ ← (if time =? 0 then throw "The time should not be 0!" else mret tt);
  exception_if_null ev.

(** Each part is freed when it is there. *)
Definition TcpServer_destructor : M TcpServer unit :=
  _ ← modify (set_signal false);
  _ ← modify (set_listener false);
  modify (set_base false).

(** Nothing calls [client_connection_]. *)
Definition SetServerCallback (disconn : bool) (accept : option (option TcpConnection))
    : M TcpServer unit := modify (set_callbacks disconn accept).
Definition SetMessageCallback (cb : bool) : M TcpServer unit := modify (set_message_callback cb).
Definition set_timer_callback (timer : bool) : M TcpServer unit :=
  modify (fun s => set_timers timer (on_timer_once_callback_ s) s).
Definition set_timer_once_callback (timer : bool) : M TcpServer unit :=
  modify (fun s => set_timers (on_timer_callback_ s) timer s).
Definition TimerCallback : M TcpServer unit :=
  modify (fun s => if on_timer_callback_ s then add_timer_call false s else s).
Definition TimerOnceCallback : M TcpServer unit :=
  modify (fun s => if on_timer_once_callback_ s then add_timer_call true s else s).

(** [ret] is what event_base_loopexit returned. *)
Definition SignalCallback (ret : Z) : M TcpServer unit :=
  if ret =? -1 then throw "Event base loop exit failed." else mret tt.

(** ** Connections *)
Definition AddConnection (fd : Z) (connection : option TcpConnection) : M TcpServer unit :=
  match connection with
  | None => throw "The pointer is null."
  | Some c => modify (set_connections (fun m =>
      match m !! fd with Some _ => m | None => <[fd := c]> m end))
  end.

Definition RemoveConnection (fd : Z) : M TcpServer unit :=
  modify (set_connections (delete fd)).

Definition ConnectionNum (s : TcpServer) : Z := i32 (Z.of_nat (size (connections_ s))).

Definition fresh_connection (garbage : list Z) : TcpConnection :=
  mkConnection (mkBufferevent [] 0) (TcpMessageHandler_init garbage).

Definition onCreateConnection (garbage : list Z) (s : TcpServer) : option TcpConnection :=
  match client_accept_ s with
  | Some c => c
  | None => Some (fresh_connection garbage)
  end.

Definition SetTcpNoDelay (ret : Z) : M TcpServer unit :=
  if ret <? 0 then throw "Set socket no delay failed!" else mret tt.

(** [conn->InitConnection(callback)] *)
Definition InitConnection (c : TcpConnection) : TcpConnection :=
  match SetCallback (tcp_message_handler_ c) with
  | Ret _ h => mkConnection (buffer_event_ c) h
  | _ => c
  end.

(** A connection was accepted: [bev] is whether bufferevent_socket_new succeeded,
    then the results of loopbreak, setsockopt and bufferevent_enable;
    [garbage] is what the new handler's header holds. *)
Definition ListenerCallback (fd : Z) (bev : bool) (break_ret sockopt_ret enable_ret : Z)
    (garbage : list Z) : M TcpServer unit :=
  s ← getS;
  _ ← exception_if_null (base_ s);
  if negb bev then
    if negb (break_ret =? 0) then throw "event base loop break failed!"
    else modify (set_break true)
  else
    match onCreateConnection garbage s with
    | None => throw "The pointer is null."
    | Some conn =>
      _ ← SetTcpNoDelay sockopt_ret;
      _ ← AddConnection fd (Some conn);
      _ ← modify (set_connections (alter InitConnection fd));
      if enable_ret =? -1 then throw "Buffer event enable read and write failed!" else mret tt
    end.

(** ** Events *)
Definition BEV_EVENT_EOF : Z := 16.
Definition BEV_EVENT_ERROR : Z := 32.

Definition notify_disconnection (fd : Z) : M TcpServer unit :=
  modify (fun s => if client_disconnection_ s then set_disconnected (fun l => l ++ [fd]) s else s).
Definition bufferevent_free (fd : Z) : M TcpServer unit :=
  modify (set_closed (fun l => l ++ [fd])).

(** The connection of the callback is the one of [fd]. *)
Definition EventCallback (events fd : Z) : M TcpServer unit :=
  if negb (Z.land events BEV_EVENT_EOF =? 0) then
    _ ← notify_disconnection fd;
    _ ← RemoveConnection fd;
    bufferevent_free fd
  else if negb (Z.land events BEV_EVENT_ERROR =? 0) then
    _ ← RemoveConnection fd;
    _ ← bufferevent_free fd;
    notify_disconnection fd
  else mret tt.

(** [conn->OnReadHandler(buffer, num)]: the handler's new calls reach the server's
    callback, if one is set. *)
Definition OnReadHandler (fd : Z) (buffer : list Z) : M TcpServer unit := fun s =>
  match connections_ s !! fd with
  | None => Undef "read on a connection that is gone"
  | Some c =>
    let h := tcp_message_handler_ c in
    let put h' s := set_connections (insert fd (mkConnection (buffer_event_ c) h')) s in
    let call h' s :=
      if message_callback_ s
      then set_received (fun l => l ++ ((fun d => (fd, d)) <$> drop (length (calls h)) (calls h'))) s
      else s in
    match ReceiveMessage max_alloc junk (Some buffer) (zlen buffer) h with
    | Ret _ h' => Ret tt (call h' (put h' s))
    | Throw e h' => Throw e (call h' (put h' s))
    | Undef w => Undef w
    | Fuel => Fuel
    end
  end.

(** [evbuffer_remove] into a buffer of [kMessageChunkLength] bytes: what it took
    and what is left, or [None] for -1. *)
Context (evbuffer_remove : list Z -> option (list Z * list Z)).

(** The loop of ReadCallback on the input of the connection. *)
Fixpoint read_loop (fuel : nat) (fd : Z) (input : list Z) : M TcpServer unit :=
  match input with
  | [] => mret tt
  | _ =>
    match fuel with
    | O => fun _ => Fuel
    | S fuel =>
      match evbuffer_remove input with
      | None => throw "Can not drain data from the event buffer!"
      | Some (read_buffer, input) =>
        _ ← OnReadHandler fd read_buffer;
        read_loop fuel fd input
      end
    end
  end.
Definition ReadCallback (fd : Z) (input : list Z) : M TcpServer unit :=
  read_loop (length input) fd input.

(** StartWithNoBlock runs the callbacks of the events that are pending with
    connection_mutex_ locked.  Locking a std::mutex again on the same thread is
    undefined: AddConnection and RemoveConnection do. *)
Inductive loop_event : Type :=
| EvAccept (fd : Z) (bev : bool) (break_ret sockopt_ret enable_ret : Z) (garbage : list Z)
| EvRead (fd : Z) (input : list Z)
| EvEvent (events fd : Z)
| EvTimer (once : bool)
| EvSignal (ret : Z).

Definition locks_again (s : TcpServer) (e : loop_event) : bool :=
  match e with
  | EvAccept fd bev _ sockopt_ret _ garbage =>
    bev && bool_decide (is_Some (onCreateConnection garbage s)) && (0 <=? sockopt_ret)
  | EvEvent events _ =>
    negb (Z.land events BEV_EVENT_EOF =? 0) || negb (Z.land events BEV_EVENT_ERROR =? 0)
  | _ => false
  end.

Definition run_event (e : loop_event) : M TcpServer unit :=
  match e with
  | EvAccept fd bev break_ret sockopt_ret enable_ret garbage =>
    ListenerCallback fd bev break_ret sockopt_ret enable_ret garbage
  | EvRead fd input => ReadCallback fd input
  | EvEvent events fd => EventCallback events fd
  | EvTimer once => if once then TimerOnceCallback else TimerCallback
  | EvSignal ret => SignalCallback ret
  end.

Fixpoint run_locked (es : list loop_event) : M TcpServer unit :=
  match es with
  | [] => mret tt
  | e :: es =>
    s ← getS;
    if locks_again s e then undef "connection_mutex_ is locked twice"
    else _ ← run_event e; run_locked es
  end.

Definition StartWithNoBlock (es : list loop_event) (ret : Z) : M TcpServer unit :=
  s ← getS;
  _ ← exception_if_null (base_ s);
  _ ← run_locked es;
  if ret <? -1 then throw "Event base loop with unexpected error code!" else mret tt.

(** ** Sending *)
Context (evbuffer_add : list Z -> list Z -> option (list Z)).

Definition on_connection {A} (fd : Z) (m : M bufferevent A) : M TcpServer A := fun s =>
  match connections_ s !! fd with
  | None => Undef "write on a connection that is gone"
  | Some c =>
    let put b := set_connections (insert fd (mkConnection b (tcp_message_handler_ c))) s in
    match m (buffer_event_ c) with
    | Ret a b => Ret a (put b)
    | Throw e b => Throw e (put b)
    | Undef w => Undef w
    | Fuel => Fuel
    end
  end.

Definition SendMessage (fd : Z) (meta : MessageMeta) (protos : Protos) (data : option (list Z))
    (size : Z) : M TcpServer bool :=
  on_connection fd (TcpServer_SendMessage evbuffer_add (Some true) (Some meta) protos data size).

(** A loop over the connections; what [m] returns is dropped. *)
Fixpoint each_connection {A} (m : M bufferevent A) (fds : list Z) : M TcpServer unit :=
  match fds with
  | [] => mret tt
  | fd :: fds => _ ← on_connection fd m; each_connection m fds
  end.

Definition SendToAllClients (data : option (list Z)) (len : Z) : M TcpServer unit :=
  match data with
  | None => throw "The pointer is null."
  | Some data =>
    s ← getS;
    each_connection (TcpConnection_SendRaw evbuffer_add data len) (map_to_list (connections_ s)).*1
  end.

(** The interfaces that take a [CommMessage]: to one connection and to all. *)
Context {C : Type} `{Protobuf C}.

Definition SendMessage_comm (fd : Z) (message : option C) : M TcpServer bool :=
  on_connection fd (TcpConnection_SendComm evbuffer_add true message).

Definition SendMessage_all (message : option C) : M TcpServer unit :=
  match message with
  | None => throw "The pointer is null."
  | Some message =>
    s ← getS;
    each_connection (TcpConnection_SendComm evbuffer_add true (Some message))
      (map_to_list (connections_ s)).*1
  end.
End server.

(** [WriteCallback] tests its arguments and logs the length of the output. *)
Definition WriteCallback (bev ctx : bool) : M TcpServer unit :=
  _ ← exception_if_null bev;
  exception_if_null ctx.

(** [GetConnectionByFd] is connections_[fd], which enters a null connection for a
    descriptor that has none; [nulls] are the descriptors entered so. *)
Record looked_up : Type := mkLookedUp { served : TcpServer; nulls : gset Z }.
Definition GetConnectionByFd (fd : Z) : M looked_up (option TcpConnection) :=
  s ← getS;
  match connections_ (served s) !! fd with
  | Some conn => mret (Some conn)
  | None => _ ← modify (fun s => mkLookedUp (served s) ({[fd]} ∪ nulls s)); mret None
  end.
(** What goes to all connections goes through the null pointers too. *)
Definition to_all (m : M TcpServer unit) : M looked_up unit := fun s =>
  if bool_decide (nulls s = ∅) then
    match m (served s) with
    | Ret a t => Ret a (mkLookedUp t (nulls s))
    | Throw e t => Throw e (mkLookedUp t (nulls s))
    | Undef w => Undef w
    | Fuel => Fuel
    end
  else Undef "SendMessage of a null connection".

Lemma GetConnectionByFd_cases fd s :
  match connections_ (served s) !! fd with
  | Some conn => GetConnectionByFd fd s = Ret (Some conn) s
  | None => exists s', GetConnectionByFd fd s = Ret None s' /\ served s' = served s /\
              forall m, exists w, to_all m s' = Undef w
  end.
Proof.
  unfold GetConnectionByFd. erewrite bind_Ret by reflexivity. cbv beta.
  destruct (connections_ (served s) !! fd) as [conn|]; [done|].
  eexists. split; [reflexivity|]. split; [done|]. intros m. eexists. unfold to_all. cbn [nulls].
  rewrite bool_decide_eq_false_2 by set_solver. reflexivity.
Qed.

(** ** Many connections *)

(** What belongs to one descriptor. *)
Definition from {A} (fd : Z) (l : list (Z * A)) : list A := (filter (fun p => p.1 = fd) l).*2.

Lemma from_app {A} fd (l k : list (Z * A)) : from fd (l ++ k) = from fd l ++ from fd k.
Proof. unfold from. by rewrite filter_app, fmap_app. Qed.

Lemma from_same {A} fd (ds : list A) : from fd ((fun d => (fd, d)) <$> ds) = ds.
Proof.
  unfold from. induction ds as [|d ds IH]; [done|]. cbn [fmap list_fmap].
  rewrite filter_cons, decide_True by done. cbn [fmap list_fmap]. by f_equal.
Qed.

Lemma from_other {A} fd fd' (ds : list A) : fd <> fd' -> from fd ((fun d => (fd', d)) <$> ds) = [].
Proof.
  intros Hne. unfold from. induction ds as [|d ds IH]; [done|]. cbn [fmap list_fmap].
  by rewrite filter_cons, decide_False by (cbn; congruence).
Qed.

Section reading.
Context `{Protobuf MessageMeta}.
Context (max_alloc junk : Z) (max_alloc_size : max_alloc <= SIZE_MAX).
Context (evbuffer_remove : list Z -> option (list Z * list Z)).
(** evbuffer_remove(3) on a non-empty buffer. *)
Context (remove_law : forall l, l <> [] -> exists a b,
  evbuffer_remove l = Some (a, b) /\ l = a ++ b /\ 0 < zlen a <= kMessageChunkLength).

Definition conn_holds (s : TcpServer) (fd : Z) (pend : list Z) : Prop :=
  exists c, connections_ s !! fd = Some c /\ holds max_alloc pend (tcp_message_handler_ c).

(** What reading some bytes of one connection does: [ds] reach the callback,
    the other connections are untouched. *)
Record read_ok (s s' : TcpServer) (fd : Z) (ds : list (delivery MessageMeta)) (rest : list Z)
    : Prop := {
  ro_received : received s' = received s ++ ((fun d => (fd, d)) <$> ds);
  ro_callback : message_callback_ s' = message_callback_ s;
  ro_holds : conn_holds s' fd rest;
  ro_others fd' p : fd' <> fd -> conn_holds s fd' p -> conn_holds s' fd' p;
}.

Lemma OnReadHandler_ok s fd pend chunk ds rest :
  message_callback_ s = true -> zlen chunk <= SECUREC_MEM_MAX_LEN -> conn_holds s fd pend ->
  decodes max_alloc (pend ++ chunk) ds rest ->
  exists s', OnReadHandler max_alloc junk fd chunk s = Ret tt s' /\ read_ok s s' fd ds rest.
Proof.
  intros Hcb Hlen (c & Hc & Hh) Hd.
  destruct (ReceiveMessage_holds max_alloc junk max_alloc_size chunk _ pend ds rest Hlen Hh Hd)
    as (h' & E & Hh' & Hcalls).
  unfold OnReadHandler. rewrite Hc, E. srvcbn. rewrite Hcb. eexists. split; [done|].
  split; srvcbn; [|done| |].
  - by rewrite Hcalls, drop_app_length.
  - eexists. srvcbn. rewrite lookup_insert_eq. by split.
  - intros fd' p Hne (c' & Hc' & Hp). exists c'. srvcbn. by rewrite lookup_insert_ne.
Qed.

Lemma read_ok_trans s s1 s2 fd ds1 p ds2 rest :
  read_ok s s1 fd ds1 p -> read_ok s1 s2 fd ds2 rest -> read_ok s s2 fd (ds1 ++ ds2) rest.
Proof.
  intros [R1 C1 H1 O1] [R2 C2 H2 O2]. split; [|congruence|done|auto].
  by rewrite R2, R1, fmap_app, app_assoc.
Qed.

Lemma read_loop_ok fuel : forall input s fd pend ds rest,
  (length input <= fuel)%nat -> message_callback_ s = true -> conn_holds s fd pend ->
  decodes max_alloc (pend ++ input) ds rest ->
  exists s', read_loop max_alloc junk evbuffer_remove fuel fd input s = Ret tt s' /\
    read_ok s s' fd ds rest.
Proof.
  assert (forall s fd pend ds rest, conn_holds s fd pend ->
    decodes max_alloc (pend ++ []) ds rest -> read_ok s s fd ds rest) as Hnil.
  { intros s fd pend ds rest (c & Hc & Hh) Hd. rewrite app_nil_r in Hd.
    destruct (decodes_incomplete _ _ _ _ Hd) as [-> ->]; [by eapply holds_incomplete|].
    split; [by rewrite app_nil_r|done|by exists c|done]. }
  induction fuel as [|fuel IH]; intros [|x input] s fd pend ds rest Hf Hcb Hc Hd;
    try (exists s; split; [done|by eapply Hnil]); [cbn in Hf; lia|].
  cbn [read_loop]. destruct (remove_law (x :: input)) as (a & b & -> & E & Ha); [done|].
  rewrite E, app_assoc in Hd.
  destruct (decodes_cut _ _ _ _ Hd _ _ eq_refl) as (ds1 & p & ds2 & Hd1 & Hd2 & ->).
  destruct (OnReadHandler_ok s fd pend a ds1 p) as (s1 & E1 & R1); [done| |done|done|].
  { unfold kMessageChunkLength in Ha. change SECUREC_MEM_MAX_LEN with 2147483647. lia. }
  rewrite (bind_Ret _ _ _ _ _ E1). pose proof R1 as [_ C1 H1 _].
  destruct (IH b s1 fd p ds2 rest) as (s2 & E2 & R2); [|by rewrite C1|done|done|].
  { apply (f_equal length) in E. rewrite length_app in E. unfold zlen in Ha. cbn in *. lia. }
  exists s2. split; [done|]. by eapply read_ok_trans.
Qed.

(** Reads of any connections in any order. *)
Fixpoint read_events (l : list (Z * list Z)) : M TcpServer unit :=
  match l with
  | [] => mret tt
  | (fd, input) :: l =>
    _ ← ReadCallback max_alloc junk evbuffer_remove fd input; read_events l
  end.

Lemma read_events_ok (fds : list Z) l : forall s pend ds rest,
  message_callback_ s = true -> Forall (fun p => p.1 ∈ fds) l ->
  (forall fd, fd ∈ fds -> conn_holds s fd (pend fd) /\
     decodes max_alloc (pend fd ++ concat (from fd l)) (ds fd) (rest fd)) ->
  exists s' new, read_events l s = Ret tt s' /\ received s' = received s ++ new /\
    forall fd, fd ∈ fds -> from fd new = ds fd /\ conn_holds s' fd (rest fd).
Proof.
  induction l as [|[fd0 input] l IH]; intros s pend ds rest Hcb Hin Hall.
  - exists s, []. rewrite app_nil_r. split_and!; [done|done|]. intros fd Hfd.
    destruct (Hall fd Hfd) as [(c & Hc & Hh) Hd]. cbn in Hd. rewrite app_nil_r in Hd.
    destruct (decodes_incomplete _ _ _ _ Hd) as [Eds Erest]; [by eapply holds_incomplete|].
    rewrite Eds, Erest. split; [done|]. by exists c.
  - apply Forall_cons in Hin as [Hfd0 Hin]. cbn in Hfd0.
    assert (forall fd, concat (from fd ((fd0, input) :: l)) =
      (if decide (fd = fd0) then input else []) ++ concat (from fd l)) as Hcat.
    { intros fd. unfold from. rewrite filter_cons. cbn. repeat case_decide; done. }
    destruct (Hall fd0 Hfd0) as [Hc0 Hd0]. rewrite Hcat, decide_True, app_assoc in Hd0 by done.
    destruct (decodes_cut _ _ _ _ Hd0 _ _ eq_refl) as (ds1 & p & ds2 & Hd1 & Hd2 & Eds).
    destruct (read_loop_ok (length input) input s fd0 (pend fd0) ds1 p) as (s1 & E1 & [R1 C1 H1 O1]);
      [done..|].
    destruct (IH s1 (fun fd => if decide (fd = fd0) then p else pend fd)
      (fun fd => if decide (fd = fd0) then ds2 else ds fd) rest) as (s2 & new & E2 & R2 & Hnew);
      [by rewrite C1|done| |].
    { intros fd Hfd. destruct (decide (fd = fd0)) as [->|Hne]; [done|].
      destruct (Hall fd Hfd) as [Hc Hd]. rewrite Hcat, decide_False in Hd by done. auto. }
    exists s2, (((fun d => (fd0, d)) <$> ds1) ++ new). cbn [read_events].
    rewrite (bind_Ret _ _ _ _ _ E1). split_and!; [done|by rewrite R2, R1, app_assoc|].
    intros fd Hfd. destruct (Hnew fd Hfd) as [Hn Hh]. rewrite from_app.
    destruct (decide (fd = fd0)) as [->|Hne].
    + by rewrite from_same, Hn, Eds.
    + by rewrite from_other, Hn by done.
Qed.

(** Connections accepted one after the other, without failures. *)
Fixpoint accept_all (garbage : list Z) (fds : list Z) : M TcpServer unit :=
  match fds with
  | [] => mret tt
  | fd :: fds => _ ← ListenerCallback fd true 0 0 0 garbage; accept_all garbage fds
  end.

Lemma ListenerCallback_ok garbage fd s :
  base_ s = true -> client_accept_ s = None -> connections_ s !! fd = None ->
  exists c, tcp_message_handler_ c = mkHandler true false None 0 garbage (-1) 0
      MessageHeader_default [] /\
    ListenerCallback fd true 0 0 0 garbage s =
    Ret tt (set_connections (alter InitConnection fd)
             (set_connections (insert fd (fresh_connection garbage)) s)) /\
    connections_ (set_connections (alter InitConnection fd)
      (set_connections (insert fd (fresh_connection garbage)) s)) = <[fd := c]> (connections_ s).
Proof.
  intros Hb Ha Hn. exists (InitConnection (fresh_connection garbage)). split; [done|]. split.
  - unfold ListenerCallback, onCreateConnection. rewrite (bind_Ret getS _ s s s eq_refl), Hb, Ha.
    rewrite (bind_Ret (exception_if_null true) _ s tt s eq_refl). cbn [negb].
    rewrite (bind_Ret (SetTcpNoDelay 0) _ s tt s eq_refl).
    rewrite (bind_Ret _ _ s tt (set_connections (insert fd (fresh_connection garbage)) s)); [done|].
    unfold AddConnection, modify, set_connections. by rewrite Hn.
  - srvcbn. apply map_eq. intros fd'. destruct (decide (fd' = fd)) as [->|Hne].
    + by rewrite lookup_alter_eq, !lookup_insert_eq.
    + by rewrite lookup_alter_ne, !lookup_insert_ne.
Qed.

Lemma accept_all_ok garbage fds : forall s,
  zlen garbage = kHeaderLen -> NoDup fds -> base_ s = true -> client_accept_ s = None ->
  (forall fd, fd ∈ fds -> connections_ s !! fd = None) ->
  exists s', accept_all garbage fds s = Ret tt s' /\ received s' = received s /\
    message_callback_ s' = message_callback_ s /\
    (forall fd p, conn_holds s fd p -> fd ∉ fds -> conn_holds s' fd p) /\
    forall fd, fd ∈ fds -> conn_holds s' fd [].
Proof.
  intros s Hg. revert s. induction fds as [|fd fds IH]; intros s Hnd Hb Ha Hnew.
  - exists s. split_and!; try done. by intros fd ?%not_elem_of_nil.
  - apply NoDup_cons in Hnd as [Hfd Hnd].
    destruct (ListenerCallback_ok garbage fd s Hb Ha) as (c & Hc & E & Hcs).
    { apply Hnew. by left. }
    cbn [accept_all]. rewrite (bind_Ret _ _ _ _ _ E).
    match goal with |- context [accept_all _ _ ?x] => set (s1 := x) in * end.
    destruct (IH s1 Hnd Hb Ha) as (s' & E' & R & C & Hold & Hall).
    { intros fd' Hin. rewrite Hcs, lookup_insert_ne by congruence. apply Hnew. by right. }
    exists s'. split_and!; [done|by rewrite R|by rewrite C| |].
    + intros fd' p (c' & Hc' & Hp) [Hne Hnin]%not_elem_of_cons. apply Hold; [|done].
      exists c'. by rewrite Hcs, lookup_insert_ne.
    + intros fd' [->|Hin]%elem_of_cons; [|auto]. apply Hold; [|done]. exists c.
      rewrite Hcs, lookup_insert_eq. split; [done|]. rewrite Hc. by apply holds_header.
Qed.

(** C12: many connections.  A server accepts connections and then reads from them
    in any order and in pieces of any size.  If the bytes of each connection
    decode, the server's callback gets from each connection exactly its
    messages, in order, no matter how the reads interleave and how libevent
    cuts the input; no read fails. *)
Theorem server_demultiplexes garbage (fds : list Z) l s ds rest :
  zlen garbage = kHeaderLen -> NoDup fds -> base_ s = true -> client_accept_ s = None ->
  connections_ s = ∅ -> message_callback_ s = true -> received s = [] ->
  Forall (fun p => p.1 ∈ fds) l ->
  (forall fd, fd ∈ fds -> decodes max_alloc (concat (from fd l)) (ds fd) (rest fd)) ->
  exists s', (_ ← accept_all garbage fds; read_events l) s = Ret tt s' /\
    forall fd, fd ∈ fds -> from fd (received s') = ds fd.
Proof.
  intros Hg Hnd Hb Ha Hc Hcb Hrec Hin Hd.
  destruct (accept_all_ok garbage fds s Hg Hnd Hb Ha) as (s1 & E1 & R1 & C1 & _ & H1).
  { intros fd _. rewrite Hc. apply lookup_empty. }
  destruct (read_events_ok fds l s1 (fun _ => []) ds rest) as (s2 & new & E2 & R2 & Hnew);
    [congruence|done|by split; [apply H1|apply Hd]|].
  exists s2. rewrite (bind_Ret _ _ _ _ _ E1). split; [done|]. intros fd Hfd.
  rewrite R2, R1, Hrec. by apply Hnew.
Qed.
End reading.

(** A server that runs its loop with StartWithNoBlock cannot accept a connection. *)
Lemma no_block_cannot_accept `{Protobuf MessageMeta} max_alloc junk evbuffer_remove fd enable_ret
    garbage es ret s :
  base_ s = true -> client_accept_ s = None ->
  exists w, StartWithNoBlock max_alloc junk evbuffer_remove
    (EvAccept fd true 0 0 enable_ret garbage :: es) ret s = Undef w.
Proof.
  intros Hb Ha. unfold StartWithNoBlock, mbind, M_bind, getS. rewrite Hb. cbn [exception_if_null].
  unfold mret, M_ret. cbn [run_locked locks_again]. unfold mbind, M_bind, getS, onCreateConnection.
  rewrite Ha. by eexists.
Qed.

(** ** Sending to all connections *)
Section broadcast.
Context (evbuffer_add : list Z -> list Z -> option (list Z)).

Lemma on_connection_ok {A} fd (m : M bufferevent A) s c a b :
  connections_ s !! fd = Some c -> m (buffer_event_ c) = Ret a b ->
  on_connection fd m s =
    Ret a (set_connections (insert fd (mkConnection b (tcp_message_handler_ c))) s).
Proof. intros Hc E. unfold on_connection. by rewrite Hc, E. Qed.

(** A write that always succeeds, once per connection. *)
Lemma each_connection_ok {A} (m : M bufferevent A) (f : bufferevent -> bufferevent) fds :
  (forall b, exists a, m b = Ret a (f b)) -> NoDup fds -> forall s,
  (forall fd, fd ∈ fds -> is_Some (connections_ s !! fd)) ->
  exists s', each_connection m fds s = Ret tt s' /\
    forall fd, connections_ s' !! fd =
      if decide (fd ∈ fds)
      then (fun c => mkConnection (f (buffer_event_ c)) (tcp_message_handler_ c)) <$> connections_ s !! fd
      else connections_ s !! fd.
Proof.
  intros Hm. induction fds as [|x fds IH]; intros Hn s Hs.
  - exists s. split; [done|]. intros fd. by rewrite decide_False by apply not_elem_of_nil.
  - apply NoDup_cons in Hn as [Hx Hn]. destruct (Hs x) as [c Hc]; [by left|].
    destruct (Hm (buffer_event_ c)) as [a Ea].
    cbn [each_connection]. rewrite (bind_Ret _ _ _ _ _ (on_connection_ok x m s c a _ Hc Ea)).
    destruct (IH Hn (set_connections (insert x (mkConnection (f (buffer_event_ c)) (tcp_message_handler_ c))) s))
      as (s' & E & Hs').
    { intros fd Hfd. srvcbn. apply lookup_insert_is_Some'. right. apply Hs. by right. }
    exists s'. split; [done|]. intros fd. rewrite Hs'. srvcbn. destruct (decide (fd = x)) as [->|Hne].
    + rewrite decide_False, decide_True by (done || by left). by rewrite lookup_insert_eq, Hc.
    + rewrite lookup_insert_ne by done. destruct (decide (fd ∈ fds)) as [Hi|Hi].
      * by rewrite decide_True by (by right).
      * by rewrite decide_False by (by intros [|]%elem_of_cons).
Qed.

Lemma connection_keys (s : TcpServer) fd :
  fd ∈ (map_to_list (connections_ s)).*1 <-> is_Some (connections_ s !! fd).
Proof.
  split.
  - intros ([k c] & -> & H)%list_elem_of_fmap. apply elem_of_map_to_list in H. by exists c.
  - intros [c H]. apply list_elem_of_fmap. exists (fd, c). by rewrite elem_of_map_to_list.
Qed.

(** The writes to a buffer that always takes them. *)
Context (add_ok : forall out d, evbuffer_add out d = Some (out ++ d)).

Lemma write_all ptr size b :
  size = zlen ptr ->
  bufferevent_write evbuffer_add ptr size b = Ret 0 (mkBufferevent (output b ++ ptr) (locked b)).
Proof.
  intros ->. unfold bufferevent_write. destruct (Z.gtb_spec (zlen ptr) (zlen ptr)); [lia|].
  by rewrite ztake_all, add_ok.
Qed.

Lemma each_connection_all {A} (m : M bufferevent A) d s :
  (forall b, exists a, m b = Ret a (mkBufferevent (output b ++ d) (locked b))) ->
  exists s', each_connection m (map_to_list (connections_ s)).*1 s = Ret tt s' /\
    forall fd, connections_ s' !! fd =
      (fun c => mkConnection (mkBufferevent (output (buffer_event_ c) ++ d) (locked (buffer_event_ c)))
                 (tcp_message_handler_ c)) <$> connections_ s !! fd.
Proof.
  intros Hm.
  destruct (each_connection_ok m (fun b => mkBufferevent (output b ++ d) (locked b))
    (map_to_list (connections_ s)).*1 Hm (NoDup_fst_map_to_list _) s) as (s' & E & H).
  { intros fd. apply connection_keys. }
  exists s'. split; [done|]. intros fd. rewrite H. case_decide as Hd; [done|].
  rewrite connection_keys, <- eq_None_not_Some in Hd. by rewrite Hd.
Qed.

(** A broadcast appends the same bytes to the output of every connection
    there is and changes nothing else: the data of SendToAllClients, or the
    size in eight bytes and the encoding of the message of SendMessage. *)
Theorem broadcast_reaches_all {C} `{ProtobufLaws C} (message : C) data s :
  (exists s1, SendToAllClients evbuffer_add (Some data) (zlen data) s = Ret tt s1 /\
    forall fd, connections_ s1 !! fd =
      (fun c => mkConnection (mkBufferevent (output (buffer_event_ c) ++ data) (locked (buffer_event_ c)))
                 (tcp_message_handler_ c)) <$> connections_ s !! fd) /\
  (exists s2, SendMessage_all evbuffer_add (Some message) s = Ret tt s2 /\
    forall fd, connections_ s2 !! fd =
      (fun c => mkConnection
                 (mkBufferevent (output (buffer_event_ c) ++ le_bytes 8 (zlen (SerializeAsString message)) ++
                    SerializeAsString message) (locked (buffer_event_ c)))
                 (tcp_message_handler_ c)) <$> connections_ s !! fd).
Proof.
  split.
  - apply each_connection_all. intros b. exists tt. unfold TcpConnection_SendRaw.
    by rewrite (bind_Ret _ _ _ _ _ (write_all data _ b eq_refl)).
  - apply each_connection_all. intros b. exists true. unfold TcpConnection_SendComm, bufferevent_lock.
    do 2 erewrite bind_Ret by reflexivity. erewrite bind_Ret by (by apply write_all).
    erewrite bind_Ret by (apply write_all, size_serialize). cbn [output locked].
    rewrite size_serialize, app_assoc. erewrite bind_Ret by reflexivity. cbn [output locked].
    by replace (locked b + 1 - 1) with (locked b) by lia.
Qed.
End broadcast.

(** ** Example: two connections whose frames arrive interleaved *)
Section examples.
Import ExampleEncoding.
#[local] Instance example_meta_protobuf : Protobuf MessageMeta := {|
  SerializeAsString := fun _ => []; ByteSizeLong := fun _ => 0;
  ParseFromArray := fun _ => MessageMeta_default |}.

Definition example_remove (l : list Z) : option (list Z * list Z) :=
  Some (take 4096 l, drop 4096 l).

Definition example_listening : TcpServer :=
  mkServer true true true "127.0.0.1" 80 false false ∅ None false true false false [] [] [] [].

Definition example_reads : list (Z * list Z) :=
  [(3, [0; 0; 0; 0; 1; 0; 0; 0; 3; 0; 0; 0; 0; 0]); (4, [2; 0; 0]); (3, [0; 0; 7; 8; 9])].

Lemma broadcast_reaches_all_witness :
  exists s2, SendMessage_all (fun out d => Some (out ++ d)) (Some (mkHeartbeatMessage "n" false))
      (set_connections (fun _ => {[3 := fresh_connection []]}) example_listening) = Ret tt s2 /\
    is_Some (connections_ s2 !! 3).
Proof.
  destruct (broadcast_reaches_all (fun out d => Some (out ++ d)) ltac:(reflexivity)
    (mkHeartbeatMessage "n" false) [1] (set_connections (fun _ => {[3 := fresh_connection []]})
       example_listening)) as (_ & s2 & E & H).
  exists s2. split; [exact E|]. rewrite H. vm_compute. eexists. reflexivity.
Defined.

Lemma server_demultiplexes_witness :
  exists s', (_ ← accept_all (replicate 16 0) [3; 4];
              read_events 1000 0 example_remove example_reads) example_listening = Ret tt s' /\
    from 3 (received s') = [mkDelivery MessageMeta_default 0 [8; 9] 2] /\
    from 4 (received s') = [].
Proof.
  destruct (server_demultiplexes 1000 0 ltac:(discriminate) example_remove) with
    (garbage := replicate 16 0) (fds := [3; 4]) (l := example_reads) (s := example_listening)
    (ds := fun fd => if fd =? 3 then [mkDelivery MessageMeta_default 0 [8; 9] 2] else [])
    (rest := fun fd => if fd =? 3 then [] else [2; 0; 0]) as (s' & E & H); try reflexivity.
  - intros l Hl. exists (take 4096 l), (drop 4096 l). split; [reflexivity|].
    split; [by rewrite take_drop|]. destruct l as [|x l]; [done|].
    unfold zlen, kMessageChunkLength. rewrite length_take. cbn [length]. lia.
  - apply (bool_decide_unpack _). vm_compute. exact I.
  - apply (bool_decide_unpack _). vm_compute. exact I.
  - intros fd [->|[->|[]%elem_of_nil]%elem_of_cons]%elem_of_cons.
    + eapply decodes_frame; [vm_compute; repeat split; discriminate|vm_compute; reflexivity|].
      apply decodes_end; [by intros []|reflexivity].
    + apply decodes_end; [by intros []|reflexivity].
  - exists s'. split; [exact E|]. split; [apply (H 3); by left|apply (H 4); by right; left].
Defined.
End examples.
