(* ===== verification/TcpClient.v ===== *)
(** * The TCP client

    src/even-http/ps/core/tcp_client.{h,cc}.  All clients of a process share
    the static members [event_base_] and [is_started_]; the operations work on
    the statics and on one client.  As in TcpServer.v the results of libevent
    and of the sockets are arguments, and sending and receiving are those of
    Sending.v and Framing.v. *)
From S2P Require Import Prelude Convert Securec Messages Framing Sending Config.

(** The static members.  An event base is whether its loop was broken off;
    [dispatches] counts the calls of event_base_dispatch. *)
Record statics : Type := mkStatics {
  event_base_ : option bool;
  is_started_ : bool;
  dispatches : Z;
}.
Definition statics_init : statics := mkStatics None false 0.

(** [calls] of the handler are those of [message_callback_] when one is set.
    Nothing sets [read_callback_] and [timeout_callback_]. *)
Record TcpClient : Type := mkClient {
  event_timeout_ : bool;
  buffer_event_ : option bufferevent;
  server_address_ : string;
  server_port_ : Z; (* uint16_t *)
  is_stop_ : bool;
  is_connected_ : bool;
  connected_callback_ : bool;
  disconnected_callback_ : bool;
  callbacks_run : list bool; (* true: connected, false: disconnected *)
  message_handler_ : TcpMessageHandler MessageMeta;
  on_timer_callback_ : bool;
  timer_calls : Z; (* how often it has run *)
  message_callback_ : bool;
}.

(** The constructor sets the callback of the handler. *)
Definition TcpClient_init (address : string) (port : Z) (garbage : list Z) : TcpClient :=
  mkClient false None address port true false false false []
    (mkHandler true false None 0 garbage (-1) 0 MessageHeader_default []) false 0 false.

Definition state : Type := statics * TcpClient.

Definition on_statics (f : statics -> statics) : M state unit := modify (fun s => (f s.1, s.2)).
Definition on_client (f : TcpClient -> TcpClient) : M state unit := modify (fun s => (s.1, f s.2)).

Definition set_base (b : option bool) (s : statics) : statics :=
  mkStatics b (is_started_ s) (dispatches s).
Definition set_buffer_event (b : option bufferevent) (c : TcpClient) : TcpClient :=
  mkClient (event_timeout_ c) b (server_address_ c) (server_port_ c) (is_stop_ c)
    (is_connected_ c) (connected_callback_ c) (disconnected_callback_ c) (callbacks_run c)
    (message_handler_ c)
    (on_timer_callback_ c) (timer_calls c) (message_callback_ c).
Definition set_stop (b : bool) (c : TcpClient) : TcpClient :=
  mkClient (event_timeout_ c) (buffer_event_ c) (server_address_ c) (server_port_ c) b
    (is_connected_ c) (connected_callback_ c) (disconnected_callback_ c) (callbacks_run c)
    (message_handler_ c)
    (on_timer_callback_ c) (timer_calls c) (message_callback_ c).
Definition set_connected (b : bool) (c : TcpClient) : TcpClient :=
  mkClient (event_timeout_ c) (buffer_event_ c) (server_address_ c) (server_port_ c) (is_stop_ c)
    b (connected_callback_ c) (disconnected_callback_ c) (callbacks_run c) (message_handler_ c)
    (on_timer_callback_ c) (timer_calls c) (message_callback_ c).
Definition set_timeout_event (b : bool) (c : TcpClient) : TcpClient :=
  mkClient b (buffer_event_ c) (server_address_ c) (server_port_ c) (is_stop_ c)
    (is_connected_ c) (connected_callback_ c) (disconnected_callback_ c) (callbacks_run c)
    (message_handler_ c)
    (on_timer_callback_ c) (timer_calls c) (message_callback_ c).
Definition run_callback (b : bool) (c : TcpClient) : TcpClient :=
  mkClient (event_timeout_ c) (buffer_event_ c) (server_address_ c) (server_port_ c) (is_stop_ c)
    (is_connected_ c) (connected_callback_ c) (disconnected_callback_ c) (callbacks_run c ++ [b])
    (message_handler_ c)
    (on_timer_callback_ c) (timer_calls c) (message_callback_ c).
Definition set_callbacks (connected disconnected : bool) (c : TcpClient) : TcpClient :=
  mkClient (event_timeout_ c) (buffer_event_ c) (server_address_ c) (server_port_ c) (is_stop_ c)
    (is_connected_ c) connected disconnected (callbacks_run c) (message_handler_ c)
    (on_timer_callback_ c) (timer_calls c) (message_callback_ c).
Definition set_handler (h : TcpMessageHandler MessageMeta) (c : TcpClient) : TcpClient :=
  mkClient (event_timeout_ c) (buffer_event_ c) (server_address_ c) (server_port_ c) (is_stop_ c)
    (is_connected_ c) (connected_callback_ c) (disconnected_callback_ c) (callbacks_run c) h
    (on_timer_callback_ c) (timer_calls c) (message_callback_ c).
Definition set_timer (b : bool) (calls : Z) (c : TcpClient) : TcpClient :=
  mkClient (event_timeout_ c) (buffer_event_ c) (server_address_ c) (server_port_ c) (is_stop_ c)
    (is_connected_ c) (connected_callback_ c) (disconnected_callback_ c) (callbacks_run c)
    (message_handler_ c) b calls (message_callback_ c).
Definition set_message_callback (b : bool) (c : TcpClient) : TcpClient :=
  mkClient (event_timeout_ c) (buffer_event_ c) (server_address_ c) (server_port_ c) (is_stop_ c)
    (is_connected_ c) (connected_callback_ c) (disconnected_callback_ c) (callbacks_run c)
    (message_handler_ c) (on_timer_callback_ c) (timer_calls c) b.

Ltac clcbn := cbn [event_base_ is_started_ dispatches event_timeout_ buffer_event_ server_address_
  server_port_ is_stop_ is_connected_ connected_callback_ disconnected_callback_ callbacks_run
  message_handler_ on_timer_callback_ timer_calls message_callback_ set_timer set_message_callback set_base set_buffer_event set_stop set_connected set_timeout_event run_callback
  set_callbacks set_handler fst snd] in *.

(** What the calls of Init return. *)
Record client_init_results : Type := mkClientInit {
  use_pthreads : Z;
  base_new : bool;
  socket_new : bool;
  enable : Z;
  connect : Z;
}.

Section client.
Context (inet_addr : string -> Z) (max_alloc junk : Z).
Context `{Protobuf MessageMeta}.

Definition set_connected_callback : M state unit :=
  on_client (fun c => set_callbacks true (disconnected_callback_ c) c).
Definition set_disconnected_callback : M state unit :=
  on_client (fun c => set_callbacks (connected_callback_ c) true c).

(** The predicate WaitConnected waits for. *)
Definition WaitConnected_poll (s : state) : bool := is_connected_ s.2.

Definition Init (r : client_init_results) : M state unit :=
  _ ← on_client (set_buffer_event None);
  s ← getS;
  _ ← (if negb (CheckIp inet_addr (server_address_ s.2))
       then throw "The tcp client ip is illegal!" else mret tt);
  _ ← (if negb (use_pthreads r =? 0) then throw "Use event pthread failed!" else mret tt);
  _ ← (match event_base_ s.1 with
       | Some _ => mret tt
       | None =>
         _ ← on_statics (set_base (if base_new r then Some false else None));
         _ ← exception_if_null (base_new r);
         on_client (set_stop false)
       end);
  _ ← on_client (set_buffer_event (if socket_new r then Some (mkBufferevent [] 0) else None));
  _ ← exception_if_null (socket_new r);
  _ ← (if enable r =? -1 then throw "Buffer event enable read and write failed!" else mret tt);
  if connect r <? 0 then throw "Connect server is failed!" else mret tt.

(** The timer of StartWithDelay. *)
Definition TimeoutCallback (r : client_init_results) : M state unit := Init r.

Definition TcpClient_destructor : M state unit :=
  _ ← on_client (set_buffer_event None);
  on_client (set_timeout_event false).

(** [evtimer_add] returned [ret]; a new base replaces the one there was. *)
Definition StartWithDelay (base_new : bool) (ret : Z) : M state unit :=
  s ← getS;
  if bool_decide (is_Some (buffer_event_ s.2)) then mret tt else
  _ ← on_statics (set_base (if base_new then Some false else None));
  _ ← on_client (set_timeout_event true);
  if ret =? -1 then throw "Event timeout failed!" else mret tt.

Definition Stop (ret : Z) : M state unit :=
  s ← getS;
  match event_base_ s.1 with
  | None => undef "event_base_got_break of a null base"
  | Some true => on_client (set_stop true)
  | Some false =>
    if negb (is_stop_ s.2) then
      _ ← on_client (set_stop true);
      on_statics (set_base (Some (ret =? 0)))
    else mret tt
  end.

Definition SetTcpNoDelay (ret : Z) : M state unit :=
  if ret <? 0 then throw "Set socket no delay failed!" else mret tt.

Definition NotifyConnected : M state unit := on_client (set_connected true).

Definition EventCallback (events sockopt_ret : Z) : M state unit :=
  s ← getS;
  if has events BEV_EVENT_CONNECTED then
    _ ← (if connected_callback_ s.2 then on_client (run_callback true) else mret tt);
    _ ← NotifyConnected;
    SetTcpNoDelay sockopt_ret
  else if has events BEV_EVENT_ERROR then
    if disconnected_callback_ s.2 then on_client (run_callback false) else mret tt
  else mret tt.

(** [ret] is what the event loop returned. *)
Definition check_dispatch (ret : Z) : M state unit :=
  if ret <? -1 then throw "Event base dispatch with unexpected error code!" else mret tt.

Definition Start (ret : Z) : M state unit :=
  s ← getS;
  if is_started_ s.1 then mret tt else
  _ ← on_statics (fun st => mkStatics (event_base_ st) true (dispatches st));
  _ ← exception_if_null (bool_decide (is_Some (event_base_ s.1)));
  _ ← on_statics (fun st => mkStatics (event_base_ st) (is_started_ st) (dispatches st + 1));
  check_dispatch ret.

Definition StartWithNoBlock (ret : Z) : M state unit :=
  s ← getS;
  _ ← exception_if_null (bool_decide (is_Some (event_base_ s.1)));
  check_dispatch ret.

(** [ev] is whether event_new succeeded. *)
Definition StartTimer (time : Z) (ev : bool) : M state unit :=
  s ← getS;
  _ ← exception_if_null (bool_decide (is_Some (event_base_ s.1)));
  _ ← (if time =? 0 then throw "The time should not be 0!" else mret tt);
  exception_if_null ev.

Definition SetMessageCallback (cb : bool) : M state unit := on_client (set_message_callback cb).

Definition set_timer_callback (timer : bool) : M state unit := on_client (fun c => set_timer timer (timer_calls c) c).

Definition TimerCallback : M state unit :=
  on_client (fun c => if on_timer_callback_ c then set_timer true (timer_calls c + 1) c else c).

(** [LogCallback]: what is in the log file afterwards; [opened]: the file could
    be opened.  The line is cut at 511 characters. *)
Definition severity_str (severity : Z) : string :=
  if severity =? 0 then "debug" else if severity =? 1 then "msg"
  else if severity =? 2 then "warn" else if severity =? 3 then "err" else "???".
Definition LogCallback (severity : Z) (msg : list Z) (opened : bool) (log : list Z) : list Z :=
  if negb opened then log
  else log ++ ztake 511 (bytes_of ("[" +:+ severity_str severity +:+ "]:")%string ++ msg).

Definition OnReadHandler (buf : list Z) : M state unit := fun s =>
  match ReceiveMessage max_alloc junk (Some buf) (zlen buf) (message_handler_ s.2) with
  | Ret _ h => Ret tt (s.1, set_handler h s.2)
  | Throw e h => Throw e (s.1, set_handler h s.2)
  | Undef w => Undef w
  | Fuel => Fuel
  end.

(** [evbuffer_remove] into the read buffer: what it took and what is left;
    [None] stands for a result that is not positive. *)
Context (evbuffer_remove : list Z -> option (list Z * list Z)).

Fixpoint read_loop (fuel : nat) (input : list Z) : M state unit :=
  match evbuffer_remove input with
  | None => mret tt
  | Some (read_buffer, input) =>
    match fuel with
    | O => fun _ => Fuel
    | S fuel => _ ← OnReadHandler read_buffer; read_loop fuel input
    end
  end.
Definition ReadCallback (input : list Z) : M state unit := read_loop (length input) input.
End client.

(** ** Properties *)

(** What any client does to the statics, whether it returns or raises. *)
Inductive client_op : Type :=
| OpInit (r : client_init_results)
| OpStartWithDelay (base_new : bool) (ret : Z)
| OpStart (ret : Z)
| OpStop (ret : Z)
| OpEvent (events ret : Z)
| OpTimeout (r : client_init_results)
| OpNoBlock (ret : Z)
| OpTimer (time : Z) (ev : bool)
| OpDestroy.

Definition run_op (inet_addr : string -> Z) (o : client_op) : M state unit :=
  match o with
  | OpInit r => Init inet_addr r
  | OpStartWithDelay b ret => StartWithDelay b ret
  | OpStart ret => Start ret
  | OpStop ret => Stop ret
  | OpEvent events ret => EventCallback events ret
  | OpTimeout r => TimeoutCallback inet_addr r
  | OpNoBlock ret => StartWithNoBlock ret
  | OpTimer time ev => StartTimer time ev
  | OpDestroy => TcpClient_destructor
  end.

Definition statics_after {A} (o : outcome state A) : option statics :=
  match o with Ret _ s | Throw _ s => Some s.1 | _ => None end.

Inductive statics_step (inet_addr : string -> Z) : statics -> statics -> Prop :=
| statics_op o st c st' :
    statics_after (run_op inet_addr o (st, c)) = Some st' -> statics_step inet_addr st st'.

(** Takes a run apart, whether it returned or raised. *)
Ltac run_cases := repeat (unfold mbind, M_bind, mret, M_ret, getS, modify, throw, undef,
  exception_if_null, on_statics, on_client in *; clcbn; cbn [statics_after] in *; case_match;
  try discriminate); cbn [statics_after] in *; simplify_eq; clcbn; try done.

Lemma statics_step_started inet_addr st st' :
  statics_step inet_addr st st' -> is_started_ st = true ->
  is_started_ st' = true /\ dispatches st' = dispatches st.
Proof.
  intros [o st0 c st1 E] Hs.
  destruct o; cbn [run_op] in E;
    unfold TimeoutCallback, TcpClient_destructor, StartWithNoBlock, StartTimer, Init,
      StartWithDelay, Start, Stop, EventCallback, NotifyConnected, SetTcpNoDelay,
      check_dispatch in E; run_cases; try congruence.
  unfold modify in *. simplify_eq. cbn [statics_after] in E. injection E as <-. by split.
Qed.

(** A process runs the clients' event loop at most once.  After the first
    Start, whatever the clients of the process do, a Start of any client
    returns without running the loop, also when Stop has broken it off: a
    client made afterwards never connects, sends or receives. *)
Theorem client_dispatches_once inet_addr st st' :
  rtc (statics_step inet_addr) st st' -> is_started_ st = true ->
  is_started_ st' = true /\ dispatches st' = dispatches st /\
  forall c ret, Start ret (st', c) = Ret tt (st', c).
Proof.
  induction 1 as [st|st1 st2 st3 Hs Hr IH]; intros Hst.
  - split_and!; [done..|]. intros c ret. unfold Start. rewrite (bind_Ret getS _ _ _ _ eq_refl).
    cbn [fst]. by rewrite Hst.
  - destruct (statics_step_started _ _ _ Hs Hst) as [H1 H2]. destruct (IH H1) as (? & ? & ?).
    split_and!; [done|congruence|done].
Qed.

(** A first client starts the loop and stops it; a second one is then
    initialised and started. *)
Definition example_inet_addr (_ : string) : Z := 16777343.
Definition example_client : TcpClient := TcpClient_init "127.0.0.1" 8080 [].
Definition example_init : client_init_results := mkClientInit 0 true true 0 0.
Definition example_started : statics := mkStatics (Some false) true 1.
Definition example_stopped : statics := mkStatics (Some true) true 1.

Lemma client_dispatches_once_witness :
  rtc (statics_step example_inet_addr) statics_init example_started /\
  forall c, Start 0 (example_stopped, c) = Ret tt (example_stopped, c).
Proof.
  split.
  - eapply rtc_l; [apply (statics_op _ (OpInit example_init) _ example_client); vm_compute; reflexivity|].
    eapply rtc_l; [|apply rtc_refl].
    apply (statics_op _ (OpStart 0) _ example_client). vm_compute. reflexivity.
  - intros c. apply (client_dispatches_once example_inet_addr example_started); [|reflexivity].
    eapply rtc_l; [apply (statics_op _ (OpStop 0) _ (set_stop false example_client));
      vm_compute; reflexivity|].
    eapply rtc_l; [|apply rtc_refl].
    apply (statics_op _ (OpInit example_init) _ example_client). vm_compute. reflexivity.
Defined.
