(* ===== verification/PsWorker.v ===== *)
(** * The worker of the parameter server

    src/mindspore/ps: util.cc (the optimizers' names and the split of a
    dimension over the servers), embedding_table_shard_metadata.{h,cc} and
    worker.{h,cc} (the ranges of rows of the embedding tables and the slicers,
    which cut a message into one message per server).

    A float is its 32-bit pattern, so that the arrays the code reinterprets as
    int need no conversion.  A slicer's output argument [sliced] is an argument
    and a result; it is not null.  The methods of Worker that only build a local message and
    drop it (InitPSEmbeddingTable, UpdateEmbeddingTable) have no effect and are
    left out. *)
From S2P Require Import Prelude Securec Messages.

(** ** util.cc *)
Definition optimizer_to_ids : gmap string Z := Eval vm_compute in
  list_to_map [("ApplyMomentum"%string, 0); ("Adam"%string, 1); ("LazyAdam"%string, 2);
               ("Ftrl"%string, 3)].
Definition id_to_optimizers : gmap Z string := Eval vm_compute in
  list_to_map [(0, "ApplyMomentum"%string); (1, "Adam"%string); (2, "LazyAdam"%string);
               (3, "Ftrl"%string)].
Definition id_to_optimizer_nodes : gmap Z string := Eval vm_compute in
  list_to_map [(0, "Momentum"%string); (1, "Adam"%string); (2, "LazyAdam"%string);
               (3, "FTRL"%string)].

Definition optimizer_id (name : string) : Z := default (-1) (optimizer_to_ids !! name).
Definition optimizer_name (id : Z) : string := default ""%string (id_to_optimizers !! id).
Definition optimizer_node_name (id : Z) : string :=
  default ""%string (id_to_optimizer_nodes !! id).
Definition is_optimizer (name : string) : bool := bool_decide (is_Some (optimizer_to_ids !! name)).

(** A turn of the loop that deals the rows out in turn. *)
Definition deal_row (server_num : Z) (st : Z * gmap Z Z) (_ : Z) : Z * gmap Z Z :=
  let server_index := Z.rem (st.1 + 1) server_num in
  (server_index, <[server_index := default 0 (st.2 !! server_index) + 1]> st.2).

Definition AllRankLocalShard {S} (first_dim rank_id server_num : Z) : M S (gmap Z Z) :=
  if (first_dim <=? 0) || (server_num <=? 0) || (rank_id <? 0)
  then throw "Input values are invalid." else
  if server_num <=? rank_id then throw "The rank ID should be less than the number of servers" else
  let shard_dims := foldl (fun m i => <[i := 0]> m) ∅ (seqZ 0 server_num) in
  if negb (server_num =? Z.of_nat (size shard_dims)) then throw "Inconsistent server num" else
  let shard_dims := (foldl (deal_row server_num) (-1, shard_dims) (seqZ 0 first_dim)).2 in
  if bool_decide (is_Some (shard_dims !! rank_id)) then mret shard_dims
  else throw "Invalid rank id".

Definition LocalShard {S} (first_dim rank_id server_num : Z) : M S Z :=
  shard_dims ← AllRankLocalShard first_dim rank_id server_num;
  match shard_dims !! rank_id with
  | None => throw "Invalid rank id"
  | Some d => mret d
  end.

(** ** embedding_table_shard_metadata.h *)
Record EmbeddingTableShardMetadata : Type := mkShard { begin_ : Z; end_ : Z }.
Definition shard_size (r : EmbeddingTableShardMetadata) : Z := u64 (end_ r - begin_ r).

(** ** The messages of ps.proto *)
Record KVMessage : Type := mkKV { keys : list Z; values : list Z; len : list Z }.
#[global] Instance KVMessage_eq_dec : EqDecision KVMessage.
Proof. solve_decision. Defined.
#[global] Instance KVMessage_countable : Countable KVMessage.
Proof.
  refine (inj_countable' (fun m => (keys m, values m, len m)) (fun '(k, v, l) => mkKV k v l) _).
  by intros [].
Defined.
Record EmbeddingTableLookup : Type := mkLookup {
  lookup_key : Z;
  lookup_keys : list Z;
  lookup_values : list Z;
}.
Definition KVMessage_default : KVMessage := mkKV [] [] [].
Definition EmbeddingTableLookup_default : EmbeddingTableLookup := mkLookup 0 [] [].

Definition add_keys (k : Z) (m : KVMessage) : KVMessage :=
  mkKV (keys m ++ [i32 k]) (values m) (len m).

(** ** worker.cc *)

(** The vectors of [embedding_table_ranges_] are reached through the table
    only; a null one is dereferenced by the statement that makes it. *)
Record Worker : Type := mkWorker {
  embedding_table_ranges_ : gmap Z (list EmbeddingTableShardMetadata);
  server_num_ : Z;
  key_to_server_id_ : gmap Z Z;
  embedding_row_cnt_ : gmap Z Z;
  init_keys_ : gmap Z bool;
  lookup_slicer_ : bool;
}.
Definition Worker_init : Worker := mkWorker ∅ 3 ∅ ∅ ∅ false.

Definition set_ranges f (w : Worker) : Worker :=
  mkWorker (f (embedding_table_ranges_ w)) (server_num_ w) (key_to_server_id_ w)
    (embedding_row_cnt_ w) (init_keys_ w) (lookup_slicer_ w).
Definition set_server_ids f (w : Worker) : Worker :=
  mkWorker (embedding_table_ranges_ w) (server_num_ w) (f (key_to_server_id_ w))
    (embedding_row_cnt_ w) (init_keys_ w) (lookup_slicer_ w).
Definition set_row_cnt f (w : Worker) : Worker :=
  mkWorker (embedding_table_ranges_ w) (server_num_ w) (key_to_server_id_ w)
    (f (embedding_row_cnt_ w)) (init_keys_ w) (lookup_slicer_ w).
Definition set_slicer b (w : Worker) : Worker :=
  mkWorker (embedding_table_ranges_ w) (server_num_ w) (key_to_server_id_ w)
    (embedding_row_cnt_ w) (init_keys_ w) b.

Ltac pcbn := cbn [embedding_table_ranges_ server_num_ key_to_server_id_ embedding_row_cnt_ init_keys_
  lookup_slicer_ set_ranges set_server_ids set_row_cnt set_slicer keys values len lookup_key
  lookup_keys lookup_values begin_ end_ fst snd] in *.

Definition Initialize : M Worker unit := modify (set_slicer true).

Definition push_shard (key : Z) (r : EmbeddingTableShardMetadata) (w : Worker) : Worker :=
  set_ranges (fun m => <[key := default [] (m !! key) ++ [r]]> m) w.

(** The loop of AddEmbeddingTable from server [i] on, for [k] servers. *)
Fixpoint add_shards (k : nat) (i key row_count begin end' : Z) : M Worker unit :=
  match k with
  | O => mret tt
  | S k =>
    w ← getS;
    local_row_cnt ← LocalShard (i64 row_count) i (server_num_ w);
    let '(begin, end') := if i =? 0 then (begin, u64 (local_row_cnt - 1))
                          else (u64 (end' + 1), u64 (end' + local_row_cnt)) in
    _ ← modify (push_shard key (mkShard begin end'));
    add_shards k (i + 1) key row_count begin end'
  end.

Definition AddEmbeddingTable (key row_count : Z) : M Worker unit :=
  w ← getS;
  _ ← add_shards (Z.to_nat (server_num_ w)) 0 key row_count 0 0;
  modify (set_row_cnt (<[key := row_count]>)).

Definition AddKeyByHashMod (key : Z) : M Worker unit :=
  w ← getS;
  if server_num_ w =? 0 then throw "Server number is invalid:0" else
  modify (set_server_ids (<[key := i64 (key mod u64 (server_num_ w))]>)).
Definition AddKeyToServerId (key : Z) : M Worker unit := AddKeyByHashMod key.

Definition IsKeyInit (key : Z) (w : Worker) : bool := default false (init_keys_ w !! key).

(** [vector::resize] *)
Definition resize {A} (x : A) (n : nat) (l : list A) : list A :=
  take n l ++ replicate (n - length l) x.

(** [*(embedding_table_ranges_[key])] *)
Definition ranges_at (key : Z) : M Worker (list EmbeddingTableShardMetadata) :=
  w ← getS;
  match embedding_table_ranges_ w !! key with
  | Some l => mret l
  | None => undef "dereference of a null vector"
  end.

(** [id >= begin && id <= end] where [id] is an int converted to uint64_t. *)
Definition in_shard (r : EmbeddingTableShardMetadata) (id : Z) : bool :=
  (begin_ r <=? u64 id) && (u64 id <=? end_ r).

Definition not_empty {A} (l : list A) : bool := negb (bool_decide (l = [])).

Section slicers.
(** The elements of an unordered_set in the order of its iteration, after the
    elements of the list were inserted one by one. *)
Context (set_order : list Z -> list Z).

Definition lookup_slice (send : EmbeddingTableLookup) (range : EmbeddingTableShardMetadata)
    (slot : bool * EmbeddingTableLookup) : bool * EmbeddingTableLookup :=
  let unique_ids := filter (in_shard range) (lookup_keys send) in
  let kvs := mkLookup (lookup_key send) (set_order unique_ids) (lookup_values slot.2) in
  (not_empty (lookup_keys kvs), kvs).

Definition LookupIdSlicer (send : EmbeddingTableLookup) (sliced : list (bool * EmbeddingTableLookup))
    : M Worker (list (bool * EmbeddingTableLookup)) :=
  ranges ← ranges_at (lookup_key send);
  mret (zip_with (lookup_slice send) ranges 
    (resize (false, EmbeddingTableLookup_default) (length ranges) sliced)).

(** The loop over the slices: the ranks and the serialized messages, which a
    call of Send is meant to take. *)
Definition collect_slices `{Protobuf EmbeddingTableLookup}
    (messages : list (bool * EmbeddingTableLookup)) : list Z * list (list Z) :=
  let chosen := filter (fun p : nat * (bool * EmbeddingTableLookup) => p.2.1)
                  (imap pair messages) in
  (map (fun p => u32 (Z.of_nat p.1)) chosen,
   map (fun p => SerializeAsString p.2.2) chosen).

Definition DoPSEmbeddingLookup `{Protobuf EmbeddingTableLookup} (key : Z) (lookup_ids : list Z)
    (lookup_result : bool) : M Worker (list Z * list (list Z)) :=
  _ ← exception_if_null lookup_result;
  w ← getS;
  if negb (lookup_slicer_ w) then throw "bad_function_call" else
  messages ← LookupIdSlicer (mkLookup key lookup_ids []) [];
  mret (collect_slices messages).
End slicers.

Abbreviation SlicedKVMessages := (list (bool * KVMessage)).

(** [v[i]] of a repeated field or an array. *)
Definition field_at {S A} (l : list A) (i : Z) : M S A :=
  match zget l i with Some x => mret x | None => undef "index out of range" end.

(** [{v.begin() + a, v.begin() + b}] *)
Definition subrange {S} (v : list Z) (a b : Z) : M S (list Z) :=
  if (0 <=? a) && (a <=? b) && (b <=? zlen v) then mret (ztake (b - a) (zdrop a v))
  else undef "iterator out of range".

(** [vector::at] *)
Definition at_slot {S} (sliced : SlicedKVMessages) (i : Z) : M S (bool * KVMessage) :=
  match zget sliced i with Some x => mret x | None => throw "vector::_M_range_check" end.

Fixpoint init_slices (ranges : list EmbeddingTableShardMetadata) (i col_cnt : Z) (send : KVMessage)
    (sliced : SlicedKVMessages) : M Worker SlicedKVMessages :=
  match ranges with
  | [] => mret sliced
  | range :: ranges =>
    let offset_begin := u64 (begin_ range * col_cnt) in
    let offset_end := u64 (u64 (end_ range + 1) * col_cnt) in
    vals ← subrange (values send) offset_begin offset_end;
    _ ← at_slot sliced i;
    init_slices ranges (i + 1) col_cnt send
      (<[Z.to_nat i := (true, mkKV (keys send) vals [])]> sliced)
  end.

(** [embedding_row_cnt_[key]] enters 0 for a key it does not have, and the
    division by it is undefined. *)
Definition WorkerInitEmbeddingSlicer (send : KVMessage) (sliced : SlicedKVMessages)
    : M Worker SlicedKVMessages :=
  w ← getS;
  key ← field_at (keys send) 0;
  let row_cnt := default 0 (embedding_row_cnt_ w !! u64 key) in
  if row_cnt =? 0 then undef "division by zero" else
  let col_cnt := zlen (values send) / row_cnt in
  ranges ← ranges_at (u64 key);
  init_slices ranges 0 col_cnt send
    (resize (false, KVMessage_default) (Z.to_nat (u64 (server_num_ w))) sliced).

(** [std::accumulate(l.begin(), l.end(), 0)] in int. *)
Fixpoint accumulate {S} (acc : Z) (l : list Z) : M S Z :=
  match l with
  | [] => mret acc
  | x :: l => if bool_decide (in_s 32 (acc + x)) then accumulate (acc + x) l
              else undef "signed overflow"
  end.

(** The loop of RoundRobinSlicer from index [i] on, over the keys from there. *)
Fixpoint round_robin (ks : list Z) (i : Z) (send : KVMessage) (sliced : SlicedKVMessages)
    : M Worker SlicedKVMessages :=
  match ks with
  | [] => mret sliced
  | k :: ks =>
    let param_key := u64 k in
    w ← getS;
    let server_id := default 0 (key_to_server_id_ w !! param_key) in
    _ ← modify (set_server_ids (<[param_key := server_id]>));
    slot ← at_slot sliced (u64 server_id);
    let server_kv_pairs := add_keys param_key slot.2 in
    n ← field_at (len send) i;
    offset ← accumulate 0 (ztake i (len send));
    vals ← subrange (values send) offset (offset + n);
    let kvs := mkKV (keys server_kv_pairs) (values server_kv_pairs ++ vals)
                 (len server_kv_pairs ++ [i32 n]) in
    round_robin ks (i + 1) send (<[Z.to_nat server_id := (true, kvs)]> sliced)
  end.

Definition RoundRobinSlicer (send : KVMessage) (sliced : SlicedKVMessages)
    : M Worker SlicedKVMessages :=
  w ← getS;
  round_robin (keys send) 0 send
    (resize (false, KVMessage_default) (Z.to_nat (u64 (server_num_ w))) sliced).

(** The loop over the looked up ids from index [j] on. *)
Fixpoint update_slice (ids : list Z) (j dim : Z) (range : EmbeddingTableShardMetadata)
    (vals : list Z) (kvs : KVMessage) : KVMessage :=
  match ids with
  | [] => kvs
  | id :: ids =>
    update_slice ids (j + 1) dim range vals
      (if in_shard range id
       then let kvs := add_keys (u64 id) kvs in
            mkKV (keys kvs) (values kvs ++ ztake dim (zdrop (j * dim) vals)) (len kvs)
       else kvs)
  end.

Definition update_slot (send : KVMessage) (key : Z) (range : EmbeddingTableShardMetadata)
    (slot : bool * KVMessage) : bool * KVMessage :=
  let embedding_dim := zlen (values send) / zlen (len send) in
  let kvs := update_slice (len send) 0 embedding_dim range (values send) (add_keys key slot.2) in
  (negb (zlen (keys kvs) <=? 1), kvs).

(** The lengths field carries the ids. *)
Definition UpdateEmbeddingSlicer (send : KVMessage) (sliced : SlicedKVMessages)
    : M Worker SlicedKVMessages :=
  if zlen (len send) =? 0 then undef "division by zero" else
  k ← field_at (keys send) 0;
  let key := u64 k in
  ranges ← ranges_at key;
  mret (zip_with (update_slot send key) ranges
    (resize (false, KVMessage_default) (length ranges) sliced)).

(** [offset += send.len()[i]] for [i] below [n]. *)
Fixpoint sum_lens {S} (n : nat) (i offset : Z) (l : list Z) : M S Z :=
  match n with
  | O => mret offset
  | S n => x ← field_at l i; sum_lens n (i + 1) (offset + x) l
  end.

(** The loop that reads the indices: each with the offset of its gradient. *)
Fixpoint read_indices {S} (n : nat) (i indice_offset grad_offset segment_size : Z) (data : list Z)
    : M S (list (Z * Z)) :=
  match n with
  | O => mret []
  | S n =>
    indice ← field_at data (indice_offset + i);
    rest ← read_indices n (i + 1) indice_offset grad_offset segment_size data;
    mret ((i32 indice, grad_offset + i * segment_size) :: rest)
  end.

(** -100 as a float. *)
Definition minus_100f : Z := 0xC2C80000.

Definition sparse_slot (send : KVMessage) (indices : list Z) (range : EmbeddingTableShardMetadata)
    (slot : bool * KVMessage) : bool * KVMessage :=
  let indice_ids := filter (in_shard range) indices in
  (true, if bool_decide (indice_ids = []) then mkKV (keys send) [minus_100f] []
         else mkKV (keys send) (values slot.2) (len send)).

Definition SparseSlicer (send : KVMessage) (sliced : SlicedKVMessages) (attrs : gmap Z Z)
    : M Worker SlicedKVMessages :=
  match attrs !! 0, attrs !! 1, attrs !! 2, attrs !! 3 with
  | Some grad_index, Some indice_index, Some first_dim_size, Some outer_dim_size =>
    let grad_index := u64 grad_index in
    let indice_index := u64 indice_index in
    grad_size ← field_at (len send) (i32 grad_index);
    indice_size ← field_at (len send) (i32 indice_index);
    if indice_size =? 0 then undef "division by zero" else
    let segment_size := Z.quot grad_size indice_size in
    grad_offset ← sum_lens (Z.to_nat grad_index) 0 0 (len send);
    indice_offset ← sum_lens (Z.to_nat indice_index) 0 0 (len send);
    indice_to_grads ← read_indices (Z.to_nat indice_size) 0 indice_offset grad_offset segment_size
                        (values send);
    k ← field_at (keys send) 0;
    ranges ← ranges_at (u64 k);
    mret (zip_with (sparse_slot send (map fst indice_to_grads)) ranges
      (resize (false, KVMessage_default) (length ranges) sliced))
  | _, _, _, _ => throw "Invalid attrs keys"
  end.

(** The gradients are arrays of bytes here, [indice_to_grad] has for each index
    the bytes its pointer points to, and the result is the two output arrays. *)
Fixpoint PrepareSparseGradient {S} (distinct_ids : gset Z) (indice_to_grad : list (Z * list Z))
    (segment_size index offset : Z) (gradient indices : list Z) : M S (list Z * list Z) :=
  match indice_to_grad with
  | [] => mret (gradient, indices)
  | (indice, grad) :: rest =>
    if negb (bool_decide (indice ∈ distinct_ids))
    then PrepareSparseGradient distinct_ids rest segment_size index offset gradient indices
    else
      match zset indices index indice with
      | None => undef "indices[index] out of range"
      | Some indices =>
        let segment_data_size := u64 (segment_size * 4) in
        match buf_memcpy_s gradient (offset * 4) segment_data_size grad 0 segment_data_size with
        | None => undef "memcpy_s out of range"
        | Some (ret, gradient) =>
          if negb (ret =? 0) then mret (gradient, indices)
          else PrepareSparseGradient distinct_ids rest segment_size (index + 1)
                 (offset + segment_size) gradient indices
        end
      end
  end.

(** ** How the rows are split *)

(** The number of rows of server [j] when [k] rows are dealt to [n] servers,
    and the first row of server [j] when they are laid out in their order. *)
Definition share (k n j : Z) : Z := k / n + (if j <? k mod n then 1 else 0).
Definition start (k n j : Z) : Z := j * (k / n) + Z.min j (k mod n).

Lemma start_succ k n j : start k n (j + 1) = start k n j + share k n j.
Proof. unfold start, share. destruct (Z.ltb_spec j (k mod n)); lia. Qed.

Lemma start_0 k n : 0 < n -> start k n 0 = 0.
Proof. intros. unfold start. pose proof (Z.mod_pos_bound k n). lia. Qed.

Lemma start_n k n : 0 < n -> start k n n = k.
Proof.
  intros. unfold start. pose proof (Z.mod_pos_bound k n). pose proof (Z.div_mod k n). lia.
Qed.

Lemma share_nonneg k n j : 0 <= k -> 0 < n -> 0 <= share k n j.
Proof. intros. unfold share. pose proof (Z.div_pos k n). case_match; lia. Qed.

Lemma start_mono k n i j : 0 <= k -> 0 < n -> i <= j -> start k n i <= start k n j.
Proof. intros. unfold start. pose proof (Z.div_pos k n). nia. Qed.

Lemma start_bounds k n j : 0 <= k -> 0 <= j <= n -> 0 < n -> 0 <= start k n j <= k.
Proof.
  intros ? [? ?] ?. pose proof (start_mono k n 0 j). pose proof (start_mono k n j n).
  rewrite start_0, start_n in * by lia. lia.
Qed.

Lemma start_pos k n j : 0 < k -> 0 < n -> 0 < j -> 0 < start k n j.
Proof.
  intros. unfold start. pose proof (Z.div_pos k n). pose proof (Z.mod_pos_bound k n).
  pose proof (Z.div_mod k n). destruct (decide (k / n = 0)); nia.
Qed.

Lemma div_mod_succ k n :
  0 < n -> (k mod n + 1 < n /\ (k + 1) / n = k / n /\ (k + 1) mod n = k mod n + 1) \/
           (k mod n + 1 = n /\ (k + 1) / n = k / n + 1 /\ (k + 1) mod n = 0).
Proof.
  intros Hn. pose proof (Z.mod_pos_bound k n Hn). pose proof (Z.div_mod k n).
  destruct (decide (k mod n + 1 = n)) as [E|E]; [right|left]; (split; [lia|]).
  - assert (k + 1 = n * (k / n + 1) + 0) as Hk by lia. split; symmetry.
    + apply (Z.div_unique _ _ _ 0); lia.
    + apply (Z.mod_unique _ _ (k / n + 1)); lia.
  - assert (k + 1 = n * (k / n) + (k mod n + 1)) as Hk by lia. split; symmetry.
    + apply (Z.div_unique _ _ _ (k mod n + 1)); lia.
    + apply (Z.mod_unique _ _ (k / n)); lia.
Qed.

Lemma share_succ k n j :
  0 < n -> 0 <= j < n -> share (k + 1) n j = share k n j + (if j =? k mod n then 1 else 0).
Proof.
  intros Hn Hj. unfold share. pose proof (Z.mod_pos_bound k n Hn).
  destruct (div_mod_succ k n Hn) as [(? & -> & ->)|(? & -> & ->)];
    destruct (Z.eqb_spec j (k mod n)), (Z.ltb_spec j (k mod n)); case_match; lia.
Qed.

Lemma zero_dims n (m : gmap Z Z) j :
  foldl (fun m i => <[i := 0]> m) m (seqZ 0 (Z.of_nat n)) !! j =
  if decide (0 <= j < Z.of_nat n) then Some 0 else m !! j.
Proof.
  induction n as [|n IH]; [by rewrite decide_False by lia|].
  rewrite seqZ_S, foldl_app. cbn [foldl]. rewrite Z.add_0_l.
  destruct (decide (Z.of_nat n = j)) as [<-|].
  - rewrite lookup_insert_eq, decide_True by lia. done.
  - rewrite lookup_insert_ne, IH by done. repeat case_decide; done || lia.
Qed.

Lemma size_zero_dims n :
  size (foldl (fun m i => <[i := 0]> m) (∅ : gmap Z Z) (seqZ 0 (Z.of_nat n))) = n.
Proof.
  induction n as [|n IH]; [done|].
  rewrite seqZ_S, foldl_app. cbn [foldl]. rewrite Z.add_0_l, map_size_insert_None, IH; [done|].
  rewrite zero_dims, decide_False by lia. done.
Qed.

Lemma deal_rows n (m0 : gmap Z Z) k :
  0 < n -> (forall j, m0 !! j = if decide (0 <= j < n) then Some 0 else None) ->
  let st := foldl (deal_row n) (-1, m0) (seqZ 0 (Z.of_nat k)) in
  Z.rem (st.1 + 1) n = Z.of_nat k mod n /\
  forall j, st.2 !! j = if decide (0 <= j < n) then Some (share (Z.of_nat k) n j) else None.
Proof.
  intros Hn H0. induction k as [|k IH]; cbv zeta.
  { cbn. rewrite Z.mod_0_l by lia. split; [apply Z.rem_0_l; lia|]. intros j. rewrite H0.
    case_decide; [|done]. unfold share. rewrite Z.mod_0_l, Z.div_0_l by lia.
    destruct (Z.ltb_spec j 0); done || lia. }
  rewrite seqZ_S, foldl_app. cbn [foldl]. destruct IH as [Hi Hm].
  destruct (foldl _ _ _) as [idx m]. cbn [fst snd] in *. unfold deal_row. cbn [fst snd].
  rewrite Hi, Hm. pose proof (Z.mod_pos_bound (Z.of_nat k) n Hn).
  rewrite decide_True by lia. cbn [default from_option]. rewrite Nat2Z.inj_succ. split.
  - rewrite Z.rem_mod_nonneg by lia. by rewrite Z.add_mod_idemp_l by lia.
  - intros j. change (Z.succ (Z.of_nat k)) with (Z.of_nat k + 1).
    destruct (decide (Z.of_nat k mod n = j)) as [<-|].
    + rewrite lookup_insert_eq, decide_True, share_succ, Z.eqb_refl by lia. done.
    + rewrite lookup_insert_ne, Hm by done. case_decide; [|done].
      rewrite share_succ by lia. destruct (Z.eqb_spec j (Z.of_nat k mod n)); [lia|].
      by rewrite Z.add_0_r.
Qed.

Lemma LocalShard_eq {S} f r n (s : S) :
  0 < f -> 0 <= r < n -> LocalShard f r n s = Ret (share f n r) s.
Proof.
  intros Hf Hr. unfold LocalShard, AllRankLocalShard.
  rewrite (proj2 (Z.leb_gt f 0)), (proj2 (Z.leb_gt n 0)), (proj2 (Z.ltb_ge r 0)),
    (proj2 (Z.leb_gt n r)) by lia. cbn [orb].
  assert (n = Z.of_nat (Z.to_nat n)) as En by lia.
  assert (f = Z.of_nat (Z.to_nat f)) as Ef by lia.
  rewrite En at 1 2. rewrite size_zero_dims, Z.eqb_refl. cbn [negb].
  destruct (deal_rows n (foldl (fun m i => <[i:=0]> m) ∅ (seqZ 0 n)) (Z.to_nat f)) as [_ Hm].
  { lia. }
  { intros j. rewrite En at 1. rewrite zero_dims, <- En, lookup_empty. done. }
  rewrite <- Ef in Hm. rewrite bool_decide_eq_true_2 by (rewrite Hm, decide_True by lia; eauto).
  unfold mbind, M_bind, mret, M_ret. rewrite Hm, decide_True by lia. done.
Qed.

(** The ranges AddEmbeddingTable computes. *)
Definition shard (f n j : Z) : EmbeddingTableShardMetadata :=
  mkShard (start f n j) (start f n (j + 1) - 1).

Lemma push_shards_eq key l w :
  l <> [] ->
  foldl (fun w r => push_shard key r w) w l =
  set_ranges (fun m => <[key := default [] (m !! key) ++ l]> m) w.
Proof.
  induction l as [|r l IH] in w |- *; [done|]. intros _. cbn [foldl].
  destruct l as [|r' l]; [done|]. rewrite IH by done.
  unfold push_shard, set_ranges. pcbn. f_equal.
  rewrite lookup_insert_eq, insert_insert_eq. cbn [default from_option Datatypes.id].
  by rewrite <- app_assoc.
Qed.

Lemma add_shards_eq f n key k i b e w :
  0 < f < 2 ^ 63 -> 0 <= i -> i + Z.of_nat k = n -> server_num_ w = n ->
  (if i =? 0 then b = 0 else e = start f n i - 1) ->
  add_shards k i key f b e w =
  Ret tt (foldl (fun w r => push_shard key r w) w (map (shard f n) (seqZ i (Z.of_nat k)))).
Proof.
  intros Hf. induction k as [|k IH] in i, b, e, w |- *; intros Hi Hk Hn Hbe; [done|].
  cbn [add_shards]. rewrite (bind_Ret getS _ w w w eq_refl), Hn, (swrap_small 64) by
    (unfold in_s; lia).
  erewrite bind_Ret by (apply LocalShard_eq; lia).
  assert (start f n (i + 1) = start f n i + share f n i) as Hs by apply start_succ.
  pose proof (start_bounds f n i). pose proof (start_bounds f n (i + 1)).
  pose proof (share_nonneg f n i). pose proof (start_pos f n (i + 1)).
  rewrite seqZ_cons by lia. replace (Z.pred (Z.of_nat (S k))) with (Z.of_nat k) by lia.
  change (Z.succ i) with (i + 1). cbn [map foldl].
  destruct (Z.eqb_spec i 0) as [->|].
  - rewrite start_0 in * by lia. rewrite (bind_Ret (modify _) _ w tt _ eq_refl), (uwrap_small 64) by
      (unfold in_u; lia). subst b.
    assert (mkShard 0 (share f n 0 - 1) = shard f n 0) as ->.
    { unfold shard. rewrite start_0 by lia. f_equal. lia. }
    rewrite IH; try done; try lia. rewrite (proj2 (Z.eqb_neq (0 + 1) 0)) by lia. lia.
  - rewrite (bind_Ret (modify _) _ w tt _ eq_refl), !(uwrap_small 64) by (unfold in_u; lia).
    assert (mkShard (e + 1) (e + share f n i) = shard f n i) as ->.
    { unfold shard. f_equal; lia. }
    rewrite IH; try done; try lia. rewrite (proj2 (Z.eqb_neq (i + 1) 0)) by lia. lia.
Qed.

(** The worker after AddEmbeddingTable with [f] rows. *)
Definition with_table (key f : Z) (w : Worker) : Worker :=
  set_row_cnt (<[key := f]>)
    (set_ranges (fun m => <[key := default [] (m !! key) ++
                                   map (shard f (server_num_ w)) (seqZ 0 (server_num_ w))]> m) w).

Lemma AddEmbeddingTable_eq key f w :
  0 < f < 2 ^ 63 -> 0 < server_num_ w -> AddEmbeddingTable key f w = Ret tt (with_table key f w).
Proof.
  intros Hf Hn. unfold AddEmbeddingTable. rewrite (bind_Ret getS _ w w w eq_refl).
  erewrite bind_Ret by (eapply (add_shards_eq f (server_num_ w)); done || lia).
  rewrite push_shards_eq; [rewrite Z2Nat.id by lia; done|].
  rewrite seqZ_cons by lia. done.
Qed.

Lemma ranges_with_table key f w :
  embedding_table_ranges_ w !! key = None ->
  embedding_table_ranges_ (with_table key f w) !! key =
  Some (map (shard f (server_num_ w)) (seqZ 0 (server_num_ w))).
Proof. intros E. unfold with_table. pcbn. by rewrite lookup_insert_eq, E. Qed.

Lemma row_cnt_with_table key f w : embedding_row_cnt_ (with_table key f w) !! key = Some f.
Proof. unfold with_table. pcbn. by rewrite lookup_insert_eq. Qed.

Lemma ranges_at_table key f w :
  embedding_table_ranges_ w !! key = None ->
  ranges_at key (with_table key f w) =
  Ret (map (shard f (server_num_ w)) (seqZ 0 (server_num_ w))) (with_table key f w).
Proof.
  intros E. unfold ranges_at. erewrite bind_Ret by done. by rewrite ranges_with_table.
Qed.

Lemma in_shard_iff f n j id :
  0 < f < 2 ^ 63 -> 0 < n -> 0 <= j < n -> in_s 32 id ->
  in_shard (shard f n j) id = true <-> start f n j <= id < start f n (j + 1).
Proof.
  intros Hf Hn Hj Hid. unfold in_shard, shard. pcbn.
  pose proof (start_bounds f n j). pose proof (start_bounds f n (j + 1)).
  rewrite andb_true_iff, !Z.leb_le. unfold in_s in Hid. cbn in Hid.
  destruct (Z.leb_spec 0 id).
  - rewrite (uwrap_small 64) by (unfold in_u; lia). lia.
  - unfold uwrap. rewrite <- (Z.mod_add id 1), Z.mul_1_l, Z.mod_small by lia. lia.
Qed.

(** ** The slices of a lookup *)
Lemma zip_with_fresh {A B} (f : A -> B -> B) (x : B) l :
  zip_with f l (resize x (length l) []) = map (fun r => f r x) l.
Proof.
  unfold resize. rewrite take_nil, Nat.sub_0_r. cbn [app].
  induction l; cbn; by f_equal.
Qed.

Lemma seqZ_lookup_Some i n j : seqZ 0 n !! i = Some j <-> j = Z.of_nat i /\ j < n.
Proof. rewrite lookup_seqZ. lia. Qed.

Section lookup.
Context (set_order : list Z -> list Z).
Hypothesis set_order_spec : forall l, set_order l ≡ₚ remove_dups l.

Lemma set_order_elem l x : x ∈ set_order l <-> x ∈ l.
Proof. by rewrite set_order_spec, elem_of_remove_dups. Qed.

Lemma slices_cover f n ids k :
  0 < f < 2 ^ 63 -> 0 < n -> Forall (in_s 32) ids -> Z.of_nat k <= n ->
  let l := concat (map (fun j => set_order (filter (in_shard (shard f n j)) ids))
                     (seqZ 0 (Z.of_nat k))) in
  NoDup l /\ forall id, id ∈ l <-> id ∈ ids /\ 0 <= id < start f n (Z.of_nat k).
Proof.
  intros Hf Hn Hids. induction k as [|k IH]; intros Hk; cbv zeta.
  { change (Z.of_nat 0) with 0. rewrite start_0 by lia. split; [constructor|].
    intros id. cbn. rewrite elem_of_nil. lia. }
  rewrite seqZ_S, map_app, concat_app. cbn [map concat]. rewrite app_nil_r, Z.add_0_l.
  destruct IH as [Hnd He]; [lia|]. rewrite Nat2Z.inj_succ. change (Z.succ _) with (Z.of_nat k + 1).
  assert (forall id, id ∈ set_order (filter (in_shard (shard f n (Z.of_nat k))) ids) <->
    id ∈ ids /\ start f n (Z.of_nat k) <= id < start f n (Z.of_nat k + 1)) as Hl.
  { intros id. rewrite set_order_elem, list_elem_of_filter. rewrite Forall_forall in Hids.
    rewrite Is_true_true. split.
    - intros [H1 H2]. split; [done|]. apply (in_shard_iff f n (Z.of_nat k) id); auto with lia.
    - intros [H1 H2]. split; [|done]. apply in_shard_iff; auto with lia. }
  pose proof (start_bounds f n (Z.of_nat k)).
  pose proof (start_mono f n (Z.of_nat k) (Z.of_nat k + 1)). split.
  - apply NoDup_app. split_and!; [done| |rewrite set_order_spec; apply NoDup_remove_dups].
    intros id [_ ?]%He [_ ?]%Hl. lia.
  - intros id. rewrite elem_of_app, He, Hl. split; [intuition lia|]. intros [? ?].
    destruct (decide (id < start f n (Z.of_nat k))); [left|right]; (split; [done|lia]).
Qed.

(** C13: the ids of a lookup reach the server that holds their row.  After
    AddEmbeddingTable has split the rows of a new table over the servers, the
    slices of LookupIdSlicer contain each id of the lookup that is a row of the
    table exactly once and no other id, every id in the slice of the server
    whose range it lies in, and a slice is marked for sending exactly if it is
    not empty. *)
Theorem lookup_reaches_owner key f ids w :
  0 < f < 2 ^ 63 -> 0 < server_num_ w -> embedding_table_ranges_ w !! key = None ->
  Forall (in_s 32) ids ->
  exists w1 sliced,
    AddEmbeddingTable key f w = Ret tt w1 /\
    LookupIdSlicer set_order (mkLookup key ids []) [] w1 = Ret sliced w1 /\
    zlen sliced = server_num_ w /\
    concat (map (fun s => lookup_keys s.2) sliced) ≡ₚ
      remove_dups (filter (fun id => 0 <= id < f) ids) /\
    forall j s, sliced !! j = Some s ->
      s.1 = not_empty (lookup_keys s.2) /\ lookup_key s.2 = key /\
      forall id, id ∈ lookup_keys s.2 ->
        start f (server_num_ w) (Z.of_nat j) <= id < start f (server_num_ w) (Z.of_nat j + 1).
Proof.
  intros Hf Hn Hnew Hids. set (n := server_num_ w) in *.
  eexists _, _. split_and!; [by apply AddEmbeddingTable_eq|..].
  { unfold LookupIdSlicer. erewrite bind_Ret by by apply ranges_at_table.
    rewrite zip_with_fresh, map_map. reflexivity. }
  - unfold zlen. rewrite length_map, length_seqZ. lia.
  - rewrite map_map. destruct (slices_cover f n ids (Z.to_nat n)) as [Hnd He]; [done..|lia|].
    rewrite Z2Nat.id in Hnd, He by lia. apply NoDup_Permutation; [done|apply NoDup_remove_dups|].
    intros id. etransitivity; [apply He|]. rewrite start_n by done.
    rewrite elem_of_remove_dups, list_elem_of_filter. tauto.
  - intros j s. rewrite list_lookup_fmap. intros (i & [-> Hi]%seqZ_lookup_Some & ->)%fmap_Some.
    split_and!; [done..|]. intros id. unfold lookup_slice. pcbn. rewrite set_order_elem.
    intros [H1 H2]%list_elem_of_filter. rewrite Forall_forall in Hids.
    apply (in_shard_iff f n (Z.of_nat j) id); auto using Is_true_true_1 with lia.
Qed.
End lookup.

(** ** The slices of an initial table *)
Definition init_slice (f n col : Z) (send : KVMessage) (j : Z) : bool * KVMessage :=
  (true, mkKV (keys send) (ztake (share f n j * col) (zdrop (start f n j * col) (values send))) []).

Lemma ztake_insert {A} i (x : A) l :
  0 <= i < zlen l -> ztake (i + 1) (<[Z.to_nat i := x]> l) = ztake i l ++ [x].
Proof.
  unfold zlen, ztake. intros Hi. replace (Z.to_nat (i + 1)) with (S (Z.to_nat i)) by lia.
  erewrite take_S_r by (apply list_lookup_insert_eq; lia). by rewrite take_insert_ge.
Qed.

Lemma init_slices_eq f n col send k i sliced w :
  0 < f < 2 ^ 63 -> 0 <= i -> i + Z.of_nat k = n -> zlen sliced = n ->
  0 <= col -> f * col = zlen (values send) -> zlen (values send) < 2 ^ 31 ->
  init_slices (map (shard f n) (seqZ i (Z.of_nat k))) i col send sliced w =
  Ret (ztake i sliced ++ map (init_slice f n col send) (seqZ i (Z.of_nat k))) w.
Proof.
  intros Hf. induction k as [|k IH] in i, sliced |- *; intros Hi Hk Hl Hc Hv Hs.
  { cbn. rewrite app_nil_r. unfold ztake. rewrite take_ge; [done|]. unfold zlen in Hl. lia. }
  rewrite seqZ_cons by lia. replace (Z.pred (Z.of_nat (S k))) with (Z.of_nat k) by lia.
  change (Z.succ i) with (i + 1). cbn [map init_slices]. 
  change (begin_ (shard f n i)) with (start f n i).
  change (end_ (shard f n i)) with (start f n (i + 1) - 1).
  pose proof (start_bounds f n i). pose proof (start_bounds f n (i + 1)).
  pose proof (start_succ f n i). pose proof (share_nonneg f n i).
  replace (start f n (i + 1) - 1 + 1) with (start f n (i + 1)) by lia.
  rewrite !(uwrap_small 64 (start f n _)), !(uwrap_small 64) by (unfold in_u; nia).
  unfold subrange. rewrite !(proj2 (Z.leb_le _ _)) by nia. cbn [andb].
  erewrite bind_Ret by done. unfold at_slot.
  destruct (zget_Some sliced i) as [x Hx]; [lia|]. rewrite Hx. erewrite bind_Ret by done.
  rewrite IH; try done; try lia.
  - rewrite ztake_insert, <- app_assoc by lia. cbn [app]. do 3 f_equal. unfold init_slice.
    do 4 f_equal. nia.
  - unfold zlen. rewrite length_insert. done.
Qed.

Lemma init_slices_concat f n col send k :
  0 < f -> 0 < n -> 0 <= col -> Z.of_nat k <= n ->
  concat (map (fun s => values s.2) (map (init_slice f n col send) (seqZ 0 (Z.of_nat k)))) =
  ztake (start f n (Z.of_nat k) * col) (values send).
Proof.
  intros Hf Hn Hc. induction k as [|k IH]; intros Hk.
  { change (Z.of_nat 0) with 0. by rewrite start_0. }
  rewrite seqZ_S, !map_app, concat_app, IH by lia. cbn [map concat]. rewrite app_nil_r, Z.add_0_l.
  unfold init_slice at 1. pcbn. rewrite Nat2Z.inj_succ. change (Z.succ _) with (Z.of_nat k + 1).
  rewrite start_succ. pose proof (start_bounds f n (Z.of_nat k)).
  pose proof (share_nonneg f n (Z.of_nat k)). unfold ztake, zdrop.
  rewrite Z.mul_add_distr_r, Z2Nat.inj_add by nia. by rewrite take_take_drop.
Qed.

(** C33: the initial values of a table are cut without loss.  The slices that
    WorkerInitEmbeddingSlicer makes for a new table of [f] rows of [col] values
    are one per server, all marked for sending; their values put together are
    the values of the message, and each server gets its share of whole rows. *)
Theorem init_values_partition k ks vals l f col w :
  0 < f < 2 ^ 63 -> 0 < server_num_ w < 2 ^ 63 -> embedding_table_ranges_ w !! u64 k = None ->
  0 <= col -> zlen vals = f * col -> zlen vals < 2 ^ 31 ->
  exists w1 sliced,
    AddEmbeddingTable (u64 k) f w = Ret tt w1 /\
    WorkerInitEmbeddingSlicer (mkKV (k :: ks) vals l) [] w1 = Ret sliced w1 /\
    zlen sliced = server_num_ w /\
    concat (map (fun s => values s.2) sliced) = vals /\
    forall j s, sliced !! j = Some s ->
      s.1 = true /\ keys s.2 = k :: ks /\
      zlen (values s.2) = share f (server_num_ w) (Z.of_nat j) * col.
Proof.
  intros Hf Hn Hnew Hc Hv Hs. set (n := server_num_ w) in *. set (send := mkKV (k :: ks) vals l).
  exists (with_table (u64 k) f w), (map (init_slice f n col send) (seqZ 0 n)).
  assert (Z.of_nat (Z.to_nat n) = n) as En by lia.
  split_and!; [apply AddEmbeddingTable_eq; lia|..].
  - unfold WorkerInitEmbeddingSlicer. erewrite bind_Ret by done. erewrite bind_Ret by done.
    rewrite row_cnt_with_table. cbn [default from_option Datatypes.id].
    rewrite (proj2 (Z.eqb_neq f 0)) by lia. erewrite bind_Ret by by apply ranges_at_table.
    change (server_num_ (with_table _ _ _)) with n. rewrite (uwrap_small 64 n) by (unfold in_u; lia).
    assert (zlen (values send) / f = col) as ->.
    { change (values send) with vals. by rewrite Hv, Z.mul_comm, Z.div_mul by lia. }
    fold n. pose proof (init_slices_eq f n col send (Z.to_nat n) 0) as E. rewrite En in E.
    rewrite E; try done; try lia. unfold resize, zlen. rewrite length_app, length_take, length_replicate. cbn. lia.
  - unfold zlen. rewrite length_map, length_seqZ. lia.
  - pose proof (init_slices_concat f n col send (Z.to_nat n)) as E. rewrite En in E.
    rewrite E, start_n by lia. apply ztake_all. change (values send) with vals. lia.
  - intros j s. rewrite list_lookup_fmap. intros (i & [-> Hi]%seqZ_lookup_Some & ->)%fmap_Some.
    split_and!; [done..|]. unfold init_slice. pcbn. pose proof (start_bounds f n (Z.of_nat j)).
    pose proof (start_bounds f n (Z.of_nat j + 1)). pose proof (start_succ f n (Z.of_nat j)).
    pose proof (share_nonneg f n (Z.of_nat j)). change (values send) with vals.
    assert (start f n (Z.of_nat j + 1) * col <= f * col) by (apply Z.mul_le_mono_nonneg_r; lia).
    assert (start f n (Z.of_nat j) * col <= f * col) by (apply Z.mul_le_mono_nonneg_r; lia).
    rewrite zlen_ztake; [done|]. rewrite zlen_zdrop by nia. nia.
Qed.

(** ** Slicing by key *)

(** A message of items, each a key with its values. *)
Definition kv_of (items : list (Z * list Z)) : KVMessage :=
  mkKV (map fst items) (concat (map snd items)) (map (fun it => zlen it.2) items).

Lemma kv_of_app l1 l2 :
  kv_of (l1 ++ l2) = mkKV (keys (kv_of l1) ++ keys (kv_of l2))
    (values (kv_of l1) ++ values (kv_of l2)) (len (kv_of l1) ++ len (kv_of l2)).
Proof. unfold kv_of. pcbn. by rewrite !map_app, concat_app. Qed.

Lemma i32_u64 z : i32 (u64 z) = i32 z.
Proof.
  unfold swrap, uwrap. f_equal. change (2 ^ 64) with (2 ^ 32 * 2 ^ 32).
  rewrite (Z.mod_eq z) by lia.
  replace (z - 2 ^ 32 * 2 ^ 32 * (z / (2 ^ 32 * 2 ^ 32)) + 2 ^ (32 - 1))
    with (z + 2 ^ (32 - 1) + - (2 ^ 32 * (z / (2 ^ 32 * 2 ^ 32))) * 2 ^ 32) by lia.
  by rewrite Z.mod_add by lia.
Qed.

Lemma accumulate_eq {S} (items : list (Z * list Z)) acc (s : S) :
  0 <= acc -> acc + zlen (concat (map snd items)) < 2 ^ 31 ->
  accumulate acc (map (fun it => zlen it.2) items) s = Ret (acc + zlen (concat (map snd items))) s.
Proof.
  induction items as [|[k v] items IH] in acc |- *; cbn [map concat accumulate snd]; intros Ha Hs.
  { rewrite zlen_nil, Z.add_0_r. done. }
  rewrite zlen_app in *. pose proof (zlen_nonneg v). pose proof (zlen_nonneg (concat (map snd items))).
  rewrite bool_decide_eq_true_2 by (unfold in_s; lia). rewrite IH by lia. f_equal. lia.
Qed.

Lemma item_len {S} done k v rest (s : S) :
  field_at (len (kv_of (done ++ (k, v) :: rest))) (zlen done) s = Ret (zlen v) s.
Proof.
  unfold field_at, kv_of. pcbn. rewrite map_app.
  assert (zlen done = zlen (map (fun it : Z * list Z => zlen it.2) done)) as ->.
  { unfold zlen. by rewrite length_map. }
  by rewrite <- (Z.add_0_r (zlen (map _ done))), zget_app_r.
Qed.

Lemma item_offset {S} done rest (s : S) :
  zlen (concat (map snd done)) < 2 ^ 31 ->
  accumulate 0 (ztake (zlen done) (len (kv_of (done ++ rest)))) s =
  Ret (zlen (concat (map snd done))) s.
Proof.
  intros. unfold kv_of. pcbn. rewrite map_app, ztake_app_exact by (unfold zlen; by rewrite length_map).
  by rewrite accumulate_eq by lia.
Qed.

Lemma item_values {S} done k v rest (s : S) :
  let off := zlen (concat (map snd done)) in
  subrange (values (kv_of (done ++ (k, v) :: rest))) off (off + zlen v) s = Ret v s.
Proof.
  intros off. unfold subrange, kv_of, off. pcbn. rewrite map_app, concat_app. cbn [map concat snd].
  pose proof (zlen_nonneg v). pose proof (zlen_nonneg (concat (map snd rest))).
  pose proof (zlen_nonneg (concat (map snd done))).
  rewrite !zlen_app, !(proj2 (Z.leb_le _ _)) by lia. cbn [andb].
  rewrite zdrop_app_exact, ztake_app_exact by (done || lia). done.
Qed.

Lemma append_item l k v :
  in_s 32 k -> zlen v < 2 ^ 31 ->
  mkKV (keys (add_keys (u64 k) (kv_of l))) (values (add_keys (u64 k) (kv_of l)) ++ v)
    (len (add_keys (u64 k) (kv_of l)) ++ [i32 (zlen v)]) = kv_of (l ++ [(k, v)]).
Proof.
  intros Hk Hv. pose proof (zlen_nonneg v). rewrite kv_of_app. unfold add_keys, kv_of.
  cbn [keys values len map concat fst snd].
  rewrite i32_u64, !(swrap_small 32), app_nil_r by (done || (unfold in_s; lia)). done.
Qed.

Section round_robin.
Context (server_of : Z -> Z) (n : Z).

Definition slice_of (items : list (Z * list Z)) (sid : Z) : bool * KVMessage :=
  let mine := filter (fun it => server_of it.1 = sid) items in (not_empty mine, kv_of mine).

Lemma slice_of_insert done it :
  0 <= server_of it.1 < n ->
  map (slice_of (done ++ [it])) (seqZ 0 n) =
  <[Z.to_nat (server_of it.1) :=
      (true, kv_of (filter (fun x => server_of x.1 = server_of it.1) done ++ [it]))]>
    (map (slice_of done) (seqZ 0 n)).
Proof.
  intros Hs. apply list_eq. intros i.
  destruct (decide (Z.of_nat i < n)) as [Hi|Hi].
  2:{ rewrite !lookup_ge_None_2; [done|rewrite length_insert|];
        rewrite length_map, length_seqZ; lia. }
  assert (seqZ 0 n !! i = Some (Z.of_nat i)) as Ei by (by apply seqZ_lookup_Some).
  destruct (decide (i = Z.to_nat (server_of it.1))) as [->|Hne].
  - rewrite list_lookup_insert_eq by (rewrite length_map, length_seqZ; lia).
    rewrite list_lookup_fmap, Ei. cbn [fmap option_fmap option_map]. f_equal. unfold slice_of.
    rewrite Z2Nat.id, filter_app, filter_cons_True by (done || lia). f_equal.
    unfold not_empty. rewrite bool_decide_eq_false_2; [done|].
    by intros [_ ?]%app_eq_nil.
  - rewrite list_lookup_insert_ne by done. rewrite !list_lookup_fmap, Ei.
    cbn [fmap option_fmap option_map]. f_equal. unfold slice_of.
    rewrite filter_app, filter_cons_False by lia. cbn [filter list_filter]. by rewrite app_nil_r.
Qed.

Lemma round_robin_eq rest done w :
  0 < n < 2 ^ 63 ->
  Forall (fun it => in_s 32 it.1 /\ 0 <= server_of it.1 < n /\
                    key_to_server_id_ w !! u64 it.1 = Some (server_of it.1)) rest ->
  zlen (concat (map snd (done ++ rest))) < 2 ^ 31 ->
  round_robin (map fst rest) (zlen done) (kv_of (done ++ rest)) (map (slice_of done) (seqZ 0 n)) w =
  Ret (map (slice_of (done ++ rest)) (seqZ 0 n)) w.
Proof.
  intros Hn. induction rest as [|[k v] rest IH] in done |- *; intros Hr Hs.
  { by rewrite app_nil_r. }
  apply Forall_cons in Hr as [(Hk & Hsid & Hl) Hr]. cbn [fst snd] in *.
  cbn [map round_robin fst]. erewrite bind_Ret by done. rewrite Hl.
  cbn [default from_option Datatypes.id].
  erewrite (bind_Ret (modify _)) by done.
  assert (set_server_ids (<[u64 k := server_of k]>) w = w) as ->.
  { destruct w. unfold set_server_ids. pcbn. f_equal. by apply insert_id. }
  unfold at_slot at 1. rewrite (uwrap_small 64 (server_of k)) by (unfold in_u; lia).
  unfold zget at 1. rewrite (proj2 (Z.ltb_ge _ _)) by lia. rewrite list_lookup_fmap.
  rewrite (proj2 (seqZ_lookup_Some (Z.to_nat (server_of k)) n (server_of k))) by lia.
  cbn [fmap option_fmap option_map]. erewrite bind_Ret by done.
  rewrite map_app, concat_app, zlen_app in Hs. cbn [map concat snd] in Hs. rewrite zlen_app in Hs.
  pose proof (zlen_nonneg v). pose proof (zlen_nonneg (concat (map snd rest))).
  pose proof (zlen_nonneg (concat (map snd done))).
  erewrite bind_Ret by apply item_len. erewrite bind_Ret by (apply item_offset; lia).
  erewrite bind_Ret by apply item_values. cbn [slice_of snd].
  rewrite append_item by (done || lia). pose proof (slice_of_insert done (k, v) Hsid) as E.
  cbn [fst] in E. rewrite <- E, <- (zlen_snoc (k, v)).
  replace (done ++ (k, v) :: rest) with ((done ++ [(k, v)]) ++ rest) by (by rewrite <- app_assoc).
  apply IH; [done|]. rewrite <- app_assoc, map_app, concat_app, zlen_app. cbn [app map concat snd].
  rewrite zlen_app. lia.
Qed.
End round_robin.

Lemma slice_of_nil server_of l :
  map (slice_of server_of []) l = replicate (length l) (false, KVMessage_default).
Proof. induction l; cbn; by f_equal. Qed.

(** AddKeyToServerId of each key in turn. *)
Fixpoint add_all_keys (ks : list Z) : M Worker unit :=
  match ks with
  | [] => mret tt
  | k :: ks => _ ← AddKeyToServerId k; add_all_keys ks
  end.

Lemma add_all_keys_eq ks w :
  0 < server_num_ w < 2 ^ 63 ->
  add_all_keys ks w =
  Ret tt (set_server_ids (fun m => foldl (fun m k => <[k := k mod server_num_ w]> m) m ks) w).
Proof.
  intros Hn. induction ks as [|k ks IH] in w, Hn |- *; [by destruct w|].
  cbn [add_all_keys foldl]. unfold AddKeyToServerId, AddKeyByHashMod. rewrite bind_assoc.
  erewrite bind_Ret by done. rewrite (proj2 (Z.eqb_neq _ _)) by lia.
  pose proof (Z.mod_pos_bound k (server_num_ w)).
  rewrite (uwrap_small 64), (swrap_small 64) by (unfold in_s, in_u; lia).
  erewrite bind_Ret by done. by rewrite IH.
Qed.

Lemma assigned_server n ks (m : gmap Z Z) k :
  foldl (fun m k => <[k := k mod n]> m) m ks !! k =
  if decide (k ∈ ks) then Some (k mod n) else m !! k.
Proof.
  induction ks as [|k' ks IH] in m |- *; cbn [foldl].
  { by rewrite decide_False by apply not_elem_of_nil. }
  rewrite IH. destruct (decide (k = k')) as [->|Hne].
  - rewrite lookup_insert_eq. rewrite (decide_True (P := k' ∈ k' :: ks)) by (by left).
    by case_decide.
  - rewrite lookup_insert_ne by done. apply decide_ext. rewrite elem_of_cons. tauto.
Qed.

(** RoundRobinSlicer distributes the items of a message by the server of
    their key.  When every key has been assigned by AddKeyToServerId, the slice
    of a server is the message of exactly the items whose key is congruent to
    its number, in their order and with their values, and it is marked for
    sending exactly if there is one. *)
Theorem round_robin_by_key items w :
  let n := server_num_ w in
  0 < n < 2 ^ 63 -> zlen (concat (map snd items)) < 2 ^ 31 ->
  Forall (fun it => in_s 32 it.1) items ->
  exists w1,
    add_all_keys (map (fun it => u64 it.1) items) w = Ret tt w1 /\
    RoundRobinSlicer (kv_of items) [] w1 =
    Ret (map (slice_of (fun k => u64 k mod n) items) (seqZ 0 n)) w1.
Proof.
  intros n Hn Hs Hk. eexists. split; [by apply add_all_keys_eq|]. set (w1 := set_server_ids _ _).
  unfold RoundRobinSlicer. erewrite bind_Ret by done. change (server_num_ w1) with n.
  rewrite (uwrap_small 64) by (unfold in_u; lia).
  assert (resize (false, KVMessage_default) (Z.to_nat n) [] =
    map (slice_of (fun k => u64 k mod n) []) (seqZ 0 n)) as ->.
  { unfold resize. by rewrite slice_of_nil, take_nil, Nat.sub_0_r, length_seqZ. }
  apply (round_robin_eq (fun k => u64 k mod n) n items []); [done| |done].
  rewrite Forall_forall in Hk |- *. intros it Hit. split; [by apply Hk|].
  pose proof (Z.mod_pos_bound (u64 it.1) n). split; [lia|].
  unfold w1. pcbn. rewrite assigned_server, decide_True; [done|].
  apply list_elem_of_fmap. by exists it.
Qed.

(** ** The slices of an update *)
Definition update_mine (f n : Z) (items : list (Z * list Z)) (j : Z) : list (Z * list Z) :=
  filter (fun it => start f n j <= it.1 < start f n (j + 1)) items.

Lemma update_slice_eq range dim items vals j kvs :
  zdrop (j * dim) vals = concat (map snd items) -> 0 <= j -> 0 <= dim ->
  Forall (fun it => in_s 32 it.1 /\ zlen it.2 = dim) items ->
  let mine := filter (fun it => in_shard range it.1) items in
  update_slice (map fst items) j dim range vals kvs =
  mkKV (keys kvs ++ map fst mine) (values kvs ++ concat (map snd mine)) (len kvs).
Proof.
  induction items as [|[id row] items IH] in j, kvs |- *; intros Hv Hj Hd Hi mine.
  { cbn. rewrite !app_nil_r. by destruct kvs. }
  apply Forall_cons in Hi as [[Hid Hrow] Hi]. cbn [map fst snd concat] in *.
  cbn [update_slice]. rewrite IH; [|..].
  2:{ rewrite <- Hrow in *. replace ((j + 1) * zlen row) with (j * zlen row + zlen row) by lia.
      rewrite <- zdrop_zdrop, Hv by nia. by apply zdrop_app_exact. }
  2-4: done || lia.
  subst mine. rewrite filter_cons. cbn [fst]. rewrite Hv, ztake_app_exact by done.
  destruct (in_shard range id); cbn [decide]; [|done].
  unfold add_keys. cbn [keys values len map fst snd concat Is_true].
  rewrite i32_u64, (swrap_small 32), <- !app_assoc by done. done.
Qed.

Lemma concat_rows dim (items : list (Z * list Z)) :
  Forall (fun it => in_s 32 it.1 /\ zlen it.2 = dim) items ->
  zlen (concat (map snd items)) = dim * zlen (map fst items).
Proof.
  induction 1 as [|[id row] items [_ Hrow] _ IH]; cbn [map concat fst snd].
  { rewrite !zlen_nil. lia. }
  rewrite zlen_app, zlen_cons, IH. cbn in Hrow. lia.
Qed.

Lemma update_mine_shard f n items j :
  0 < f < 2 ^ 63 -> 0 <= j < n -> Forall (fun it => in_s 32 it.1) items ->
  filter (fun it => in_shard (shard f n j) it.1) items = update_mine f n items j.
Proof.
  intros Hf Hj Hi. unfold update_mine. induction Hi as [|it items Hid _ IH]; [done|].
  rewrite !filter_cons, IH. apply decide_ext. rewrite Is_true_true.
  apply in_shard_iff; auto with lia.
Qed.

(** The rows of an update reach the server that holds them.  After
    AddEmbeddingTable, the slice that UpdateEmbeddingSlicer makes for a server
    has the key of the table, then the ids of the rows in the server's range
    with the values of these rows, in their order, and is marked for sending
    exactly if there is one. *)
Theorem update_reaches_owner k f dim items w :
  let n := server_num_ w in
  0 < f < 2 ^ 63 -> 0 < n -> embedding_table_ranges_ w !! u64 k = None ->
  in_s 32 k -> 0 <= dim -> items <> [] ->
  Forall (fun it => in_s 32 it.1 /\ zlen it.2 = dim) items ->
  exists w1,
    AddEmbeddingTable (u64 k) f w = Ret tt w1 /\
    UpdateEmbeddingSlicer (mkKV [k] (concat (map snd items)) (map fst items)) [] w1 =
    Ret (map (fun j => let mine := update_mine f n items j in
                       (not_empty mine, mkKV (k :: map fst mine) (concat (map snd mine)) []))
           (seqZ 0 n)) w1.
Proof.
  intros n Hf Hn Hnew Hk Hd Hne Hi. eexists. split; [by apply AddEmbeddingTable_eq|].
  assert (0 < zlen (map fst items)) as Hpos.
  { destruct items; [done|]. cbn [map]. rewrite zlen_cons. pose proof (zlen_nonneg (map fst items)). lia. }
  unfold UpdateEmbeddingSlicer. pcbn. rewrite (proj2 (Z.eqb_neq _ _)) by lia.
  erewrite bind_Ret by done. erewrite bind_Ret by by apply ranges_at_table.
  rewrite zip_with_fresh, map_map. unfold mret, M_ret. f_equal. apply map_ext_in.
  intros j Hj%list_elem_of_In%elem_of_seqZ. unfold update_slot. pcbn.
  rewrite (concat_rows dim), Z.div_mul by (done || lia).
  rewrite update_slice_eq by done. fold n. rewrite update_mine_shard; [|done|lia|].
  2:{ eapply Forall_impl; [exact Hi|]. by intros ? []. }
  unfold add_keys. cbn [keys values len KVMessage_default app].
  rewrite i32_u64, (swrap_small 32) by done. f_equal.
  unfold not_empty. destruct (update_mine f n items j) as [|it l]; [done|].
  rewrite bool_decide_eq_false_2 by done. cbn [map negb]. rewrite !zlen_cons.
  pose proof (zlen_nonneg (map fst l)). rewrite (proj2 (Z.leb_gt _ _)); [done|lia].
Qed.

(** A worker with three servers. *)
Lemma lookup_reaches_owner_witness :
  exists w1 sliced,
    AddEmbeddingTable 5 7 Worker_init = Ret tt w1 /\
    LookupIdSlicer remove_dups (mkLookup 5 [6; 0; -1; 3; 6; 9] []) [] w1 = Ret sliced w1 /\
    zlen sliced = 3 /\
    concat (map (fun s => lookup_keys s.2) sliced) ≡ₚ
      remove_dups (filter (fun id => 0 <= id < 7) [6; 0; -1; 3; 6; 9]).
Proof.
  destruct (lookup_reaches_owner remove_dups (fun l => reflexivity _) 5 7 [6; 0; -1; 3; 6; 9]
    Worker_init) as (w1 & sliced & H1 & H2 & H3 & H4 & _).
  - lia.
  - reflexivity.
  - reflexivity.
  - repeat constructor; unfold in_s; cbn; lia.
  - exists w1, sliced. auto.
Defined.

Lemma init_values_partition_witness :
  exists w1 sliced,
    AddEmbeddingTable 5 3 Worker_init = Ret tt w1 /\
    WorkerInitEmbeddingSlicer (mkKV [5] [1; 2; 3; 4; 5; 6] []) [] w1 = Ret sliced w1 /\
    concat (map (fun s => values s.2) sliced) = [1; 2; 3; 4; 5; 6].
Proof.
  destruct (init_values_partition 5 [] [1; 2; 3; 4; 5; 6] [] 3 2 Worker_init)
    as (w1 & sliced & H1 & H2 & _ & H4 & _).
  - lia.
  - change (server_num_ Worker_init) with 3. lia.
  - reflexivity.
  - lia.
  - reflexivity.
  - reflexivity.
  - exists w1, sliced. auto.
Defined.

Lemma round_robin_by_key_witness :
  exists w1,
    add_all_keys [1; 2; 4] Worker_init = Ret tt w1 /\
    RoundRobinSlicer (mkKV [1; 2; 4] [10; 20; 21; 40] [1; 2; 1]) [] w1 =
    Ret [(false, mkKV [] [] []); (true, mkKV [1; 4] [10; 40] [1; 1]); (true, mkKV [2] [20; 21] [2])]
      w1.
Proof.
  apply (round_robin_by_key [(1, [10]); (2, [20; 21]); (4, [40])] Worker_init).
  - change (server_num_ Worker_init) with 3. lia.
  - reflexivity.
  - repeat constructor; unfold in_s; cbn; lia.
Defined.

Lemma update_reaches_owner_witness :
  exists w1,
    AddEmbeddingTable 5 7 Worker_init = Ret tt w1 /\
    UpdateEmbeddingSlicer (mkKV [5] [60; 61; 10; 11] [6; 1]) [] w1 =
    Ret [(true, mkKV [5; 1] [10; 11] []); (false, mkKV [5] [] []); (true, mkKV [5; 6] [60; 61] [])]
      w1.
Proof.
  apply (update_reaches_owner 5 7 2 [(6, [60; 61]); (1, [10; 11])] Worker_init).
  - lia.
  - reflexivity.
  - reflexivity.
  - unfold in_s. cbn. lia.
  - lia.
  - discriminate.
  - repeat constructor; unfold in_s; cbn; lia.
Defined.
