(* ===== verification/NodePrograms.v ===== *)
(** * The trial program of the cluster

    src/even-http/ps/core/node_manager_test.cpp: the messages its workers push and
    pull, the request handler of its server, which sends the data back, and what
    its collective test sends.  The nodes are those of AbstractNode and Cluster;
    what the program measures and prints is left out.  A value of a KVMessage is
    a symbol for the float of the code. *)
From S2P Require Import Prelude Convert Securec Messages Config Requests Collective AbstractNode Cluster.
From S2P Require Import PsWorker.
#[local] Open Scope Z_scope.
#[local] Open Scope blocking_scope.

(** ** Messages *)

(** The vectors [keys(size, 1)] and [values(size, 2)]. *)
Definition test_message (size : Z) : KVMessage :=
  mkKV (replicate (Z.to_nat size) 1) (replicate (Z.to_nat size) 2) [].

Definition PackKVMessage (size : Z) : KVMessage := mkKV (replicate (Z.to_nat size) 1) [] [].

Section programs.
Context `{Protobuf KVMessage}.
Context (cfg : ClusterConfig) (connect : client -> bool).

(** The copy of the serialised message, whose result is not tested. *)
Definition packed (kv : KVMessage) : option (list Z) :=
  let data := SerializeAsString kv in
  snd <$> buf_memcpy_s (replicate (Z.to_nat (zlen data)) 0) 0 (zlen data) data 0 (zlen data).

(** [PushTest]; whether the server answered in time is not used. *)
Definition PushTest (size : Z) : B unit :=
  let data := SerializeAsString (test_message size) in
  match packed (test_message size) with
  | None => undef "read past the end of the data"
  | Some res =>
    _ <~ Send_one cfg connect SERVER 0 (Some res) (zlen data) 0 kCommTimeoutInSeconds;
    bret tt
  end.

(** What the output [o] of a Send holds; it starts as an empty vector. *)
Definition output_bytes (o : Z) (n : AbstractNode) : list Z :=
  match outs (rq n) !! o with Some (Some d :: _) => d | _ => [] end.

(** [PullTest]: the message that came back. *)
Definition PullTest (size o : Z) : B KVMessage :=
  let data := SerializeAsString (test_message size) in
  match packed (test_message size) with
  | None => undef "read past the end of the data"
  | Some res =>
    _ <~ Send_output cfg connect SERVER 0 (Some res) (zlen data) 0 (Some o) kCommTimeoutInSeconds;
    n <~ lift getS;
    bret (ParseFromArray (output_bytes o n))
  end.

(** [MultiPullTest]: to two servers. *)
Definition MultiPullTest (o : Z) : B (KVMessage * KVMessage) :=
  let kv_message := PackKVMessage 100 in
  let kv_message1 := PackKVMessage 10 in
  match packed kv_message, packed kv_message1 with
  | Some res, Some res1 =>
    _ <~ Send_many_output cfg connect SERVER [0; 1] [Some res; Some res1]
           [zlen (SerializeAsString kv_message); zlen (SerializeAsString kv_message1)] 0 (Some o)
           kCommTimeoutInSeconds;
    n <~ lift getS;
    match outs (rq n) !! o with
    | Some (Some d :: Some d1 :: _) => bret (ParseFromArray d, ParseFromArray d1)
    | Some (_ :: _ :: _) => undef "a null response"
    | _ => throw "std::out_of_range"
    end
  | _, _ => undef "read past the end of the data"
  end.

(** The handler of StartServer and StartServer1 (on another thread): the data go
    back as they came. *)
Definition echo_handler (conn : Z) (meta : MessageMeta) (data : list Z) : M ServerNode unit :=
  Response conn meta (Some data) (zlen data).

(** [CollectiveTest]: the string that is sent is made from a pointer to the
    serialised message and ends at its first zero. *)
Definition CollectiveTest_temp : list Z := c_string (SerializeAsString (test_message 33)).
Definition CollectiveTest_send (rank_id : Z) : M AbstractNode Z :=
  CollectiveSendAsync cfg connect SERVER rank_id (Some CollectiveTest_temp) (zlen CollectiveTest_temp).
End programs.

(** ** A pull from end to end *)
Section pull.
Context `{ProtobufLaws KVMessage}.
Context (cfg : ClusterConfig) (connect : client -> bool).

Lemma packed_whole kv :
  0 < zlen (SerializeAsString kv) <= SECUREC_MEM_MAX_LEN -> packed kv = Some (SerializeAsString kv).
Proof. intros Hl. unfold packed. by rewrite buf_copy_all. Qed.

(** C11: A pull returns what was pushed.  PullTest of a worker that reaches the
    server of rank 0 sends its message; the server hands it to the handler of the
    program, which answers with the same bytes; and when the answer has been
    handled, PullTest continues and reads the message it sent. *)
Theorem pull_test_echo size o n c s conn :
  let id := next_request_id_ (tracked 1 (rq n)) in
  let data := SerializeAsString (test_message size) in
  ValidateRankId cfg SERVER 0 = true -> reach connect n 0 = Some c ->
  receive_messages_ (rq n) !! id = None -> 0 < zlen data <= SECUREC_MEM_MAX_LEN ->
  request_handler_ s = true -> rank_id_ (AbstractNode.node_info_ (base s)) = 0 ->
  exists req n1 k s1 s2 rmeta n2 n3,
    PullTest cfg connect size o n = Ret (Awaiting (AwaitResponse id kCommTimeoutInSeconds) k) n1 /\
    outbox n1 = outbox n ++ [req] /\ out_client req = c /\
    on_request conn (out_meta req) (Some (out_data req)) (zlen (out_data req)) s = Ret tt s1 /\
    handled s1 = handled s ++ [(conn, out_meta req, data)] /\
    echo_handler conn (out_meta req) data s1 = Ret tt s2 /\
    replies s2 = replies s ++ [(conn, rmeta, RAW, data)] /\
    on_server_message rmeta (Some data) (zlen data) n1 = Ret tt n2 /\
    k true n2 = Ret (Finished (test_message size)) n3.
Proof.
  intros id data Hv Hc Hnone Hl Hh Hr.
  destruct (request_exchange cfg connect SERVER 0 data 0 o kCommTimeoutInSeconds n c s conn data)
    as (req & n1 & s1 & s2 & rmeta & n2 & c3 & E1 & Ho & Hoc & E2 & Hh1 & E3 & Hr2 & E4 & Hout & _);
    try done; try (unfold INT_MAX; lia).
  eexists req, n1, _, s1, s2, rmeta, n2, n2. split_and!; try done.
  - unfold PullTest. rewrite packed_whole by done. by rewrite (bbind_Awaiting _ _ _ _ _ _ E1).
  - change (Ret (Finished (ParseFromArray (output_bytes o n2))) n2 = Ret (Finished (test_message size)) n2).
    unfold output_bytes. rewrite Hout. unfold data. by rewrite parse_serialize.
Qed.
End pull.

(** ** Examples *)
(** A server of rank 0 with a handler; the worker knows its address. *)
Definition echo_server : ServerNode :=
  mkServerNode (set_info (fun _ => mkNodeInfo "10.0.0.1" 80 "s" SERVER 0) AbstractNode_init) true [] [].

Lemma pull_test_echo_witness :
  let pb : Protobuf KVMessage := countable_protobuf KVMessage_default in
  exists k n1 n2 n3,
    PullTest example_cfg (fun _ => true) 3 4 example_node =
      Ret (Awaiting (AwaitResponse 1 kCommTimeoutInSeconds) k) n1 /\
    k true n2 = Ret (Finished (test_message 3)) n3.
Proof.
  intros pb.
  destruct (@pull_test_echo pb (countable_protobuf_laws KVMessage_default) example_cfg (fun _ => true) 3 4
    example_node ("10.0.0.1"%string, 80) echo_server 7)
    as (req & n1 & k & s1 & s2 & rmeta & n2 & n3 & E1 & _ & _ & _ & _ & _ & _ & _ & E2).
  - reflexivity.
  - reflexivity.
  - reflexivity.
  - split; [reflexivity|discriminate].
  - reflexivity.
  - reflexivity.
  - exists k, n1, n2, n3. split; [exact E1|exact E2].
Defined.

(** ** The collective test *)
Lemma c_string_shorter l : 0 ∈ l -> zlen (c_string l) < zlen l.
Proof.
  induction l as [|c l IH]; intros Hl; [by apply elem_of_nil in Hl|]. cbn [c_string].
  pose proof (zlen_nonneg l). destruct (Z.eqb_spec c 0) as [->|Hc]; rewrite !zlen_cons; [rewrite zlen_nil; lia|].
  apply elem_of_cons in Hl as [<-|Hl]; [done|]. specialize (IH Hl). lia.
Qed.

(** The bytes protobuf gives the message of CollectiveTest: the keys as varints,
    the values as floats of four bytes.  2.0 has three zero bytes, so that of 170
    bytes the first 38 are sent. *)
Definition collective_bytes : list Z :=
  [18; 33] ++ replicate 33 1 ++ [26; 132; 1] ++ concat (replicate 33 [0; 0; 0; 64]).
Lemma collective_test_truncates :
  zlen collective_bytes = 170 /\ zlen (c_string collective_bytes) = 38.
Proof. done. Qed.
