(* ===== verification/LogConfig.v ===== *)
(** * Log levels

    src/log/utils/log_adapter.{h,cc} and logging_level.cc, built with USE_GLOG
    as log_adapter.h has it: the lexer and the parser of MS_SUBMODULE_LOG_v,
    the levels of the submodules, the flags of glog that are set at start and
    the texts of messages and exceptions.  The environment, the flags as glog
    starts with them, strftime and the name of the program are arguments.  What
    is written to the log is in LogWriter.v. *)
From S2P Require Import Prelude.
From Stdlib Require Import Ascii.
From stdpp Require Import pretty.
#[local] Open Scope Z_scope.

(** ** Levels and names *)
Definition DEBUG : Z := 0.
Definition INFO : Z := 1.
Definition WARNING : Z := 2.
Definition ERROR : Z := 3.
Definition EXCEPTION : Z := 4.

Definition sub_module_names : list string :=
  ["UNKNOWN"; "CORE"; "ANALYZER"; "COMMON"; "DEBUG"; "DEVICE"; "GE_ADPT"; "IR"; "KERNEL"; "MD";
   "ME"; "ONNX"; "OPTIMIZER"; "PARALLEL"; "PARSER"; "PIPELINE"; "PRE_ACT"; "PYNATIVE"; "SESSION";
   "UTILS"; "VM"; "PROFILER"; "PS"; "LITE"]%string.
Definition NUM_SUBMODUES : nat := 24.
Definition SM_ME : nat := 10.

Definition GetSubModuleName (module_id : nat) : string :=
  default ""%string (sub_module_names !! (module_id mod NUM_SUBMODUES)%nat).

Definition GetLogLevel (level : Z) : option string :=
  let level := if ERROR <? level then ERROR else level in
  zget ["DEBUG"; "INFO"; "WARNING"; "ERROR"]%string level.

(** The severities of glog. *)
Definition GLOG_INFO : Z := 0.
Definition GLOG_WARNING : Z := 1.
Definition GLOG_ERROR : Z := 2.
Definition GetGlogLevel (level : Z) : Z :=
  if (level =? DEBUG) || (level =? INFO) then GLOG_INFO
  else if level =? WARNING then GLOG_WARNING else GLOG_ERROR.

Inductive ExceptionType : Type :=
| NoExceptionType | UnknownError | ArgumentError | NotSupportError | NotExistsError
| AlreadyExistsError | UnavailableError | DeviceProcessError | AbortedError | TimeOutError
| ResourceUnavailable | NoPermissionError | IndexError | ValueError | TypeError | KeyError
| AttributeError.

Definition ExceptionTypeToString (type : ExceptionType) : string :=
  match type with
  | NoExceptionType | UnknownError => "UnknownError"
  | ArgumentError => "ArgumentError" | NotSupportError => "NotSupportError"
  | NotExistsError => "NotExistsError" | AlreadyExistsError => "AlreadyExistsError"
  | UnavailableError => "UnavailableError" | DeviceProcessError => "DeviceProcessError"
  | AbortedError => "AbortedError" | TimeOutError => "TimeOutError"
  | ResourceUnavailable => "ResourceUnavailable" | NoPermissionError => "NoPermissionError"
  | IndexError => "IndexError" | ValueError => "ValueError" | TypeError => "TypeError"
  | KeyError => "KeyError" | AttributeError => "AttributeError"
  end.

Definition slash : ascii := "/".

(** [rfind] of the slash. *)
Fixpoint rfind (c : ascii) (l : list ascii) : option nat :=
  match l with
  | [] => None
  | x :: l => match rfind c l with
              | Some i => Some (S i)
              | None => if bool_decide (x = c) then Some O else None
              end
  end.

Definition GetProcName (appname : list ascii) : list ascii :=
  match rfind slash appname with
  | None => appname
  | Some pos => if (length appname <=? pos + 1)%nat then appname else drop (pos + 1) appname
  end.

(** The loop that writes the microseconds backwards; [i] counts down. *)
Definition digit_char (d : Z) : ascii := ascii_of_nat (Z.to_nat (d + 48)).
Fixpoint write_usec (i : nat) (idx num : Z) (buf : list ascii) : list ascii :=
  let buf := <[Z.to_nat idx := digit_char (Z.rem num 10)]> buf in
  let idx := idx - 1 in
  let num := Z.quot num 10 in
  let '(buf, idx) := if (i mod 3 =? 0)%nat then (<[Z.to_nat idx := "."%char]> buf, idx - 1)
                     else (buf, idx) in
  match i with
  | O => buf
  | S i => write_usec i idx num buf
  end.

(** [strftime] has written the date into the static buffer; the string ends at
    the first zero. *)
Fixpoint c_str (l : list ascii) : list ascii :=
  match l with
  | [] => []
  | c :: l => if bool_decide (c = zero) then [] else c :: c_str l
  end.
Definition BUFLEN : nat := 80.
Definition GetTime (strftime : list ascii -> list ascii) (buf : list ascii) (usec : Z)
    : list ascii :=
  let buf := strftime buf in
  let buf := <[27%nat := zero]> buf in
  c_str (write_usec 5 26 usec buf).

(** What an exception of MS_LOG(EXCEPTION) or MS_EXCEPTION says; [traced] is
    what the trace provider appends. *)
Record LocationInfo : Type := mkLocation { file_ : string; line_ : Z; func_ : string }.
Definition exception_text (location_ : LocationInfo) (exception_type_ : ExceptionType)
    (msg traced : string) : string :=
  (file_ location_ +:+ ":" +:+ pretty (line_ location_) +:+ " " +:+ func_ location_ +:+ "] " +:+
   (match exception_type_ with
    | NoExceptionType | IndexError | TypeError | ValueError | KeyError | AttributeError => ""
    | _ => ExceptionTypeToString exception_type_ +:+ " "
    end) +:+ msg +:+ traced)%string.

(** ** The lexer *)
Inductive LogConfigToken : Type :=
| INVALID | LEFT_BRACE | RIGHT_BRACE | VARIABLE | NUMBER | COMMA | COLON | EOS.
#[global] Instance LogConfigToken_eq_dec : EqDecision LogConfigToken.
Proof. solve_decision. Defined.

Definition between (lo hi ch : ascii) : bool :=
  (nat_of_ascii lo <=? nat_of_ascii ch)%nat && (nat_of_ascii ch <=? nat_of_ascii hi)%nat.
Definition IsAlpha (ch : ascii) : bool := between "A" "Z" ch || between "a" "z" ch.
Definition IsDigit (ch : ascii) : bool := between "0" "9" ch.

Record LogConfigLexer : Type := mkLexer { buffer_ : list ascii; cur_idx_ : nat }.
Definition LogConfigLexer_init (text : list ascii) : LogConfigLexer := mkLexer text 0.

Definition is_blank (ch : ascii) : bool := bool_decide (ch = " "%char) || bool_decide (ch = "009"%char).

(** How many of the first characters satisfy [p]. *)
Fixpoint run_length (p : ascii -> bool) (l : list ascii) : nat :=
  match l with
  | [] => O
  | c :: l => if p c then S (run_length p l) else O
  end.

(** Reading at the size of a std::string gives the zero character. *)
Definition char_at (l : list ascii) (i : nat) : ascii := default zero (l !! i).

Definition SkipWhiteSpace (lx : LogConfigLexer) : ascii * LogConfigLexer :=
  let i := (cur_idx_ lx + run_length is_blank (drop (cur_idx_ lx) (buffer_ lx)))%nat in
  (char_at (buffer_ lx) i, mkLexer (buffer_ lx) i).

Definition single_char_map (ch : ascii) : option LogConfigToken :=
  if bool_decide (ch = "{"%char) then Some LEFT_BRACE
  else if bool_decide (ch = "}"%char) then Some RIGHT_BRACE
  else if bool_decide (ch = ","%char) then Some COMMA
  else if bool_decide (ch = ":"%char) then Some COLON
  else if bool_decide (ch = zero) then Some EOS
  else None.

Definition word_char (ch : ascii) : bool := IsAlpha ch || IsDigit ch || bool_decide (ch = "_"%char).

(** The do-while loops: the character at the index and those after it as long
    as they satisfy [p]. *)
Definition scan (p : ascii -> bool) (ch : ascii) (lx : LogConfigLexer)
    : list ascii * LogConfigLexer :=
  let n := run_length p (drop (S (cur_idx_ lx)) (buffer_ lx)) in
  (ch :: take n (drop (S (cur_idx_ lx)) (buffer_ lx)),
   mkLexer (buffer_ lx) (S (cur_idx_ lx) + n)).

(** The token, what is written to [*ptr] if anything, and the lexer after it. *)
Definition GetNext (lx : LogConfigLexer) : LogConfigToken * option (list ascii) * LogConfigLexer :=
  let '(ch, lx) := SkipWhiteSpace lx in
  match single_char_map ch with
  | Some tok => (tok, Some [ch], mkLexer (buffer_ lx) (S (cur_idx_ lx)))
  | None =>
    if IsAlpha ch then let '(oss, lx) := scan word_char ch lx in (VARIABLE, Some oss, lx)
    else if IsDigit ch then let '(oss, lx) := scan IsDigit ch lx in (NUMBER, Some oss, lx)
    else (INVALID, None, lx)
  end.

(** ** The parser *)
Definition Expect (expected tok : LogConfigToken) : bool := bool_decide (expected = tok).

Definition text_of (t : option (list ascii)) : string := String.string_of_list_ascii (default [] t).

(** The loop: whether there was an error, the last token and the levels;
    [None] when the fuel runs out. *)
Fixpoint parse_loop (fuel : nat) (lx : LogConfigLexer) (log_levels : gmap string string)
    : option (bool * LogConfigToken * gmap string string) :=
  match fuel with
  | O => None
  | S fuel =>
    let '(tok, key, lx) := GetNext lx in
    if negb (Expect VARIABLE tok) then Some (true, tok, log_levels) else
    let '(tok, _, lx) := GetNext lx in
    if negb (Expect COLON tok) then Some (true, tok, log_levels) else
    let '(tok, val, lx) := GetNext lx in
    if negb (Expect NUMBER tok) then Some (true, tok, log_levels) else
    let log_levels := <[text_of key := text_of val]> log_levels in
    let '(tok, _, lx) := GetNext lx in
    if bool_decide (tok = COMMA) then parse_loop fuel lx log_levels
    else Some (false, tok, log_levels)
  end.

Definition Parse (cfg : list ascii) : option (gmap string string) :=
  let lx := LogConfigLexer_init cfg in
  let '(tok, _, lx) := GetNext lx in
  if bool_decide (tok = EOS) then Some ∅ else
  if negb (Expect LEFT_BRACE tok) then Some ∅ else
  '(flag_error, tok, log_levels) ← parse_loop (S (length cfg)) lx ∅;
  let flag_error := (flag_error : bool) || negb (Expect RIGHT_BRACE tok) in
  Some (if flag_error then ∅ else log_levels).

Definition ParseLogLevel (str_level : list ascii) : option Z :=
  match str_level with
  | [c] => let ch := Z.of_nat (nat_of_ascii c) - 48 in
           if (DEBUG <=? ch) && (ch <=? ERROR) then Some ch else None
  | _ => None
  end.

(** ** The levels of the submodules *)

(** The initialiser of the array gives only its first element a value. *)
Definition g_ms_submodule_log_levels_init : list Z := WARNING :: replicate 23 0.

(** The flags of glog. *)
Record flags : Type := mkFlags {
  FLAGS_log_prefix : bool;
  FLAGS_v : Z;
  FLAGS_logfile_mode : Z;
  FLAGS_logtostderr : bool;
}.

Section init.
Context (getenv : string -> option (list ascii)).

Definition GetEnv (envvar : string) : list ascii := default [] (getenv envvar).

Definition GetGlobalLogLevel (fl : flags) : Z := FLAGS_v fl.

(** The loop that looks for the name. *)
Definition module_index (name : string) : option nat :=
  fst <$> list_find (fun i => name = GetSubModuleName i) (seq 0 NUM_SUBMODUES).

Definition apply_config (levels : list Z) (cfg : string * string) : list Z :=
  match module_index cfg.1 with
  | None => levels
  | Some mod_idx =>
    match ParseLogLevel (String.list_ascii_of_string cfg.2) with
    | None => levels
    | Some submodule_log_level => <[mod_idx := submodule_log_level]> levels
    end
  end.

(** The map is run through in some order; no two of its keys name the same
    submodule. *)
Definition InitSubModulesLogLevel (fl : flags) (levels : list Z) : option (list Z) :=
  let levels := foldl (fun l i => <[i := GetGlobalLogLevel fl]> l) levels (seq 0 NUM_SUBMODUES) in
  configs ← Parse (GetEnv "MS_SUBMODULE_LOG_v");
  Some (foldl apply_config levels (map_to_list configs)).

Definition common_log_init (fl : flags) (levels : list Z) : option (flags * list Z) :=
  let v := if bool_decide (GetEnv "GLOG_v" = []) then WARNING else FLAGS_v fl in
  let mode := if bool_decide (GetEnv "GLOG_logfile_mode" = []) then 416 else FLAGS_logfile_mode fl in
  let logtostderr := GetEnv "GLOG_logtostderr" in
  let stderr := if bool_decide (logtostderr = []) then true
                else if bool_decide (logtostderr = ["0"%char]) && bool_decide (GetEnv "GLOG_log_dir" = [])
                then true else FLAGS_logtostderr fl in
  let fl := mkFlags false v mode stderr in
  levels ← InitSubModulesLogLevel fl levels;
  Some (fl, levels).

(** The static that guards InitGoogleLogging, and how often that was called. *)
Definition mindspore_log_init (is_glog_initialzed : bool) (inits : Z) (fl : flags) (levels : list Z)
    : option (bool * Z * flags * list Z) :=
  let inits := if is_glog_initialzed then inits else inits + 1 in
  '(fl, levels) ← common_log_init fl levels;
  Some (true, inits, fl, levels).
End init.

(** [IS_OUTPUT_ON], with the submodule of the code that logs. *)
Definition IS_OUTPUT_ON (levels : list Z) (SUBMODULE_ID : nat) (level : Z) : bool :=
  default 0 (levels !! SUBMODULE_ID) <=? level.

(** ** The time of a message *)
Lemma c_str_app l k : Forall (fun c => c <> zero) l -> c_str (l ++ zero :: k) = l.
Proof.
  induction 1 as [|c l Hc _ IH]; cbn [app c_str].
  - by rewrite bool_decide_eq_true_2.
  - rewrite bool_decide_eq_false_2 by done. by rewrite IH.
Qed.

Lemma digit_char_nonzero d : 0 <= d < 10 -> digit_char d <> zero.
Proof.
  intros Hd E. apply (f_equal nat_of_ascii) in E. revert E. unfold digit_char.
  rewrite nat_ascii_embedding by lia. change (nat_of_ascii zero) with 0%nat. lia.
Qed.

Definition digit_at (k n : Z) : ascii := digit_char (n / 10 ^ k mod 10).

(** The date, then the milliseconds and the microseconds with three digits
    each, when strftime has written a date of 19 characters. *)
Lemma GetTime_eq strftime buf date t usec :
  strftime buf = date ++ t -> length date = 19%nat -> (9 <= length t)%nat ->
  Forall (fun c => c <> zero) date -> 0 <= usec < 1000000 ->
  GetTime strftime buf usec =
  date ++ ["."%char; digit_at 5 usec; digit_at 4 usec; digit_at 3 usec;
           "."%char; digit_at 2 usec; digit_at 1 usec; digit_at 0 usec].
Proof.
  intros E Hd Ht Hz Hu. unfold GetTime. rewrite E.
  do 9 (destruct t as [|? t]; [cbn in Ht; lia|]). clear E Ht.
  cbn [write_usec Nat.modulo Nat.divmod snd Nat.sub Nat.eqb fst].
  rewrite !Z.quot_quot, !Z.quot_div_nonneg, !Z.rem_mod_nonneg by (try apply Z.div_pos; lia).
  rewrite !insert_app_r_alt, Hd by lia.
  repeat match goal with |- context [(Z.to_nat ?z - 19)%nat] =>
    let v := eval vm_compute in (Z.to_nat z - 19)%nat in change (Z.to_nat z - 19)%nat with v end.
  assert (usec mod 10 = usec / 10 ^ 0 mod 10) as -> by (by rewrite Z.div_1_r).
  cbn [insert list_insert]. match goal with |- c_str (_ ++ ?l) = _ =>
    change l with (take 8 l ++ zero :: t); cbn [take] end.
  rewrite app_assoc, c_str_app; [reflexivity|]. apply Forall_app. split; [done|].
  repeat constructor; try discriminate; apply digit_char_nonzero, Z.mod_pos_bound; lia.
Qed.

(** ** Lexing *)
Definition rest (lx : LogConfigLexer) : list ascii := drop (cur_idx_ lx) (buffer_ lx).

(** The next character, if there is one, does not satisfy [p]. *)
Definition stops (p : ascii -> bool) (s : list ascii) : Prop :=
  match s with [] => True | c :: _ => p c = false end.

Lemma run_length_app p ws s : forallb p ws = true -> stops p s -> run_length p (ws ++ s) = length ws.
Proof.
  induction ws as [|c ws IH]; cbn; intros H Hs.
  - destruct s as [|c s]; cbn in *; [done|by rewrite Hs].
  - apply andb_prop in H as [-> H]. by rewrite IH.
Qed.

Lemma skip_eq lx ws s :
  rest lx = ws ++ s -> forallb is_blank ws = true -> stops is_blank s ->
  exists lx', SkipWhiteSpace lx = (default zero (head s), lx') /\ rest lx' = s /\
              buffer_ lx' = buffer_ lx.
Proof.
  intros E Hw Hs. unfold SkipWhiteSpace. unfold rest in E. rewrite E, run_length_app by done.
  exists (mkLexer (buffer_ lx) (cur_idx_ lx + length ws)).
  split_and!; [|unfold rest; cbn|done].
  - f_equal. unfold char_at. rewrite <- lookup_drop, E, lookup_app_r, Nat.sub_diag by done.
    by destruct s.
  - by rewrite <- drop_drop, E, drop_app_length.
Qed.

Lemma rest_S lx c s : rest lx = c :: s -> drop (S (cur_idx_ lx)) (buffer_ lx) = s.
Proof. unfold rest. intros E. by rewrite <- Nat.add_1_r, <- drop_drop, E. Qed.

Lemma lex_single lx ws c s tok :
  rest lx = ws ++ c :: s -> forallb is_blank ws = true -> single_char_map c = Some tok ->
  exists lx', GetNext lx = (tok, Some [c], lx') /\ rest lx' = s /\ buffer_ lx' = buffer_ lx.
Proof.
  intros E Hw Hc. destruct (skip_eq lx ws (c :: s)) as (lx1 & E1 & Hr & Hb); [done..| |].
  { unfold single_char_map in Hc. repeat case_bool_decide; subst; done. }
  unfold GetNext. rewrite E1. cbn [default from_option head Datatypes.id]. rewrite Hc.
  eexists. split_and!; [done| |done]. unfold rest. cbn. by eapply rest_S.
Qed.

Lemma scan_eq p c w s lx :
  rest lx = c :: w ++ s -> forallb p w = true -> stops p s ->
  exists lx', scan p c lx = (c :: w, lx') /\ rest lx' = s /\ buffer_ lx' = buffer_ lx.
Proof.
  intros E Hw Hs. unfold scan. rewrite (rest_S _ _ _ E), run_length_app, take_app_length by done.
  eexists. split_and!; [done| |done]. unfold rest. cbn [cur_idx_ buffer_].
  by rewrite <- drop_drop, (rest_S _ _ _ E), drop_app_length.
Qed.

(** The classes of characters are disjoint. *)
Lemma alpha_class c : IsAlpha c = true -> is_blank c = false /\ single_char_map c = None.
Proof. destruct c as [[] [] [] [] [] [] [] []]; vm_compute; auto; discriminate. Qed.
Lemma digit_class c :
  IsDigit c = true -> is_blank c = false /\ single_char_map c = None /\ IsAlpha c = false.
Proof. destruct c as [[] [] [] [] [] [] [] []]; vm_compute; auto; discriminate. Qed.

Lemma lex_variable lx ws c w s :
  rest lx = ws ++ c :: w ++ s -> forallb is_blank ws = true -> IsAlpha c = true ->
  forallb word_char w = true -> stops word_char s ->
  exists lx', GetNext lx = (VARIABLE, Some (c :: w), lx') /\ rest lx' = s /\
              buffer_ lx' = buffer_ lx.
Proof.
  intros E Hws Hc Hw Hs. destruct (alpha_class c Hc) as [Hb Hn].
  destruct (skip_eq lx ws (c :: w ++ s)) as (lx1 & E1 & Hr & Hbuf); [done..|].
  destruct (scan_eq word_char c w s lx1) as (lx2 & E2 & Hr2 & Hbuf2); [done..|].
  unfold GetNext. rewrite E1. cbn [default from_option head Datatypes.id]. rewrite Hn, Hc, E2.
  exists lx2. split_and!; [done..|congruence].
Qed.

Lemma lex_number lx ws c w s :
  rest lx = ws ++ c :: w ++ s -> forallb is_blank ws = true -> IsDigit c = true ->
  forallb IsDigit w = true -> stops IsDigit s ->
  exists lx', GetNext lx = (NUMBER, Some (c :: w), lx') /\ rest lx' = s /\
              buffer_ lx' = buffer_ lx.
Proof.
  intros E Hws Hc Hw Hs. destruct (digit_class c Hc) as (Hb & Hn & Ha).
  destruct (skip_eq lx ws (c :: w ++ s)) as (lx1 & E1 & Hr & Hbuf); [done..|].
  destruct (scan_eq IsDigit c w s lx1) as (lx2 & E2 & Hr2 & Hbuf2); [done..|].
  unfold GetNext. rewrite E1. cbn [default from_option head Datatypes.id]. rewrite Hn, Ha, Hc, E2.
  exists lx2. split_and!; [done..|congruence].
Qed.

(** ** The configuration texts *)
Record entry : Type := mkEntry {
  before_key : list ascii;
  key : list ascii;
  after_key : list ascii;
  before_val : list ascii;
  val : list ascii;
  after_val : list ascii;
}.

(** [[A-Za-z][A-Za-z0-9_]*] and [[0-9]+] *)
Definition key_ok (k : list ascii) : bool :=
  match k with c :: w => IsAlpha c && forallb word_char w | [] => false end.
Definition val_ok (v : list ascii) : bool :=
  match v with c :: w => IsDigit c && forallb IsDigit w | [] => false end.
Definition entry_ok (e : entry) : bool :=
  forallb is_blank (before_key e) && key_ok (key e) && forallb is_blank (after_key e) &&
  forallb is_blank (before_val e) && val_ok (val e) && forallb is_blank (after_val e).

(** The entries separated by commas, then a right brace and [tail]. *)
Fixpoint render (e : entry) (es : list entry) (tail : list ascii) : list ascii :=
  before_key e ++ key e ++ after_key e ++ ":"%char :: before_val e ++ val e ++ after_val e ++
  match es with
  | [] => "}"%char :: tail
  | e' :: es => ","%char :: render e' es tail
  end.

Definition set_level (m : gmap string string) (e : entry) : gmap string string :=
  <[String.string_of_list_ascii (key e) := String.string_of_list_ascii (val e)]> m.

Lemma stops_blank p ws c s :
  (forall x, is_blank x = true -> p x = false) -> forallb is_blank ws = true -> p c = false ->
  stops p (ws ++ c :: s).
Proof. intros Hp Hw Hc. destruct ws as [|x ws]; cbn in *; [done|]. apply Hp. by apply andb_prop in Hw as [-> _]. Qed.

Lemma blank_class c : is_blank c = true -> word_char c = false /\ IsDigit c = false.
Proof. destruct c as [[] [] [] [] [] [] [] []]; vm_compute; auto; discriminate. Qed.

(** The part of a turn of the loop before the token that ends it. *)
Lemma lex_entry lx e c s :
  entry_ok e = true -> IsDigit c = false ->
  rest lx = before_key e ++ key e ++ after_key e ++ ":"%char :: before_val e ++ val e ++
            after_val e ++ c :: s ->
  exists lx1 lx2 lx3,
    GetNext lx = (VARIABLE, Some (key e), lx1) /\ GetNext lx1 = (COLON, Some [":"%char], lx2) /\
    GetNext lx2 = (NUMBER, Some (val e), lx3) /\ rest lx3 = after_val e ++ c :: s /\
    forallb is_blank (after_val e) = true.
Proof.
  unfold entry_ok. rewrite !andb_true_iff. intros [[[[[H1 Hk] H2] H3] Hv] H4] Hc E.
  destruct (key e) as [|k w]; [done|]. apply andb_prop in Hk as [Hk Hw].
  destruct (val e) as [|d v]; [done|]. apply andb_prop in Hv as [Hd Hv].
  destruct (lex_variable _ _ k w _ E H1 Hk Hw) as (lx1 & E1 & R1 & _).
  { apply stops_blank; [by intros x [? ?]%blank_class|done..]. }
  destruct (lex_single _ _ _ _ COLON R1 H2 eq_refl) as (lx2 & E2 & R2 & _).
  destruct (lex_number _ _ d v _ R2 H3 Hd Hv) as (lx3 & E3 & R3 & _).
  { apply stops_blank; [by intros x [? ?]%blank_class|done..]. }
  exists lx1, lx2, lx3. auto.
Qed.

Lemma parse_loop_render fuel lx e es tail m :
  (length es < fuel)%nat -> Forall (fun e => entry_ok e = true) (e :: es) ->
  rest lx = render e es tail ->
  parse_loop fuel lx m = Some (false, RIGHT_BRACE, foldl set_level m (e :: es)).
Proof.
  induction es as [|e' es IH] in fuel, lx, e, m |- *; intros Hf Hok E;
    (destruct fuel as [|fuel]; [cbn in Hf; lia|]);
    apply Forall_cons in Hok as [He Hok]; cbn [render] in E.
  - destruct (lex_entry lx e "}" tail He eq_refl E) as (lx1 & lx2 & lx3 & E1 & E2 & E3 & R & Hw).
    destruct (lex_single _ _ _ _ RIGHT_BRACE R Hw eq_refl) as (lx4 & E4 & _ & _).
    cbn [parse_loop]. rewrite E1, E2, E3, E4. done.
  - destruct (lex_entry lx e "," (render e' es tail) He eq_refl E)
      as (lx1 & lx2 & lx3 & E1 & E2 & E3 & R & Hw).
    destruct (lex_single _ _ _ _ COMMA R Hw eq_refl) as (lx4 & E4 & R4 & _).
    cbn [parse_loop]. rewrite E1, E2, E3, E4.
    change (parse_loop fuel lx4 (set_level m e) = Some (false, RIGHT_BRACE, foldl set_level m (e :: e' :: es))).
    rewrite (IH fuel lx4 e' (set_level m e)); [done|cbn in Hf; lia|done|done].
Qed.

Lemma render_length e es tail : (length es < length (render e es tail))%nat.
Proof.
  induction es as [|e' es IH] in e |- *; cbn [render];
    rewrite !length_app; cbn [length]; rewrite !length_app; cbn [length]; [lia|].
  specialize (IH e'). lia.
Qed.

(** C15: every text of the documented form is read as it is meant.  For entries
    with keys [[A-Za-z][A-Za-z0-9_]*] and values [[0-9]+] and any blanks
    between the tokens, Parse gives the map of the entries, the last one of a
    key prevailing; what follows the right brace is not looked at. *)
Theorem Parse_render ws e es tail :
  forallb is_blank ws = true -> Forall (fun e => entry_ok e = true) (e :: es) ->
  Parse (ws ++ "{"%char :: render e es tail) = Some (foldl set_level ∅ (e :: es)).
Proof.
  intros Hw Hok. set (cfg := ws ++ _). unfold Parse.
  destruct (lex_single (LogConfigLexer_init cfg) ws "{" (render e es tail) LEFT_BRACE)
    as (lx & E & R & _); [done..|].
  rewrite E. change (Expect LEFT_BRACE LEFT_BRACE) with true. rewrite bool_decide_eq_false_2 by done.
  cbn [negb]. rewrite (parse_loop_render _ _ e es tail); [done| |done|done].
  unfold cfg. rewrite length_app. cbn [length]. pose proof (render_length e es tail). lia.
Qed.

Lemma Parse_render_witness :
  let ascii s := String.list_ascii_of_string s in
  Parse (ascii " {PARSER:0, ANALYZER :2}x"%string) =
  Some (<["ANALYZER"%string := "2"%string]> {["PARSER"%string := "0"%string]}).
Proof.
  intros ascii.
  apply (Parse_render [" "%char] (mkEntry [] (ascii "PARSER"%string) [] [] ["0"%char] [])
    [mkEntry [" "%char] (ascii "ANALYZER"%string) [" "%char] [] ["2"%char] []] ["x"%char]).
  - reflexivity.
  - repeat constructor.
Defined.

(** ** The parser ends *)
Lemma GetNext_advances lx tok t lx' :
  GetNext lx = (tok, t, lx') ->
  buffer_ lx' = buffer_ lx /\ (cur_idx_ lx <= cur_idx_ lx')%nat /\
  (tok = COMMA -> cur_idx_ lx < cur_idx_ lx' <= length (buffer_ lx))%nat.
Proof.
  unfold GetNext, SkipWhiteSpace, scan. cbn [buffer_ cur_idx_]. set (i := (cur_idx_ lx + _)%nat).
  destruct (single_char_map _) eqn:Es.
  - intros [= <- <- <-]. cbn. split_and!; [done|lia|]. intros ->.
    assert (char_at (buffer_ lx) i = ","%char) as Hc.
    { unfold single_char_map in Es. repeat case_bool_decide; congruence. }
    unfold char_at in Hc. destruct (buffer_ lx !! i) eqn:El; [|done].
    apply lookup_lt_Some in El. lia.
  - destruct (IsAlpha _); [|destruct (IsDigit _)]; intros [= <- <- <-]; cbn [buffer_ cur_idx_];
      (split_and!; [done|lia|done]).
Qed.

Lemma parse_loop_ends fuel lx m :
  (length (buffer_ lx) - cur_idx_ lx < fuel)%nat -> is_Some (parse_loop fuel lx m).
Proof.
  induction fuel as [|fuel IH] in lx, m |- *; intros Hf; [lia|]. cbn [parse_loop].
  destruct (GetNext lx) as [[t1 k] lx1] eqn:E1. destruct (negb _); [eauto|].
  destruct (GetNext lx1) as [[t2 x] lx2] eqn:E2. destruct (negb _); [eauto|].
  destruct (GetNext lx2) as [[t3 v] lx3] eqn:E3. destruct (negb _); [eauto|].
  destruct (GetNext lx3) as [[t4 y] lx4] eqn:E4. case_bool_decide as Hc; [|eauto].
  apply GetNext_advances in E1 as (B1 & I1 & _), E2 as (B2 & I2 & _), E3 as (B3 & I3 & _),
    E4 as (B4 & I4 & C4). apply C4 in Hc. rewrite B3, B2, B1 in Hc. apply IH.
  rewrite B4, B3, B2, B1. lia.
Qed.

Lemma Parse_ends cfg : is_Some (Parse cfg).
Proof.
  unfold Parse. destruct (GetNext _) as [[tok t] lx] eqn:E.
  apply GetNext_advances in E as (B & I & _). case_bool_decide; [eauto|].
  destruct (negb _); [eauto|].
  destruct (parse_loop_ends (S (length cfg)) lx ∅) as [[[b t'] m] ->]; [rewrite B; cbn; lia|].
  eexists. reflexivity.
Qed.

(** ** The levels after the initialisation *)
Lemma module_index_name i : (i < NUM_SUBMODUES)%nat -> module_index (GetSubModuleName i) = Some i.
Proof.
  intros Hi. unfold NUM_SUBMODUES in Hi.
  do 24 (destruct i as [|i]; [vm_compute; reflexivity|]). lia.
Qed.

Lemma module_index_inv name i : module_index name = Some i -> name = GetSubModuleName i.
Proof.
  unfold module_index. intros (p & E & ->)%fmap_Some. destruct p as [j x].
  apply list_find_Some in E as (E & -> & _). apply lookup_seq in E as [-> _]. done.
Qed.

(** The level a configuration gives to submodule [i]. *)
Definition level_of (configs : gmap string string) (global : Z) (i : nat) : Z :=
  default global
    (v ← configs !! GetSubModuleName i; ParseLogLevel (String.list_ascii_of_string v)).

Lemma apply_configs_lookup (l : list (string * string)) levels i old :
  NoDup l.*1 -> (i < NUM_SUBMODUES)%nat -> levels !! i = Some old ->
  foldl apply_config levels l !! i = Some (level_of (list_to_map l) old i).
Proof.
  intros Hnd Hi. induction l as [|[k v] l IH] in levels, old, Hnd |- *; intros Hl; [done|].
  cbn [fmap list_fmap foldl fst] in *. apply NoDup_cons in Hnd as [Hk Hnd].
  destruct (decide (k = GetSubModuleName i)) as [->|Hne].
  - unfold apply_config at 2. cbn [fst snd]. rewrite module_index_name by done.
    assert ((list_to_map l : gmap string string) !! GetSubModuleName i = None) as Hn
      by (by apply not_elem_of_list_to_map_1).
    unfold level_of. cbn [list_to_map foldr]. unfold level_of in IH.
    destruct (ParseLogLevel _) as [d|] eqn:Ep.
    + rewrite (IH _ d Hnd) by (apply list_lookup_insert_eq; by eapply lookup_lt_Some).
      cbn. rewrite lookup_insert_eq, Hn. cbn. by rewrite Ep.
    + rewrite (IH _ old Hnd) by done. cbn. rewrite lookup_insert_eq, Hn. cbn. by rewrite Ep.
  - rewrite (IH _ old Hnd).
    + unfold level_of. cbn. by rewrite lookup_insert_ne.
    + unfold apply_config. cbn [fst snd]. destruct (module_index k) as [j|] eqn:Ej; [|done].
      apply module_index_inv in Ej. destruct (ParseLogLevel _); [|done].
      rewrite list_lookup_insert_ne; [done|]. by intros ->.
Qed.

Lemma set_all_lookup (x : Z) n l i :
  (i < n <= length l)%nat -> foldl (fun l i => <[i := x]> l) l (seq 0 n) !! i = Some x.
Proof.
  induction n as [|n IH]; intros Hi; [lia|]. rewrite seq_S, foldl_app. cbn [foldl].
  assert (forall k l, length (foldl (fun l i => <[i := x]> l) l (seq 0 k)) = length l) as Hlen.
  { intros k l'. generalize (seq 0 k). intros js.
    induction js in l' |- *; cbn; [done|]. by rewrite IHjs, length_insert. }
  destruct (decide (i = n)) as [->|].
  - apply list_lookup_insert_eq. rewrite Hlen. lia.
  - rewrite list_lookup_insert_ne by lia. apply IH. lia.
Qed.

(** What InitSubModulesLogLevel does.  Whatever the environment, the parser
    returns, and afterwards the level of each submodule is the digit from 0 to
    3 that the configuration has under its name, and the global level if it has
    none or something else. *)
Theorem InitSubModulesLogLevel_spec getenv fl levels :
  length levels = NUM_SUBMODUES ->
  exists configs levels',
    Parse (GetEnv getenv "MS_SUBMODULE_LOG_v") = Some configs /\
    InitSubModulesLogLevel getenv fl levels = Some levels' /\
    forall i, (i < NUM_SUBMODUES)%nat -> levels' !! i = Some (level_of configs (FLAGS_v fl) i).
Proof.
  intros Hlen. destruct (Parse_ends (GetEnv getenv "MS_SUBMODULE_LOG_v")) as [configs E].
  unfold InitSubModulesLogLevel. rewrite E. eexists _, _. split_and!; [done|reflexivity|].
  intros i Hi. rewrite (apply_configs_lookup _ _ _ (FLAGS_v fl)).
  - by rewrite list_to_map_to_list.
  - apply NoDup_fst_map_to_list.
  - done.
  - apply set_all_lookup. lia.
Qed.

Lemma InitSubModulesLogLevel_spec_witness :
  let getenv s := if bool_decide (s = "MS_SUBMODULE_LOG_v"%string)
                  then Some (String.list_ascii_of_string "{ME:0,PS:7}") else None in
  exists levels, InitSubModulesLogLevel getenv (mkFlags false WARNING 416 true)
                   g_ms_submodule_log_levels_init = Some levels /\ levels !! SM_ME = Some 0.
Proof.
  intros getenv.
  destruct (InitSubModulesLogLevel_spec getenv (mkFlags false WARNING 416 true)
    g_ms_submodule_log_levels_init) as (configs & levels & E & H1 & H2); [reflexivity|].
  exists levels. split; [exact H1|]. rewrite H2 by (unfold SM_ME, NUM_SUBMODUES; lia).
  vm_compute in E. injection E as <-. vm_compute. reflexivity.
Defined.
