(* ===== verification/LogWriter.v ===== *)
(** * The log writer

    src/log/utils/log_adapter.{h,cc} and slog.h: the stream of a message, the
    writer that hands it to the log, the macros MS_LOG and MS_EXCEPTION, and
    the two back ends the code can be built with.  With USE_GLOG a line goes to
    google::LogMessage, else to DlogInner of slog.  Both are external: the model
    keeps what they are given, in order.  The clock, the name and the number of
    the process, CheckLogLevel, the trace provider and the exception handler are
    arguments. *)
From S2P Require Import Prelude LogConfig.
From Stdlib Require Import Ascii.
From stdpp Require Import pretty.
#[local] Open Scope Z_scope.

(** ** slog.h *)
Module Slog.
Definition DLOG_DEBUG : Z := 0.
Definition DLOG_INFO : Z := 1.
Definition DLOG_WARN : Z := 2.
Definition DLOG_ERROR : Z := 3.
Definition DLOG_NULL : Z := 4.
Definition DLOG_TRACE : Z := 5.
Definition DLOG_OPLOG : Z := 6.
Definition DLOG_EVENT : Z := 16.

(** The enumeration of the modules in its order, on Linux. *)
Definition modules : list string :=
  ["SLOG"; "IDEDD"; "IDEDH"; "HCCL"; "FMK"; "HIAIENGINE"; "DVPP"; "RUNTIME"; "CCE"; "HDC"; "DRV";
   "MDCFUSION"; "MDCLOCATION"; "MDCPERCEPTION"; "MDCFSM"; "MDCCOMMON"; "MDCMONITOR"; "MDCBSWP";
   "MDCDEFAULT"; "MDCSC"; "MDCPNC"; "MLL"; "DEVMM"; "KERNEL"; "LIBMEDIA"; "CCECPU"; "ASCENDDK";
   "ROS"; "HCCP"; "ROCE"; "TEFUSION"; "PROFILING"; "DP"; "APP"; "TS"; "TSDUMP"; "AICPU"; "LP";
   "TDT"; "FE"; "MD"; "MB"; "ME"; "IMU"; "IMP"; "GE"; "MDCFUSA"; "CAMERA"; "ASCENDCL"; "TEEOS";
   "ISP"; "SIS"; "HSM"; "DSS"; "PROCMGR"; "BBOX"; "AIVECTOR"; "TBE"; "FV"; "MDCMAP"; "TUNE";
   "INVLID_MOUDLE_ID"]%string.
Definition MD : Z := 40.
Definition ME : Z := 42.

(** An argument of a format, and a call of one of the variadic functions. *)
Inductive arg : Type := Str (s : string) | Int (n : Z).
Inductive call : Type :=
| DlogErrorInner (moduleId : Z) (fmt : string) (args : list arg)
| DlogWarnInner (moduleId : Z) (fmt : string) (args : list arg)
| DlogInfoInner (moduleId : Z) (fmt : string) (args : list arg)
| DlogDebugInner (moduleId : Z) (fmt : string) (args : list arg)
| DlogEventInner (moduleId : Z) (fmt : string) (args : list arg)
| DlogInner (moduleId level : Z) (fmt : string) (args : list arg)
| DlogWithKVInner (moduleId level : Z) (pstKVArray : list (string * string)) (kvNum : Z)
    (fmt : string) (args : list arg).

(** The macros.  [__FILE__] and [__LINE__] are those of the place of use, the
    format is a literal and is joined with the one before it. *)
Section macros.
Context (CheckLogLevel : Z -> Z -> Z) (FILE : string) (LINE : Z).

Definition dlog_error (moduleId : Z) (fmt : string) (args : list arg) : list call :=
  [DlogErrorInner moduleId ("[%s:%d]" +:+ fmt) (Str FILE :: Int LINE :: args)].
Definition dlog_warn (moduleId : Z) (fmt : string) (args : list arg) : list call :=
  if CheckLogLevel moduleId DLOG_WARN =? 1
  then [DlogWarnInner moduleId ("[%s:%d]" +:+ fmt) (Str FILE :: Int LINE :: args)] else [].
Definition dlog_info (moduleId : Z) (fmt : string) (args : list arg) : list call :=
  if CheckLogLevel moduleId DLOG_INFO =? 1
  then [DlogInfoInner moduleId ("[%s:%d]" +:+ fmt) (Str FILE :: Int LINE :: args)] else [].
Definition dlog_debug (moduleId : Z) (fmt : string) (args : list arg) : list call :=
  if CheckLogLevel moduleId DLOG_DEBUG =? 1
  then [DlogDebugInner moduleId ("[%s:%d]" +:+ fmt) (Str FILE :: Int LINE :: args)] else [].
Definition dlog_event (moduleId : Z) (fmt : string) (args : list arg) : list call :=
  [DlogEventInner moduleId ("[%s:%d]" +:+ fmt) (Str FILE :: Int LINE :: args)].
Definition Dlog (moduleId level : Z) (fmt : string) (args : list arg) : list call :=
  if CheckLogLevel moduleId level =? 1
  then [DlogInner moduleId level ("[%s:%d]" +:+ fmt) (Str FILE :: Int LINE :: args)] else [].
Definition DlogSub (moduleId : Z) (submodule : string) (level : Z) (fmt : string)
    (args : list arg) : list call :=
  if CheckLogLevel moduleId level =? 1
  then [DlogInner moduleId level ("[%s:%d][%s]" +:+ fmt)
          (Str FILE :: Int LINE :: Str submodule :: args)] else [].
Definition DlogWithKV (moduleId level : Z) (pstKVArray : list (string * string)) (kvNum : Z)
    (fmt : string) (args : list arg) : list call :=
  if CheckLogLevel moduleId level =? 1
  then [DlogWithKVInner moduleId level pstKVArray kvNum ("[%s:%d]" +:+ fmt)
          (Str FILE :: Int LINE :: args)] else [].
End macros.

(** log_adapter.cc undefines the macro and defines it without the check and
    without the place of use. *)
Definition adapter_Dlog (module_id level : Z) (format : string) (args : list arg) : list call :=
  [DlogInner module_id level format args].

(** What printf makes of a format with [%s], [%d] and [%%]; [None] where the
    format asks for an argument that is not there or of another type. *)
Fixpoint printf (fmt : string) (args : list arg) : option string :=
  match fmt with
  | EmptyString => Some ""%string
  | String "%" (String "s" r) =>
    match args with
    | Str s :: args => t ← printf r args; Some (s +:+ t)
    | _ => None
    end
  | String "%" (String "d" r) =>
    match args with
    | Int n :: args => t ← printf r args; Some (pretty n +:+ t)
    | _ => None
    end
  | String "%" (String "%" r) => String "%" <$> printf r args
  | String c r => if bool_decide (c = "%"%char) then None else String c <$> printf r args
  end.

(** The level and the text of a call. *)
Definition written (c : call) : option (Z * string) :=
  match c with
  | DlogErrorInner _ fmt args => pair DLOG_ERROR <$> printf fmt args
  | DlogWarnInner _ fmt args => pair DLOG_WARN <$> printf fmt args
  | DlogInfoInner _ fmt args => pair DLOG_INFO <$> printf fmt args
  | DlogDebugInner _ fmt args => pair DLOG_DEBUG <$> printf fmt args
  | DlogEventInner _ fmt args => pair DLOG_EVENT <$> printf fmt args
  | DlogInner _ level fmt args | DlogWithKVInner _ level _ _ fmt args => pair level <$> printf fmt args
  end.

Lemma module_ids : modules !! Z.to_nat MD = Some "MD"%string /\ modules !! Z.to_nat ME = Some "ME"%string.
Proof. done. Qed.
End Slog.

(** ** The name of the source file *)

(** [FILE_HDR] is the path of log_adapter.h as the compiler has it, [FILE] the
    path of the file that logs; sizes count the final zero. *)
Definition LOG_HDR_FILE_REL_PATH : string := "log_adapter.h".
Definition sizeof (s : string) : nat := S (String.length s).
Definition GetRelPathPos (FILE_HDR : string) : nat :=
  if (sizeof LOG_HDR_FILE_REL_PATH <? sizeof FILE_HDR)%nat
  then (sizeof FILE_HDR - sizeof LOG_HDR_FILE_REL_PATH)%nat else 0.
Definition FILE_NAME (FILE_HDR FILE : string) : string :=
  if (GetRelPathPos FILE_HDR <? sizeof FILE)%nat
  then String.substring (GetRelPathPos FILE_HDR) (String.length FILE) FILE else FILE.

(** ** The writer *)
Record LogWriter : Type := mkWriter {
  location_ : LocationInfo;
  log_level_ : Z;
  submodule_ : nat;
  exception_type_ : ExceptionType;
}.

(** The stream: what was put into it so far. *)
Definition LogStream : Type := string.
Definition LogStream_init : LogStream := "".
Definition LogStream_put (stream : LogStream) (val : string) : LogStream := stream +:+ val.

(** A back end: its state, the writing of one line, and the lines the state
    holds, each with the severity the back end gave it. *)
Class LogBackend (W : Type) : Type := {
  OutputLog : LogWriter -> string -> M W unit;
  lines : W -> list (Z * string);
}.

Section writer.
Context {W : Type} `{LogBackend W}.
Context (trace_provider_ : option (string -> string))
        (exception_handler_ : option (ExceptionType -> string -> M W unit)).

(** [operator<] *)
Definition LogWriter_write (wr : LogWriter) (stream : LogStream) : M W unit := OutputLog wr stream.

(** [operator^]: the trace provider is given the text so far and may add to it;
    the handler may itself throw. *)
Definition LogWriter_raise (wr : LogWriter) (stream : LogStream) : M W unit :=
  OutputLog wr stream ;;
  let oss := exception_text (location_ wr) (exception_type_ wr) stream "" in
  let oss := match trace_provider_ with Some f => f oss | None => oss end in
  match exception_handler_ with Some f => f (exception_type_ wr) oss | None => mret tt end ;;
  throw oss.

Definition MSLOG_IF (level : Z) (condition : bool) (excp_type : ExceptionType)
    (loc : LocationInfo) (SUBMODULE_ID : nat) (stream : LogStream) : M W unit :=
  if negb condition then mret tt
  else LogWriter_write (mkWriter loc level SUBMODULE_ID excp_type) stream.
Definition MSLOG_THROW (excp_type : ExceptionType) (loc : LocationInfo) (SUBMODULE_ID : nat)
    (stream : LogStream) : M W unit :=
  LogWriter_raise (mkWriter loc EXCEPTION SUBMODULE_ID excp_type) stream.

(** [MS_LOG(DEBUG)] to [MS_LOG(ERROR)], [MS_LOG(EXCEPTION)] and [MS_EXCEPTION]. *)
Definition MS_LOG (levels : list Z) (level : Z) (loc : LocationInfo) (SUBMODULE_ID : nat)
    (stream : LogStream) : M W unit :=
  MSLOG_IF level (IS_OUTPUT_ON levels SUBMODULE_ID level) NoExceptionType loc SUBMODULE_ID stream.
Definition MS_EXCEPTION : ExceptionType -> LocationInfo -> nat -> LogStream -> M W unit := MSLOG_THROW.
Definition MS_LOG_EXCEPTION : LocationInfo -> nat -> LogStream -> M W unit := MSLOG_THROW NoExceptionType.

(** [MS_EXCEPTION_IF_NULL(ptr)] *)
Definition MS_EXCEPTION_IF_NULL (ptr : string) (nonnull : bool) (loc : LocationInfo)
    (SUBMODULE_ID : nat) : M W unit :=
  if negb nonnull
  then MS_LOG_EXCEPTION loc SUBMODULE_ID
         (LogStream_put (LogStream_put (LogStream_put LogStream_init ": The pointer[") ptr) "] is null.")
  else mret tt.

(** A run of code that logs: the statements in their order. *)
Record statement : Type := mkStatement {
  st_level : Z; st_location : LocationInfo; st_submodule : nat; st_stream : LogStream;
}.
Fixpoint run_statements (levels : list Z) (l : list statement) : M W unit :=
  match l with
  | [] => mret tt
  | st :: l =>
    MS_LOG levels (st_level st) (st_location st) (st_submodule st) (st_stream st) ;;
    run_statements levels l
  end.
End writer.

(** ** glog *)

(** What was given to google::LogMessage, the static buffer of GetTime, and how
    often the clock was read. *)
Record glog : Type := mkGlog {
  messages : list (Z * string);
  time_buf : list ascii;
  clock_reads : nat;
}.

(** The name of the process, its number, and what the clock gives at each
    reading: what strftime writes, and the microseconds. *)
Record process : Type := mkProcess {
  getpid : Z;
  program_invocation_name : list ascii;
  gettimeofday : nat -> (list ascii -> list ascii) * Z;
}.

Definition newline : string := String "010" "".

(** The place and the message, as both back ends write them. *)
Definition place_text (loc : LocationInfo) (msg : string) : string :=
  "[" +:+ file_ loc +:+ ":" +:+ pretty (line_ loc) +:+ "] " +:+ func_ loc +:+ "] " +:+ msg.

Definition glog_prefix (p : process) (level time : string) (submodule : nat) : string :=
  "[" +:+ level +:+ "] " +:+ GetSubModuleName submodule +:+ "(" +:+ pretty (getpid p) +:+ "," +:+
  String.string_of_list_ascii (GetProcName (program_invocation_name p)) +:+ "):" +:+ time +:+ " ".

(** The text that GetTime returns and the buffer it leaves. *)
Definition GetTime_now (p : process) (g : glog) : string * list ascii :=
  let '(strftime, usec) := gettimeofday p (clock_reads g) in
  (String.string_of_list_ascii (GetTime strftime (time_buf g) usec),
   write_usec 5 26 usec (<[27%nat := zero]> (strftime (time_buf g)))).

Definition OutputLog_glog (p : process) (wr : LogWriter) (msg : string) : M glog unit :=
  g ← getS;
  match GetLogLevel (log_level_ wr) with
  | None => undef "level_names is read out of range"
  | Some level =>
    let '(time, buf) := GetTime_now p g in
    modify (fun g => mkGlog
      (messages g ++ [(GetGlogLevel (log_level_ wr),
                       glog_prefix p level time (submodule_ wr) +:+
                       place_text (location_ wr) msg +:+ newline)])
      buf (S (clock_reads g)))
  end.
#[global] Instance glog_backend (p : process) : LogBackend glog :=
  {| OutputLog := OutputLog_glog p; lines := messages |}.

(** ** slog *)
Definition SM_MD : nat := 9.
Definition GetSlogLevel (level : Z) : Z :=
  if level =? DEBUG then Slog.DLOG_DEBUG
  else if level =? INFO then Slog.DLOG_INFO
  else if level =? WARNING then Slog.DLOG_WARN
  else Slog.DLOG_ERROR.

(** [str_msg.c_str()] ends at the first zero of the message. *)
Definition c_str_of (s : string) : string :=
  String.string_of_list_ascii (c_str (String.list_ascii_of_string s)).

Definition OutputLog_slog (wr : LogWriter) (msg : string) : M (list Slog.call) unit :=
  let slog_module_id := if (submodule_ wr =? SM_MD)%nat then Slog.MD else Slog.ME in
  let loc := location_ wr in
  modify (fun calls => calls ++ Slog.adapter_Dlog slog_module_id (GetSlogLevel (log_level_ wr))
    "[%s:%d] %s] %s" [Slog.Str (file_ loc); Slog.Int (line_ loc); Slog.Str (func_ loc);
                      Slog.Str (c_str_of msg)]).
#[global] Instance slog_backend : LogBackend (list Slog.call) :=
  {| OutputLog := OutputLog_slog; lines := omap Slog.written |}.

(** The global level, when the code is built for slog. *)
Definition GetGlobalLogLevel_slog (getenv : string -> option (list ascii)) : Z :=
  let log_level := WARNING in
  let str_level := GetEnv getenv "GLOG_v" in
  if (length str_level =? 1)%nat
  then let ch := Z.of_nat (nat_of_ascii (char_at str_level 0)) - 48 in
       if (DEBUG <=? ch) && (ch <=? ERROR) then ch else log_level
  else log_level.

(** ** What a back end promises *)
Class LogBackendLaws (W : Type) `{LogBackend W} : Type := {
  severity : Z -> Z;
  heading : Z -> nat -> string -> Prop; (* what comes before the place, by level and submodule *)
  kept : string -> string;
  ending : string;
  OutputLog_appends (wr : LogWriter) (msg : string) (w : W) :
    0 <= log_level_ wr ->
    exists w' pre, OutputLog wr msg w = Ret tt w' /\ heading (log_level_ wr) (submodule_ wr) pre /\
      lines w' = lines w ++
        [(severity (log_level_ wr), pre +:+ place_text (location_ wr) (kept msg) +:+ ending)];
}.

Lemma GetLogLevel_known level : 0 <= level -> exists name, GetLogLevel level = Some name.
Proof.
  intros Hl. unfold GetLogLevel. apply zget_Some. unfold zlen, ERROR. cbn [length].
  case_match; lia.
Qed.

(** The level, the submodule, the process and the time. *)
Definition glog_heading (p : process) (level : Z) (submodule : nat) (pre : string) : Prop :=
  exists name g, GetLogLevel level = Some name /\ pre = glog_prefix p name (GetTime_now p g).1 submodule.

#[global] Instance glog_laws (p : process) : LogBackendLaws glog (H := glog_backend p).
Proof.
  refine {| severity := GetGlogLevel; heading := glog_heading p; kept := id; ending := newline |}.
  intros wr msg g Hl. destruct (GetLogLevel_known _ Hl) as [name En].
  destruct (GetTime_now p g) as [time buf] eqn:Et.
  eexists _, (glog_prefix p name time (submodule_ wr)). split.
  - cbn. unfold OutputLog_glog. erewrite bind_Ret by reflexivity. cbv beta. by rewrite En, Et.
  - split; [|reflexivity]. exists name, g. by rewrite Et.
Defined.

(** The text that the format of OutputLog gives. *)
Lemma printf_place loc msg :
  Slog.printf "[%s:%d] %s] %s" [Slog.Str (file_ loc); Slog.Int (line_ loc);
                               Slog.Str (func_ loc); Slog.Str msg] = Some (place_text loc msg).
Proof. cbn. by rewrite append_nil_r. Qed.

Lemma slog_lines wr msg calls :
  lines (calls ++ Slog.adapter_Dlog (if (submodule_ wr =? SM_MD)%nat then Slog.MD else Slog.ME)
           (GetSlogLevel (log_level_ wr)) "[%s:%d] %s] %s"
           [Slog.Str (file_ (location_ wr)); Slog.Int (line_ (location_ wr));
            Slog.Str (func_ (location_ wr)); Slog.Str (c_str_of msg)]) =
  lines calls ++ [(GetSlogLevel (log_level_ wr), place_text (location_ wr) (c_str_of msg))].
Proof.
  unfold lines, slog_backend, Slog.adapter_Dlog. rewrite omap_app. cbn [omap list_omap].
  unfold Slog.written. by rewrite printf_place.
Qed.

#[global] Instance slog_laws : LogBackendLaws (list Slog.call).
Proof.
  refine {| severity := GetSlogLevel; heading := fun _ _ pre => pre = ""%string; kept := c_str_of; ending := "" |}.
  intros wr msg calls _. eexists _, ""%string. split; [reflexivity|]. split; [reflexivity|].
  rewrite append_nil_r. apply slog_lines.
Defined.

(** ** Statements *)
Section statements.
Context {W : Type} `{LogBackendLaws W}.

Definition on (levels : list Z) (st : statement) : Prop :=
  IS_OUTPUT_ON levels (st_submodule st) (st_level st) = true.
#[global] Instance on_dec levels st : Decision (on levels st).
Proof. unfold on. apply _. Defined.

(** A line shows a statement: its severity, its heading, its place and its message. *)
Definition shows (st : statement) (line : Z * string) : Prop :=
  line.1 = severity (st_level st) /\
  exists pre, heading (st_level st) (st_submodule st) pre /\
    line.2 = pre +:+ place_text (st_location st) (kept (st_stream st)) +:+ ending.

Lemma MS_LOG_off levels st (w : W) :
  ~ on levels st -> MS_LOG levels (st_level st) (st_location st) (st_submodule st) (st_stream st) w = Ret tt w.
Proof. unfold on, MS_LOG, MSLOG_IF. by intros ->%not_true_is_false. Qed.

Lemma MS_LOG_on levels st (w : W) :
  on levels st -> 0 <= st_level st -> exists w' line,
    MS_LOG levels (st_level st) (st_location st) (st_submodule st) (st_stream st) w = Ret tt w' /\
    lines w' = lines w ++ [line] /\ shows st line.
Proof.
  unfold on, MS_LOG, MSLOG_IF. intros -> Hl. cbn [negb].
  destruct (OutputLog_appends (mkWriter (st_location st) (st_level st) (st_submodule st)
    NoExceptionType) (st_stream st) w Hl) as (w' & pre & E & Hp & El).
  eexists _, _. split; [exact E|]. split; [exact El|]. split; [done|]. by exists pre.
Qed.

Lemma run_statements_lines levels l (w : W) :
  Forall (fun st => 0 <= st_level st) l -> exists w' new,
    run_statements levels l w = Ret tt w' /\ lines w' = lines w ++ new /\
    Forall2 shows (filter (on levels) l) new.
Proof.
  intros Hl. induction Hl as [|st l Hst _ IH] in w |- *; cbn [run_statements].
  - exists w, []. rewrite app_nil_r. done.
  - destruct (decide (on levels st)) as [Hon|Hoff].
    + destruct (MS_LOG_on levels st w Hon Hst) as (w1 & line & E1 & El1 & Hsh).
      destruct (IH w1) as (w2 & new & E2 & El2 & Hnew).
      exists w2, (line :: new). rewrite (bind_Ret _ _ _ _ _ E1). split; [exact E2|].
      rewrite El2, El1, <- app_assoc. split; [done|].
      rewrite filter_cons_True by done. by constructor.
    + destruct (IH w) as (w2 & new & E2 & El2 & Hnew). exists w2, new.
      rewrite (bind_Ret _ _ _ _ _ (MS_LOG_off levels st w Hoff)).
      rewrite filter_cons_False by done. done.
Qed.
End statements.

(** The level a statement must reach, by the configuration. *)
Definition passes (configs : gmap string string) (global : Z) (st : statement) : Prop :=
  level_of configs global (st_submodule st) <= st_level st.
#[global] Instance passes_dec configs global st : Decision (passes configs global st).
Proof. unfold passes. apply _. Defined.

Lemma filter_on_passes configs global levels l :
  (forall i, (i < NUM_SUBMODUES)%nat -> levels !! i = Some (level_of configs global i)) ->
  Forall (fun st => (st_submodule st < NUM_SUBMODUES)%nat) l ->
  filter (on levels) l = filter (passes configs global) l.
Proof.
  intros Hlev Hl. induction Hl as [|st l Hst _ IH]; [done|].
  assert (on levels st <-> passes configs global st) as Hiff.
  { unfold on, passes, IS_OUTPUT_ON. rewrite (Hlev _ Hst). apply Z.leb_le. }
  destruct (decide (on levels st)) as [Hon|Hoff].
  - rewrite !filter_cons_True by tauto. by rewrite IH.
  - rewrite !filter_cons_False by tauto. done.
Qed.

(** The line of a statement, as it is given to glog: the severity; then the name
    of the level, that of the submodule, the number and the name of the process
    and a time of the clock; then the place and the message. *)
Definition glog_line (p : process) (st : statement) (line : Z * string) : Prop :=
  exists level submodule g,
    GetLogLevel (st_level st) = Some level /\ sub_module_names !! st_submodule st = Some submodule /\
    line = (GetGlogLevel (st_level st),
      "[" +:+ level +:+ "] " +:+ submodule +:+ "(" +:+ pretty (getpid p) +:+ "," +:+
      String.string_of_list_ascii (GetProcName (program_invocation_name p)) +:+ "):" +:+
      (GetTime_now p g).1 +:+ " [" +:+ file_ (st_location st) +:+ ":" +:+ pretty (line_ (st_location st)) +:+
      "] " +:+ func_ (st_location st) +:+ "] " +:+ st_stream st +:+ newline)%string.

Lemma shows_glog_line p st line :
  (st_submodule st < NUM_SUBMODUES)%nat -> shows (H0 := glog_laws p) st line -> glog_line p st line.
Proof.
  intros Hs [E1 (pre & (level & g & El & ->) & E2)]. destruct line as [sev text]. cbn in E1, E2. subst.
  destruct (lookup_lt_is_Some_2 sub_module_names (st_submodule st)) as [m Em]; [exact Hs|].
  exists level, m, g. split; [done|]. split; [done|]. f_equal. unfold glog_prefix, place_text, GetSubModuleName, id.
  rewrite Nat.mod_small, Em by done. cbn [default from_option id].
  rewrite !append_assoc. done.
Qed.

(** C16: What the log holds after a run.  Whatever the environment says, the
    initialisation of the log ends, and then the code that logs hands to glog
    one line for each statement whose level reaches the one configured for its
    submodule, in the order of the statements, with the severity and the name of
    its level, the name of its submodule, the process and the time, its place and
    its message; and nothing for the others. *)
Theorem configured_statements_logged getenv fl p l g :
  Forall (fun st => 0 <= st_level st /\ (st_submodule st < NUM_SUBMODUES)%nat) l ->
  exists configs fl' levels g' new,
    Parse (GetEnv getenv "MS_SUBMODULE_LOG_v") = Some configs /\
    common_log_init getenv fl g_ms_submodule_log_levels_init = Some (fl', levels) /\
    run_statements (H := glog_backend p) levels l g = Ret tt g' /\
    messages g' = messages g ++ new /\
    Forall2 (glog_line p) (filter (passes configs (FLAGS_v fl')) l) new.
Proof.
  intros [Hl Hsm]%Forall_and. unfold common_log_init. cbv zeta.
  match goal with |- context [InitSubModulesLogLevel getenv ?f _] => set (fl' := f) end.
  destruct (InitSubModulesLogLevel_spec getenv fl' g_ms_submodule_log_levels_init eq_refl)
    as (configs & levels & Ep & Ei & Hlev).
  destruct (run_statements_lines (H0 := glog_laws p) levels l g Hl) as (g' & new & Er & El & Hnew).
  exists configs, fl', levels, g', new. rewrite Ei.
  split; [exact Ep|]. split; [reflexivity|]. split; [exact Er|]. split; [exact El|].
  rewrite <- (filter_on_passes configs (FLAGS_v fl') levels) by done.
  assert (Forall (fun st => (st_submodule st < NUM_SUBMODUES)%nat) (filter (on levels) l)) as Hf.
  { apply Forall_forall. intros st [_ Hst]%list_elem_of_filter. by eapply Forall_forall in Hsm. }
  revert Hf. clear Er El. induction Hnew as [|st line l' new' Hsh _ IH]; [constructor|].
  intros [Hst Hl']%Forall_cons. constructor; [by apply shows_glog_line|by apply IH].
Qed.

(** The lines of three statements, with DEBUG switched on for PS only. *)
Definition example_process : process :=
  mkProcess 42 (String.list_ascii_of_string "/usr/bin/node")
    (fun _ => (fun b => String.list_ascii_of_string "2021-01-31-10:20:30" ++ drop 19 b, 123456)).
Definition example_statements : list statement :=
  let at_line n := mkLocation "node.cc" n "Start" in
  [mkStatement DEBUG (at_line 1) 22 "a"; mkStatement INFO (at_line 2) 10 "b";
   mkStatement ERROR (at_line 3) 10 "c"].
Definition example_env (s : string) : option (list ascii) :=
  if bool_decide (s = "MS_SUBMODULE_LOG_v"%string)
  then Some (String.list_ascii_of_string "{PS:0}") else None.
Definition example_glog : glog := mkGlog [] (replicate BUFLEN zero) 0.

Lemma example_lines :
  (r ← common_log_init example_env (mkFlags true 0 0 false) g_ms_submodule_log_levels_init;
   w ← returned (run_statements (H := glog_backend example_process) r.2 example_statements example_glog);
   Some (messages w.2)) =
  Some [(GLOG_INFO, "[DEBUG] PS(42,node):2021-01-31-10:20:30.123.456 [node.cc:1] Start] a" +:+ newline);
        (GLOG_ERROR, "[ERROR] ME(42,node):2021-01-31-10:20:30.123.456 [node.cc:3] Start] c" +:+ newline)].
Proof. vm_compute. reflexivity. Qed.

Lemma configured_statements_logged_witness :
  exists fl levels g, common_log_init example_env (mkFlags true 0 0 false) g_ms_submodule_log_levels_init
    = Some (fl, levels) /\
    run_statements (H := glog_backend example_process) levels example_statements example_glog = Ret tt g.
Proof.
  destruct (configured_statements_logged example_env (mkFlags true 0 0 false) example_process
    example_statements example_glog) as (configs & fl & levels & g & new & _ & E1 & E2 & _).
  - unfold example_statements, NUM_SUBMODUES. repeat constructor; cbn; unfold DEBUG, INFO, ERROR; lia.
  - exact (ex_intro _ fl (ex_intro _ levels (ex_intro _ g (conj E1 E2)))).
Defined.

(** ** Exceptions *)

(** An exception of MS_LOG(EXCEPTION) or MS_EXCEPTION is never filtered and
    control never comes back from it.  Whatever the levels, the message is logged
    first, with the severity of an error; then the text, as the trace provider
    leaves it, goes to the handler; and when the handler comes back or there is
    none the text is thrown. *)
Theorem MS_EXCEPTION_raises {W} `{LogBackendLaws W} trace handler type loc SUBMODULE_ID stream (w : W) :
  exists w1 pre,
    lines w1 = lines w ++ [(severity EXCEPTION, pre +:+ place_text loc (kept stream) +:+ ending)] /\
    let text := from_option (fun f => f (exception_text loc type stream ""))
                  (exception_text loc type stream "") trace in
    MS_EXCEPTION trace handler type loc SUBMODULE_ID stream w =
      match from_option (fun f => f type text) (mret tt) handler w1 with
      | Ret _ w2 => Throw text w2
      | o => o
      end.
Proof.
  destruct (OutputLog_appends (mkWriter loc EXCEPTION SUBMODULE_ID type) stream w)
    as (w1 & pre & E & _ & El); [done|].
  exists w1, pre. split; [exact El|]. cbv zeta.
  unfold MS_EXCEPTION, MSLOG_THROW, LogWriter_raise. rewrite (bind_Ret _ _ _ _ _ E). cbv beta.
  cbn [location_ exception_type_]. destruct trace as [f|], handler as [h|]; cbn [from_option]; try done;
    unfold mbind, M_bind, throw; by destruct (h _ _ _).
Qed.

(** [MS_EXCEPTION_IF_NULL] says which pointer is null. *)
Lemma MS_EXCEPTION_IF_NULL_null {W} `{LogBackendLaws W} ptr loc SUBMODULE_ID (w : W) :
  exists w', MS_EXCEPTION_IF_NULL None None ptr false loc SUBMODULE_ID w =
    Throw (exception_text loc NoExceptionType (": The pointer[" +:+ ptr +:+ "] is null.") "") w'.
Proof.
  unfold MS_EXCEPTION_IF_NULL, MS_LOG_EXCEPTION, MSLOG_THROW, LogWriter_raise. cbn [negb].
  destruct (OutputLog_appends (mkWriter loc EXCEPTION SUBMODULE_ID NoExceptionType)
    (LogStream_put (LogStream_put (LogStream_put LogStream_init ": The pointer[") ptr) "] is null.") w)
    as (w1 & pre & E & _); [done|].
  exists w1. rewrite (bind_Ret _ _ _ _ _ E). reflexivity.
Qed.

(** ** The two back ends *)
Lemma c_str_id l : Forall (fun c => c <> zero) l -> c_str l = l.
Proof.
  induction 1 as [|c l Hc _ IH]; cbn [c_str]; [done|].
  rewrite bool_decide_eq_false_2 by done. by rewrite IH.
Qed.

Lemma c_str_of_id s : Forall (fun c => c <> zero) (String.list_ascii_of_string s) -> c_str_of s = s.
Proof. intros Hs. unfold c_str_of. rewrite c_str_id by done. apply String.string_of_list_ascii_of_string. Qed.

(** The two builds log alike.  For a message without a zero character
    the line given to glog is the text given to slog, after the level, the
    submodule, the process and the time and before an end of line; a per cent
    sign in the message is not taken for a format.  slog keeps the four levels
    apart, of which glog makes three severities. *)
Theorem backends_agree p wr msg g calls :
  0 <= log_level_ wr ->
  Forall (fun c => c <> zero) (String.list_ascii_of_string msg) ->
  exists g' calls' prefix text,
    OutputLog (LogBackend := glog_backend p) wr msg g = Ret tt g' /\
    OutputLog wr msg calls = Ret tt calls' /\
    lines calls' = lines calls ++ [(GetSlogLevel (log_level_ wr), text)] /\
    messages g' = messages g ++ [(Z.max 0 (GetSlogLevel (log_level_ wr) - 1), prefix +:+ text +:+ newline)].
Proof.
  intros Hl Hm.
  destruct (OutputLog_appends (LogBackendLaws := glog_laws p) wr msg g Hl) as (g' & pre & E1 & _ & El1).
  eexists g', _, pre, (place_text (location_ wr) msg). split; [exact E1|]. split; [reflexivity|].
  split.
  - rewrite slog_lines, c_str_of_id by done. done.
  - cbn [lines glog_backend severity kept ending glog_laws] in El1. rewrite El1. unfold id. do 3 f_equal.
    unfold GetGlogLevel, GetSlogLevel. repeat case_match; done || lia.
Qed.

Lemma backends_agree_witness :
  exists text g' calls',
    OutputLog (LogBackend := glog_backend example_process)
      (mkWriter (mkLocation "a.cc" 7 "f") INFO SM_ME NoExceptionType) "100%s" example_glog = Ret tt g' /\
    OutputLog (mkWriter (mkLocation "a.cc" 7 "f") INFO SM_ME NoExceptionType) "100%s" [] = Ret tt calls' /\
    lines calls' = [(Slog.DLOG_INFO, text)] /\ text = "[a.cc:7] f] 100%s"%string.
Proof.
  destruct (backends_agree example_process (mkWriter (mkLocation "a.cc" 7 "f") INFO SM_ME NoExceptionType)
    "100%s" example_glog []) as (g' & calls' & pre & text & E1 & E2 & E3 & _).
  - cbn. unfold INFO. lia.
  - repeat constructor; discriminate.
  - exists text, g', calls'. split; [exact E1|]. split; [exact E2|]. split; [exact E3|].
    injection E2 as <-. vm_compute in E3. by injection E3 as <-.
Defined.

(** What the slog build reads as the global level is what the parser of a
    single level accepts, and WARNING for anything else. *)
Lemma GetGlobalLogLevel_slog_eq getenv :
  GetGlobalLogLevel_slog getenv = default WARNING (ParseLogLevel (GetEnv getenv "GLOG_v")).
Proof.
  unfold GetGlobalLogLevel_slog, ParseLogLevel.
  destruct (GetEnv getenv "GLOG_v") as [|c [|d l]]; cbn [length Nat.eqb]; try done.
  change (char_at [c] 0) with c. by destruct (_ && _).
Qed.

(** With glog the global level is not checked: one above ERROR silences every
    statement of the submodules that are not configured. *)
Lemma high_level_silences {W} `{LogBackendLaws W} levels l (w : W) global :
  ERROR < global -> (forall i, (i < NUM_SUBMODUES)%nat -> levels !! i = Some global) ->
  Forall (fun st => st_level st <= ERROR /\ (st_submodule st < NUM_SUBMODUES)%nat) l ->
  run_statements levels l w = Ret tt w.
Proof.
  intros Hg Hlev Hl. induction Hl as [|st l [Hst Hsm] _ IH]; [done|]. cbn [run_statements].
  rewrite (bind_Ret _ _ _ _ _ (MS_LOG_off levels st w ltac:(
    unfold on, IS_OUTPUT_ON; rewrite (Hlev _ Hsm); cbn; rewrite Z.leb_le; lia))).
  exact IH.
Qed.

(** ** File names *)
Lemma substring_skip (a b : string) n :
  (String.length b <= n)%nat -> String.substring (String.length a) n (a +:+ b) = b.
Proof.
  intros Hn. induction a as [|c a IH]; [|exact IH].
  change ("" +:+ b)%string with b. cbn [String.length].
  revert n Hn. induction b as [|c b IH]; intros n Hn; [by destruct n|].
  destruct n as [|n]; cbn in Hn; [lia|]. cbn. f_equal. apply IH. lia.
Qed.

Lemma length_append (a b : string) : String.length (a +:+ b) = (String.length a + String.length b)%nat.
Proof. induction a as [|c a IH]; [done|]. exact (f_equal S IH). Qed.

(** A file below the directory of log_adapter.h is named by its path from there. *)
Lemma FILE_NAME_relative dir file :
  FILE_NAME (dir +:+ LOG_HDR_FILE_REL_PATH) (dir +:+ file) = file.
Proof.
  unfold FILE_NAME.
  assert (GetRelPathPos (dir +:+ LOG_HDR_FILE_REL_PATH) = String.length dir) as ->.
  { unfold GetRelPathPos, sizeof. rewrite length_append. cbn [String.length LOG_HDR_FILE_REL_PATH].
    case_match eqn:E; [lia|]. apply Nat.ltb_ge in E. lia. }
  unfold sizeof. rewrite length_append.
  rewrite (proj2 (Nat.ltb_lt _ _)) by lia. apply substring_skip. lia.
Qed.

(** A file elsewhere loses as many characters as that directory has, or keeps
    its path if it is shorter. *)
Lemma FILE_NAME_elsewhere :
  FILE_NAME "/rpc/src/log/utils/log_adapter.h" "/rpc/src/example/uuid/a.cc" = "id/a.cc"%string /\
  FILE_NAME "/rpc/src/log/utils/log_adapter.h" "/rpc/src/tcp/a.cc" = "/rpc/src/tcp/a.cc"%string.
Proof. done. Qed.
