(* ===== verification/ConsistentHash.v ===== *)
(** * The consistent hash map

    src/consistent_hash/consistent_hash.h.  The std::map inside is the list of
    its pairs in the order of the keys; an iterator is the pair it points to,
    [None] is end().  The hash function, a template argument, is an argument
    whose values are below [N] (2^32 for the uint32_t of the examples). *)
From S2P Require Import Prelude.
From Stdlib Require Import Sorted.

Section consistent_hash_map.
Context {T : Type} (hasher_ : T -> Z) (N : Z).

Definition map_type : Type := list (Z * T).

(** std::map: [insert] leaves an entry that is there alone. *)
Fixpoint map_insert (k : Z) (x : T) (m : map_type) : (Z * T) * bool * map_type :=
  match m with
  | [] => ((k, x), true, [(k, x)])
  | (k', x') :: m' =>
    if k <? k' then ((k, x), true, (k, x) :: m)
    else if k =? k' then ((k', x'), false, m)
    else let '(it, b, m') := map_insert k x m' in (it, b, (k', x') :: m')
  end.
Fixpoint map_erase (k : Z) (m : map_type) : nat * map_type :=
  match m with
  | [] => (O, [])
  | (k', x') :: m' =>
    if k =? k' then (1%nat, m')
    else let '(n, m') := map_erase k m' in (n, (k', x') :: m')
  end.
Fixpoint lower_bound (h : Z) (m : map_type) : option (Z * T) :=
  match m with
  | [] => None
  | (k, x) :: m => if h <=? k then Some (k, x) else lower_bound h m
  end.

Definition size (nodes_ : map_type) : nat := length nodes_.
Definition empty (nodes_ : map_type) : bool := bool_decide (length nodes_ = O).
Definition begin (nodes_ : map_type) : option (Z * T) := head nodes_.
Definition rbegin (nodes_ : map_type) : option (Z * T) := last nodes_.

Definition insert (node : T) (nodes_ : map_type) : (Z * T) * bool * map_type :=
  map_insert (hasher_ node) node nodes_.
Definition erase (node : T) (nodes_ : map_type) : nat * map_type :=
  map_erase (hasher_ node) nodes_.
(** [erase(iterator)] of an iterator that is not end(). *)
Definition erase_it (it : Z * T) (nodes_ : map_type) : map_type := (map_erase it.1 nodes_).2.

Definition find (hash : Z) (nodes_ : map_type) : option (Z * T) :=
  if empty nodes_ then None else
  match lower_bound hash nodes_ with
  | None => begin nodes_
  | Some it => Some it
  end.

(** ** The order of the map *)
Definition sorted (m : map_type) : Prop := StronglySorted (fun p q => p.1 < q.1) m.

(** The keys are in the range of the hash function. *)
Definition wf (m : map_type) : Prop := sorted m /\ Forall (fun p => 0 <= p.1 < N) m.

Lemma map_insert_elem k x m p :
  p ∈ (map_insert k x m).2 ->
  p ∈ m \/ p = (k, x).
Proof.
  induction m as [|[k' x'] m IH]; cbn [map_insert].
  { intros ->%list_elem_of_singleton. by right. }
  destruct (k <? k'); [|destruct (k =? k')]; cbn [snd].
  - intros [->|?]%elem_of_cons; auto.
  - auto.
  - destruct (map_insert k x m) as [[it b] m']. cbn [snd] in *.
    intros [->|Hp]%elem_of_cons; [left; by left|]. destruct (IH Hp); [left; by right|by right].
Qed.

Lemma map_insert_has k x m p : p ∈ m -> p ∈ (map_insert k x m).2.
Proof.
  induction m as [|[k' x'] m IH]; cbn [map_insert]; [by intros ?%elem_of_nil|].
  destruct (k <? k'); [|destruct (k =? k')]; cbn [snd]; [by right|done|].
  destruct (map_insert k x m) as [[it b] m']. cbn [snd] in *.
  intros [->|Hp]%elem_of_cons; [by left|right; auto].
Qed.

Lemma map_insert_sorted k x m : sorted m -> sorted (map_insert k x m).2.
Proof.
  unfold sorted. induction 1 as [|[k' x'] m Hs IH Hf]; cbn [map_insert]; [by repeat constructor|].
  destruct (Z.ltb_spec k k'); [|destruct (Z.eqb_spec k k')]; cbn [snd].
  - constructor; [by constructor|]. constructor; [done|].
    eapply Forall_impl; [exact Hf|]. cbn. intros ? ?. lia.
  - by constructor.
  - pose proof (map_insert_elem k x m) as He. destruct (map_insert k x m) as [[it b] m'].
    cbn [snd] in *. constructor; [done|]. apply Forall_forall. intros p [Hp| ->]%He; cbn.
    + rewrite Forall_forall in Hf. by apply Hf.
    + lia.
Qed.

Lemma map_erase_elem k m p : sorted m -> p ∈ (map_erase k m).2 <-> p ∈ m /\ p.1 <> k.
Proof.
  induction 1 as [|[k' x'] m Hs IH Hf]; cbn [map_erase].
  { cbn. rewrite elem_of_nil. tauto. }
  rewrite Forall_forall in Hf. destruct (Z.eqb_spec k k') as [->|]; cbn [snd].
  - rewrite elem_of_cons. split; [|by intros [[->|?] ?]].
    intros Hp. split; [by right|]. specialize (Hf p Hp). cbn in Hf. lia.
  - destruct (map_erase k m) as [c m']. cbn [snd] in *. rewrite !elem_of_cons, IH. split.
    + intros [->|[? ?]]; (split; [by auto|cbn; auto]).
    + intros [[->|?] ?]; auto.
Qed.

Lemma map_erase_sorted k m : sorted m -> sorted (map_erase k m).2.
Proof.
  unfold sorted. induction 1 as [|[k' x'] m Hs IH Hf]; cbn [map_erase]; [constructor|].
  destruct (k =? k'); cbn [snd]; [done|].
  pose proof (map_erase_elem k m) as He. destruct (map_erase k m) as [c m']. cbn [snd] in *.
  constructor; [done|]. rewrite Forall_forall in Hf |- *. intros p [Hp _]%He; auto.
Qed.

Lemma insert_wf node m : 0 <= hasher_ node < N -> wf m -> wf (insert node m).2.
Proof.
  intros Hh [Hs Hr]. split; [by apply map_insert_sorted|]. rewrite Forall_forall in Hr |- *.
  intros p [Hp| ->]%map_insert_elem; auto.
Qed.

Lemma erase_wf node m : wf m -> wf (erase node m).2.
Proof.
  intros [Hs Hr]. split; [by apply map_erase_sorted|]. rewrite Forall_forall in Hr |- *.
  intros p [Hp _]%map_erase_elem; auto.
Qed.

Lemma sorted_inj m p q : sorted m -> p ∈ m -> q ∈ m -> p.1 = q.1 -> p = q.
Proof.
  induction 1 as [|r m Hs IH Hf]; [by intros ?%elem_of_nil|].
  rewrite Forall_forall in Hf.
  intros [->|Hp]%elem_of_cons [->|Hq]%elem_of_cons E; auto; exfalso.
  - specialize (Hf q Hq). cbn in Hf. lia.
  - specialize (Hf p Hp). cbn in Hf. lia.
Qed.

(** ** Distance along the ring *)

(** How far the key [k] is from [h] in the direction of growing keys. *)
Definition distance (h k : Z) : Z := (k - h) mod N.

Lemma distance_ge h k : 0 <= h <= k -> k < N -> distance h k = k - h.
Proof. intros. unfold distance. apply Z.mod_small. lia. Qed.

Lemma distance_lt h k : 0 <= k < h -> h < N -> distance h k = k - h + N.
Proof.
  intros. unfold distance. rewrite <- (Z.mod_add (k - h) 1), Z.mul_1_l by lia.
  apply Z.mod_small. lia.
Qed.

Lemma lower_bound_spec h m :
  sorted m ->
  match lower_bound h m with
  | Some p => p ∈ m /\ h <= p.1 /\ forall q, q ∈ m -> h <= q.1 -> p.1 <= q.1
  | None => forall q, q ∈ m -> q.1 < h
  end.
Proof.
  induction 1 as [|[k x] m Hs IH Hf]; cbn [lower_bound]; [by intros q ?%elem_of_nil|].
  rewrite Forall_forall in Hf. destruct (Z.leb_spec h k).
  - split_and!; [by left|done|]. intros q [->|Hq]%elem_of_cons _; [done|].
    specialize (Hf q Hq). cbn in Hf |- *. lia.
  - destruct (lower_bound h m) as [p|].
    + destruct IH as (Hp & Hh & Hm). split_and!; [by right|done|].
      intros q [->|Hq]%elem_of_cons ?; [cbn in *; lia|auto].
    + intros q [->|Hq]%elem_of_cons; [done|auto].
Qed.

(** An entry of the map is the nearest from [h] on. *)
Definition nearest (h : Z) (m : map_type) (p : Z * T) : Prop :=
  p ∈ m /\ forall q, q ∈ m -> distance h p.1 <= distance h q.1.

Lemma find_nearest h m p : wf m -> 0 <= h < N -> find h m = Some p -> nearest h m p.
Proof.
  intros [Hs Hr] Hh. unfold find. rewrite Forall_forall in Hr.
  destruct (empty m); [done|]. pose proof (lower_bound_spec h m Hs) as Hl.
  destruct (lower_bound h m) as [p'|].
  - intros [= <-]. destruct Hl as (Hp & Hle & Hm). split; [done|]. intros q Hq.
    pose proof (Hr _ Hp). pose proof (Hr _ Hq). rewrite (distance_ge h p'.1) by lia.
    destruct (decide (h <= q.1)) as [Hq'|].
    + rewrite distance_ge by lia. specialize (Hm q Hq Hq'). lia.
    + rewrite distance_lt by lia. lia.
  - unfold begin. destruct Hs as [|p' m Hs Hf]; [done|]. intros [= <-]. split; [by left|].
    intros q Hq. rewrite Forall_forall in Hf. pose proof (Hl p' ltac:(by left)).
    pose proof (Hl q Hq). pose proof (Hr p' ltac:(by left)). pose proof (Hr q Hq).
    rewrite !distance_lt by lia. apply elem_of_cons in Hq as [->|Hq]; [done|].
    specialize (Hf q Hq). lia.
Qed.

Lemma find_Some h m : m <> [] -> is_Some (find h m).
Proof.
  intros Hm. unfold find, empty. rewrite bool_decide_eq_false_2 by (by destruct m).
  destruct (lower_bound h m); [eauto|]. destruct m; [done|]. eexists. reflexivity.
Qed.

Lemma distance_inj h k k' :
  0 <= h < N -> 0 <= k < N -> 0 <= k' < N -> distance h k = distance h k' -> k = k'.
Proof.
  intros Hh Hk Hk'.
  destruct (decide (h <= k)); [rewrite (distance_ge h k) by lia|rewrite (distance_lt h k) by lia];
    (destruct (decide (h <= k')); [rewrite (distance_ge h k') by lia|rewrite (distance_lt h k') by lia]);
    lia.
Qed.

Lemma nearest_unique h m p q : wf m -> 0 <= h < N -> nearest h m p -> nearest h m q -> p = q.
Proof.
  intros [Hs Hr] Hh [Hp Hp'] [Hq Hq']. rewrite Forall_forall in Hr. apply (sorted_inj m); auto.
  apply (distance_inj h); auto. specialize (Hp' q Hq). specialize (Hq' p Hp). lia.
Qed.

(** C28: a key keeps its node unless the change concerns that node.  In a map
    made by insertions and removals, [find] gives the node nearest to the key
    along the ring; inserting a node moves keys to that node only, and
    removing a node moves only the keys it had. *)
Theorem keys_stay node m h p :
  wf m -> 0 <= hasher_ node < N -> 0 <= h < N -> find h m = Some p ->
  nearest h m p /\
  (find h (insert node m).2 = Some p \/ find h (insert node m).2 = Some (hasher_ node, node)) /\
  (p.1 <> hasher_ node -> find h (erase node m).2 = Some p).
Proof.
  intros Hw Hn Hh Hf. pose proof (find_nearest h m p Hw Hh Hf) as Hp. split_and!; [done|..].
  - pose proof (insert_wf node m Hn Hw) as Hw'.
    destruct (find_Some h (insert node m).2) as [q Hq].
    { intros E. destruct Hp as [Hp _]. apply (map_insert_has (hasher_ node) node) in Hp.
      unfold insert in E. rewrite E in Hp. by apply elem_of_nil in Hp. }
    rewrite Hq. pose proof (find_nearest h _ q Hw' Hh Hq) as [Hq1 Hq2].
    destruct (map_insert_elem _ _ _ _ Hq1) as [Hqm| ->]; [left|by right].
    f_equal. apply (nearest_unique h m); try done. split; [done|].
    intros r Hr. apply Hq2. by apply map_insert_has.
  - intros Hne. pose proof (erase_wf node m Hw) as Hw'. destruct Hp as [Hp1 Hp2].
    assert (p ∈ (erase node m).2) as Hin by (apply map_erase_elem; [apply Hw|done]).
    destruct (find_Some h (erase node m).2) as [q Hq].
    { intros E. rewrite E in Hin. by apply elem_of_nil in Hin. }
    rewrite Hq. f_equal. apply (nearest_unique h (erase node m).2); try done.
    + by apply find_nearest.
    + split; [done|]. intros r Hr. apply Hp2. unfold erase in Hr.
      apply map_erase_elem in Hr as [? _]; [done|apply Hw].
Qed.
End consistent_hash_map.

(** Three nodes that are their own hashes, as a fourth joins and one leaves. *)
Definition example_ring : map_type := (insert (fun x : Z => x) 70 (insert (fun x : Z => x) 10
  (insert (fun x : Z => x) 40 []).2).2).2.

Lemma keys_stay_witness :
  find 90 example_ring = Some (10, 10) /\ find 20 (erase (fun x : Z => x) 10 example_ring).2 = Some (40, 40).
Proof.
  split; [reflexivity|].
  destruct (keys_stay (fun x : Z => x) 100 10 example_ring 20 (40, 40)) as (_ & _ & H).
  - split; [repeat constructor|repeat constructor; cbn; lia].
  - lia.
  - lia.
  - reflexivity.
  - apply H. discriminate.
Defined.
