(* ===== verification/HashPrograms.v ===== *)
(** * Programs over the consistent hash map

    src/consistent_hash/example.cpp, which computes how much of the ring each node
    gets, and test.cpp, which adds, looks up and removes nodes.  Both hash with
    boost's CRC-32, which is an argument; what they print is a list of lines.
    Using the iterator end() gives [None]. *)
From S2P Require Import Prelude ConsistentHash.
From Stdlib Require Import Sorted.
From stdpp Require Import pretty.
#[local] Open Scope Z_scope.

(** ** example.cpp *)
Definition nodes : list string :=
  ["192.168.1.100"; "192.168.1.101"; "192.168.1.102"; "192.168.1.103"; "192.168.1.104"]%string.

Record vnode_t : Type := mkVnode { node_id : nat; vnode_id : nat }.
Definition to_str (v : vnode_t) : string :=
  (default "" (nodes !! node_id v) +:+ "-" +:+ pretty (vnode_id v))%string.

Definition UINT32_MAX : Z := 2 ^ 32 - 1.

Section example.
(** The checksum of a string. *)
Context (crc32 : string -> Z).
Definition crc32_hasher (v : vnode_t) : Z := crc32 (to_str v).

(** The two loops that enter the virtual nodes. *)
Definition vnodes : list vnode_t :=
  flat_map (fun i => (fun j => mkVnode i j) <$> seq 0 100) (seq 0 5).
Definition ring : list (Z * vnode_t) := foldl (fun m v => (ConsistentHash.insert crc32_hasher v m).2) [] vnodes.
End example.

(** The differences are computed in uint32_t and added up in size_t. *)
Definition first_share (first last : Z) : Z := u32 (u32 (first + UINT32_MAX) - last).
Definition add_share (v : vnode_t) (n : Z) (sums : list Z) : list Z :=
  alter (fun s => u64 (s + n)) (node_id v) sums.

(** The loop from the second element on. *)
Fixpoint shares_loop (priv : Z) (l : list (Z * vnode_t)) (sums : list Z) (shares : list Z)
    : list Z * list Z :=
  match l with
  | [] => (sums, shares)
  | (cur, v) :: l => let n := u32 (cur - priv) in
                     shares_loop cur l (add_share v n sums) (shares ++ [n])
  end.

(** The sums of the nodes, and the share of each virtual node in the order of
    the ring. *)
Definition example_shares (ring : list (Z * vnode_t)) : option (list Z * list Z) :=
  match begin ring, rbegin ring with
  | Some (first, v), Some (last, _) =>
    let n := first_share first last in
    Some (shares_loop first (tail ring) (add_share v n (replicate 5 0)) [n])
  | _, _ => None
  end.

Definition total (l : list Z) : Z := foldr Z.add 0 l.

(** ** test.cpp *)
Inductive line : Type :=
| Text (s : string)
| NodeLine (node : string) (hash : Z).

Section test.
Context (crc32 : string -> Z).

Definition node_name (i : nat) : string := "192.168.1." +:+ pretty i.
Definition print_it (it : option (Z * string)) : option (list line) :=
  '(h, node) ← it; Some [NodeLine node h].
Definition print_all (m : list (Z * string)) : list line := (fun '(h, node) => NodeLine node h) <$> m.
Definition separator : list line := [Text "========================================================="].
Definition thin : list line := [Text "-------------------------------------------"].

Definition add_nodes : list (Z * string) * list line :=
  foldl (fun '(m, out) i => let node := node_name i in
           ((ConsistentHash.insert crc32 node m).2, out ++ [Text ("add node: " +:+ node)]))
    ([], []) (seq 0 3).

Definition main_test : option (list line) :=
  let '(m, out) := add_nodes in
  let out := out ++ separator ++ print_all m in
  l1 ← print_it (ConsistentHash.find 290235110 m);
  l2 ← print_it (ConsistentHash.find 2286285664 m);
  l3 ← print_it (ConsistentHash.find 4282565578 m);
  let out := out ++ l1 ++ l2 ++ l3 ++ separator in
  let m := (erase crc32 (node_name 1) m).2 in
  let out := out ++ print_all m ++ separator in
  it ← ConsistentHash.find 4282565578 m;
  l4 ← print_it (Some it);
  let m := erase_it it m in
  let out := out ++ l4 ++ thin ++ print_all m ++ separator ++ thin in
  l5 ← print_it (ConsistentHash.find 4282565578 m);
  it ← ConsistentHash.find 4282565576 m;
  l6 ← print_it (Some it);
  let m := erase_it it m in
  let out := out ++ l5 ++ thin ++ l6 ++ thin ++ print_all m ++ thin ++ separator ++ thin in
  Some (out ++ match ConsistentHash.find 4282565578 m with
               | None => [Text "not found, consistent_hash is empty"]
               | Some _ => []
               end).
End test.

(** ** The shares *)
Lemma total_snoc l n : total (l ++ [n]) = total l + n.
Proof. unfold total. induction l as [|x l IH]; cbn [app foldr]; lia. Qed.

Lemma alter_total (f : Z -> Z) i l x :
  l !! i = Some x -> total (alter f i l) = total l - x + f x.
Proof.
  revert i. induction l as [|y l IH]; intros i; [done|]. destruct i as [|i]; cbn.
  - intros [= ->]. lia.
  - intros Hi. fold (total (alter f i l)) (total l). rewrite (IH i Hi). lia.
Qed.

Lemma last_max (m : list (Z * vnode_t)) p q :
  sorted m -> last m = Some q -> p ∈ m -> p.1 <= q.1.
Proof.
  intros Hs Hl Hp. induction Hs as [|a m Hs IH Ha]; [done|].
  destruct m as [|b m]; cbn in Hl.
  - injection Hl as <-. apply list_elem_of_singleton in Hp as ->. lia.
  - apply elem_of_cons in Hp as [->|Hp]; [|by apply IH].
    apply last_Some_elem_of in Hl. rewrite Forall_forall in Ha. specialize (Ha q Hl). lia.
Qed.

(** The sums stay below 2^64. *)
Lemma add_share_total v n sums :
  (node_id v < length sums)%nat -> Forall (fun s => 0 <= s) sums -> 0 <= n -> total sums + n < 2 ^ 64 ->
  total (add_share v n sums) = total sums + n /\ Forall (fun s => 0 <= s) (add_share v n sums) /\
  length (add_share v n sums) = length sums.
Proof.
  intros Hi Hs Hn Hlt. unfold add_share. apply lookup_lt_is_Some in Hi as [x Hx].
  assert (0 <= x <= total sums) as Hr.
  { clear -Hx Hs. revert Hx. generalize (node_id v). induction Hs as [|y l Hy Hl IH]; intros i Hi; [done|].
    assert (0 <= total l) by (clear -Hl; induction Hl; cbn; [done|]; unfold total in *; lia).
    unfold total in *. destruct i as [|i]; cbn in *; [injection Hi as <-; lia|]. specialize (IH i Hi). lia. }
  rewrite (alter_total _ _ _ _ Hx). rewrite uwrap_small by (unfold in_u; lia).
  split; [lia|]. split; [|apply length_alter].
  apply Forall_alter; [done|]. intros y Hy _. assert (y = x) as -> by congruence.
  rewrite uwrap_small by (unfold in_u; lia). lia.
Qed.

(** The key of the last element, or [k] if there is none. *)
Definition last_key (k : Z) (l : list (Z * vnode_t)) : Z := from_option fst k (last l).

Lemma last_key_cons k p l : last_key k (p :: l) = last_key p.1 l.
Proof. unfold last_key. rewrite last_cons. by destruct (last l). Qed.

Lemma shares_loop_total priv v0 l sums shares :
  sorted ((priv, v0) :: l) -> Forall (fun p => 0 <= p.1 < 2 ^ 32 /\ (node_id p.2 < 5)%nat) ((priv, v0) :: l) ->
  length sums = 5%nat -> Forall (fun s => 0 <= s) sums ->
  total sums + (last_key priv l - priv) < 2 ^ 64 ->
  let r := shares_loop priv l sums shares in
  total r.1 = total sums + (last_key priv l - priv) /\ total r.2 = total shares + (last_key priv l - priv).
Proof.
  revert priv v0 sums shares. induction l as [|[cur v] l IH]; intros priv v0 sums shares Hs Hr Hl Hp Hlt; cbv zeta.
  { change (last_key priv []) with priv. cbn [shares_loop fst snd]. lia. }
  apply StronglySorted_inv in Hs as [Hs Hpc]. apply Forall_cons in Hr as [[Hr0 _] Hr].
  pose proof Hr as [[Hrc Hv] _]%Forall_cons. apply Forall_cons in Hpc as [Hpc _]. cbn [fst snd] in *.
  rewrite last_key_cons in Hlt |- *. cbn [fst] in *.
  assert (cur <= last_key cur l).
  { unfold last_key. destruct (last l) as [q|] eqn:El; cbn; [|lia].
    apply (last_max ((cur, v) :: l) (cur, v) q Hs); [|by left]. rewrite last_cons. by rewrite El. }
  cbn [shares_loop]. rewrite uwrap_small by (unfold in_u; lia).
  destruct (add_share_total v (cur - priv) sums) as (Ht & Hp' & Hl'); [by rewrite Hl|done|lia|lia|].
  destruct (IH cur v (add_share v (cur - priv) sums) (shares ++ [cur - priv]) Hs Hr) as [H1 H2];
    [congruence|done|lia|]. rewrite H1, H2, Ht, total_snoc. lia.
Qed.

(** The differences of consecutive keys. *)
Fixpoint gaps (priv : Z) (l : list (Z * vnode_t)) : list Z :=
  match l with [] => [] | (cur, _) :: l => (cur - priv) :: gaps cur l end.

Lemma shares_loop_gaps priv v0 l sums shares :
  sorted ((priv, v0) :: l) -> Forall (fun p => 0 <= p.1 < 2 ^ 32) ((priv, v0) :: l) ->
  (shares_loop priv l sums shares).2 = shares ++ gaps priv l.
Proof.
  revert priv v0 sums shares. induction l as [|[cur v] l IH]; intros priv v0 sums shares Hs Hr; cbn [shares_loop gaps].
  { by rewrite app_nil_r. }
  apply StronglySorted_inv in Hs as [Hs Hpc]. apply Forall_cons in Hr as [Hr0 Hr].
  pose proof Hr as [Hrc _]%Forall_cons. apply Forall_cons in Hpc as [Hpc _]. cbn [fst] in *.
  rewrite uwrap_small by (unfold in_u; lia). rewrite (IH cur v) by done. by rewrite <- app_assoc.
Qed.

Lemma gaps_lookup m p0 i p q :
  (p0 :: m) !! i = Some p -> m !! i = Some q -> gaps p0.1 m !! i = Some (q.1 - p.1).
Proof.
  revert p0 i. induction m as [|[k v] m IH]; intros p0 i Hp Hq; [done|]. destruct i as [|i]; cbn in *.
  - injection Hp as <-. by injection Hq as <-.
  - by apply (IH (k, v)).
Qed.

Lemma length_gaps k m : length (gaps k m) = length m.
Proof. revert k. induction m as [|[c v] m IH]; intros k; cbn; [done|]. by rewrite IH. Qed.

Lemma neighbours (m : list (Z * vnode_t)) i p q :
  sorted m -> m !! i = Some p -> m !! S i = Some q ->
  p.1 < q.1 /\ (forall r, r ∈ m -> r.1 <= p.1 \/ q.1 <= r.1) /\ forall r, head m = Some r -> r.1 <= p.1.
Proof.
  intros Hs. revert i. induction Hs as [|a m Hs IH Ha]; intros i Hp Hq; [done|].
  rewrite Forall_forall in Ha. destruct i as [|i].
  - injection Hp as ->. cbn in Hq. destruct m as [|b m]; [done|]. injection Hq as ->.
    apply StronglySorted_inv in Hs as [_ Hb]. rewrite Forall_forall in Hb.
    split; [apply Ha; by left|]. split; [|by intros r [= <-]].
    intros r [->|[->|Hr]%elem_of_cons]%elem_of_cons; [by left|by right|]. right. specialize (Hb r Hr). lia.
  - change (m !! i = Some p) in Hp. change (m !! S i = Some q) in Hq.
    destruct (IH i Hp Hq) as (H1 & H2 & _). pose proof (Ha p (list_elem_of_lookup_2 _ _ _ Hp)) as Hap.
    split; [done|]. split.
    + intros r [->|Hr]%elem_of_cons; [left; lia|by apply H2].
    + intros r [= <-]. lia.
Qed.

(** The points between two neighbours belong to the second. *)
Lemma find_between (m : list (Z * vnode_t)) i p q h :
  sorted m -> m !! i = Some p -> m !! S i = Some q ->
  ConsistentHash.find h m = Some q <-> p.1 < h <= q.1.
Proof.
  intros Hs Hp Hq. destruct (neighbours m i p q Hs Hp Hq) as (Hlt & Hn & Hh).
  pose proof (list_elem_of_lookup_2 _ _ _ Hp) as Hpm. pose proof (list_elem_of_lookup_2 _ _ _ Hq) as Hqm.
  unfold ConsistentHash.find, ConsistentHash.empty. rewrite bool_decide_eq_false_2 by (by destruct m).
  pose proof (lower_bound_spec h m Hs) as Hl. destruct (lower_bound h m) as [p'|].
  - destruct Hl as (Hp' & Hle & Hmin). split.
    + intros [= ->]. split; [|done]. destruct (decide (h <= p.1)) as [Hhp|]; [|lia].
      specialize (Hmin p Hpm Hhp). lia.
    + intros [H1 H2]. f_equal. apply (sorted_inj m); [done..|]. specialize (Hmin q Hqm H2).
      destruct (Hn p' Hp'); lia.
  - split.
    + intros Hb. specialize (Hh q Hb). lia.
    + intros [_ H2]. specialize (Hl q Hqm). lia.
Qed.

(** C29: What the example prints about the ring.  For every ring that is not empty
    the share of a virtual node after the first is the number of points between
    its predecessor and itself, which are the points that find assigns to it; and
    the shares of all virtual nodes, and the sums of the five nodes, add up to
    2^32 - 1, one less than the points of the ring. *)
Theorem ring_shares (m : list (Z * vnode_t)) :
  wf (2 ^ 32) m -> m <> [] -> Forall (fun p => (node_id p.2 < 5)%nat) m ->
  exists sums shares, example_shares m = Some (sums, shares) /\ length shares = length m /\
    total sums = 2 ^ 32 - 1 /\ total shares = 2 ^ 32 - 1 /\
    forall i p q, m !! i = Some p -> m !! S i = Some q ->
      shares !! S i = Some (q.1 - p.1) /\
      forall h, ConsistentHash.find h m = Some q <-> p.1 < h <= q.1.
Proof.
  intros [Hs Hr] Hne Hid. destruct m as [|[first v] l]; [done|].
  unfold example_shares, begin, rbegin. cbn [head tail].
  assert (exists q, last ((first, v) :: l) = Some q) as [[lk w] El].
  { rewrite last_cons. destruct (last l); eauto. }
  rewrite El. assert (last_key first l = lk) as Hlk.
  { change first with (first, v).1. rewrite <- last_key_cons with (k := 0). unfold last_key. by rewrite El. }
  pose proof (last_max _ (first, v) (lk, w) Hs El ltac:(by left)) as Hle.
  pose proof Hr as [Hr1 _]%Forall_cons. pose proof Hid as [Hv _]%Forall_cons. cbn [fst snd] in *.
  assert (0 <= lk < 2 ^ 32) as Hr2.
  { rewrite Forall_forall in Hr. apply (Hr (lk, w)), last_Some_elem_of, El. }
  assert (first_share first lk = first - lk + (2 ^ 32 - 1)) as Hfs.
  { unfold first_share, UINT32_MAX, uwrap. rewrite Zminus_mod_idemp_l. rewrite Z.mod_small; lia. }
  destruct (add_share_total v (first_share first lk) (replicate 5 0)) as (Ht & Hp & Hl);
    [done|by repeat constructor|lia|rewrite Hfs; cbn; lia|].
  assert (Forall (fun p => 0 <= p.1 < 2 ^ 32 /\ (node_id p.2 < 5)%nat) ((first, v) :: l)) as Hall
    by (apply Forall_and; done).
  destruct (shares_loop_total first v l (add_share v (first_share first lk) (replicate 5 0))
    [first_share first lk] Hs Hall Hl Hp) as [H1 H2]; [rewrite Hlk, Ht, Hfs; cbn; lia|].
  pose proof (shares_loop_gaps first v l (add_share v (first_share first lk) (replicate 5 0))
    [first_share first lk] Hs Hr) as Hg.
  destruct (shares_loop _ _ _ _) as [sums shares]. cbn [fst snd] in *. exists sums, shares.
  split; [done|]. split; [by rewrite Hg, length_app, length_gaps|].
  split; [rewrite H1, Hlk, Ht, Hfs; cbn; lia|]. split; [rewrite H2, Hlk, Hfs; cbn; lia|].
  intros i p q Hpi Hqi. split; [|intros h; by apply find_between with i].
  rewrite Hg. cbn. by apply (gaps_lookup l (first, v)).
Qed.

Lemma ring_shares_witness :
  exists sums shares, example_shares [(5, mkVnode 0 0); (9, mkVnode 3 7); (4000000000, mkVnode 0 1)]
    = Some (sums, shares) /\ total sums = 2 ^ 32 - 1.
Proof.
  destruct (ring_shares [(5, mkVnode 0 0); (9, mkVnode 3 7); (4000000000, mkVnode 0 1)])
    as (sums & shares & E & _ & H & _).
  - split; repeat constructor; cbn; lia.
  - done.
  - repeat constructor; cbn; lia.
  - exists sums, shares. split; [exact E|exact H].
Defined.

(** The ring of the program is such a ring. *)
Lemma ring_wf (crc32 : string -> Z) : (forall s, 0 <= crc32 s < 2 ^ 32) -> wf (2 ^ 32) (ring crc32).
Proof.
  intros Hc. unfold ring. generalize vnodes. intros l.
  assert (wf (2 ^ 32) ([] : list (Z * vnode_t))) as H0 by (split; constructor).
  revert H0. generalize ([] : list (Z * vnode_t)). induction l as [|v l IH]; intros m Hm; cbn [foldl]; [done|].
  apply IH, insert_wf; [apply Hc|done].
Qed.

(** ** The test program *)
Section test_run.
Context (crc32 : string -> Z).

Lemma insert_new node (m : list (Z * string)) :
  Forall (fun p => p.1 <> crc32 node) m -> length (ConsistentHash.insert crc32 node m).2 = S (length m).
Proof.
  unfold ConsistentHash.insert. induction 1 as [|[k x] m Hk _ IH]; cbn [map_insert]; [done|]. cbn in Hk.
  destruct (crc32 node <? k); [done|]. rewrite (proj2 (Z.eqb_neq _ _)) by congruence.
  destruct (map_insert (crc32 node) node m) as [[it b] m']. cbn in *. by rewrite IH.
Qed.

Lemma insert_keys node (m : list (Z * string)) h :
  Forall (fun p => p.1 <> h) m -> crc32 node <> h ->
  Forall (fun p => p.1 <> h) (ConsistentHash.insert crc32 node m).2.
Proof.
  intros Hm Hn. rewrite Forall_forall in *. intros p Hp.
  apply map_insert_elem in Hp as [Hp| ->]; [by apply Hm|done].
Qed.

Lemma map_erase_present k (m : list (Z * string)) :
  (exists p, p ∈ m /\ p.1 = k) -> S (length (map_erase k m).2) = length m.
Proof.
  induction m as [|[k' x] m IH]; intros (p & Hp & Hk); [by apply elem_of_nil in Hp|]. cbn [map_erase].
  destruct (Z.eqb_spec k k') as [->|Hne]; [done|].
  apply elem_of_cons in Hp as [->|Hp]; [done|].
  specialize (IH (ex_intro _ p (conj Hp Hk))). destruct (map_erase k m) as [n m']. cbn in *. by rewrite IH.
Qed.

Lemma insert_present node (m : list (Z * string)) :
  exists p, p ∈ (ConsistentHash.insert crc32 node m).2 /\ p.1 = crc32 node.
Proof.
  unfold ConsistentHash.insert. induction m as [|[k x] m IH]; cbn [map_insert].
  - eexists. split; [by left|done].
  - destruct (crc32 node <? k); [eexists; split; [by left|done]|].
    destruct (Z.eqb_spec (crc32 node) k) as [E|E]; [eexists; split; [by left|done]|].
    destruct IH as (p & Hp & Hk). destruct (map_insert (crc32 node) node m) as [[it b] m'].
    exists p. split; [by right|done].
Qed.

Lemma find_in h (m : list (Z * string)) it : ConsistentHash.find h m = Some it -> it ∈ m.
Proof.
  unfold ConsistentHash.find. destruct (ConsistentHash.empty m); [done|].
  destruct (lower_bound h m) as [p|] eqn:E.
  - intros [= <-]. revert E. induction m as [|[k x] m IH]; cbn; [done|].
    case_match; [intros [= <-]; by left|]. intros E. right. by apply IH.
  - unfold begin. destruct m; cbn; [done|]. intros [= <-]. by left.
Qed.

Lemma find_erase_it h (m : list (Z * string)) n :
  length m = S n -> exists it, ConsistentHash.find h m = Some it /\ length (erase_it it m) = n.
Proof.
  intros Hl. destruct (find_Some h m) as [it E]; [by intros ->|].
  exists it. split; [done|]. unfold erase_it.
  pose proof (map_erase_present it.1 m (ex_intro _ it (conj (find_in h m it E) eq_refl))). lia.
Qed.

(** The three nodes hash to different points: then the program never uses the
    iterator end(), and at last finds the map empty. *)
Lemma test_ends :
  NoDup (crc32 <$> (node_name <$> seq 0 3)) ->
  exists out, main_test crc32 = Some (out ++ [Text "not found, consistent_hash is empty"]).
Proof.
  intros Hnd. unfold main_test.
  assert (exists m out, add_nodes crc32 = (m, out) /\ length m = 3%nat /\
    exists p, p ∈ m /\ p.1 = crc32 (node_name 1)) as (m & out & -> & Hm & Hp).
  { eexists _, _. split; [reflexivity|]. cbn in Hnd.
    apply NoDup_cons in Hnd as [H0 Hnd]. apply NoDup_cons in Hnd as [H1 _].
    split.
    - rewrite !insert_new; [done|constructor|..]; repeat first [apply insert_keys | apply Forall_nil];
        first [done | set_solver].
    - destruct (insert_present (node_name 1) (ConsistentHash.insert crc32 (node_name 0) []).2) as (p & Hp & Hk).
      exists p. split; [|done]. by apply map_insert_has. }
  destruct (find_erase_it 290235110 m 2 Hm) as (i1 & -> & _).
  destruct (find_erase_it 2286285664 m 2 Hm) as (i2 & -> & _).
  destruct (find_erase_it 4282565578 m 2 Hm) as (i3 & -> & _).
  destruct i1, i2, i3. cbn [print_it mbind option_bind].
  pose proof (map_erase_present _ _ Hp) as Hm1. fold (erase crc32 (node_name 1) m) in Hm1.
  set (m1 := (erase crc32 (node_name 1) m).2) in *.
  destruct (find_erase_it 4282565578 m1 1 ltac:(lia)) as ([k4 n4] & -> & H2).
  cbn [print_it mbind option_bind]. set (m2 := erase_it (k4, n4) m1) in *.
  destruct (find_erase_it 4282565578 m2 0 H2) as ([k5 n5] & -> & _). cbn [print_it mbind option_bind].
  destruct (find_erase_it 4282565576 m2 0 H2) as ([k6 n6] & -> & H3). cbn [print_it mbind option_bind].
  apply nil_length_inv in H3. rewrite H3. eexists. reflexivity.
Qed.
End test_run.
