(* ===== verification/ThreadPool.v ===== *)
(** * The thread pool

    src/even-http/ps/core/thread_pool.{h,cc}.  The threads run interleaved; a
    step is a section under the mutex, the call of notify_one or a task.  A
    worker is where it stands in its loop, and so is the notifying thread.  The
    steps of a run without spurious wakeups and before the destructor are
    [pool_step]; a spurious wakeup and the destructor are separate. *)
From S2P Require Import Prelude.

Section pool.
Context {task : Type}.

Inductive worker_pc : Type :=
| AtTop (* before the lock is taken *)
| Waiting (* in cv_.wait *)
| Woken (* notified, before the lock is taken again *)
| Running (t : task)
| Exited.

(** [notifying]: the notifying thread has unlocked and is about to call
    notify_one.  [submitting] are the tasks whose Submit has passed the check,
    [submitted] and [started] the tasks pushed and taken so far, in order. *)
Record pool : Type := mkPool {
  running_ : bool;
  max_task_num_ : Z;
  task_num_ : Z;
  idle_thread_num_ : Z;
  task_queue_ : list task;
  working_threads_ : list worker_pc;
  notifying : bool;
  submitting : list task;
  submitted : list task;
  started : list task;
}.

Definition ThreadPool_init (thread_num : nat) (max_task_num : Z) : pool :=
  mkPool true max_task_num 0 0 [] (replicate thread_num AtTop) false [] [] [].

(** ** Submit *)

(** A turn of the loop that waits for room; [None]: it sleeps and tries again. *)
Definition Submit_check (t : task) (p : pool) : option pool :=
  if max_task_num_ p <=? task_num_ p then None else
  Some (mkPool (running_ p) (max_task_num_ p) (task_num_ p) (idle_thread_num_ p) (task_queue_ p)
    (working_threads_ p) (notifying p) (submitting p ++ [t]) (submitted p) (started p)).

(** The [k]-th of the tasks that passed the check is pushed. *)
Definition Submit_push (k : nat) (p : pool) : option pool :=
  t ← submitting p !! k;
  Some (mkPool (running_ p) (max_task_num_ p) (u64 (task_num_ p + 1)) (idle_thread_num_ p)
    (task_queue_ p ++ [t]) (working_threads_ p) (notifying p) (delete k (submitting p))
    (submitted p ++ [t]) (started p)).

(** ** The worker threads *)
Definition set_worker (i : nat) (w : worker_pc) (idle : Z) (queue st : list task) (p : pool) : pool :=
  mkPool (running_ p) (max_task_num_ p) (task_num_ p) idle queue
    (<[i := w]> (working_threads_ p)) (notifying p) (submitting p) (submitted p) st.

(** From the top of the loop to the wait. *)
Definition worker_top (i : nat) (p : pool) : option pool :=
  match working_threads_ p !! i with
  | Some AtTop =>
    Some (set_worker i (if running_ p then Waiting else Exited) (u64 (idle_thread_num_ p + 1))
            (task_queue_ p) (started p) p)
  | _ => None
  end.

(** From the return of the wait to the end of the section. *)
Definition worker_wake (i : nat) (p : pool) : option pool :=
  match working_threads_ p !! i with
  | Some Woken =>
    Some (match running_ p, task_queue_ p with
          | true, t :: queue =>
              set_worker i (Running t) (idle_thread_num_ p) queue (started p ++ [t]) p
          | _, _ => set_worker i Exited (idle_thread_num_ p) (task_queue_ p) (started p) p
          end)
  | _ => None
  end.

(** [task()] returns. *)
Definition worker_done (i : nat) (p : pool) : option pool :=
  match working_threads_ p !! i with
  | Some (Running _) =>
    Some (set_worker i AtTop (idle_thread_num_ p) (task_queue_ p) (started p) p)
  | _ => None
  end.

(** ** The notifying thread *)
Definition notifier_check (p : pool) : option pool :=
  if negb (notifying p) && (0 <? idle_thread_num_ p) && (0 <? task_num_ p) then
    Some (mkPool (running_ p) (max_task_num_ p) (task_num_ p - 1) (idle_thread_num_ p - 1)
      (task_queue_ p) (working_threads_ p) true (submitting p) (submitted p) (started p))
  else None.

Definition set_workers (ws : list worker_pc) (running n : bool) (p : pool) : pool :=
  mkPool running (max_task_num_ p) (task_num_ p) (idle_thread_num_ p) (task_queue_ p) ws n
    (submitting p) (submitted p) (started p).

Definition is_waiting (w : worker_pc) : bool := match w with Waiting => true | _ => false end.

(** [notify_one] wakes some waiting thread, here the [i]-th, if there is one. *)
Definition notify_one (i : nat) (p : pool) : option pool :=
  if negb (notifying p) then None else
  match working_threads_ p !! i with
  | Some Waiting => Some (set_workers (<[i := Woken]> (working_threads_ p)) (running_ p) false p)
  | _ => if existsb is_waiting (working_threads_ p) then None
         else Some (set_workers (working_threads_ p) (running_ p) false p)
  end.

(** ** What may happen besides *)
Definition spurious_wakeup (i : nat) (p : pool) : option pool :=
  match working_threads_ p !! i with
  | Some Waiting => Some (set_workers (<[i := Woken]> (working_threads_ p)) (running_ p) (notifying p) p)
  | _ => None
  end.

(** The destructor up to the joins: [running_] is cleared and all waiting
    threads are notified. *)
Definition destructor (p : pool) : pool :=
  set_workers (map (fun w => if is_waiting w then Woken else w) (working_threads_ p)) false
    (notifying p) p.

(** A step of the pool itself, and a step of the pool with at most [S] calls of
    Submit at the same time. *)
Inductive work_step : pool -> pool -> Prop :=
| step_top i p p' : worker_top i p = Some p' -> work_step p p'
| step_wake i p p' : worker_wake i p = Some p' -> work_step p p'
| step_done i p p' : worker_done i p = Some p' -> work_step p p'
| step_check p p' : notifier_check p = Some p' -> work_step p p'
| step_notify i p p' : notify_one i p = Some p' -> work_step p p'.

Inductive pool_step (S : Z) : pool -> pool -> Prop :=
| step_work p p' : work_step p p' -> pool_step S p p'
| step_submit_check t p p' :
    Submit_check t p = Some p' -> zlen (submitting p) < S -> pool_step S p p'
| step_submit_push k p p' : Submit_push k p = Some p' -> pool_step S p p'.

(** ** The invariant *)
Definition is_woken (w : worker_pc) : bool := match w with Woken => true | _ => false end.
Definition is_exited (w : worker_pc) : bool := match w with Exited => true | _ => false end.

Fixpoint countw (f : worker_pc -> bool) (ws : list worker_pc) : Z :=
  match ws with
  | [] => 0
  | w :: ws => Z.b2z (f w) + countw f ws
  end.

Lemma countw_insert f ws i old w :
  ws !! i = Some old -> countw f (<[i := w]> ws) = countw f ws - Z.b2z (f old) + Z.b2z (f w).
Proof.
  induction ws as [|x ws IH] in i |- *; [done|]. destruct i as [|i]; cbn.
  - intros [= ->]. lia.
  - intros E. transitivity (Z.b2z (f x) + (countw f ws - Z.b2z (f old) + Z.b2z (f w)));
      [f_equal; exact (IH i E)|lia].
Qed.

Lemma countw_bounds f ws : 0 <= countw f ws <= zlen ws.
Proof.
  induction ws as [|w ws IH]; cbn [countw]; [done|]. rewrite zlen_cons. destruct (f w); cbn; lia.
Qed.

Lemma countw_exists f ws : 0 < countw f ws -> exists i w, ws !! i = Some w /\ f w = true.
Proof.
  induction ws as [|w ws IH]; cbn [countw]; [lia|]. destruct (f w) eqn:E.
  - intros _. by exists O, w.
  - cbn. intros H. destruct (IH H) as (i & w' & ? & ?). by exists (S i), w'.
Qed.

Lemma countw_replicate f n w : f w = false -> countw f (replicate n w) = 0.
Proof. intros E. induction n; cbn [replicate countw]; [done|]. rewrite E. done. Qed.

Lemma existsb_lookup (f : worker_pc -> bool) ws i w :
  ws !! i = Some w -> f w = true -> existsb f ws = true.
Proof.
  intros E Hf. apply existsb_exists. exists w. split; [|done].
  apply list_elem_of_In. by eapply list_elem_of_lookup_2.
Qed.

Record inv (n S : Z) (p : pool) : Prop := mkInv {
  inv_running : running_ p = true;
  inv_threads : zlen (working_threads_ p) = n;
  inv_exited : countw is_exited (working_threads_ p) = 0;
  inv_idle : countw is_waiting (working_threads_ p) = idle_thread_num_ p + Z.b2z (notifying p);
  inv_idle_nonneg : 0 <= idle_thread_num_ p;
  inv_queue : zlen (task_queue_ p) =
    task_num_ p + Z.b2z (notifying p) + countw is_woken (working_threads_ p);
  inv_task_nonneg : 0 <= task_num_ p;
  inv_fifo : started p ++ task_queue_ p = submitted p;
  inv_room : task_num_ p + zlen (submitting p) <= max_task_num_ p - 1 + S;
}.

Lemma pool_inv_init k max S :
  0 <= max -> 1 <= S -> inv (Z.of_nat k) S (ThreadPool_init k max).
Proof.
  intros Hm HS. split; cbn [ThreadPool_init running_ working_threads_ idle_thread_num_ notifying
    task_queue_ task_num_ submitting submitted started max_task_num_]; rewrite ?countw_replicate by done;
    try done.
  - unfold zlen. by rewrite length_replicate.
  - unfold zlen. cbn [length]. lia.
Qed.

Ltac pool_cbn := cbn [running_ max_task_num_ task_num_ idle_thread_num_ task_queue_
  working_threads_ notifying submitting submitted started set_worker set_workers] in *.

(** Closes the goals about counts after a worker has moved. *)
Ltac count_tac E :=
  rewrite ?(countw_insert _ _ _ _ _ E); cbn [is_waiting is_woken is_exited Z.b2z] in *;
  unfold zlen in *; rewrite ?length_insert, ?length_app in *; cbn [length] in *; lia.

Lemma idle_bound n S p : inv n S p -> idle_thread_num_ p <= n.
Proof.
  intros []. pose proof (countw_bounds is_waiting (working_threads_ p)).
  destruct (notifying p); cbn in *; lia.
Qed.

Lemma worker_top_inv n S i p p' :
  n < 2 ^ 64 -> inv n S p -> worker_top i p = Some p' -> inv n S p'.
Proof.
  intros Hn Hi. unfold worker_top. destruct (working_threads_ p !! i) as [[]|] eqn:E; try done.
  intros [= <-]. pose proof (idle_bound n S p Hi) as Hb. destruct Hi. rewrite inv_running0.
  assert (idle_thread_num_ p < n) as Hlt.
  { pose proof (countw_bounds is_waiting (<[i := Waiting]> (working_threads_ p))) as Hc.
    rewrite (countw_insert _ _ _ _ _ E) in Hc. unfold zlen in *. rewrite length_insert in Hc.
    destruct (notifying p); cbn in *; lia. }
  rewrite (uwrap_small 64) by (unfold in_u; lia).
  split; pool_cbn; try done; try (count_tac E).
Qed.

Lemma worker_wake_inv n S i p p' : inv n S p -> worker_wake i p = Some p' -> inv n S p'.
Proof.
  intros []. unfold worker_wake. destruct (working_threads_ p !! i) as [[]|] eqn:E; try done.
  rewrite inv_running0.
  assert (0 < countw is_woken (working_threads_ p)) as Hpos.
  { pose proof (countw_bounds is_woken (<[i := AtTop]> (working_threads_ p))) as Hc.
    rewrite (countw_insert _ _ _ _ _ E) in Hc. cbn in Hc. lia. }
  destruct (task_queue_ p) as [|t queue] eqn:Eq.
  { rewrite zlen_nil in *. destruct (notifying p); cbn in *; lia. }
  intros [= <-]. rewrite zlen_cons in *. split; pool_cbn; try done; try (count_tac E).
  by rewrite <- app_assoc.
Qed.

Lemma worker_done_inv n S i p p' : inv n S p -> worker_done i p = Some p' -> inv n S p'.
Proof.
  intros []. unfold worker_done. destruct (working_threads_ p !! i) as [[]|] eqn:E; try done.
  intros [= <-]. split; pool_cbn; try done; try (count_tac E).
Qed.

Lemma notifier_check_inv n S p p' : inv n S p -> notifier_check p = Some p' -> inv n S p'.
Proof.
  intros []. unfold notifier_check. destruct (notifying p) eqn:En; [done|]. cbn [negb andb].
  destruct (Z.ltb_spec 0 (idle_thread_num_ p)); [|done].
  destruct (Z.ltb_spec 0 (task_num_ p)); [|done]. cbn [andb].
  intros [= <-]. split; pool_cbn; cbn [Z.b2z] in *; try done; lia.
Qed.

Lemma notify_one_inv n S i p p' : inv n S p -> notify_one i p = Some p' -> inv n S p'.
Proof.
  intros []. unfold notify_one. destruct (notifying p) eqn:En; [|done]. cbn [negb Z.b2z] in *.
  assert (existsb is_waiting (working_threads_ p) = true) as ->.
  { destruct (countw_exists is_waiting (working_threads_ p)) as (j & w & ? & ?); [lia|].
    by eapply existsb_lookup. }
  destruct (working_threads_ p !! i) as [[]|] eqn:E; try done.
  intros [= <-]. split; pool_cbn; try done; try (count_tac E).
Qed.

Lemma work_step_max p p' : work_step p p' -> max_task_num_ p' = max_task_num_ p.
Proof.
  intros [? ? ? E|? ? ? E|? ? ? E|? ? E|? ? ? E]; revert E;
    unfold worker_top, worker_wake, worker_done, notifier_check, notify_one;
    repeat case_match; intros; by simplify_eq.
Qed.

Lemma pool_step_inv n S p p' :
  n < 2 ^ 64 -> max_task_num_ p - 1 + S < 2 ^ 64 -> inv n S p -> pool_step S p p' ->
  inv n S p' /\ max_task_num_ p' = max_task_num_ p.
Proof.
  intros Hn Hm Hi Hst. revert Hm Hi. destruct Hst as [p0 p1 Hw|t p0 p1 E Hs|k p0 p1 E]; intros Hm Hi.
  - split; [|by apply work_step_max]. revert Hi. clear Hm.
    destruct Hw; intros Hi; [eapply worker_top_inv|eapply worker_wake_inv|eapply worker_done_inv|
      eapply notifier_check_inv|eapply notify_one_inv]; done.
  - unfold Submit_check in E. destruct (Z.leb_spec (max_task_num_ p0) (task_num_ p0)); [done|].
    simplify_eq. split; [|done]. destruct Hi. split; pool_cbn; try done.
    rewrite zlen_app. cbn. unfold zlen in *. cbn [length]. lia.
  - unfold Submit_push in E. destruct (submitting p0 !! k) as [t|] eqn:Ek; [|done].
    cbn in E. simplify_eq. split; [|done]. destruct Hi.
    assert (zlen (delete k (submitting p0)) = zlen (submitting p0) - 1) as Hd.
    { unfold zlen. rewrite length_delete by eauto. apply lookup_lt_Some in Ek. lia. }
    pose proof (zlen_nonneg (delete k (submitting p0))).
    split; pool_cbn; rewrite ?(uwrap_small 64) by (unfold in_u; lia); try done; try lia.
    + rewrite zlen_snoc. lia.
    + rewrite app_assoc. by rewrite inv_fifo0.
Qed.

(** The states a pool of [k] threads for [max] tasks reaches with at most [S]
    calls of Submit at a time. *)
Definition pool_reachable (k : nat) (max S : Z) (p : pool) : Prop :=
  rtc (pool_step S) (ThreadPool_init k max) p.

Lemma pool_reachable_inv k max S p :
  Z.of_nat k < 2 ^ 64 -> 0 <= max -> 1 <= S -> max - 1 + S < 2 ^ 64 ->
  pool_reachable k max S p -> inv (Z.of_nat k) S p /\ max_task_num_ p = max.
Proof.
  intros Hk Hm HS Hb Hr. unfold pool_reachable in Hr.
  assert (inv (Z.of_nat k) S p /\ max_task_num_ p = max_task_num_ (ThreadPool_init k max)) as H.
  { revert Hr. apply (rtc_ind_r (fun q => inv (Z.of_nat k) S q /\
      max_task_num_ q = max_task_num_ (ThreadPool_init k max)) (ThreadPool_init k max)).
    - split; [by apply pool_inv_init|done].
    - intros q q' _ Hs [Hi Hq].
      destruct (pool_step_inv (Z.of_nat k) S q q') as [? E]; [done|rewrite Hq; done|done..|].
      split; [done|congruence]. }
  exact H.
Qed.

Lemma work_available n S p :
  inv n S p -> 0 < n -> task_queue_ p <> [] -> exists p', work_step p p'.
Proof.
  intros [] Hn Hq. destruct (working_threads_ p) as [|w ws] eqn:Ew.
  { rewrite zlen_nil in *. lia. }
  assert (working_threads_ p !! O = Some w) as E0 by (by rewrite Ew).
  destruct w.
  - eexists. apply (step_top O). unfold worker_top. by rewrite E0.
  - destruct (notifying p) eqn:En.
    + eexists. apply (step_notify O). unfold notify_one. by rewrite En, E0.
    + cbn [countw is_waiting Z.b2z] in inv_idle0.
      pose proof (countw_bounds is_waiting ws).
      destruct (decide (0 < task_num_ p)) as [Ht|Ht].
      * eexists. apply step_check. unfold notifier_check. rewrite En. cbn [negb andb].
        rewrite !(proj2 (Z.ltb_lt 0 _)) by lia. done.
      * rewrite <- Ew in *.
        destruct (countw_exists is_woken (working_threads_ p)) as (i & w & Ei & Hw).
        { destruct (task_queue_ p); [done|]. rewrite zlen_cons in *. cbn [Z.b2z] in *.
          pose proof (zlen_nonneg l). lia. }
        destruct w; try done. eexists. apply (step_wake i). unfold worker_wake. by rewrite Ei.
  - eexists. apply (step_wake O). unfold worker_wake. by rewrite E0.
  - eexists. apply (step_done O). unfold worker_done. by rewrite E0.
  - cbn [countw is_exited Z.b2z] in inv_exited0. pose proof (countw_bounds is_exited ws). lia.
Qed.

(** C19: until the pool is destroyed, and for all interleavings of its threads
    without spurious wakeups, the tasks are started in the order in which they were pushed, none twice and
    none left out; no worker ends; at most [max - 1 + S] tasks are counted when
    [S] calls of Submit run at a time; and as long as a task is queued some
    thread of the pool can proceed. *)
Theorem pool_runs_tasks_in_order k max S p :
  Z.of_nat k < 2 ^ 64 -> 0 <= max -> 1 <= S -> max - 1 + S < 2 ^ 64 ->
  pool_reachable k max S p ->
  started p ++ task_queue_ p = submitted p /\
  (forall i, working_threads_ p !! i <> Some Exited) /\
  task_num_ p <= max - 1 + S /\
  ((0 < k)%nat -> task_queue_ p <> [] -> exists p', work_step p p').
Proof.
  intros Hk Hm HS Hb Hr. destruct (pool_reachable_inv k max S p) as [Hi Hmax]; [done..|].
  pose proof (work_available _ _ _ Hi) as Hwork. destruct Hi. split_and!; [done| | |].
  - intros i E. assert (0 < countw is_exited (working_threads_ p)); [|lia].
    pose proof (countw_bounds is_exited (<[i := AtTop]> (working_threads_ p))) as Hc.
    rewrite (countw_insert _ _ _ _ _ E) in Hc. cbn in Hc. lia.
  - pose proof (zlen_nonneg (submitting p)). lia.
  - intros. apply Hwork; [lia|done].
Qed.
End pool.
Arguments pool : clear implicits.

(** ** Runs *)

Definition run (fs : list (pool nat -> option (pool nat))) (p : pool nat) : option (pool nat) :=
  foldl (fun o f => o ≫= f) (Some p) fs.

(** A pool of one thread that has taken one of two tasks. *)
Definition run1 : pool nat := Eval vm_compute in
  default (ThreadPool_init 1 10)
    (run [worker_top 0; Submit_check 7%nat; Submit_push 0; Submit_check 8%nat; Submit_push 0;
          notifier_check; notify_one 0; worker_wake 0] (ThreadPool_init 1 10)).

Lemma run1_reachable : pool_reachable 1 10 1 run1.
Proof.
  unfold pool_reachable.
  eapply rtc_l; [apply step_work, (step_top 0); vm_compute; reflexivity|].
  eapply rtc_l; [apply (step_submit_check 1 7%nat); vm_compute; reflexivity|].
  eapply rtc_l; [apply (step_submit_push 1 0); vm_compute; reflexivity|].
  eapply rtc_l; [apply (step_submit_check 1 8%nat); vm_compute; reflexivity|].
  eapply rtc_l; [apply (step_submit_push 1 0); vm_compute; reflexivity|].
  eapply rtc_l; [apply step_work, step_check; vm_compute; reflexivity|].
  eapply rtc_l; [apply step_work, (step_notify 0); vm_compute; reflexivity|].
  eapply rtc_l; [apply step_work, (step_wake 0); vm_compute; reflexivity|].
  apply rtc_refl.
Qed.

Lemma pool_runs_tasks_in_order_witness :
  started run1 = [7%nat] /\ started run1 ++ task_queue_ run1 = submitted run1 /\
  exists p', work_step run1 p'.
Proof.
  destruct (pool_runs_tasks_in_order 1 10 1 run1) as (H1 & _ & _ & H4).
  - lia.
  - lia.
  - lia.
  - lia.
  - apply run1_reachable.
  - split; [reflexivity|]. split; [exact H1|]. apply H4; [lia|discriminate].
Defined.

(** The pool after its only thread woke up spuriously and a task was pushed and
    notified. *)
Definition stranded : option (pool nat) :=
  run [worker_top 0; spurious_wakeup 0; worker_wake 0; Submit_check 7%nat; Submit_push 0;
       notifier_check; notify_one 0] (ThreadPool_init 1 10).

(** One spurious wakeup of a worker that waits for work, which the standard
    allows, loses the worker for good: it ends, it stays counted as idle, the
    notification for the next task goes to no one, and the task remains in the
    queue with no thread of the pool able to proceed. *)
Theorem spurious_wakeup_strands_task :
  exists p, stranded = Some p /\ running_ p = true /\ task_queue_ p = [7%nat] /\
    started p = [] /\ working_threads_ p = [Exited] /\ forall p', ~ work_step p p'.
Proof.
  eexists. split; [vm_compute; reflexivity|]. cbn [running_ task_queue_ started working_threads_].
  split_and!; [done..|]. intros p' Hs.
  remember (mkPool _ _ _ _ _ _ _ _ _ _) as p eqn:Ep.
  destruct Hs as [i ? ? E|i ? ? E|i ? ? E|? ? E|i ? ? E]; subst; revert E;
    unfold worker_top, worker_wake, worker_done, notifier_check, notify_one;
    cbn [working_threads_ notifying idle_thread_num_ task_num_ negb andb];
    try (destruct i as [|[|i]]; done). done.
Qed.
