(* ===== verification/Latch.v ===== *)
(** * The count down latch

    src/even-http/ps/core/count_down_latch.{h,cc}.  A thread in Wait is where it
    stands; a step is a section under the mutex.  The condition variable may
    wake a thread spuriously at any time. *)
From S2P Require Import Prelude.

Inductive waiter : Type :=
| Calling (* before the lock is taken *)
| Blocked (* in condition_.wait *)
| Notified (* woken, before the lock is taken again *)
| Returned.
#[global] Instance waiter_eq_dec : EqDecision waiter.
Proof. solve_decision. Defined.

Record CountDownLatch : Type := mkLatch { count_ : Z; waiters : list waiter }.

Definition CountDownLatch_init (count : Z) (threads : nat) : CountDownLatch :=
  mkLatch count (replicate threads Calling).

Definition set_waiter (i : nat) (w : waiter) (l : CountDownLatch) : CountDownLatch :=
  mkLatch (count_ l) (<[i := w]> (waiters l)).

(** Wait up to the wait on the condition; the predicate is false when the
    count is positive. *)
Definition Wait_enter (i : nat) (l : CountDownLatch) : option CountDownLatch :=
  match waiters l !! i with
  | Some Calling => Some (set_waiter i (if count_ l >? 0 then Blocked else Returned) l)
  | _ => None
  end.

(** A thread that was woken evaluates the predicate. *)
Definition Wait_wake (i : nat) (l : CountDownLatch) : option CountDownLatch :=
  match waiters l !! i with
  | Some Notified => Some (set_waiter i (if count_ l =? 0 then Returned else Blocked) l)
  | _ => None
  end.

Definition spurious (i : nat) (l : CountDownLatch) : option CountDownLatch :=
  match waiters l !! i with
  | Some Blocked => Some (set_waiter i Notified l)
  | _ => None
  end.

Definition notify (w : waiter) : waiter := match w with Blocked => Notified | _ => w end.

(** [None]: signed overflow. *)
Definition CountDown (l : CountDownLatch) : option CountDownLatch :=
  if count_ l <=? - 2 ^ 31 then None else
  let count := count_ l - 1 in
  Some (mkLatch count (if count =? 0 then map notify (waiters l) else waiters l)).

Definition GetCount (l : CountDownLatch) : Z := count_ l.

(** What WaitFor returns when it is called with a count of [count]; [zero] is
    the predicate at the end of wait_for. *)
Definition WaitFor_result (count : Z) (zero : bool) : outcome unit bool :=
  if count >? 0 then Ret zero tt else Undef "no return statement".

(** [downs] counts the calls of CountDown. *)
Inductive latch_step : CountDownLatch * Z -> CountDownLatch * Z -> Prop :=
| latch_enter i l l' d : Wait_enter i l = Some l' -> latch_step (l, d) (l', d)
| latch_wake i l l' d : Wait_wake i l = Some l' -> latch_step (l, d) (l', d)
| latch_spurious i l l' d : spurious i l = Some l' -> latch_step (l, d) (l', d)
| latch_down l l' d : CountDown l = Some l' -> latch_step (l, d) (l', d + 1).

(** ** Properties *)
Record latch_inv (n : Z) (ld : CountDownLatch * Z) : Prop := mkLatchInv {
  latch_count : count_ ld.1 = n - ld.2;
  latch_returned i : waiters ld.1 !! i = Some Returned -> count_ ld.1 <= 0;
  latch_blocked i : waiters ld.1 !! i = Some Blocked -> count_ ld.1 <> 0;
}.

Lemma lookup_set_waiter i j w l v :
  waiters (set_waiter i w l) !! j = Some v -> (j = i /\ v = w) \/ waiters l !! j = Some v.
Proof.
  cbn. destruct (decide (i = j)) as [->|]; [|rewrite list_lookup_insert_ne by done; auto].
  intros H. pose proof (lookup_lt_Some _ _ _ H) as Hl. rewrite length_insert in Hl.
  rewrite list_lookup_insert_eq in H by done. left. split; congruence.
Qed.

Lemma latch_set_waiter n i w l d :
  latch_inv n (l, d) -> (w = Returned -> count_ l <= 0) -> (w = Blocked -> count_ l <> 0) ->
  latch_inv n (set_waiter i w l, d).
Proof.
  intros [Hc Hr Hb] H1 H2. split; cbn [fst snd] in *; [done|..];
    intros j [[-> E]|E]%lookup_set_waiter; change (count_ (set_waiter i w l)) with (count_ l); eauto.
Qed.

Lemma latch_step_inv n ld ld' : latch_step ld ld' -> latch_inv n ld -> latch_inv n ld'.
Proof.
  intros [i l l' d E|i l l' d E|i l l' d E|l l' d E]; revert E;
    unfold Wait_enter, Wait_wake, spurious, CountDown.
  - destruct (waiters l !! i) as [[]|]; intros [= <-]. intros Hi.
    apply latch_set_waiter; [done|..]; destruct (Z.gtb_spec (count_ l) 0); done || lia.
  - destruct (waiters l !! i) as [[]|]; intros [= <-]. intros Hi.
    apply latch_set_waiter; [done|..]; destruct (Z.eqb_spec (count_ l) 0); done || lia.
  - destruct (waiters l !! i) as [[]|]; intros [= <-]. intros Hi. by apply latch_set_waiter.
  - destruct (count_ l <=? _); [done|]. intros [= <-] [Hc Hr Hb]. split; cbn [fst snd count_ waiters] in *.
    + lia.
    + intros i. destruct (Z.eqb_spec (count_ l - 1) 0); [lia|]. intros H%Hr. lia.
    + intros i. destruct (Z.eqb_spec (count_ l - 1) 0); [|done].
      rewrite list_lookup_fmap. by destruct (waiters l !! i) as [[]|].
Qed.

Lemma latch_reachable_inv n k ld :
  0 <= n -> rtc latch_step (CountDownLatch_init n k, 0) ld -> latch_inv n ld.
Proof.
  intros Hn Hr. apply (rtc_ind_r (latch_inv n) (CountDownLatch_init n k, 0)) in Hr; [done|..].
  - split; cbn; [lia|..]; intros i; rewrite lookup_replicate; by intros [? _].
  - intros. by eapply latch_step_inv.
Qed.

(** For all interleavings, also with spurious wakeups: no Wait returns while
    fewer calls of CountDown than the initial count have been made, and once
    exactly as many have been made every Wait that is still going on returns at
    its next step. *)
Theorem latch_releases n k l d :
  0 <= n -> rtc latch_step (CountDownLatch_init n k, 0) (l, d) ->
  (d < n -> forall i, waiters l !! i <> Some Returned) /\
  (d = n -> forall i w, waiters l !! i = Some w -> w <> Returned ->
     Wait_enter i l = Some (set_waiter i Returned l) \/ Wait_wake i l = Some (set_waiter i Returned l)).
Proof.
  intros Hn Hr. destruct (latch_reachable_inv n k (l, d) Hn Hr) as [Hc Hret Hb]. cbn in *. split.
  - intros Hd i E. specialize (Hret i E). lia.
  - intros Hd i w E Hw. assert (count_ l = 0) as H0 by lia.
    unfold Wait_enter, Wait_wake. rewrite E, H0. destruct w; auto; try done.
    exfalso. by apply (Hb i).
Qed.

Definition latch_run : CountDownLatch := mkLatch 0 [Notified].

Lemma latch_run_reachable : rtc latch_step (CountDownLatch_init 2 1, 0) (latch_run, 2).
Proof.
  eapply rtc_l; [apply (latch_enter 0); vm_compute; reflexivity|].
  eapply rtc_l; [apply latch_down; vm_compute; reflexivity|].
  eapply rtc_l; [apply latch_down; vm_compute; reflexivity|].
  apply rtc_refl.
Qed.

Lemma latch_releases_witness : Wait_wake 0 latch_run = Some (mkLatch 0 [Returned]).
Proof.
  destruct (latch_releases 2 1 latch_run 2) as [_ H].
  - lia.
  - apply latch_run_reachable.
  - destruct (H eq_refl O Notified) as [E|E]; [reflexivity|discriminate|discriminate E|exact E].
Defined.

(** The waiter never returns again. *)
Definition stuck (ld : CountDownLatch * Z) : Prop :=
  count_ ld.1 < 0 /\ (waiters ld.1 !! O = Some Blocked \/ waiters ld.1 !! O = Some Notified).

Lemma stuck_set i w l d :
  (w = Blocked \/ w = Notified \/ waiters l !! i = Some Calling) -> stuck (l, d) ->
  stuck (set_waiter i w l, d).
Proof.
  intros Hw [Hc Hs]. split; [done|]. cbn [fst set_waiter waiters] in *.
  destruct (decide (i = O)) as [->|].
  - destruct (waiters l) as [|x ws]; [by destruct Hs|]. cbn in *. destruct Hw as [->|[->|Hw]]; auto.
    destruct Hs; congruence.
  - rewrite !list_lookup_insert_ne by done. done.
Qed.

Lemma latch_step_stuck ld ld' : latch_step ld ld' -> stuck ld -> stuck ld'.
Proof.
  intros [i l l' d E|i l l' d E|i l l' d E|l l' d E]; revert E;
    unfold Wait_enter, Wait_wake, spurious, CountDown.
  - destruct (waiters l !! i) as [[]|] eqn:Ei; intros [= <-]. apply stuck_set. auto.
  - destruct (waiters l !! i) as [[]|] eqn:Ei; intros [= <-]. intros Hs.
    rewrite (proj2 (Z.eqb_neq _ _)) by (destruct Hs; cbn in *; lia). apply stuck_set; auto.
  - destruct (waiters l !! i) as [[]|] eqn:Ei; intros [= <-]. apply stuck_set. auto.
  - destruct (count_ l <=? _); [done|]. intros [= <-] [Hc Hs]. split; cbn [fst count_ waiters] in *; [lia|].
    by rewrite (proj2 (Z.eqb_neq _ _)) by lia.
Qed.

(** One CountDown too many can block a Wait for ever.  If a second CountDown
    of a latch of one comes before the woken thread has the lock again, the
    predicate [count_ == 0] is false from then on, and whatever happens later
    the Wait does not return. *)
Theorem extra_count_down_blocks :
  exists l, rtc latch_step (CountDownLatch_init 1 1, 0) (l, 2) /\
    forall l' d', rtc latch_step (l, 2) (l', d') -> waiters l' !! O <> Some Returned.
Proof.
  exists (mkLatch (-1) [Notified]). split.
  - eapply rtc_l; [apply (latch_enter 0); vm_compute; reflexivity|].
    eapply rtc_l; [apply latch_down; vm_compute; reflexivity|].
    eapply rtc_l; [apply latch_down; vm_compute; reflexivity|]. apply rtc_refl.
  - intros l' d' Hr.
    assert (stuck (l', d')) as [_ [H|H]]; [|cbn in H; congruence..].
    apply (rtc_ind_r stuck (mkLatch (-1) [Notified], 2)) in Hr; [done|..].
    + split; [done|]. by right.
    + intros. by eapply latch_step_stuck.
Qed.
