(* ===== verification/Fsm.v ===== *)
(** * The state machine

    src/even-http/ps/core/fsm.cpp: the machine FSM and the three states of its
    program.  What is printed is recorded; all_states has the states by their
    number, and a number it does not have stands for the null pointer that
    operator[] makes. *)
From S2P Require Import Prelude.

Inductive State : Type := StateIdle | StateAttack | StateGoHome.
Inductive output : Type := Entered (s : State) | Ticked (s : State) | Left (s : State).

Definition State_Idle : Z := 1.
Definition State_Attack : Z := 2.
Definition State_GoHome : Z := 3.

(** [test_counter] is the member of the state Idle. *)
Record FSM : Type := mkFSM {
  all_states : gmap Z State;
  curState : Z;
  test_counter : Z;
  printed : list output;
}.
Definition FSM_init : FSM := mkFSM ∅ (-1) 0 [].

Definition print (o : output) : M FSM unit :=
  modify (fun f => mkFSM (all_states f) (curState f) (test_counter f) (printed f ++ [o])).
Definition set_counter (c : Z) : M FSM unit :=
  modify (fun f => mkFSM (all_states f) (curState f) c (printed f)).
Definition set_cur (s : Z) : M FSM unit :=
  modify (fun f => mkFSM (all_states f) s (test_counter f) (printed f)).

Definition Register (e : Z) (pState : State) : M FSM bool :=
  _ ← modify (fun f => mkFSM (<[e := pState]> (all_states f)) (curState f) (test_counter f) (printed f));
  mret true.

Definition OnStateEnter (s : State) : M FSM unit :=
  _ ← print (Entered s);
  match s with StateIdle => set_counter 0 | _ => mret tt end.

Definition OnStateExit (s : State) : M FSM unit := print (Left s).

(** [all_states[s]->...] *)
Definition state_at (s : Z) : M FSM State :=
  f ← getS;
  match all_states f !! s with
  | Some st => mret st
  | None => undef "a method of a null state"
  end.

Definition Trans (newState : Z) : M FSM bool :=
  f ← getS;
  old ← state_at (curState f);
  _ ← OnStateExit old;
  new ← state_at newState;
  _ ← OnStateEnter new;
  _ ← set_cur newState;
  mret true.

Definition OnStateTick (s : State) : M FSM unit :=
  _ ← print (Ticked s);
  match s with
  | StateIdle =>
    f ← getS;
    _ ← set_counter (i32 (test_counter f + 1));
    if i32 (test_counter f + 1) =? 5 then _ ← Trans State_Attack; mret tt else mret tt
  | _ => mret tt
  end.

Definition SetInitState (s : Z) : M FSM unit := set_cur s.

Definition Tick : M FSM unit :=
  f ← getS;
  s ← state_at (curState f);
  OnStateTick s.

(** The start of main, and [n] turns of its loop. *)
Definition main_setup : M FSM unit :=
  _ ← Register State_Idle StateIdle;
  _ ← Register State_Attack StateAttack;
  _ ← Register State_GoHome StateGoHome;
  SetInitState State_Idle.

Fixpoint ticks (n : nat) : M FSM unit :=
  match n with
  | O => mret tt
  | S n => _ ← Tick; ticks n
  end.

(** ** Properties *)
Definition registered : gmap Z State :=
  <[State_GoHome := StateGoHome]> (<[State_Attack := StateAttack]> {[State_Idle := StateIdle]}).

Lemma attack_ticks n c l :
  ticks n (mkFSM registered State_Attack c l) =
  Ret tt (mkFSM registered State_Attack c (l ++ replicate n (Ticked StateAttack))).
Proof.
  induction n as [|n IH] in l |- *; cbn [ticks replicate]; [by rewrite app_nil_r|].
  erewrite bind_Ret by reflexivity. rewrite IH, <- app_assoc. done.
Qed.

Lemma ticks_add n m f : ticks (n + m) f = (ticks n ≫= fun _ => ticks m) f.
Proof.
  induction n as [|n IH] in f |- *; [done|]. cbn [ticks Nat.add]. rewrite bind_assoc.
  unfold mbind at 1 2, M_bind at 1 2. destruct (Tick f); [apply IH|done..].
Qed.

(** The loop of main never stops with an error.  It ticks the state Idle
    five times, at the fifth leaves it and enters Attack, and then ticks Attack
    for ever; GoHome is never entered. *)
Theorem main_loop n :
  exists f, (_ ← main_setup; ticks (5 + n)) FSM_init = Ret tt f /\ curState f = State_Attack /\
    printed f = replicate 5 (Ticked StateIdle) ++ [Left StateIdle; Entered StateAttack] ++
                replicate n (Ticked StateAttack).
Proof.
  eexists. split.
  - erewrite bind_Ret by reflexivity. rewrite ticks_add.
    erewrite bind_Ret by (vm_compute; reflexivity). apply (attack_ticks n).
  - split; reflexivity.
Qed.
