(* ===== verification/Http.v ===== *)
(** * HTTP

    src/even-http/ps/core: http_message_handler.{h,cc} (a request and its
    response), http_client.{h,cc} (requests and the callbacks that collect a
    response), worker_queue.{h,cc}, ssl_util.{h,cc} and http_server.{h,cc} (the
    threads that serve the requests).

    libevent's HTTP layer and OpenSSL are parameters: what a call of them
    returns is an argument or comes from a function of the section, and the
    data of a request is the record [evhttp_request].  Bodies are lists of
    bytes. *)
From S2P Require Import Prelude Securec Config TcpServer.
From Stdlib Require Import Ascii.

(** ** Data of libevent *)
Abbreviation evkeyvalq := (list (string * string)).

Record evhttp_uri : Type := mkUri {
  uri_host : option string;
  uri_port : Z; (* -1 when there is none *)
  uri_path : option string;
  uri_query : option string;
  uri_fragment : option string;
}.

Record evhttp_request : Type := mkRequest {
  req_uri : option string;
  req_host : option string;
  req_evuri : option evhttp_uri;
  input_headers : evkeyvalq;
  input_buffer : list Z;
  body_size : Z;
  response_code : Z;
}.

(** A reply that was sent: code, headers and body, or an error with its text. *)
Inductive reply : Type :=
| Reply (code : Z) (headers : evkeyvalq) (body : list Z)
| ErrorReply (code : Z) (message : option string).

(** ** HttpMessageHandler *)
Record HttpMessageHandler : Type := mkHttp {
  event_request_ : option evhttp_request;
  event_uri_ : option evhttp_uri;
  path_params_ : evkeyvalq;
  head_params_ : option evkeyvalq;
  post_params_ : evkeyvalq;
  post_param_parsed_ : bool;
  post_message_ : option (list Z);
  body_ : option (list Z);
  resp_headers_ : option evkeyvalq;
  resp_buf_ : option (list Z);
  resp_code_ : Z;
  content_len_ : Z;
  event_base_ : bool;
  offset_ : Z;
  replies : list reply;
}.

Definition HTTP_OK : Z := 200.
Definition HttpMessageHandler_init : HttpMessageHandler :=
  mkHttp None None [] None [] false None None None None HTTP_OK 0 false 0 [].

Definition set_uri u (h : HttpMessageHandler) :=
  mkHttp (event_request_ h) u (path_params_ h) (head_params_ h) (post_params_ h) (post_param_parsed_ h)
    (post_message_ h) (body_ h) (resp_headers_ h) (resp_buf_ h) (resp_code_ h) (content_len_ h)
    (event_base_ h) (offset_ h) (replies h).
Definition put_request r (h : HttpMessageHandler) :=
  mkHttp r (event_uri_ h) (path_params_ h) (head_params_ h) (post_params_ h) (post_param_parsed_ h)
    (post_message_ h) (body_ h) (resp_headers_ h) (resp_buf_ h) (resp_code_ h) (content_len_ h)
    (event_base_ h) (offset_ h) (replies h).
Definition set_path_params p (h : HttpMessageHandler) :=
  mkHttp (event_request_ h) (event_uri_ h) p (head_params_ h) (post_params_ h) (post_param_parsed_ h)
    (post_message_ h) (body_ h) (resp_headers_ h) (resp_buf_ h) (resp_code_ h) (content_len_ h)
    (event_base_ h) (offset_ h) (replies h).
Definition set_streams hp rh rb (h : HttpMessageHandler) :=
  mkHttp (event_request_ h) (event_uri_ h) (path_params_ h) hp (post_params_ h) (post_param_parsed_ h)
    (post_message_ h) (body_ h) rh rb (resp_code_ h) (content_len_ h)
    (event_base_ h) (offset_ h) (replies h).
Definition set_post p b m (h : HttpMessageHandler) :=
  mkHttp (event_request_ h) (event_uri_ h) (path_params_ h) (head_params_ h) p b
    m (body_ h) (resp_headers_ h) (resp_buf_ h) (resp_code_ h) (content_len_ h)
    (event_base_ h) (offset_ h) (replies h).
Definition put_body b (h : HttpMessageHandler) :=
  mkHttp (event_request_ h) (event_uri_ h) (path_params_ h) (head_params_ h) (post_params_ h)
    (post_param_parsed_ h) (post_message_ h) b (resp_headers_ h) (resp_buf_ h) (resp_code_ h)
    (content_len_ h) (event_base_ h) (offset_ h) (replies h).
Definition put_code c (h : HttpMessageHandler) :=
  mkHttp (event_request_ h) (event_uri_ h) (path_params_ h) (head_params_ h) (post_params_ h)
    (post_param_parsed_ h) (post_message_ h) (body_ h) (resp_headers_ h) (resp_buf_ h) c
    (content_len_ h) (event_base_ h) (offset_ h) (replies h).
Definition put_content_len n (h : HttpMessageHandler) :=
  mkHttp (event_request_ h) (event_uri_ h) (path_params_ h) (head_params_ h) (post_params_ h)
    (post_param_parsed_ h) (post_message_ h) (body_ h) (resp_headers_ h) (resp_buf_ h) (resp_code_ h)
    n (event_base_ h) (offset_ h) (replies h).
Definition put_base b (h : HttpMessageHandler) :=
  mkHttp (event_request_ h) (event_uri_ h) (path_params_ h) (head_params_ h) (post_params_ h)
    (post_param_parsed_ h) (post_message_ h) (body_ h) (resp_headers_ h) (resp_buf_ h) (resp_code_ h)
    (content_len_ h) b (offset_ h) (replies h).
Definition put_offset o (h : HttpMessageHandler) :=
  mkHttp (event_request_ h) (event_uri_ h) (path_params_ h) (head_params_ h) (post_params_ h)
    (post_param_parsed_ h) (post_message_ h) (body_ h) (resp_headers_ h) (resp_buf_ h) (resp_code_ h)
    (content_len_ h) (event_base_ h) o (replies h).
Definition add_reply r (h : HttpMessageHandler) :=
  mkHttp (event_request_ h) (event_uri_ h) (path_params_ h) (head_params_ h) (post_params_ h)
    (post_param_parsed_ h) (post_message_ h) (body_ h) (resp_headers_ h) (resp_buf_ h) (resp_code_ h)
    (content_len_ h) (event_base_ h) (offset_ h) (replies h ++ [r]).

Ltac htcbn := cbn [event_request_ event_uri_ path_params_ head_params_ post_params_ post_param_parsed_
  post_message_ body_ resp_headers_ resp_buf_ resp_code_ content_len_ event_base_ offset_ replies
  set_uri put_request set_path_params set_streams set_post put_body put_code put_content_len put_base
  put_offset add_reply] in *.

(** [MS_EXCEPTION_IF_NULL] of a pointer, and the pointer. *)
Definition non_null {S A} (p : option A) : M S A :=
  match p with Some a => mret a | None => throw "The pointer is null." end.

Section handler.
(** libevent: parsing of queries and URLs, the search for a header, and whether
    a header or bytes can be added. *)
Context (evhttp_parse_query_str : list Z -> option evkeyvalq).
Context (evhttp_uri_parse : string -> option evhttp_uri).
Context (evhttp_find_header : evkeyvalq -> string -> option string).
Context (evhttp_add_header : evkeyvalq -> string -> string -> option evkeyvalq).
Context (evbuffer_add : list Z -> list Z -> option (list Z)).

Definition InitHttpMessage : M HttpMessageHandler unit :=
  h ← getS;
  req ← non_null (event_request_ h);
  _ ← modify (set_uri (req_evuri req));
  uri ← non_null (req_evuri req);
  _ ← (match uri_query uri with
       | Some query => modify (set_path_params (default [] (evhttp_parse_query_str (bytes_of query))))
       | None => mret tt
       end);
  modify (set_streams (Some (input_headers req)) (Some []) (Some [])).

Definition ParseUrl (url : string) : M HttpMessageHandler unit :=
  _ ← modify (set_uri (evhttp_uri_parse url));
  _ ← non_null (evhttp_uri_parse url);
  mret tt.

Definition GetHeadParam (key : string) : M HttpMessageHandler string :=
  h ← getS;
  params ← non_null (head_params_ h);
  non_null (evhttp_find_header params key).
Definition GetPathParam (key : string) : M HttpMessageHandler string :=
  h ← getS;
  non_null (evhttp_find_header (path_params_ h) key).

Definition ParsePostParam : M HttpMessageHandler unit :=
  h ← getS;
  req ← non_null (event_request_ h);
  let message := input_buffer req in
  _ ← (if zlen message =? 0 then throw "The post parameter size is: 0" else mret tt);
  _ ← modify (set_post (post_params_ h) true (Some message));
  match evhttp_parse_query_str (c_string message) with
  | None => throw "Parse post parameter failed!"
  | Some params => modify (set_post params true (Some message))
  end.

Definition GetPostParam (key : string) : M HttpMessageHandler string :=
  h ← getS;
  _ ← (if negb (post_param_parsed_ h) then ParsePostParam else mret tt);
  h ← getS;
  non_null (evhttp_find_header (post_params_ h) key).

Definition GetRequestUri : M HttpMessageHandler string :=
  h ← getS; req ← non_null (event_request_ h); non_null (req_uri req).
Definition GetRequestHost : M HttpMessageHandler string :=
  h ← getS; req ← non_null (event_request_ h); non_null (req_host req).
Definition GetHostByUri : M HttpMessageHandler string :=
  h ← getS; uri ← non_null (event_uri_ h); non_null (uri_host uri).
Definition GetUriPort : M HttpMessageHandler Z :=
  h ← getS; uri ← non_null (event_uri_ h);
  mret (if uri_port uri <? 0 then 80 else uri_port uri).
Definition GetUriPath : M HttpMessageHandler string :=
  h ← getS; uri ← non_null (event_uri_ h); non_null (uri_path uri).
Definition GetUriQuery : M HttpMessageHandler string :=
  h ← getS; uri ← non_null (event_uri_ h); non_null (uri_query uri).
Definition GetUriFragment : M HttpMessageHandler string :=
  h ← getS; uri ← non_null (event_uri_ h); non_null (uri_fragment uri).

Definition GetRequestPath : M HttpMessageHandler string :=
  h ← getS;
  uri ← non_null (event_uri_ h);
  let path := match uri_path uri with
              | None | Some EmptyString => "/"%string
              | Some path => path
              end in
  mret (match uri_query uri with Some query => (path +:+ "?" +:+ query)%string | None => path end).

Definition GetPostMsg : M HttpMessageHandler (list Z) :=
  h ← getS;
  req ← non_null (event_request_ h);
  if zlen (input_buffer req) =? 0 then throw "The post message is empty!" else mret (input_buffer req).

Definition AddRespHeadParam (key val : string) : M HttpMessageHandler unit :=
  h ← getS;
  headers ← non_null (resp_headers_ h);
  match evhttp_add_header headers key val with
  | None => throw "Add parameter of response header failed."
  | Some headers => modify (set_streams (head_params_ h) (Some headers) (resp_buf_ h))
  end.

Fixpoint add_each (key : string) (vals : list string) : M HttpMessageHandler unit :=
  match vals with
  | [] => mret tt
  | v :: vals => _ ← AddRespHeadParam key v; add_each key vals
  end.
(** The std::map of the headers as the list of its entries in their order. *)
Fixpoint AddRespHeaders (headers : list (string * list string)) : M HttpMessageHandler unit :=
  match headers with
  | [] => mret tt
  | (key, vals) :: headers => _ ← add_each key vals; AddRespHeaders headers
  end.

(** [evbuffer_add] or [evbuffer_add_printf] to the response. *)
Definition add_body (bytes : list Z) (error : string) : M HttpMessageHandler unit :=
  h ← getS;
  buf ← non_null (resp_buf_ h);
  match evbuffer_add buf bytes with
  | None => throw error
  | Some buf => modify (set_streams (head_params_ h) (resp_headers_ h) (Some buf))
  end.
Definition AddRespString (str : list Z) : M HttpMessageHandler unit :=
  add_body (c_string str) "Add string to response body failed.".

Definition SetRespCode (code : Z) : M HttpMessageHandler unit := modify (put_code code).

(** [evhttp_send_reply], which drains the buffer. *)
Definition evhttp_send_reply (code : Z) : M HttpMessageHandler unit :=
  modify (fun h => set_streams (head_params_ h) (resp_headers_ h) (Some [])
    (add_reply (Reply code (default [] (resp_headers_ h)) (default [] (resp_buf_ h))) h)).

Definition SendResponse : M HttpMessageHandler unit :=
  h ← getS;
  _ ← non_null (event_request_ h);
  _ ← non_null (resp_buf_ h);
  evhttp_send_reply (resp_code_ h).

Definition QuickResponse (code : Z) (body : option (list Z)) : M HttpMessageHandler unit :=
  h ← getS;
  _ ← non_null (event_request_ h);
  body ← non_null body;
  _ ← add_body body "Add body to response body failed.";
  evhttp_send_reply code.

Definition SimpleResponse (code : Z) (headers : list (string * list string)) (body : list Z)
    : M HttpMessageHandler unit :=
  h ← getS;
  _ ← non_null (event_request_ h);
  _ ← non_null (resp_buf_ h);
  _ ← AddRespHeaders headers;
  _ ← AddRespString body;
  evhttp_send_reply (resp_code_ h).

Definition RespError (nCode : Z) (message : string) : M HttpMessageHandler unit :=
  h ← getS;
  _ ← non_null (event_request_ h);
  modify (add_reply (ErrorReply nCode (if bool_decide (message = EmptyString) then None
                                       else Some message))).


Definition set_http_base (base : bool) : M HttpMessageHandler unit :=
  _ ← exception_if_null base; modify (put_base true).
Definition set_request (req : option evhttp_request) : M HttpMessageHandler unit :=
  _ ← non_null req; modify (put_request req).
Definition set_body (body : option (list Z)) : M HttpMessageHandler unit := modify (put_body body).

End handler.

(** ** HttpClient *)
Definition HM_GET : Z := 1.
Definition HM_POST : Z := 2.
Definition Status_OK : Z := 200.
Definition Status_BADREQUEST : Z := 400.
Definition Status_NOTFOUND : Z := 404.
Definition Status_INTERNAL : Z := 500.

(** [dns_base_] is whether it was freed. *)
Record HttpClient : Type := mkHttpClient {
  client_base_ : bool;
  dns_base_ : option bool;
  is_init_ : bool;
  connection_timout_ : Z;
}.
Definition HttpClient_init : HttpClient := mkHttpClient false None false 120.

(** Init frees the dns base it has just made and keeps the pointer. *)
Definition HttpClient_Init (base dns : bool) : M HttpClient bool :=
  _ ← modify (fun c => mkHttpClient base (dns_base_ c) (is_init_ c) (connection_timout_ c));
  _ ← exception_if_null base;
  _ ← modify (fun c => mkHttpClient base (if dns then Some false else None) (is_init_ c) (connection_timout_ c));
  _ ← exception_if_null dns;
  _ ← modify (fun c => mkHttpClient base (Some true) (is_init_ c) (connection_timout_ c));
  mret true.

Definition set_connection_timeout (timeout : Z) : M HttpClient unit :=
  modify (fun c => mkHttpClient (client_base_ c) (dns_base_ c) (is_init_ c) timeout).


Section client.
Context (evhttp_uri_parse : string -> option evhttp_uri).
Context (evhttp_add_header : evkeyvalq -> string -> string -> option evkeyvalq).
(** [evbuffer_remove] into a buffer of [kMessageChunkLength] bytes: what it took
    and what is left, [None] when it returns nothing. *)
Context (evbuffer_remove : list Z -> option (list Z * list Z)).




Definition ConnectionCloseCallback {S} (loopexit : Z) : M S unit :=
  if negb (loopexit =? 0) then throw "event base loop exit failed!" else mret tt.

Fixpoint add_headers (headers out : evkeyvalq) : M HttpMessageHandler evkeyvalq :=
  match headers with
  | [] => mret out
  | (k, v) :: headers =>
    match evhttp_add_header out k v with
    | None => throw "Add header failed!"
    | Some out => add_headers headers out
    end
  end.
Definition AddHeaders (headers : evkeyvalq) : M HttpMessageHandler evkeyvalq :=
  host ← GetHostByUri;
  match evhttp_add_header [] "Host" host with
  | None => throw "Add header failed!"
  | Some out => add_headers headers out
  end.

Definition InitRequest (base : bool) (url : string) : M HttpMessageHandler unit :=
  _ ← set_http_base base;
  ParseUrl evhttp_uri_parse url.

(** [event_base_loop] runs the callbacks and returns [ret]. *)
Definition HttpClient_Start (base : bool) (loop : M HttpMessageHandler Z) : M HttpMessageHandler bool :=
  _ ← exception_if_null base;
  ret ← loop;
  if ret =? 0 then mret true
  else if (ret =? 1) || (ret =? -1) then mret false
  else throw "Event base dispatch with unexpected error code!".

(** What is sent. *)
Record http_request : Type := mkHttpRequest {
  hr_method : Z;
  hr_host : string;
  hr_port : Z;
  hr_path : string;
  hr_headers : evkeyvalq;
  hr_body : list Z;
}.

(** Every way out of CreateRequest touches a request that is not the client's any
    more: evhttp_make_request gives it to the connection, or frees it when it
    fails, and once the callback of ReadCallback has returned the connection has
    freed it, since nothing takes it over with evhttp_request_own.  [make] is the
    result of evhttp_make_request. *)
Definition CreateRequest (base : bool) (make : Z) (loop : M HttpMessageHandler Z)
    : M HttpMessageHandler Z :=
  if negb (make =? 0) then undef "evhttp_request_free of a request evhttp_make_request has freed" else
  ok ← HttpClient_Start base loop;
  if negb (ok : bool) then undef "evhttp_request_free of a request of the connection" else
  h ← getS;
  match event_request_ h with
  | Some _ => undef "response code of a request that was freed after its callback"
  | None => undef "evhttp_request_free of a request of the connection"
  end.

(** Post and Get of the client [c]; [connection], [added] and [make] are the
    results of evhttp_connection_base_new, evbuffer_add and
    evhttp_make_request, and [loop] may depend on what was sent.
    evhttp_connection_base_new is given the DNS base that [HttpClient_Init] has
    freed. *)
Definition do_request (c : HttpClient) (method : Z) (url : string) (body : list Z) (headers : evkeyvalq)
    (connection : bool) (added : Z) (make : Z) (loop : http_request -> M HttpMessageHandler Z)
    : M HttpMessageHandler Z :=
  _ ← set_body (Some []);
  _ ← InitRequest (client_base_ c) url;
  host ← GetHostByUri;
  port ← GetUriPort;
  if bool_decide (dns_base_ c = Some true) then undef "evhttp_connection_base_new with a freed DNS base" else
  if negb connection then mret Status_BADREQUEST else
  if negb (added =? 0) then mret Status_INTERNAL else
  out ← AddHeaders headers;
  path ← GetRequestPath;
  CreateRequest (client_base_ c) make (loop (mkHttpRequest method host port path out body)).

Definition Post c url (body : option (list Z)) headers connection added make loop
    : M HttpMessageHandler Z :=
  body ← non_null body;
  do_request c HM_POST url body headers connection added make loop.
Definition Get c url headers connection make loop : M HttpMessageHandler Z :=
  do_request c HM_GET url [] headers connection 0 make loop.
End client.

(** ** SSLUtil, WorkerQueue and HttpServer *)

(** The static context, by a number, and the contexts that were freed. *)
Record ssl : Type := mkSSL { g_ssl_ctx_ : option Z; freed : gset Z }.

Definition InitSSL {Q} (rand_poll : Z) (ctx : option Z) (store : Z) : M (ssl * Q) bool :=
  if rand_poll =? 0 then mret false else
  _ ← modify (fun s => (mkSSL ctx (freed s.1), s.2));
  if bool_decide (ctx = None) then mret false else
  mret (store =? 1).

Definition CleanSSL {Q} : M (ssl * Q) unit :=
  s ← getS;
  match g_ssl_ctx_ s.1 with
  | None => mret tt
  | Some c =>
    if bool_decide (c ∈ freed s.1) then undef "SSL_CTX_free of a context that was freed" else
    modify (fun s => (mkSSL (g_ssl_ctx_ s.1) ({[c]} ∪ freed s.1), s.2))
  end.

(** [routes] are the URLs for which evhttp_set_cb was called, with the function. *)
Record WorkerQueue : Type := mkQueue { evbase_ : bool; routes : list (string * Z) }.
Definition WorkerQueue_init : WorkerQueue := mkQueue false [].

(** What the calls of Initialize return. *)
Record queue_results : Type := mkQueueResults {
  q_base : bool;
  q_http : bool;
  q_ecdh : bool;
  q_certificate : bool;
  q_private_key : bool;
  q_check_key : bool;
  q_accept : Z;
  q_set_cb : string -> Z;
}.

Fixpoint register_routes (set_cb : string -> Z) (handlers : list (string * Z)) : M WorkerQueue bool :=
  match handlers with
  | [] => mret true
  | (url, f) :: handlers =>
    let ret := set_cb url in
    if ret =? 0 then
      _ ← modify (fun q => mkQueue (evbase_ q) (routes q ++ [(url, f)]));
      register_routes set_cb handlers
    else if ret =? -1 then register_routes set_cb handlers
    else mret false
  end.

Definition WorkerQueue_Initialize (r : queue_results) (handlers : gmap string Z) : M WorkerQueue bool :=
  _ ← modify (fun q => mkQueue (q_base r) (routes q));
  _ ← exception_if_null (q_base r);
  _ ← exception_if_null (q_http r);
  _ ← exception_if_null (q_ecdh r);
  if negb (q_certificate r) then mret false else
  if negb (q_private_key r) then mret false else
  if negb (q_check_key r) then mret false else
  if q_accept r <? 0 then mret false else
  register_routes (q_set_cb r) (map_to_list handlers).

(** The function registered for a URL gets a handler made from the request. *)
Definition TransFunc (evhttp_parse_query_str : list Z -> option evkeyvalq)
    (func : M HttpMessageHandler unit) (req : option evhttp_request)
    : outcome HttpMessageHandler unit :=
  (_ ← exception_if_null (bool_decide (is_Some req));
   _ ← set_request req;
   _ ← InitHttpMessage evhttp_parse_query_str;
   func) HttpMessageHandler_init.

(** The loop of a worker thread; it ends when the base is told to. *)
Definition WorkerQueue_Run : M (ssl * WorkerQueue) unit :=
  s ← getS;
  _ ← exception_if_null (evbase_ s.2);
  _ ← modify (fun s => (s.1, mkQueue false (routes s.2)));
  CleanSSL.

(** libevent's loopbreak of a null base returns -1. *)
Definition WorkerQueue_Stop (ret : Z) : M WorkerQueue unit :=
  q ← getS;
  if negb ((if evbase_ q then ret else -1) =? 0) then throw "event base loop break failed!" else mret tt.

Record HttpServer : Type := mkHttpServer {
  http_address_ : string;
  http_port_ : Z;
  is_stop_ : bool;
  request_timeout_ : Z;
  thread_num_ : nat;
  worker_threads_ : list bool; (* whether the thread object is there *)
  worker_queues_ : list WorkerQueue;
  request_handlers_ : gmap string Z;
  fd_ : Z;
}.
Definition HttpServer_init (address : string) (port : Z) (thread_num : nat) : HttpServer :=
  mkHttpServer address port true 300 thread_num [] [] ∅ (-1).

Definition put_stop b (s : HttpServer) : HttpServer :=
  mkHttpServer (http_address_ s) (http_port_ s) b (request_timeout_ s) (thread_num_ s)
    (worker_threads_ s) (worker_queues_ s) (request_handlers_ s) (fd_ s).
Definition put_fd fd (s : HttpServer) : HttpServer :=
  mkHttpServer (http_address_ s) (http_port_ s) (is_stop_ s) (request_timeout_ s) (thread_num_ s)
    (worker_threads_ s) (worker_queues_ s) (request_handlers_ s) fd.
Definition put_workers ts qs (s : HttpServer) : HttpServer :=
  mkHttpServer (http_address_ s) (http_port_ s) (is_stop_ s) (request_timeout_ s) (thread_num_ s)
    ts qs (request_handlers_ s) (fd_ s).

(** What the calls of InitServer return; [i_ssl] is the result of InitSSL. *)
Record server_results : Type := mkServerResults {
  i_pthreads : Z;
  i_ssl : bool;
  i_socket : Z;
  i_sockopt : Z;
  i_bind : Z;
  i_listen : Z;
  i_getfl : Z;
  i_setfl : Z;
}.

Definition InitServer (inet_addr : string -> Z) (r : server_results) : M HttpServer bool :=
  s ← getS;
  if negb (CheckIp inet_addr (http_address_ s)) then mret false else
  _ ← modify (put_stop false);
  if negb (i_pthreads r =? 0) then mret false else
  if negb (i_ssl r) then mret false else
  _ ← modify (put_fd (i_socket r));
  if i_socket r <? 0 then mret false else
  if i_sockopt r <? 0 then mret false else
  if i_bind r <? 0 then mret false else
  if i_listen r <? 0 then mret false else
  mret (negb ((i_getfl r <? 0) || (i_setfl r <? 0))).

Definition SetTimeOut (seconds : Z) : M HttpServer unit :=
  if seconds <? 0 then throw "The timeout seconds is less than 0!" else
  modify (fun s => mkHttpServer (http_address_ s) (http_port_ s) (is_stop_ s) seconds (thread_num_ s)
    (worker_threads_ s) (worker_queues_ s) (request_handlers_ s) (fd_ s)).

Definition RegisterRoute (url : string) (function : option Z) : M HttpServer bool :=
  match function with
  | None => mret false
  | Some f =>
    _ ← modify (fun s => mkHttpServer (http_address_ s) (http_port_ s) (is_stop_ s) (request_timeout_ s)
          (thread_num_ s) (worker_threads_ s) (worker_queues_ s) (<[url := f]> (request_handlers_ s)) (fd_ s));
    mret true
  end.

(** The queues are started one after the other; what Initialize returns is not
    looked at. *)
Fixpoint start_queues (rs : list queue_results) : M HttpServer unit :=
  match rs with
  | [] => mret tt
  | r :: rs =>
    s ← getS;
    match WorkerQueue_Initialize r (request_handlers_ s) WorkerQueue_init with
    | Ret _ q => _ ← modify (fun s => put_workers (worker_threads_ s ++ [true]) (worker_queues_ s ++ [q]) s);
                 start_queues rs
    | Throw e _ => throw e
    | Undef w => undef w
    | Fuel => fun _ => Fuel
    end
  end.
(** [results] are those of the [thread_num_] queues. *)
Definition HttpServer_Start (results : list queue_results) : M HttpServer bool :=
  s ← getS;
  _ ← start_queues (take (thread_num_ s) results);
  mret true.

(** All threads have ended. *)
Definition HttpServer_Wait : M HttpServer bool :=
  s ← getS;
  if bool_decide (take (thread_num_ s) (worker_threads_ s) = replicate (thread_num_ s) true) then
    _ ← modify (fun s => put_workers (replicate (thread_num_ s) false ++
                  drop (thread_num_ s) (worker_threads_ s)) (worker_queues_ s) s);
    mret true
  else undef "join of a missing thread".

Fixpoint stop_queues (rets : list Z) (qs : list WorkerQueue) : M HttpServer unit :=
  match qs, rets with
  | q :: qs, ret :: rets =>
    match WorkerQueue_Stop ret q with
    | Ret _ _ => stop_queues rets qs
    | Throw e _ => throw e
    | _ => undef "stop of a queue"
    end
  | _, _ => mret tt
  end.
(** [rets] are the results of the [thread_num_] calls of event_base_loopbreak. *)
Definition HttpServer_Stop (rets : list Z) : M HttpServer unit :=
  s ← getS;
  if is_stop_ s then mret tt else
  if (length (worker_queues_ s) <? thread_num_ s)%nat then undef "a queue that was not made" else
  _ ← stop_queues rets (take (thread_num_ s) (worker_queues_ s));
  modify (put_stop true).

(** ** Receiving a response *)
Section receive.
Context (evhttp_uri_parse : string -> option evhttp_uri).
Context (evhttp_add_header : evkeyvalq -> string -> string -> option evkeyvalq).
Context (evbuffer_remove : list Z -> option (list Z * list Z)).
(** evbuffer_remove(3): nothing from an empty buffer, otherwise between one byte
    and the size of the destination from the front. *)
Hypothesis remove_empty : evbuffer_remove [] = None.
Hypothesis remove_some : forall l, l <> [] -> exists a b,
  evbuffer_remove l = Some (a, b) /\ l = a ++ b /\ 0 < zlen a <= kMessageChunkLength.
















End receive.

(** The threads of an HTTP server free the SSL context once each.  It is
    shared and stays set after it was freed, so the second worker thread whose
    loop ends frees it again. *)
Theorem second_worker_frees_again s c q1 q2 :
  g_ssl_ctx_ s = Some c -> c ∉ freed s -> evbase_ q1 = true -> evbase_ q2 = true ->
  exists s1 q1' why, WorkerQueue_Run (s, q1) = Ret tt (s1, q1') /\
    WorkerQueue_Run (s1, q2) = Undef why.
Proof.
  intros Hc Hf H1 H2. eexists _, _, _. unfold WorkerQueue_Run. split.
  - erewrite bind_Ret by reflexivity. cbn [snd]. rewrite H1. erewrite bind_Ret by reflexivity.
    erewrite bind_Ret by reflexivity. unfold CleanSSL. erewrite bind_Ret by reflexivity. cbn [fst].
    rewrite Hc, bool_decide_eq_false_2 by done. reflexivity.
  - erewrite bind_Ret by reflexivity. cbn [snd]. rewrite H2. erewrite bind_Ret by reflexivity.
    erewrite bind_Ret by reflexivity. unfold CleanSSL. erewrite bind_Ret by reflexivity.
    cbn [fst g_ssl_ctx_ freed]. rewrite Hc, bool_decide_eq_true_2 by set_solver. reflexivity.
Qed.

Lemma second_worker_frees_again_witness :
  exists s1 q1' why, WorkerQueue_Run (mkSSL (Some 1) ∅, mkQueue true []) = Ret tt (s1, q1') /\
    WorkerQueue_Run (s1, mkQueue true []) = Undef why.
Proof.
  apply (second_worker_frees_again (mkSSL (Some 1) ∅) 1); [reflexivity|apply not_elem_of_empty|..]; reflexivity.
Defined.



(** Init succeeds, and no request can be made after it: Get and Post of any URL
    with a host, whatever the headers, the results of libevent and the response,
    use the DNS base that Init has freed. *)
Theorem requests_use_freed_dns evhttp_uri_parse evhttp_add_header c c' url uri host body headers
    connection added make loop h :
  HttpClient_Init true true c = Ret true c' ->
  evhttp_uri_parse url = Some uri -> uri_host uri = Some host ->
  (exists why, Get evhttp_uri_parse evhttp_add_header c' url headers connection make loop h = Undef why) /\
  (exists why, Post evhttp_uri_parse evhttp_add_header c' url (Some body) headers connection added make loop h =
     Undef why).
Proof.
  intros [= <-] Hu Hh. unfold Get, Post, do_request, InitRequest, ParseUrl, non_null. rewrite Hu.
  unfold GetHostByUri, non_null, mbind, M_bind, getS, mret, M_ret, set_body, set_http_base, modify.
  cbn [client_base_ exception_if_null]. unfold exception_if_null, mbind, M_bind, mret, M_ret.
  htcbn. rewrite Hh. split; eexists; reflexivity.
Qed.


