(* ===== verification/HttpPrograms.v ===== *)
(** * The example of the HTTP server

    src/even-http/ps/core/example_old.cpp: the handlers of its two routes, over
    the operations of [Http], and the routes it registers. *)
From S2P Require Import Prelude Config Http.
#[local] Open Scope Z_scope.

(** Runs the operations of a handler on a known state. *)
Ltac hrun :=
  unfold TransFunc, InitHttpMessage, GetRequestHost, GetRequestUri, GetUriQuery, GetUriPath, GetPathParam,
    GetHeadParam, GetPostParam, ParsePostParam, GetPostMsg, AddRespHeadParam, AddRespString, QuickResponse,
    add_body, SetRespCode, SendResponse, evhttp_send_reply, set_request, exception_if_null, non_null,
    mbind, M_bind, mret, M_ret, getS, modify, throw; cbn.

Section example.
Context (evhttp_parse_query_str : list Z -> option evkeyvalq).
Context (evhttp_find_header : evkeyvalq -> string -> option string).
Context (evhttp_add_header : evkeyvalq -> string -> string -> option evkeyvalq).
Context (evbuffer_add : list Z -> list Z -> option (list Z)).

Definition line_end : list Z := [10].
Definition rBody : list Z := bytes_of "post request success!" ++ line_end.

(** [a] is the count of the requests that were answered, an atomic of 64 bits;
    its new value is returned.  The copy of the body in the local array is not
    read. *)
Definition Process (a : Z) : M HttpMessageHandler Z :=
  _ ← GetRequestHost;
  _ ← GetPathParam evhttp_find_header "key1";
  _ ← GetHeadParam evhttp_find_header "headerKey";
  _ ← GetPostParam evhttp_parse_query_str evhttp_find_header "postKey";
  _ ← GetPostMsg;
  _ ← AddRespHeadParam evhttp_add_header "headKey" "headValue";
  _ ← AddRespString evbuffer_add rBody;
  _ ← SetRespCode 200;
  _ ← SendResponse;
  mret (uwrap 64 (a + 1)).

Definition testGetHandler (a : Z) : M HttpMessageHandler unit := _ ← Process a; mret tt.

(** The array [ret] of the handler of /httpget, its terminating zero included. *)
Definition get_ret : list Z := bytes_of "get request success!" ++ line_end ++ [0].
Definition get_handler : M HttpMessageHandler unit :=
  QuickResponse evbuffer_add 200 (Some (ztake 22 get_ret)).

(** The functions are numbered: 1 is [get_handler], 2 is [testGetHandler]. *)
Definition StartHttpServer (inet_addr : string -> Z) (r : server_results) (results : list queue_results)
    : M HttpServer bool :=
  _ ← InitServer inet_addr r;
  _ ← RegisterRoute "/httpget" (Some 1);
  _ ← RegisterRoute "/handler" (Some 2);
  _ ← HttpServer_Start results;
  HttpServer_Wait.

(** What a request has to have for [Process] to reach its end. *)
Definition has (params : evkeyvalq) (key : string) : bool :=
  match evhttp_find_header params key with Some _ => true | None => false end.
Definition path_params (uri : evhttp_uri) : evkeyvalq :=
  match uri_query uri with
  | Some query => default [] (evhttp_parse_query_str (bytes_of query))
  | None => []
  end.
Definition complete (req : evhttp_request) : bool :=
  match req_evuri req, req_host req with
  | Some uri, Some _ =>
    has (path_params uri) "key1" && has (input_headers req) "headerKey" &&
    negb (zlen (input_buffer req) =? 0) &&
    match evhttp_parse_query_str (c_string (input_buffer req)) with
    | Some params => has params "postKey"
    | None => false
    end
  | _, _ => false
  end.

Definition replied {A} (o : outcome HttpMessageHandler A) : option (list reply) :=
  match o with
  | Ret _ h | Throw _ h => Some (replies h)
  | _ => None
  end.
Definition returned {A} (o : outcome HttpMessageHandler A) : bool :=
  match o with Ret _ _ => true | _ => false end.
Definition served (func : M HttpMessageHandler unit) (req : evhttp_request)
    : outcome HttpMessageHandler unit :=
  TransFunc evhttp_parse_query_str func (Some req).

Ltac found k :=
  match goal with |- context [evhttp_find_header ?l k] => destruct (evhttp_find_header l k) end.

Hypothesis add_header_first : forall k v, evhttp_add_header [] k v = Some [(k, v)].
Hypothesis add_to_empty : forall l, evbuffer_add [] l = Some l.

(** The handler of /handler answers a request exactly when the request names
    its host and has the three parameters and a body that parses: then the one
    reply has code 200, the header of the program and its text.  Any other
    request ends the handler with an exception and gets no reply at all. *)
Theorem handler_answers a req :
  replied (served (testGetHandler a) req) =
    Some (if complete req then [Reply 200 [("headKey", "headValue")%string] rBody] else []) /\
  returned (served (testGetHandler a) req) = complete req.
Proof.
  unfold complete, has, path_params, served, testGetHandler, Process.
  destruct req as [uri host [[uh up upath uq uf]|] hd buf bs rc]; [|done].
  destruct uq as [q|], host as [host|]; try done; hrun;
    (found "key1"%string; [|done]); hrun; (found "headerKey"%string; [|done]); hrun;
    (destruct (zlen buf =? 0) eqn:E; [done|]); hrun;
    (destruct (evhttp_parse_query_str (c_string buf)) as [params|]; [|done]); hrun;
    (found "postKey"%string; [|done]); hrun; rewrite E; hrun; rewrite add_header_first; hrun; by rewrite add_to_empty.
Qed.

(** The reply of /httpget has 22 bytes, the terminating zero of the text being
    the last. *)
Theorem get_sends_zero req :
  is_Some (req_evuri req) ->
  exists text, text = bytes_of "get request success!" ++ line_end /\
    replied (served get_handler req) = Some [Reply 200 [] (text ++ [0])].
Proof.
  intros [[uh up upath uq uf] E]. eexists; split; [reflexivity|].
  unfold served, get_handler. destruct req; cbn in E. subst. destruct uq; hrun; by rewrite add_to_empty.
Qed.

End example.


(** The program's client sends such requests. *)
Definition example_query (l : list Z) : option evkeyvalq :=
  if bool_decide (l = bytes_of "key1=value1") then Some [("key1", "value1")%string]
  else if bool_decide (l = bytes_of "postKey=postValue") then Some [("postKey", "postValue")%string]
  else None.
Definition example_find (params : evkeyvalq) (key : string) : option string :=
  snd <$> head (filter (fun p => p.1 = key) params).
Definition example_request (body : string) : evhttp_request :=
  mkRequest (Some "/handler?key1=value1"%string) (Some "127.0.0.1"%string)
    (Some (mkUri None (-1) (Some "/handler"%string) (Some "key1=value1"%string) None))
    [("headerKey", "headerValue")%string] (bytes_of body) 0 0.

Lemma handler_answers_witness :
  let serve body := served example_query (testGetHandler example_query example_find
    (fun l k v => Some (l ++ [(k, v)])) (fun l k => Some (l ++ k)) 0) (example_request body) in
  replied (serve "postKey=postValue"%string) = Some [Reply 200 [("headKey", "headValue")%string] rBody] /\
  replied (serve EmptyString) = Some [].
Proof.
  split; [apply (handler_answers example_query example_find (fun l k v => Some (l ++ [(k, v)]))
    (fun l k => Some (l ++ k)) (fun k v => eq_refl) (fun l => eq_refl) 0 (example_request "postKey=postValue"))
  | apply (handler_answers example_query example_find (fun l k v => Some (l ++ [(k, v)]))
    (fun l k => Some (l ++ k)) (fun k v => eq_refl) (fun l => eq_refl) 0 (example_request EmptyString))].
Defined.

Lemma get_sends_zero_witness :
  exists text, replied (served example_query (get_handler (fun l k => Some (l ++ k)))
    (example_request EmptyString)) = Some [Reply 200 [] (text ++ [0])].
Proof.
  destruct (get_sends_zero example_query (fun l k => Some (l ++ k)) (fun l => eq_refl) (example_request EmptyString))
    as (text & _ & E); [by eexists|]. by exists text.
Defined.
