(* ===== verification/MsgTcp.v ===== *)
(** * The length-prefixed message protocol

    src/event-tcp: proto_utils.{h,cpp} (the parser of the frames),
    proto_server.{h,cpp} (connections and server) and proto_client.{h,cpp} (the
    client).  A frame is a magic number and a length in network byte order and
    then that many bytes.  libevent and the sockets are parameters as in
    TcpServer.v: the results of the calls are arguments. *)
From S2P Require Import Prelude.
From stdpp Require Import sorting.
From Stdlib Require Import Ascii.
#[local] Open Scope Z_scope.

(** ** msgparser *)
Definition MAGIC : Z := 0x372947.
Definition NO_LENGTH : Z := 0xFFFFFFFF.
Definition error_listener_failed : Z := 1000.
Definition error_base_failed : Z := 1001.

(** [calls] are the calls of the callback: the buffer, null to signal an error,
    and the length. *)
Record msgparser : Type := mkParser {
  mCallback : bool;
  mMagic : Z;
  mLength : Z;
  mBuffer : list Z;
  calls : list (option (list Z) * Z);
}.
Definition msgparser_init : msgparser := mkParser false 0 NO_LENGTH [] [].

Definition set_callback (p : msgparser) : msgparser :=
  mkParser true (mMagic p) (mLength p) (mBuffer p) (calls p).

(** [ntohl] of the four bytes at an address. *)
Definition be32 (l : list Z) : Z :=
  match l with
  | a :: b :: c :: d :: _ => ((a * 256 + b) * 256 + c) * 256 + d
  | _ => 0
  end.
(** [htonl]: the bytes as they lie in memory. *)
Definition htonl (z : Z) : list Z :=
  [z / 2 ^ 24 mod 256; z / 2 ^ 16 mod 256; z / 2 ^ 8 mod 256; z mod 256].

Definition call (c : option (list Z) * Z) (p : msgparser) : list (option (list Z) * Z) :=
  if mCallback p then calls p ++ [c] else calls p.

(** A turn of the loop; [None] when its condition is false. *)
Definition parse_step (p : msgparser) : option msgparser :=
  if (mLength p <=? zlen (mBuffer p)) || ((mLength p =? NO_LENGTH) && (8 <=? zlen (mBuffer p))) then
    Some
      (if mLength p =? NO_LENGTH then
         if 8 <=? zlen (mBuffer p) then
           let magic := be32 (mBuffer p) in
           let length := be32 (drop 4 (mBuffer p)) in
           let buffer := drop 8 (mBuffer p) in
           mkParser (mCallback p) magic length buffer
             (if negb (magic =? MAGIC) then call (None, NO_LENGTH) p else calls p)
         else p
       else if mLength p <=? zlen (mBuffer p) then
         mkParser (mCallback p) 0 NO_LENGTH (zdrop (mLength p) (mBuffer p))
           (call (Some (ztake (mLength p) (mBuffer p)), mLength p) p)
       else p)
  else None.

Fixpoint parse_loop (fuel : nat) : M msgparser unit := fun p =>
  match parse_step p with
  | None => Ret tt p
  | Some p' => match fuel with O => Fuel | S fuel => parse_loop fuel p' end
  end.

Definition append (b : list Z) (p : msgparser) : msgparser :=
  mkParser (mCallback p) (mMagic p) (mLength p) (mBuffer p ++ b) (calls p).

(** A turn takes the header or the message off the buffer. *)
Definition measure (p : msgparser) : nat :=
  2 * length (mBuffer p) + (if mLength p =? NO_LENGTH then 0 else 1).

Definition parse (buffer : list Z) : M msgparser unit :=
  _ ← modify (append buffer);
  p ← getS;
  parse_loop (measure p).

(** ** connection and msgconnection *)

(** [mOutput] is the output of the buffer event. *)
Record connection : Type := mkConn { mOutput : list Z; mParser : msgparser }.

(** [bufferevent_write] fails with -1. *)
Definition send (data : list Z) (ret : Z) : M connection unit :=
  if ret =? -1 then throw "error(errno)" else
  modify (fun c => mkConn (mOutput c ++ data) (mParser c)).

Definition with_parser {A} (m : M msgparser A) : M connection A := fun c =>
  match m (mParser c) with
  | Ret a p => Ret a (mkConn (mOutput c) p)
  | Throw e p => Throw e (mkConn (mOutput c) p)
  | Undef w => Undef w
  | Fuel => Fuel
  end.

Definition on_read_handler (buffer : list Z) : M connection unit := with_parser (parse buffer).

Definition header_bytes (num : Z) : list Z := htonl MAGIC ++ htonl (u32 num).

(** [rets] are the results of the two writes. *)
Definition send_msg (buffer : list Z) (rets : Z * Z) : M connection unit :=
  _ ← send (header_bytes (zlen buffer)) rets.1;
  send buffer rets.2.

(** ** server and msgserver *)

(** The callbacks are whether they are set; [client_accept] is the connection a
    user's function returns, if one is set. *)
Record server : Type := mkMsgServer {
  base : bool;
  listener : bool;
  connections : gmap Z connection;
  client_disconn : bool;
  client_accept : option (option connection);
  disconnected : list Z;
  freed_events : list Z;
}.
Definition server_init : server := mkMsgServer false false ∅ false None [] [].

Definition set_conns f (s : server) : server :=
  mkMsgServer (base s) (listener s) (f (connections s)) (client_disconn s) (client_accept s)
    (disconnected s) (freed_events s).

(** [base_ok] and [listener_ok] are whether the calls of libevent succeed. *)
Definition setup (base_ok listener_ok : bool) : M server unit :=
  _ ← modify (fun s => mkMsgServer base_ok (listener s) (connections s) (client_disconn s)
        (client_accept s) (disconnected s) (freed_events s));
  _ ← (if negb base_ok then throw "error(error_base_failed)" else mret tt);
  _ ← modify (fun s => mkMsgServer (base s) listener_ok (connections s) (client_disconn s)
        (client_accept s) (disconnected s) (freed_events s));
  if negb listener_ok then throw "error(errno)" else mret tt.

(** [std::map::insert] leaves an entry that is there alone. *)
Definition addConnection (fd : Z) (c : connection) : M server unit :=
  modify (set_conns (fun m => match m !! fd with Some _ => m | None => <[fd := c]> m end)).
Definition removeConnection (fd : Z) : M server unit := modify (set_conns (delete fd)).

(** The parser of a connection of a msgserver gets the callback. *)
Definition msgconnection_setup (c : connection) : connection :=
  mkConn [] (set_callback (mParser c)).
Definition on_create_conn (s : server) : option connection :=
  match client_accept s with
  | Some c => c
  | None => Some (mkConn [] msgparser_init)
  end.

(** [bev] is whether bufferevent_socket_new succeeds. *)
Definition listenerCallback (fd : Z) (bev : bool) : M server unit :=
  if negb bev then mret tt else
  s ← getS;
  match on_create_conn s with
  | None => mret tt
  | Some c => addConnection fd (msgconnection_setup c)
  end.

Definition on_conn {A} (fd : Z) (m : M connection A) : M server A := fun s =>
  match connections s !! fd with
  | None => Undef "a connection that is gone"
  | Some c =>
    match m c with
    | Ret a c => Ret a (set_conns (<[fd := c]>) s)
    | Throw e c => Throw e (set_conns (<[fd := c]>) s)
    | Undef w => Undef w
    | Fuel => Fuel
    end
  end.

(** [evbuffer_remove] into a buffer of 1024 bytes; [None]: nothing more. *)
Fixpoint readCallback (evbuffer_remove : list Z -> option (list Z * list Z)) (fuel : nat) (fd : Z)
    (buf : list Z) : M server unit :=
  match evbuffer_remove buf with
  | None => mret tt
  | Some (readbuf, buf) =>
    match fuel with
    | O => fun _ => Fuel
    | S fuel => _ ← on_conn fd (on_read_handler readbuf); readCallback evbuffer_remove fuel fd buf
    end
  end.

Definition notify_disconn (fd : Z) : M server unit :=
  modify (fun s => if client_disconn s
    then mkMsgServer (base s) (listener s) (connections s) (client_disconn s) (client_accept s)
           (disconnected s ++ [fd]) (freed_events s)
    else s).
Definition bufferevent_free (fd : Z) : M server unit :=
  modify (fun s => mkMsgServer (base s) (listener s) (connections s) (client_disconn s)
    (client_accept s) (disconnected s) (freed_events s ++ [fd])).

Definition eventCallback (fd events : Z) : M server unit :=
  if has events BEV_EVENT_EOF then
    _ ← notify_disconn fd;
    _ ← removeConnection fd;
    bufferevent_free fd
  else if has events BEV_EVENT_ERROR then
    _ ← removeConnection fd;
    _ ← bufferevent_free fd;
    notify_disconn fd
  else mret tt.

(** To all connections in the order of their descriptors. *)
Fixpoint send_each (fds : list Z) (data : list Z) (rets : Z -> Z * Z) : M server unit :=
  match fds with
  | [] => mret tt
  | fd :: fds => _ ← on_conn fd (send_msg data (rets fd)); send_each fds data rets
  end.
Definition server_send_msg (data : list Z) (rets : Z -> Z * Z) : M server unit :=
  s ← getS;
  send_each (merge_sort Z.le (elements (dom (connections s)))) data rets.

(** One connection, given by the caller. *)
Definition server_send_msg_to (fd : Z) (data : list Z) (rets : Z * Z) : M server unit :=
  on_conn fd (send_msg data rets).

(** The bytes as they are; an error ends the loop. *)
Fixpoint send_raw_each (fds : list Z) (data : list Z) (ret : Z -> Z) : M server unit :=
  match fds with
  | [] => mret tt
  | fd :: fds => _ ← on_conn fd (send data (ret fd)); send_raw_each fds data ret
  end.
Definition sendToAllClients (data : list Z) (ret : Z -> Z) : M server unit :=
  s ← getS;
  send_raw_each (merge_sort Z.le (elements (dom (connections s)))) data ret.

(** [client_conn] is stored and never called, [client_recv] is called by the base
    class of the connections only. *)
Definition set_callbacks (disconn : bool) (accept : option (option connection)) : M server unit :=
  modify (fun s => mkMsgServer (base s) (listener s) (connections s) disconn accept
    (disconnected s) (freed_events s)).

(** The connections and their buffer events are not freed. *)
Definition server_destructor : M server unit :=
  modify (fun s => mkMsgServer false false (connections s) (client_disconn s) (client_accept s)
    (disconnected s) (freed_events s)).

(** ** client and msgclient *)

(** [connects] are the addresses and ports of the connections that were begun;
    the connected and disconnected callbacks are whether they are set, with
    their calls in [client_events] ([None]: connected), and [messages] are the
    calls of the message callback. *)
Record client : Type := mkClient {
  mBase : bool;
  mTimeoutEvent : bool;
  mBufferEvent : option (list Z);
  mBufferEvent1 : option (list Z);
  mTarget : list ascii;
  mConnectedCb : bool;
  mDisconnectedCb : bool;
  mMessageCb : bool;
  client_parser : msgparser;
  connects : list (Z * Z);
  client_events : list (option Z);
  messages : list (option (list Z) * Z);
}.
Definition DEFAULT_PORT : Z := 9000.
Definition msgclient_init : client :=
  mkClient false false None None [] false false false (set_callback msgparser_init) [] [] [].

Definition set_events b t e e1 (c : client) : client :=
  mkClient b t e e1 (mTarget c) (mConnectedCb c) (mDisconnectedCb c) (mMessageCb c)
    (client_parser c) (connects c) (client_events c) (messages c).
Definition add_connect a (c : client) : client :=
  mkClient (mBase c) (mTimeoutEvent c) (mBufferEvent c) (mBufferEvent1 c) (mTarget c)
    (mConnectedCb c) (mDisconnectedCb c) (mMessageCb c) (client_parser c) (connects c ++ [a])
    (client_events c) (messages c).
Definition add_event e (c : client) : client :=
  mkClient (mBase c) (mTimeoutEvent c) (mBufferEvent c) (mBufferEvent1 c) (mTarget c)
    (mConnectedCb c) (mDisconnectedCb c) (mMessageCb c) (client_parser c) (connects c)
    (client_events c ++ [e]) (messages c).
Definition add_message m (c : client) : client :=
  mkClient (mBase c) (mTimeoutEvent c) (mBufferEvent c) (mBufferEvent1 c) (mTarget c)
    (mConnectedCb c) (mDisconnectedCb c) (mMessageCb c) (client_parser c) (connects c)
    (client_events c) (messages c ++ [m]).
Definition set_parser p (c : client) : client :=
  mkClient (mBase c) (mTimeoutEvent c) (mBufferEvent c) (mBufferEvent1 c) (mTarget c)
    (mConnectedCb c) (mDisconnectedCb c) (mMessageCb c) p (connects c) (client_events c) (messages c).

Definition set_target (target : list ascii) : M client unit :=
  modify (fun c => mkClient (mBase c) (mTimeoutEvent c) (mBufferEvent c) (mBufferEvent1 c) target
    (mConnectedCb c) (mDisconnectedCb c) (mMessageCb c) (client_parser c) (connects c)
    (client_events c) (messages c)).

(** [std::atoi] of a text without blanks and sign. *)
Fixpoint atoi (acc : Z) (l : list ascii) : Z :=
  match l with
  | [] => acc
  | ch :: l => let d := Z.of_nat (nat_of_ascii ch) - 48 in
               if (0 <=? d) && (d <=? 9) then atoi (acc * 10 + d) l else acc
  end.
Fixpoint after_colon (l : list ascii) : option (list ascii) :=
  match l with
  | [] => None
  | ch :: l => if bool_decide (ch = ":"%char) then Some l else after_colon l
  end.
Definition port_of (target : list ascii) : Z :=
  match after_colon target with
  | None => DEFAULT_PORT
  | Some l => u16 (atoi 0 l)
  end.

Section client.
(** evutil_inet_pton: the address of a text that is one; the call returns 1
    then and 0 otherwise. *)
Context (inet_pton : list ascii -> option Z).
Definition inet_pton_ret (t : list ascii) : Z := if bool_decide (is_Some (inet_pton t)) then 1 else 0.

(** [ret] is the result of bufferevent_socket_connect. *)
Definition start (ret : Z) : M client unit :=
  c ← getS;
  if bool_decide (is_Some (mBufferEvent c)) then mret tt else
  _ ← modify (set_events true (mTimeoutEvent c) None (mBufferEvent1 c));
  let port := port_of (mTarget c) in
  if negb (inet_pton_ret (mTarget c) =? 0) then throw "error(errno)" else
  _ ← modify (set_events true (mTimeoutEvent c) (Some []) (mBufferEvent1 c));
  _ ← modify (add_connect (default 0 (inet_pton (mTarget c)), port));
  if ret <? 0 then throw "error(retcode)" else mret tt.

Definition start1 (ret : Z) : M client unit :=
  c ← getS;
  if bool_decide (is_Some (mBufferEvent1 c)) then mret tt else
  let port := port_of (mTarget c) in
  if negb (inet_pton_ret (mTarget c) =? 0) then throw "error(errno)" else
  _ ← modify (set_events (mBase c) (mTimeoutEvent c) (mBufferEvent c) (Some []));
  _ ← modify (add_connect (default 0 (inet_pton (mTarget c)), port));
  if ret <? 0 then throw "error(retcode)" else mret tt.

Definition start_with_delay : M client unit :=
  c ← getS;
  if bool_decide (is_Some (mBufferEvent c)) then mret tt else
  modify (set_events true true (mBufferEvent c) (mBufferEvent1 c)).

Definition stop : M client unit :=
  c ← getS;
  if negb (mBase c) then mret tt else
  modify (set_events false false None (mBufferEvent1 c)).

Definition write (buffer : list Z) : M client unit :=
  modify (fun c => set_events (mBase c) (mTimeoutEvent c)
    ((fun out => out ++ buffer) <$> mBufferEvent c) (mBufferEvent1 c) c).

(** The timer starts the connection and catches the error. *)
Definition timeoutcb (ret : Z) : M client unit := fun c =>
  match start ret c with Throw _ c => Ret tt c | o => o end.

Definition eventcb (events errno : Z) : M client unit :=
  c ← getS;
  if has events BEV_EVENT_CONNECTED then
    if mConnectedCb c then modify (add_event None) else mret tt
  else if has events BEV_EVENT_ERROR then
    if mDisconnectedCb c then modify (add_event (Some errno)) else mret tt
  else if has events BEV_EVENT_EOF then
    if mDisconnectedCb c then modify (add_event (Some 0)) else mret tt
  else mret tt.

(** The callback of the parser. *)
Definition on_parsed (m : option (list Z) * Z) : M client unit :=
  c ← getS;
  _ ← (if bool_decide (m = (None, NO_LENGTH)) then
         _ ← (if mDisconnectedCb c then modify (add_event (Some 200)) else mret tt);
         stop
       else mret tt);
  if mMessageCb c then modify (add_message m) else mret tt.
Fixpoint on_all_parsed (l : list (option (list Z) * Z)) : M client unit :=
  match l with
  | [] => mret tt
  | m :: l => _ ← on_parsed m; on_all_parsed l
  end.

(** The callbacks run in the order of the parser's calls and do not touch it. *)
Definition client_on_read_handler (buf : list Z) : M client unit :=
  c ← getS;
  match parse buf (client_parser c) with
  | Ret _ p => _ ← modify (set_parser p); on_all_parsed (drop (length (calls (client_parser c))) (calls p))
  | Throw e p => _ ← modify (set_parser p); throw e
  | Undef w => undef w
  | Fuel => fun _ => Fuel
  end.

(** The buffer belongs to the buffer event, which stop frees. *)
Fixpoint readcb (evbuffer_remove : list Z -> option (list Z * list Z)) (fuel : nat) (input : list Z)
    : M client unit :=
  c ← getS;
  if bool_decide (mBufferEvent c = None) then undef "evbuffer_remove from a freed buffer event" else
  match evbuffer_remove input with
  | None => mret tt
  | Some (readbuf, input) =>
    match fuel with
    | O => fun _ => Fuel
    | S fuel => _ ← client_on_read_handler readbuf; readcb evbuffer_remove fuel input
    end
  end.

Definition client_set_callbacks (conn disconn : bool) : M client unit :=
  modify (fun c => mkClient (mBase c) (mTimeoutEvent c) (mBufferEvent c) (mBufferEvent1 c) (mTarget c)
    conn disconn (mMessageCb c) (client_parser c) (connects c) (client_events c) (messages c)).
Definition set_message_callback (cb : bool) : M client unit :=
  modify (fun c => mkClient (mBase c) (mTimeoutEvent c) (mBufferEvent c) (mBufferEvent1 c) (mTarget c)
    (mConnectedCb c) (mDisconnectedCb c) cb (client_parser c) (connects c) (client_events c) (messages c)).

Definition client_destructor : M client unit := stop.

Definition client_send_msg (buf : list Z) : M client unit :=
  _ ← write (header_bytes (zlen buf));
  write buf.
End client.

(** ** Parsing *)
Definition steps : msgparser -> msgparser -> Prop := rtc (fun p q => parse_step p = Some q).

Lemma parse_step_measure p p' : parse_step p = Some p' -> (measure p' < measure p)%nat.
Proof.
  unfold parse_step, measure. destruct (Z.eqb_spec (mLength p) NO_LENGTH) as [E|E].
  - destruct (Z.leb_spec 8 (zlen (mBuffer p))) as [H|H].
    + rewrite orb_true_r. intros [= <-]. cbn [mBuffer mLength]. rewrite length_drop.
      unfold zlen in H. case_match; lia.
    + cbn [andb orb]. rewrite orb_false_r. destruct (Z.leb_spec (mLength p) (zlen (mBuffer p))); [|done].
      rewrite E in *. unfold NO_LENGTH in *. lia.
  - cbn [andb]. rewrite orb_false_r. destruct (Z.leb_spec (mLength p) (zlen (mBuffer p))); [|done].
    intros [= <-]. cbn [mBuffer mLength]. rewrite Z.eqb_refl. unfold zdrop. rewrite length_drop. lia.
Qed.

Lemma msg_parse_loop_ends fuel p :
  (measure p <= fuel)%nat ->
  exists p', parse_loop fuel p = Ret tt p' /\ steps p p' /\ parse_step p' = None.
Proof.
  induction fuel as [|fuel IH] in p |- *; intros Hf; cbn [parse_loop];
    (destruct (parse_step p) as [q|] eqn:E; [|exists p; split_and!; [done|apply rtc_refl|done]]);
    apply parse_step_measure in E as Hm; [lia|].
  destruct (IH q) as (p' & -> & Hs & Hn); [lia|]. exists p'. split_and!; [done| |done].
  by eapply rtc_l.
Qed.

Lemma steps_det p p1 p2 :
  steps p p1 -> parse_step p1 = None -> steps p p2 -> parse_step p2 = None -> p1 = p2.
Proof.
  intros H1 N1. revert p2. induction H1 as [p|p q p1 E H1 IH]; intros p2 H2 N2.
  - inversion H2; [done|congruence].
  - inversion H2 as [|x q' y E' H2']; subst; [congruence|]. apply IH; [done| |done].
    rewrite E in E'. by simplify_eq.
Qed.

Lemma be32_app l b : (4 <= length l)%nat -> be32 (l ++ b) = be32 l.
Proof. do 4 (destruct l as [|? l]; [cbn; lia|]). done. Qed.

Lemma parse_step_append p p' b :
  parse_step p = Some p' -> parse_step (append b p) = Some (append b p').
Proof.
  unfold parse_step, append. cbn [mLength mBuffer mCallback mMagic calls]. rewrite zlen_app.
  pose proof (zlen_nonneg b). destruct (Z.eqb_spec (mLength p) NO_LENGTH) as [E|E].
  - rewrite E. destruct (Z.leb_spec 8 (zlen (mBuffer p))) as [H8|H8].
    + rewrite (proj2 (Z.leb_le 8 (zlen (mBuffer p) + zlen b))) by lia. rewrite !orb_true_r.
      intros [= <-]. cbn [mCallback mMagic mLength mBuffer calls]. unfold zlen in H8.
      rewrite !drop_app_le, be32_app, be32_app by (rewrite ?length_drop; lia). done.
    + destruct (Z.leb_spec NO_LENGTH (zlen (mBuffer p))); [unfold NO_LENGTH in *; lia|done].
  - cbn [andb]. rewrite !orb_false_r. destruct (Z.leb_spec (mLength p) (zlen (mBuffer p))); [|done].
    rewrite (proj2 (Z.leb_le (mLength p) (zlen (mBuffer p) + zlen b))) by lia. intros [= <-].
    cbn [mCallback mMagic mLength mBuffer calls]. rewrite zdrop_app_le, ztake_app_le by lia. done.
Qed.

Lemma steps_append p p' b : steps p p' -> steps (append b p) (append b p').
Proof.
  induction 1 as [p|p q p' E _ IH]; [apply rtc_refl|].
  eapply rtc_l; [|exact IH]. by apply parse_step_append.
Qed.

Lemma parse_spec b p : exists p', parse b p = Ret tt p' /\ steps (append b p) p' /\ parse_step p' = None.
Proof.
  unfold parse. destruct (msg_parse_loop_ends (measure (append b p)) (append b p)) as (p' & E & H); [done|].
  exists p'. split; [|done]. erewrite bind_Ret by done. by erewrite bind_Ret by done.
Qed.

Lemma append_append a b p : append b (append a p) = append (a ++ b) p.
Proof. unfold append. cbn. by rewrite app_assoc. Qed.

(** C17: how a stream is cut makes no difference to the parser, whatever the
    stream: parsing two pieces one after the other is parsing them at once, in
    every state. *)
Theorem parse_cut_anywhere a b p : (_ ← parse a; parse b) p = parse (a ++ b) p.
Proof.
  destruct (parse_spec a p) as (p1 & E1 & S1 & N1). destruct (parse_spec b p1) as (p2 & E2 & S2 & N2).
  destruct (parse_spec (a ++ b) p) as (p3 & E3 & S3 & N3).
  rewrite (bind_Ret _ _ _ _ _ E1), E2, E3. f_equal.
  eapply steps_det; [|exact N2|exact S3|exact N3]. rewrite <- append_append.
  etransitivity; [by apply steps_append|exact S2].
Qed.

Fixpoint parse_all (chunks : list (list Z)) : M msgparser unit :=
  match chunks with
  | [] => mret tt
  | c :: chunks => _ ← parse c; parse_all chunks
  end.

Lemma parse_all_halts chunks p p1 :
  parse_step p = None -> steps (append (concat chunks) p) p1 -> parse_step p1 = None ->
  parse_all chunks p = Ret tt p1.
Proof.
  induction chunks as [|c chunks IH] in p |- *; cbn [concat parse_all]; intros Hp Hs Hn.
  - assert (append [] p = p) as E by (unfold append; rewrite app_nil_r; by destruct p).
    rewrite E in Hs. unfold mret, M_ret. f_equal. eapply steps_det; [apply rtc_refl|done..].
  - destruct (parse_spec c p) as (q & E & Hq & Nq). rewrite (bind_Ret _ _ _ _ _ E).
    apply IH; [done| |done]. rewrite <- append_append in Hs.
    destruct (parse_spec (concat chunks) q) as (r & _ & Hr & Nr).
    assert (p1 = r) as ->; [|done]. eapply steps_det; [exact Hs|done| |done].
    etransitivity; [by apply steps_append|done].
Qed.

(** The bytes send_msg writes. *)
Definition frame (m : list Z) : list Z := header_bytes (zlen m) ++ m.

Lemma be32_htonl z l : 0 <= z < 2 ^ 32 -> be32 (htonl z ++ l) = z.
Proof.
  intros Hz. unfold htonl. cbn [app be32].
  pose proof (Z.div_mod z 256). pose proof (Z.div_mod (z / 256) 256).
  pose proof (Z.div_mod (z / 256 / 256) 256). pose proof (Z.div_mod (z / 256 / 256 / 256) 256).
  change (2 ^ 24) with (256 * 256 * 256). change (2 ^ 16) with (256 * 256). change (2 ^ 8) with 256.
  rewrite <- !Z.div_div by lia.
  assert (z / 256 / 256 / 256 / 256 = 0) as E0.
  { rewrite !Z.div_div by lia. apply Z.div_small. lia. }
  lia.
Qed.

Lemma frame_steps m rest cs :
  zlen m < NO_LENGTH ->
  steps (mkParser true 0 NO_LENGTH (frame m ++ rest) cs)
        (mkParser true 0 NO_LENGTH rest (cs ++ [(Some m, zlen m)])).
Proof.
  intros Hm. pose proof (zlen_nonneg m). pose proof (zlen_nonneg rest). unfold NO_LENGTH in Hm.
  assert (zlen (frame m ++ rest) = 8 + (zlen m + zlen rest)) as Hl.
  { unfold frame, header_bytes. rewrite <- !app_assoc, !zlen_app. unfold htonl, zlen at 1 2. cbn [length]. lia. }
  eapply rtc_l; [|eapply rtc_l; [|apply rtc_refl]].
  - unfold parse_step. cbn [mLength mBuffer mCallback calls]. rewrite Hl, Z.eqb_refl.
    rewrite (proj2 (Z.leb_le 8 _)) by lia. rewrite orb_true_r. unfold frame, header_bytes.
    rewrite <- !app_assoc, be32_htonl by (unfold MAGIC; lia).
    change (drop 4 (htonl MAGIC ++ ?l)) with l. change (drop 8 (htonl MAGIC ++ htonl ?x ++ ?l)) with l.
    rewrite be32_htonl by (rewrite (uwrap_small 32) by (unfold in_u; lia); lia).
    rewrite (uwrap_small 32) by (unfold in_u; lia). reflexivity.
  - unfold parse_step, call. cbn [mLength mBuffer mCallback calls].
    rewrite (proj2 (Z.eqb_neq (zlen m) NO_LENGTH)) by (unfold NO_LENGTH; lia).
    rewrite zlen_app, (proj2 (Z.leb_le (zlen m) _)) by lia. cbn [orb].
    rewrite zdrop_app_exact, ztake_app_exact by done. done.
Qed.

Lemma frames_steps ms cs :
  Forall (fun m => zlen m < NO_LENGTH) ms ->
  steps (mkParser true 0 NO_LENGTH (concat (map frame ms)) cs)
        (mkParser true 0 NO_LENGTH [] (cs ++ map (fun m => (Some m, zlen m)) ms)).
Proof.
  intros Hm. induction Hm as [|m ms H1 _ IH] in cs |- *; cbn [map concat].
  - rewrite app_nil_r. apply rtc_refl.
  - etransitivity; [by apply frame_steps|]. etransitivity; [apply IH|]. rewrite <- app_assoc. apply rtc_refl.
Qed.

(** Messages sent one after the other by writes that succeed. *)
Fixpoint send_all (ms : list (list Z)) : M connection unit :=
  match ms with
  | [] => mret tt
  | m :: ms => _ ← send_msg m (0, 0); send_all ms
  end.

Lemma send_all_eq ms c : send_all ms c = Ret tt (mkConn (mOutput c ++ concat (map frame ms)) (mParser c)).
Proof.
  induction ms as [|m ms IH] in c |- *; cbn [send_all map concat].
  { rewrite app_nil_r. by destruct c. }
  unfold send_msg. rewrite bind_assoc. erewrite bind_Ret by done. erewrite bind_Ret by done.
  rewrite IH. cbn [mOutput mParser]. unfold frame. by rewrite !app_assoc.
Qed.

(** C26: Messages sent with send_msg arrive.  The frames that send_msg writes for
    any messages shorter than 2^32 - 1 bytes, cut into chunks in any way, make
    the parser of the receiver call its callback with exactly these messages
    in their order, and leave it as it was at the start. *)
Theorem msg_roundtrip ms chunks :
  Forall (fun m => zlen m < NO_LENGTH) ms ->
  exists c, send_all ms (mkConn [] msgparser_init) = Ret tt c /\
    (concat chunks = mOutput c ->
     parse_all chunks (set_callback msgparser_init) =
     Ret tt (mkParser true 0 NO_LENGTH [] (map (fun m => (Some m, zlen m)) ms))).
Proof.
  intros Hm. exists (mkConn (concat (map frame ms)) msgparser_init). split.
  - by rewrite send_all_eq.
  - intros E. apply parse_all_halts; [done| |done]. rewrite E. by apply (frames_steps ms []).
Qed.

Lemma msg_roundtrip_witness :
  parse_all [[0; 0x37]; [0x29; 0x47; 0; 0; 0; 2; 5; 6; 0; 0x37; 0x29; 0x47; 0; 0; 0]; [1; 9]]
    (set_callback msgparser_init) =
  Ret tt (mkParser true 0 NO_LENGTH [] [(Some [5; 6], 2); (Some [9], 1)]).
Proof.
  destruct (msg_roundtrip [[5; 6]; [9]]
    [[0; 0x37]; [0x29; 0x47; 0; 0; 0; 2; 5; 6; 0; 0x37; 0x29; 0x47; 0; 0; 0]; [1; 9]]) as (c & E & H).
  - repeat constructor.
  - apply H. vm_compute in E. injection E as <-. reflexivity.
Defined.

(** Client::start refuses the addresses it should accept.  evutil_inet_pton
    returns 1 for an address; start takes any result but 0 for an error.  So a
    target that is an IPv4 address makes it raise, and one that is not makes it
    connect to the address 0. *)
Theorem start_accepts_bad_targets inet_pton c :
  mBufferEvent c = None ->
  (is_Some (inet_pton (mTarget c)) -> exists c', start inet_pton 0 c = Throw "error(errno)" c') /\
  (inet_pton (mTarget c) = None -> exists c', start inet_pton 0 c = Ret tt c' /\
     connects c' = connects c ++ [(0, port_of (mTarget c))]).
Proof.
  intros Hb. unfold start, inet_pton_ret. rewrite (bind_Ret getS _ c c c eq_refl), Hb.
  rewrite (bool_decide_eq_false_2 (is_Some None)) by (by intros []). split; intros Ha.
  - rewrite bool_decide_eq_true_2 by done. eexists. erewrite bind_Ret by reflexivity. reflexivity.
  - rewrite Ha, bool_decide_eq_false_2 by (by intros []). eexists. split;
      [repeat erewrite bind_Ret by reflexivity; reflexivity|reflexivity].
Qed.

Lemma start_accepts_bad_targets_witness :
  exists c', start (fun _ => None) 0 msgclient_init = Ret tt c' /\ connects c' = [(0, 9000)].
Proof.
  apply (start_accepts_bad_targets (fun _ => None) msgclient_init); reflexivity.
Defined.
