(* ===== verification/WorkQueue.v ===== *)
(** * The work queue

    src/libevent-example/multithread/workqueue.{h,c}: jobs in an intrusive
    doubly linked list in memory, taken by worker threads.  The links of the
    jobs are a heap; 0 is NULL.  A step of a worker is what it does between two
    points where it holds no lock; the mutex has an owner because a worker can
    end without unlocking it. *)
From S2P Require Import Prelude.

(** ** The linked list *)
Record links : Type := mkLinks { prev : Z; next : Z }.
Abbreviation heap := (gmap Z links).

Definition NULL : Z := 0.

(** [LL_ADD(item, list)]: the heap and the head. *)
Definition LL_ADD (item : Z) (hl : heap * Z) : heap * Z :=
  (<[item := mkLinks NULL hl.2]> hl.1, item).

Definition set_next (p n : Z) (h : heap) : option heap :=
  if p =? NULL then Some h else (fun l => <[p := mkLinks (prev l) n]> h) <$> h !! p.
Definition set_prev (p q : Z) (h : heap) : option heap :=
  if p =? NULL then Some h else (fun l => <[p := mkLinks q (next l)]> h) <$> h !! p.

(** [LL_REMOVE(item, list)]; [None] is an access outside the heap. *)
Definition LL_REMOVE (item : Z) (hl : heap * Z) : option (heap * Z) :=
  l ← hl.1 !! item;
  h1 ← set_next (prev l) (next l) hl.1;
  l1 ← h1 !! item;
  h2 ← set_prev (next l1) (prev l1) h1;
  l2 ← h2 !! item;
  let list := if hl.2 =? item then next l2 else hl.2 in
  Some (<[item := mkLinks NULL NULL]> h2, list).

(** ** The queue *)
Inductive worker_pc : Type :=
| AtLock (* before pthread_mutex_lock, also when woken from the wait *)
| InWait (* in pthread_cond_wait *)
| InJob (j : Z)
| Ended.

Record worker_t : Type := mkWorker { pc : worker_pc; terminate : bool }.

(** [threads] are the workers by number, [workers] the numbers on the list of
    the queue, its head first; [jobs_mutex] is the worker that keeps it after
    its step; [added] and [executed] are the jobs added and taken so far. *)
Record workqueue_t : Type := mkWorkqueue {
  mem : heap;
  waiting_jobs : Z;
  threads : list worker_t;
  workers : list nat;
  jobs_mutex : option nat;
  added : list Z;
  executed : list Z;
}.

(** [created]: how many workers are allocated and started before one fails;
    the first failure ends the loop with the result 1. *)
Definition workqueue_init (created numWorkers : Z) : Z * workqueue_t :=
  let numWorkers := if numWorkers <? 1 then 1 else numWorkers in
  let n := Z.to_nat (Z.min created numWorkers) in
  (if created <? numWorkers then 1 else 0,
   mkWorkqueue ∅ NULL (replicate n (mkWorker AtLock false)) (rev (seq 0 n)) None [] []).

Definition set_pc (i : nat) (p : worker_pc) (q : workqueue_t) : workqueue_t :=
  mkWorkqueue (mem q) (waiting_jobs q) (alter (fun w => mkWorker p (terminate w)) i (threads q))
    (workers q) (jobs_mutex q) (added q) (executed q).

Definition set_mutex (m : option nat) (q : workqueue_t) : workqueue_t :=
  mkWorkqueue (mem q) (waiting_jobs q) (threads q) (workers q) m (added q) (executed q).

Definition set_jobs (h : heap) (head : Z) (a e : list Z) (q : workqueue_t) : workqueue_t :=
  mkWorkqueue h head (threads q) (workers q) (jobs_mutex q) a e.

(** A worker takes the lock and goes on to its wait, to a job or to its end;
    [None]: it cannot take the lock, or the list is broken. *)
Definition worker_function (i : nat) (q : workqueue_t) : option workqueue_t :=
  w ← threads q !! i;
  match pc w, jobs_mutex q with
  | AtLock, None =>
    if terminate w then Some (set_mutex (Some i) (set_pc i Ended q))
    else if waiting_jobs q =? NULL then Some (set_pc i InWait q)
    else
      let job := waiting_jobs q in
      '(h, head) ← LL_REMOVE job (mem q, waiting_jobs q);
      Some (set_pc i (InJob job) (set_jobs h head (added q) (executed q ++ [job]) q))
  | _, _ => None
  end.

(** [job->job_function(job)] returns. *)
Definition job_done (i : nat) (q : workqueue_t) : option workqueue_t :=
  w ← threads q !! i;
  match pc w with
  | InJob _ => Some (set_pc i AtLock q)
  | _ => None
  end.

(** The wait of a worker ends, by a signal or spuriously. *)
Definition wait_ends (i : nat) (q : workqueue_t) : option workqueue_t :=
  w ← threads q !! i;
  match pc w with
  | InWait => Some (set_pc i AtLock q)
  | _ => None
  end.

(** The signal is the [wait_ends] of a worker that waits. *)
Definition workqueue_add_job (job : Z) (q : workqueue_t) : option workqueue_t :=
  match jobs_mutex q with
  | Some _ => None
  | None =>
    let '(h, head) := LL_ADD job (mem q, waiting_jobs q) in
    Some (set_jobs h head (added q ++ [job]) (executed q) q)
  end.

(** [workqueue_shutdown] sets the flags without the lock ... *)
Definition shutdown_flags (q : workqueue_t) : workqueue_t :=
  mkWorkqueue (mem q) (waiting_jobs q)
    (foldl (fun ts i => alter (fun w => mkWorker (pc w) true) i ts) (threads q) (workers q))
    (workers q) (jobs_mutex q) (added q) (executed q).

Definition broadcast (w : worker_t) : worker_t :=
  match pc w with InWait => mkWorker AtLock (terminate w) | _ => w end.

(** ... and empties the lists under it. *)
Definition shutdown_clear (q : workqueue_t) : option workqueue_t :=
  match jobs_mutex q with
  | Some _ => None
  | None =>
    Some (mkWorkqueue (mem q) NULL (map broadcast (threads q)) [] None (added q) (executed q))
  end.

(** The steps of the workers. *)
Inductive worker_step : workqueue_t -> workqueue_t -> Prop :=
| step_lock i q q' : worker_function i q = Some q' -> worker_step q q'
| step_job i q q' : job_done i q = Some q' -> worker_step q q'
| step_wait i q q' : wait_ends i q = Some q' -> worker_step q q'.

(** A client adds a job, not NULL and not one added before. *)
Inductive queue_step : workqueue_t -> workqueue_t -> Prop :=
| step_worker q q' : worker_step q q' -> queue_step q q'
| step_add job q q' :
    job <> NULL -> job ∉ added q -> workqueue_add_job job q = Some q' -> queue_step q q'.

(** Shutdown may come at any point, in its two parts. *)
Inductive any_step : workqueue_t -> workqueue_t -> Prop :=
| any_queue q q' : queue_step q q' -> any_step q q'
| any_flags q : any_step q (shutdown_flags q)
| any_clear q q' : shutdown_clear q = Some q' -> any_step q q'.

(** ** The list the heap holds

    No job of the list has a back link: [LL_ADD] does not set that of the old
    head, so [LL_REMOVE] is right for the head only. *)
Inductive is_list (h : heap) : Z -> list Z -> Prop :=
| is_list_nil : is_list h NULL []
| is_list_cons p n js :
    p <> NULL -> h !! p = Some (mkLinks NULL n) -> is_list h n js -> is_list h p (p :: js).

Lemma is_list_insert h p js x l :
  is_list h p js -> x ∉ js -> is_list (<[x := l]> h) p js.
Proof.
  induction 1 as [|p n js Hp Hl _ IH]; intros Hx; [constructor|].
  apply not_elem_of_cons in Hx as [Hn Hx]. econstructor; [done| |by apply IH].
  by rewrite lookup_insert_ne.
Qed.

Lemma LL_ADD_list h p js x :
  is_list h p js -> x <> NULL -> x ∉ js ->
  let '(h', p') := LL_ADD x (h, p) in is_list h' p' (x :: js).
Proof.
  intros Hl Hx Hn. cbn. econstructor; [done|by rewrite lookup_insert_eq|by apply is_list_insert].
Qed.

Lemma set_prev_list h n js :
  is_list h n js -> set_prev n NULL h = Some h.
Proof.
  destruct 1 as [|p n js Hp Hl _]; [done|]. unfold set_prev.
  destruct (Z.eqb_spec p NULL); [done|]. rewrite Hl. cbn. by rewrite insert_id.
Qed.

Lemma LL_REMOVE_list h x js :
  is_list h x (x :: js) -> NoDup (x :: js) ->
  exists h' p', LL_REMOVE x (h, x) = Some (h', p') /\ is_list h' p' js.
Proof.
  intros Hl Hd. inversion_clear Hl as [|? n ? Hx Hh Hn]. apply NoDup_cons in Hd as [Hd _].
  exists (<[x := mkLinks NULL NULL]> h), n. split; [|by apply is_list_insert].
  unfold LL_REMOVE. cbn [fst snd]. rewrite Hh. cbn [mbind option_bind prev next].
  unfold set_next. cbn [Z.eqb NULL mbind option_bind]. rewrite Hh. cbn [mbind option_bind prev next].
  rewrite (set_prev_list _ _ _ Hn). cbn [mbind option_bind]. rewrite Hh. cbn [mbind option_bind next].
  by rewrite Z.eqb_refl.
Qed.

(** ** No job is lost or run twice *)
Record queue_inv (q : workqueue_t) (js : list Z) : Prop := {
  qi_list : is_list (mem q) (waiting_jobs q) js;
  qi_nodup : NoDup (added q);
  qi_split : added q ≡ₚ js ++ executed q;
  qi_order : js `sublist_of` rev (added q);
  qi_mutex : jobs_mutex q = None;
  qi_flags : Forall (fun w => terminate w = false) (threads q);
}.

Lemma Forall_set_pc (b : bool) i p (ts : list worker_t) :
  Forall (fun w => terminate w = b) ts ->
  Forall (fun w => terminate w = b) (alter (fun w => mkWorker p (terminate w)) i ts).
Proof. intros H. by apply Forall_alter. Qed.

Lemma set_pc_inv i p q js : queue_inv q js -> queue_inv (set_pc i p q) js.
Proof. intros []. split; cbn; try done. by apply Forall_set_pc. Qed.

Lemma workqueue_init_inv k n : queue_inv (workqueue_init k n).2 [].
Proof.
  split; cbn; try done; [constructor..|]. by apply Forall_replicate.
Qed.

Lemma add_job_inv q js job q' :
  queue_inv q js -> job <> NULL -> job ∉ added q -> workqueue_add_job job q = Some q' ->
  queue_inv q' (job :: js).
Proof.
  intros [Hl Hd Hs Ho Hm Hf] Hj Hn. unfold workqueue_add_job. rewrite Hm. intros [= <-].
  assert (Hjs : job ∉ js) by (intros H; apply Hn; rewrite Hs; apply elem_of_app; by left).
  split; cbn; try done.
  - by apply (LL_ADD_list _ _ _ _ Hl).
  - apply NoDup_app. split; [done|]. split; [|apply NoDup_singleton].
    intros x Hx ->%list_elem_of_singleton. done.
  - rewrite Hs. symmetry. change (job :: js ++ executed q) with ([job] ++ (js ++ executed q)).
    apply Permutation_app_comm.
  - rewrite rev_app_distr. cbn. by constructor.
Qed.

(** A worker that is to run takes the head of a list that is not empty. *)
Lemma worker_function_head q job js i w :
  is_list (mem q) (waiting_jobs q) (job :: js) -> NoDup (job :: js) -> jobs_mutex q = None ->
  threads q !! i = Some w -> pc w = AtLock -> terminate w = false ->
  exists h p, is_list h p js /\
    worker_function i q =
      Some (set_pc i (InJob job) (set_jobs h p (added q) (executed q ++ [job]) q)).
Proof.
  intros Hl Hn Hm Hw Hpc Hf.
  assert (Hx : waiting_jobs q = job) by (by inversion Hl).
  assert (Hj : job <> NULL) by (inversion Hl; congruence).
  destruct (LL_REMOVE_list (mem q) job js) as (h' & p' & Hr & Hl'); [by rewrite <- Hx at 1|done|].
  exists h', p'. split; [done|].
  unfold worker_function. rewrite Hw. cbn [mbind option_bind]. rewrite Hpc, Hm, Hf, Hx.
  destruct (Z.eqb_spec job NULL) as [|_]; [done|]. by rewrite Hr.
Qed.

(** On an empty list it goes to its wait. *)
Lemma worker_function_empty q i w :
  is_list (mem q) (waiting_jobs q) [] -> jobs_mutex q = None ->
  threads q !! i = Some w -> pc w = AtLock -> terminate w = false ->
  worker_function i q = Some (set_pc i InWait q).
Proof.
  intros Hl Hm Hw Hpc Hf. assert (Hz : waiting_jobs q = NULL) by (by inversion Hl).
  unfold worker_function. rewrite Hw. cbn [mbind option_bind]. by rewrite Hpc, Hm, Hf, Hz.
Qed.

Lemma worker_function_takes q job js i w :
  queue_inv q (job :: js) -> threads q !! i = Some w -> pc w = AtLock ->
  exists q', worker_function i q = Some q' /\ executed q' = executed q ++ [job] /\
             added q' = added q /\ queue_inv q' js.
Proof.
  intros [Hl Hd Hs Ho Hm Hf] Hw Hpc.
  assert (Hn : NoDup (job :: js)).
  { pose proof Hd as H. rewrite Hs in H. by apply NoDup_app in H as [? _]. }
  destruct (worker_function_head q job js i w) as (h & p & Hl' & E); try done.
  { by apply (Forall_lookup_1 _ _ _ _ Hf Hw). }
  rewrite E. eexists. split; [reflexivity|]. split; [done|]. split; [done|].
  apply set_pc_inv. split; cbn; try done.
  - rewrite Hs. cbn. rewrite app_assoc. apply Permutation_cons_append.
  - transitivity (job :: js); [by apply sublist_cons|done].
Qed.

Lemma job_done_eq i q q' : job_done i q = Some q' -> q' = set_pc i AtLock q.
Proof.
  unfold job_done. destruct (threads q !! i) as [w|]; [|done]. cbn [mbind option_bind].
  destruct (pc w); try done. by intros [= <-].
Qed.

Lemma wait_ends_eq i q q' : wait_ends i q = Some q' -> q' = set_pc i AtLock q.
Proof.
  unfold wait_ends. destruct (threads q !! i) as [w|]; [|done]. cbn [mbind option_bind].
  destruct (pc w); try done. by intros [= <-].
Qed.

Lemma worker_step_inv q js q' :
  queue_inv q js -> worker_step q q' -> exists js', queue_inv q' js'.
Proof.
  intros Hi Hs. destruct Hs as [i q q' E|i q q' E|i q q' E].
  - pose proof E as E0. unfold worker_function in E. destruct (threads q !! i) as [w|] eqn:Hw; [|done].
    cbn [mbind option_bind] in E. destruct (pc w) eqn:Hpc; try done.
    destruct js as [|job js].
    + rewrite (worker_function_empty q i w (qi_list _ _ Hi) (qi_mutex _ _ Hi) Hw Hpc) in E0
        by apply (Forall_lookup_1 _ _ _ _ (qi_flags _ _ Hi) Hw).
      injection E0 as <-. exists []. by apply set_pc_inv.
    + destruct (worker_function_takes _ _ _ _ _ Hi Hw Hpc) as (q2 & E2 & _ & _ & H). exists js. congruence.
  - apply job_done_eq in E as ->. exists js. by apply set_pc_inv.
  - apply wait_ends_eq in E as ->. exists js. by apply set_pc_inv.
Qed.

Lemma queue_step_inv q js q' :
  queue_inv q js -> queue_step q q' -> exists js', queue_inv q' js'.
Proof.
  intros Hi Hs. destruct Hs as [q1 q1' Hs|job q1 q1' Hj Hn E]; [by eapply worker_step_inv|].
  exists (job :: js). by eapply add_job_inv.
Qed.

Lemma queue_steps_inv k n q : rtc queue_step (workqueue_init k n).2 q -> exists js, queue_inv q js.
Proof.
  assert (H : exists js, queue_inv (workqueue_init k n).2 js) by (exists []; apply workqueue_init_inv).
  intros Hr. revert Hr H. induction 1 as [|q1 q2 q3 Hs _ IH]; [done|].
  intros (js & Hi). apply IH. by eapply queue_step_inv.
Qed.

(** C20: as long as the queue is not shut down and the address of a job is added
    only once, whatever the interleaving of clients and workers, the heap holds a
    list without cycles of the jobs that wait, the one added last first; every
    job added is in that list or has been taken, never both and never twice;
    and a worker at the lock takes the head when there is one. *)
Theorem jobs_taken_once k n q :
  rtc queue_step (workqueue_init k n).2 q ->
  exists js, is_list (mem q) (waiting_jobs q) js /\ js `sublist_of` rev (added q) /\
    added q ≡ₚ js ++ executed q /\ NoDup (js ++ executed q) /\
    forall i w job js', js = job :: js' -> threads q !! i = Some w -> pc w = AtLock ->
      exists q', worker_function i q = Some q' /\ executed q' = executed q ++ [job].
Proof.
  intros (js & Hi)%queue_steps_inv. exists js. pose proof Hi as [Hl Hd Hs Ho _ _].
  rewrite <- Hs. repeat (split; [done|]). intros i w job js' -> Hw Hpc.
  destruct (worker_function_takes _ _ _ _ _ Hi Hw Hpc) as (q' & E & He & _). by exists q'.
Qed.

(** ** Shutdown *)

(** A worker has ended exactly when it still holds the lock. *)
Definition ended_holds (q : workqueue_t) : Prop :=
  forall i w, threads q !! i = Some w -> pc w = Ended -> jobs_mutex q = Some i.

Lemma set_pc_ended i p q :
  p <> Ended -> ended_holds q -> ended_holds (set_pc i p q).
Proof.
  intros Hp H k w. cbn. intros Hk Hw. destruct (decide (k = i)) as [->|Hn].
  - rewrite list_lookup_alter_eq in Hk. destruct (threads q !! i); [|done].
    injection Hk as <-. done.
  - rewrite list_lookup_alter_ne in Hk by done. by eapply H.
Qed.

Lemma shutdown_flags_pc q i w :
  threads (shutdown_flags q) !! i = Some w ->
  exists w', threads q !! i = Some w' /\ pc w' = pc w.
Proof.
  cbn. generalize (threads q). induction (workers q) as [|k ks IH]; intros ts; cbn; [by exists w|].
  intros (w1 & H1 & E1)%IH. destruct (decide (i = k)) as [->|Hn].
  - rewrite list_lookup_alter_eq in H1. destruct (ts !! k) as [w2|]; [|done].
    injection H1 as <-. by exists w2.
  - rewrite list_lookup_alter_ne in H1 by done. by exists w1.
Qed.

Lemma worker_step_ended q q' : ended_holds q -> worker_step q q' -> ended_holds q'.
Proof.
  intros Hq Hs. destruct Hs as [i q q' E|i q q' E|i q q' E].
  - unfold worker_function in E. destruct (threads q !! i) as [w|] eqn:Hw; [|done].
    cbn [mbind option_bind] in E. destruct (pc w); try done. destruct (jobs_mutex q) eqn:Hm; [done|].
    destruct (terminate w); [|destruct (_ =? _)].
    + injection E as <-. intros k v Hk Hv. cbn in *. destruct (decide (k = i)) as [->|Hn]; [done|].
      rewrite list_lookup_alter_ne in Hk by done. specialize (Hq _ _ Hk Hv). congruence.
    + injection E as <-. by apply set_pc_ended.
    + destruct (LL_REMOVE _ _) as [[h p]|]; [|done]. injection E as <-. by apply set_pc_ended.
  - apply job_done_eq in E as ->. by apply set_pc_ended.
  - apply wait_ends_eq in E as ->. by apply set_pc_ended.
Qed.

Lemma any_step_ended q q' : ended_holds q -> any_step q q' -> ended_holds q'.
Proof.
  intros Hq Hs. destruct Hs as [q q' [q1 q1' Hs|job q1 q1' _ _ E]|q|q q' E].
  - by eapply worker_step_ended.
  - unfold workqueue_add_job in E. destruct (jobs_mutex q1) eqn:Hm; [done|]. injection E as <-.
    intros i w Hi Hw. specialize (Hq i w Hi Hw). cbn. congruence.
  - intros i w (w' & Hi & Hp)%shutdown_flags_pc Hw. apply (Hq i w' Hi). congruence.
  - unfold shutdown_clear in E. destruct (jobs_mutex q) eqn:Hm; [done|]. injection E as <-.
    intros i w Hi Hw. cbn in Hi. rewrite list_lookup_fmap in Hi.
    destruct (threads q !! i) as [v|] eqn:Hv; [|done]. injection Hi as <-.
    unfold broadcast in Hw. destruct (pc v) eqn:Hp; try done; cbn in Hw; try congruence.
    specialize (Hq _ _ Hv Hp). congruence.
Qed.

Lemma worker_function_locked q i k : jobs_mutex q = Some i -> worker_function k q = None.
Proof.
  intros Hm. unfold worker_function. destruct (threads q !! k) as [w|]; [|done].
  cbn [mbind option_bind]. rewrite Hm. by destruct (pc w).
Qed.

(** The lock is never given back. *)
Lemma any_step_locked q q' i : jobs_mutex q = Some i -> any_step q q' -> jobs_mutex q' = Some i.
Proof.
  intros Hm Hs. destruct Hs as [q q' [q1 q1' Hs|job q1 q1' _ _ E]|q|q q' E]; [| |done|].
  - destruct Hs as [k q1 q1' E|k q1 q1' E|k q1 q1' E].
    + by rewrite (worker_function_locked _ _ _ Hm) in E.
    + apply job_done_eq in E as ->. done.
    + apply wait_ends_eq in E as ->. done.
  - unfold workqueue_add_job in E. by rewrite Hm in E.
  - unfold shutdown_clear in E. by rewrite Hm in E.
Qed.

(** Once a worker has ended, it holds the lock for ever: no worker can take
    it again, no other worker ever ends, and adding a job or the second half
    of a shutdown blocks. *)
Theorem ended_worker_blocks_queue c n q i w q' :
  rtc any_step (workqueue_init c n).2 q -> threads q !! i = Some w -> pc w = Ended ->
  rtc any_step q q' ->
  (forall k, worker_function k q' = None) /\ (forall job, workqueue_add_job job q' = None) /\
  shutdown_clear q' = None /\
  forall k w', threads q' !! k = Some w' -> pc w' = Ended -> k = i.
Proof.
  intros Hr Hw Hp Hr'.
  assert (H0 : ended_holds (workqueue_init c n).2).
  { intros k v Hk Hv. cbn in Hk. apply lookup_replicate in Hk as [-> _]. done. }
  assert (Hq : ended_holds q) by (revert Hr H0; induction 1; eauto using any_step_ended).
  assert (Hq' : ended_holds q') by (revert Hr' Hq; clear; induction 1; eauto using any_step_ended).
  assert (Hm : jobs_mutex q' = Some i).
  { pose proof (Hq _ _ Hw Hp) as Hm. revert Hr' Hm. clear. induction 1; eauto using any_step_locked. }
  split; [intros k; by eapply worker_function_locked|].
  unfold workqueue_add_job, shutdown_clear. rewrite Hm. split; [done|]. split; [done|].
  intros k w' Hk Hk'. specialize (Hq' _ _ Hk Hk'). congruence.
Qed.

(** Two jobs added, one taken; then a shutdown in which worker 0 ends. *)
Definition two_jobs : workqueue_t :=
  default (workqueue_init 2 2).2
    (q ← workqueue_add_job 8 (workqueue_init 2 2).2; q ← workqueue_add_job 16 q; worker_function 1 q).
Definition after_shutdown : workqueue_t :=
  default (workqueue_init 2 2).2 (q ← shutdown_clear (shutdown_flags two_jobs); worker_function 0 q).

Lemma two_jobs_reached : rtc queue_step (workqueue_init 2 2).2 two_jobs.
Proof.
  eapply rtc_l; [apply (step_add 8); [done| |reflexivity]; by apply (bool_decide_unpack _)|].
  eapply rtc_l; [apply (step_add 16); [done| |reflexivity]; by apply (bool_decide_unpack _)|].
  eapply rtc_l; [apply step_worker, (step_lock 1); vm_compute; reflexivity|].
  apply rtc_refl.
Defined.

Lemma jobs_taken_once_witness :
  exists js, is_list (mem two_jobs) (waiting_jobs two_jobs) js /\ [8; 16] ≡ₚ js ++ [16].
Proof.
  destruct (jobs_taken_once 2 2 two_jobs two_jobs_reached) as (js & Hl & _ & Hs & _).
  exists js. split; [exact Hl|exact Hs].
Defined.

Lemma ended_worker_blocks_queue_witness :
  shutdown_clear after_shutdown = None /\ worker_function 1 (set_pc 1 AtLock after_shutdown) = None.
Proof.
  assert (Hr : rtc any_step (workqueue_init 2 2).2 after_shutdown).
  { transitivity two_jobs.
    - eapply (rtc_congruence id), two_jobs_reached. intros ? ? H. by apply any_queue.
    - eapply rtc_l; [apply any_flags|]. eapply rtc_l; [apply any_clear; vm_compute; reflexivity|].
      eapply rtc_l; [apply any_queue, step_worker, (step_lock 0); vm_compute; reflexivity|].
      apply rtc_refl. }
  assert (Hr' : rtc any_step after_shutdown (set_pc 1 AtLock after_shutdown)).
  { apply rtc_once, any_queue, step_worker, (step_job 1). vm_compute. reflexivity. }
  split.
  - eapply (ended_worker_blocks_queue 2 2 after_shutdown 0%nat (mkWorker Ended true) after_shutdown);
      [exact Hr|reflexivity|reflexivity|apply rtc_refl].
  - eapply (ended_worker_blocks_queue 2 2 after_shutdown 0%nat (mkWorker Ended true));
      [exact Hr|reflexivity|reflexivity|exact Hr'].
Defined.
