(* ===== verification/EchoServer.v ===== *)
(** * The threaded echo server

    src/libevent-example/multithread/echoserver_threaded.c over the work queue
    of workqueue.c: the main thread accepts connections and adds a job for each;
    a worker runs the event loop of its client until it ends and frees what
    belongs to it.  Objects of the C library and of libevent (sockets, event
    bases, buffers, buffered events, allocated structs) are known by number, 0
    is NULL, and the model keeps which of them exist: an access to one that does
    not is undefined behaviour. *)
From S2P Require Import Prelude WorkQueue.

(** ** Data *)
Record client_t : Type := mkClient {
  fd : Z;
  evbase : Z;
  buf_ev : Z;
  output_buffer : Z;
}.

(** A bufferevent of libevent.  [arrived] is what was read from the socket so
    far, [output] what was queued for sending; both are added by the model. *)
Record bufferevent : Type := mkBufferevent {
  base : Z;
  input : list Z;
  output : list Z;
  arrived : list Z;
}.

(** What exists.  [ebadf] counts the calls of close on a descriptor that is not
    open, [add_failed] says that an evbuffer_add has failed. *)
Record objects : Type := mkObjects {
  jobs : gmap Z Z; (* user_data *)
  clients : gmap Z client_t;
  fds : gset Z;
  bases : gset Z;
  buffers : gmap Z (list Z);
  bevs : gmap Z bufferevent;
  ebadf : nat;
  add_failed : bool;
}.

Definition no_objects : objects := mkObjects ∅ ∅ ∅ ∅ ∅ ∅ 0 false.

Definition upd_jobs f (o : objects) : objects :=
  mkObjects (f (jobs o)) (clients o) (fds o) (bases o) (buffers o) (bevs o) (ebadf o) (add_failed o).
Definition upd_clients f (o : objects) : objects :=
  mkObjects (jobs o) (f (clients o)) (fds o) (bases o) (buffers o) (bevs o) (ebadf o) (add_failed o).
Definition upd_fds f (o : objects) : objects :=
  mkObjects (jobs o) (clients o) (f (fds o)) (bases o) (buffers o) (bevs o) (ebadf o) (add_failed o).
Definition upd_bases f (o : objects) : objects :=
  mkObjects (jobs o) (clients o) (fds o) (f (bases o)) (buffers o) (bevs o) (ebadf o) (add_failed o).
Definition upd_buffers f (o : objects) : objects :=
  mkObjects (jobs o) (clients o) (fds o) (bases o) (f (buffers o)) (bevs o) (ebadf o) (add_failed o).
Definition upd_bevs f (o : objects) : objects :=
  mkObjects (jobs o) (clients o) (fds o) (bases o) (buffers o) (f (bevs o)) (ebadf o) (add_failed o).
Definition upd_ebadf f (o : objects) : objects :=
  mkObjects (jobs o) (clients o) (fds o) (bases o) (buffers o) (bevs o) (f (ebadf o)) (add_failed o).
Definition upd_add_failed f (o : objects) : objects :=
  mkObjects (jobs o) (clients o) (fds o) (bases o) (buffers o) (bevs o) (ebadf o) (f (add_failed o)).

(** ** The calls that end an object *)
Definition close (n : Z) : M objects unit :=
  o ← getS;
  modify (if bool_decide (n ∈ fds o) then upd_fds (.∖ {[n]}) else upd_ebadf S).

(** The read and write events of a buffered event are deleted from its base,
    which must still exist. *)
Definition bufferevent_free (p : Z) : M objects unit :=
  o ← getS;
  match bevs o !! p with
  | Some b =>
    if bool_decide (base b ∈ bases o) || (base b =? NULL) then modify (upd_bevs (delete p))
    else undef "bufferevent_free after event_base_free"
  | None => undef "bufferevent_free"
  end.

Definition event_base_free (p : Z) : M objects unit :=
  o ← getS;
  if bool_decide (p ∈ bases o) then modify (upd_bases (.∖ {[p]})) else undef "event_base_free".

Definition evbuffer_free (p : Z) : M objects unit :=
  o ← getS;
  match buffers o !! p with
  | Some _ => modify (upd_buffers (delete p))
  | None => undef "evbuffer_free"
  end.

(** [client->...], and an assignment to a field of it. *)
Definition client_at (c : Z) : M objects client_t :=
  o ← getS; match clients o !! c with Some cl => mret cl | None => undef "client" end.
Definition client_set (c : Z) (f : client_t -> client_t) : M objects unit :=
  cl ← client_at c; modify (upd_clients (<[c := f cl]>)).

Definition set_fd n (c : client_t) := mkClient n (evbase c) (buf_ev c) (output_buffer c).
Definition set_evbase p (c : client_t) := mkClient (fd c) p (buf_ev c) (output_buffer c).
Definition set_buf_ev p (c : client_t) := mkClient (fd c) (evbase c) p (output_buffer c).
Definition set_output_buffer p (c : client_t) := mkClient (fd c) (evbase c) (buf_ev c) p.

Definition closeClient (client : Z) : M objects unit :=
  if client =? NULL then mret tt else
  cl ← client_at client;
  if fd cl >=? 0 then
    _ ← close (fd cl);
    client_set client (set_fd (-1))
  else mret tt.

Definition closeAndFreeClient (client : Z) : M objects unit :=
  if client =? NULL then mret tt else
  _ ← closeClient client;
  cl ← client_at client;
  _ ← (if buf_ev cl =? NULL then mret tt else
       _ ← bufferevent_free (buf_ev cl); client_set client (set_buf_ev NULL));
  _ ← (if evbase cl =? NULL then mret tt else
       _ ← event_base_free (evbase cl); client_set client (set_evbase NULL));
  _ ← (if output_buffer cl =? NULL then mret tt else
       _ ← evbuffer_free (output_buffer cl); client_set client (set_output_buffer NULL));
  modify (upd_clients (delete client)).

(** ** The callbacks *)

(** The calls of libevent on the contents of buffers; [None] is the result -1. *)
Record evbuffer_calls : Type := mkEvbuffer {
  evbuffer_remove : list Z -> Z -> list Z * list Z;
  evbuffer_add : list Z -> list Z -> option (list Z);
  bufferevent_write_buffer : list Z -> list Z -> option (list Z * list Z);
}.

(** The documentation of libevent: evbuffer_remove takes the first bytes out of
    the buffer, evbuffer_add appends, and bufferevent_write_buffer moves the
    contents of the buffer to the end of the output. *)
Record evbuffer_laws (l : evbuffer_calls) : Prop := {
  remove_first b n : 0 <= n <= zlen b -> evbuffer_remove l b n = (ztake n b, zdrop n b);
  add_appends b d b' : evbuffer_add l b d = Some b' -> b' = b ++ d;
  write_moves out b r : bufferevent_write_buffer l out b = Some r -> r = (out ++ b, []);
}.

(** The loop of [buffered_on_read] on the input and the output buffer; the flag
    says that an evbuffer_add has failed.  [None]: the fuel was not enough. *)
Fixpoint copy_loop (l : evbuffer_calls) (fuel : nat) (inp out : list Z) (failed : bool) :
  option (list Z * list Z * bool) :=
  let nbytes := i32 (zlen inp) in
  if nbytes >? 0 then
    match fuel with
    | O => None
    | S fuel =>
      let nbytes := if nbytes >? 4096 then 4096 else nbytes in
      let '(data, inp') := evbuffer_remove l inp nbytes in
      match evbuffer_add l out data with
      | Some out' => copy_loop l fuel inp' out' failed
      | None => copy_loop l fuel inp' out true
      end
    end
  else Some (inp, out, failed).

Definition buffered_on_read (l : evbuffer_calls) (bev client : Z) : M objects unit :=
  cl ← client_at client;
  o ← getS;
  match bevs o !! bev, buffers o !! output_buffer cl with
  | Some b, Some out =>
    match copy_loop l (length (input b)) (input b) out (add_failed o) with
    | None => fun _ => Fuel
    | Some (inp, out, failed) =>
      _ ← modify (upd_add_failed (fun _ => failed));
      match bufferevent_write_buffer l (output b) out with
      | Some (sent, out) =>
        _ ← modify (upd_bevs (<[bev := mkBufferevent (base b) inp sent (arrived b)]>));
        modify (upd_buffers (<[output_buffer cl := out]>))
      | None =>
        _ ← modify (upd_bevs (<[bev := mkBufferevent (base b) inp (output b) (arrived b)]>));
        _ ← modify (upd_buffers (<[output_buffer cl := out]>));
        closeClient client
      end
    end
  | _, _ => undef "buffered_on_read"
  end.

Definition buffered_on_error (client : Z) : M objects unit := closeClient client.

(** [server_job_function] after [event_base_dispatch] has returned. *)
Definition server_job_function (job : Z) : M objects unit :=
  o ← getS;
  match jobs o !! job with
  | Some client =>
    _ ← closeAndFreeClient client;
    modify (upd_jobs (delete job))
  | None => undef "job"
  end.

(** ** Accepting *)
Definition O_NONBLOCK : Z := 2048.

(** [getfl] is what fcntl(fd, F_GETFL) returns, [setfl flags] what
    fcntl(fd, F_SETFL, flags) returns. *)
Definition setnonblock (getfl : Z) (setfl : Z -> Z) : Z :=
  if getfl <? 0 then getfl else
  if setfl (Z.lor getfl O_NONBLOCK) <? 0 then -1 else 0.

(** What the calls of [on_accept] return. *)
Record accept_calls : Type := mkAcceptCalls {
  ret_accept : Z;
  ret_getfl : Z;
  ret_setfl : Z -> Z;
  new_client : Z;
  new_buffer : Z;
  new_base : Z;
  new_bev : Z;
  new_job : Z;
}.

(** The objects part of [on_accept]; the result is the job to add. *)
Definition accept_client (a : accept_calls) : M objects (option Z) :=
  let client_fd := ret_accept a in
  if client_fd <? 0 then mret None else
  _ ← modify (upd_fds ({[client_fd]} ∪.));
  if setnonblock (ret_getfl a) (ret_setfl a) <? 0 then
    _ ← close client_fd; mret None else
  let client := new_client a in
  if client =? NULL then _ ← close client_fd; mret None else
  _ ← modify (upd_clients (<[client := mkClient 0 NULL NULL NULL]>));
  _ ← client_set client (set_fd client_fd);
  _ ← client_set client (set_output_buffer (new_buffer a));
  if new_buffer a =? NULL then _ ← closeAndFreeClient client; mret None else
  _ ← modify (upd_buffers (<[new_buffer a := []]>));
  _ ← client_set client (set_evbase (new_base a));
  if new_base a =? NULL then _ ← closeAndFreeClient client; mret None else
  _ ← modify (upd_bases ({[new_base a]} ∪.));
  _ ← client_set client (set_buf_ev (new_bev a));
  if new_bev a =? NULL then _ ← closeAndFreeClient client; mret None else
  _ ← modify (upd_bevs (<[new_bev a := mkBufferevent NULL [] [] []]>));
  (* bufferevent_base_set *)
  _ ← modify (upd_bevs (<[new_bev a := mkBufferevent (new_base a) [] [] []]>));
  if new_job a =? NULL then _ ← closeAndFreeClient client; mret None else
  _ ← modify (upd_jobs (<[new_job a := client]>));
  mret (Some (new_job a)).

(** The job is added to the queue; a mutex that a worker keeps blocks for ever. *)
Definition on_accept (a : accept_calls) : M (objects * workqueue_t) unit := fun s =>
  match accept_client a s.1 with
  | Ret None o => Ret tt (o, s.2)
  | Ret (Some job) o =>
    match workqueue_add_job job s.2 with
    | Some q => Ret tt (o, q)
    | None => Throw "blocked in pthread_mutex_lock" (o, s.2)
    end
  | Throw e o => Throw e (o, s.2)
  | Undef w => Undef w
  | Fuel => Fuel
  end.

(** What accept, malloc and the constructors of libevent document: an object
    they return is not one that exists. *)
Definition fresh_calls (a : accept_calls) (o : objects) : Prop :=
  (ret_accept a ∉ fds o) /\ clients o !! new_client a = None /\
  buffers o !! new_buffer a = None /\ (new_base a ∉ bases o) /\
  bevs o !! new_bev a = None /\ jobs o !! new_job a = None.

(** ** Freeing a client *)
Lemma union_difference_cancel (X Y : gset Z) : X ## Y -> (X ∪ Y) ∖ X = Y.
Proof. intros Hd. apply set_eq. intros x. rewrite elem_of_difference, elem_of_union. split; set_solver. Qed.

Definition fd_set (cl : client_t) : gset Z := if fd cl >=? 0 then {[fd cl]} else ∅.
Definition base_set (cl : client_t) : gset Z := if evbase cl =? NULL then ∅ else {[evbase cl]}.
Definition unless_null {A} (p : Z) (m : gmap Z A) : gmap Z A := if p =? NULL then m else delete p m.

(** What is left when a client is freed with everything it refers to. *)
Definition released (c : Z) (cl : client_t) (o : objects) : objects :=
  mkObjects (jobs o) (delete c (clients o)) (fds o ∖ fd_set cl) (bases o ∖ base_set cl)
    (unless_null (output_buffer cl) (buffers o)) (unless_null (buf_ev cl) (bevs o))
    (ebadf o) (add_failed o).

(** What a client refers to exists. *)
Record refers (cl : client_t) (o : objects) : Prop := {
  rf_fd : fd_set cl ⊆ fds o;
  rf_base : base_set cl ⊆ bases o;
  rf_bev : buf_ev cl <> NULL ->
    exists b, bevs o !! buf_ev cl = Some b /\ (base b ∈ bases o \/ base b = NULL);
  rf_buffer : output_buffer cl <> NULL -> is_Some (buffers o !! output_buffer cl);
}.

Lemma client_at_Ret c cl o : clients o !! c = Some cl -> client_at c o = Ret cl o.
Proof. intros E. unfold client_at. erewrite bind_Ret by reflexivity. by rewrite E. Qed.

Lemma client_set_Ret c cl f o :
  clients o !! c = Some cl -> client_set c f o = Ret tt (upd_clients (<[c := f cl]>) o).
Proof. intros E. unfold client_set. by erewrite bind_Ret by (by apply client_at_Ret). Qed.

Lemma close_Ret n o : n ∈ fds o -> close n o = Ret tt (upd_fds (.∖ {[n]}) o).
Proof. intros E. unfold close. erewrite bind_Ret by reflexivity. by rewrite bool_decide_true. Qed.

(** The objects with the client [c] set to [cl]. *)
Definition at_client (c : Z) (cl : client_t) (o : objects) : objects := upd_clients (<[c := cl]>) o.

Lemma at_client_twice c x y o : at_client c x (at_client c y o) = at_client c x o.
Proof. unfold at_client, upd_clients. cbn. by rewrite insert_insert_eq. Qed.

Lemma at_client_id c cl o : clients o !! c = Some cl -> at_client c cl o = o.
Proof. intros E. unfold at_client, upd_clients. rewrite insert_id by done. by destruct o. Qed.

Lemma closeClient_Ret c cl o :
  c <> NULL -> clients o !! c = Some cl -> fd_set cl ⊆ fds o ->
  closeClient c o = Ret tt
    (at_client c (if fd cl >=? 0 then set_fd (-1) cl else cl) (upd_fds (.∖ fd_set cl) o)).
Proof.
  intros Hc E Hf. unfold closeClient, fd_set in *. destruct (Z.eqb_spec c NULL) as [|_]; [done|].
  rewrite (bind_Ret _ _ _ _ _ (client_at_Ret _ _ _ E)). destruct (fd cl >=? 0).
  - rewrite (bind_Ret _ _ _ _ _ (close_Ret (fd cl) o ltac:(set_solver))). by apply client_set_Ret.
  - rewrite at_client_id by done. unfold upd_fds. rewrite difference_empty_L. by destruct o.
Qed.

(** One of the three steps of [closeAndFreeClient] that free a member. *)
Lemma free_member (p : Z) (fr : M objects unit) g c x o u :
  (p <> NULL -> fr (at_client c x o) = Ret tt (at_client c x (u o))) -> (p = NULL -> u o = o) ->
  exists x', (if p =? NULL then mret tt else _ ← fr; client_set c g) (at_client c x o) =
    Ret tt (at_client c x' (u o)).
Proof.
  intros H Hn. destruct (Z.eqb_spec p NULL) as [Hp|Hp]; [exists x; by rewrite Hn|].
  exists (g x). rewrite (bind_Ret _ _ _ _ _ (H Hp)), (client_set_Ret c x) by (cbn; by rewrite lookup_insert_eq).
  f_equal. apply at_client_twice.
Qed.

Lemma bufferevent_free_member c x p o :
  (p <> NULL -> exists b, bevs o !! p = Some b /\ (base b ∈ bases o \/ base b = NULL)) ->
  exists x', (if p =? NULL then mret tt else _ ← bufferevent_free p; client_set c (set_buf_ev NULL))
    (at_client c x o) = Ret tt (at_client c x' (upd_bevs (unless_null p) o)).
Proof.
  intros H. apply free_member.
  - intros Hp. destruct (H Hp) as (b & E & Hb). unfold bufferevent_free.
    erewrite bind_Ret by reflexivity. cbn. rewrite E. unfold unless_null.
    destruct (Z.eqb_spec p NULL); [done|].
    destruct Hb as [Hb| ->]; [by rewrite bool_decide_true|by rewrite orb_true_r].
  - intros ->. by destruct o.
Qed.

Lemma event_base_free_member c x cl o :
  base_set cl ⊆ bases o ->
  exists x', (if evbase cl =? NULL then mret tt else
      _ ← event_base_free (evbase cl); client_set c (set_evbase NULL))
    (at_client c x o) = Ret tt (at_client c x' (upd_bases (.∖ base_set cl) o)).
Proof.
  intros H. unfold base_set in *. apply free_member.
  - intros Hp. unfold event_base_free. erewrite bind_Ret by reflexivity. cbn.
    destruct (Z.eqb_spec (evbase cl) NULL); [done|]. rewrite bool_decide_true by set_solver. done.
  - intros ->. unfold upd_bases. cbn. rewrite difference_empty_L. by destruct o.
Qed.

Lemma evbuffer_free_member c x p o :
  (p <> NULL -> is_Some (buffers o !! p)) ->
  exists x', (if p =? NULL then mret tt else _ ← evbuffer_free p; client_set c (set_output_buffer NULL))
    (at_client c x o) = Ret tt (at_client c x' (upd_buffers (unless_null p) o)).
Proof.
  intros H. apply free_member.
  - intros Hp. destruct (H Hp) as [b E]. unfold evbuffer_free. erewrite bind_Ret by reflexivity.
    cbn. rewrite E. unfold unless_null. by destruct (Z.eqb_spec p NULL).
  - intros ->. by destruct o.
Qed.

Lemma closeAndFreeClient_Ret c cl o :
  c <> NULL -> clients o !! c = Some cl -> refers cl o ->
  closeAndFreeClient c o = Ret tt (released c cl o).
Proof.
  intros Hc E [Hf Hb Hv Hu]. unfold closeAndFreeClient. destruct (Z.eqb_spec c NULL) as [|_]; [done|].
  rewrite (bind_Ret _ _ _ _ _ (closeClient_Ret _ _ _ Hc E Hf)).
  set (cl1 := if fd cl >=? 0 then set_fd (-1) cl else cl).
  erewrite (bind_Ret (client_at c) _ _ cl1); [|apply client_at_Ret; cbn; by rewrite lookup_insert_eq].
  cbv beta.
  replace (buf_ev cl1) with (buf_ev cl) by (subst cl1; by destruct (fd cl >=? 0)).
  replace (evbase cl1) with (evbase cl) by (subst cl1; by destruct (fd cl >=? 0)).
  replace (output_buffer cl1) with (output_buffer cl) by (subst cl1; by destruct (fd cl >=? 0)).
  destruct (bufferevent_free_member c cl1 (buf_ev cl) (upd_fds (.∖ fd_set cl) o) Hv) as [x1 E1].
  rewrite (bind_Ret _ _ _ _ _ E1).
  destruct (event_base_free_member c x1 cl (upd_bevs (unless_null (buf_ev cl)) (upd_fds (.∖ fd_set cl) o)) Hb)
    as [x2 E2].
  rewrite (bind_Ret _ _ _ _ _ E2).
  destruct (evbuffer_free_member c x2 (output_buffer cl) (upd_bases (.∖ base_set cl)
    (upd_bevs (unless_null (buf_ev cl)) (upd_fds (.∖ fd_set cl) o))) Hu) as [x3 E3].
  rewrite (bind_Ret _ _ _ _ _ E3). unfold modify, released, upd_clients. cbn. by rewrite delete_insert_eq.
Qed.

(** ** What an accept does *)

(** A new client with the objects it refers to. *)
Definition with_client (c : Z) (cl : client_t) (o : objects) : objects :=
  mkObjects (jobs o) (<[c := cl]> (clients o)) (fd_set cl ∪ fds o) (base_set cl ∪ bases o)
    (if output_buffer cl =? NULL then buffers o else <[output_buffer cl := []]> (buffers o))
    (if buf_ev cl =? NULL then bevs o
     else <[buf_ev cl := mkBufferevent (evbase cl) [] [] []]> (bevs o))
    (ebadf o) (add_failed o).

Lemma free_with_client c cl o :
  c <> NULL -> clients o !! c = None -> fd_set cl ## fds o -> base_set cl ## bases o ->
  buffers o !! output_buffer cl = None -> bevs o !! buf_ev cl = None ->
  closeAndFreeClient c (with_client c cl o) = Ret tt o.
Proof.
  intros Hc Hn Hf Hb Hu Hv. rewrite (closeAndFreeClient_Ret _ cl).
  - unfold released, with_client, unless_null. cbn. rewrite delete_insert_id by done.
    rewrite !union_difference_cancel by done.
    destruct (output_buffer cl =? NULL), (buf_ev cl =? NULL); rewrite ?delete_insert_id by done;
      by destruct o.
  - done.
  - cbn. by rewrite lookup_insert_eq.
  - split; cbn; [set_solver..| |].
    + intros H. destruct (Z.eqb_spec (buf_ev cl) NULL); [done|]. rewrite lookup_insert_eq.
      eexists. split; [done|]. cbn. unfold base_set. destruct (Z.eqb_spec (evbase cl) NULL); set_solver.
    + intros H. destruct (Z.eqb_spec (output_buffer cl) NULL); [done|]. rewrite lookup_insert_eq. done.
Qed.

Lemma client_set_at c x f o :
  client_set c f (at_client c x o) = Ret tt (at_client c (f x) o).
Proof. rewrite (client_set_Ret c x) by (cbn; by rewrite lookup_insert_eq). f_equal. apply at_client_twice. Qed.

Definition accept_ok (a : accept_calls) : bool :=
  (0 <=? ret_accept a) && (0 <=? setnonblock (ret_getfl a) (ret_setfl a)) &&
  negb (new_client a =? NULL) && negb (new_buffer a =? NULL) && negb (new_base a =? NULL) &&
  negb (new_bev a =? NULL) && negb (new_job a =? NULL).

Definition accepted_client (a : accept_calls) : client_t :=
  mkClient (ret_accept a) (new_base a) (new_bev a) (new_buffer a).

(** The client is freed on a failure after it was allocated. *)
Lemma accept_undo c cl o s :
  s = with_client c cl o ->
  c <> NULL -> clients o !! c = None -> fd_set cl ## fds o -> base_set cl ## bases o ->
  buffers o !! output_buffer cl = None -> bevs o !! buf_ev cl = None ->
  (closeAndFreeClient c ≫= fun _ => mret (@None Z)) s = Ret None o.
Proof. intros -> Hc Hn Hf Hb Hu Hv. by rewrite (bind_Ret _ _ _ _ _ (free_with_client c cl o Hc Hn Hf Hb Hu Hv)). Qed.

Lemma accept_close n o :
  n ∉ fds o -> close n (upd_fds ({[n]} ∪.) o) = Ret tt o.
Proof.
  intros H. rewrite close_Ret by (cbn; set_solver). f_equal. unfold upd_fds. cbn.
  rewrite union_difference_cancel by set_solver. by destruct o.
Qed.

Lemma upd_buffers_at f c x o : upd_buffers f (at_client c x o) = at_client c x (upd_buffers f o).
Proof. done. Qed.
Lemma upd_bases_at f c x o : upd_bases f (at_client c x o) = at_client c x (upd_bases f o).
Proof. done. Qed.

Ltac client_sets :=
  repeat (rewrite (bind_Ret _ _ _ _ _ (client_set_at _ _ _ _)); cbv beta;
          cbn [set_fd set_evbase set_buf_ev set_output_buffer fd evbase buf_ev output_buffer]).

(** The part of [accept_client] after the client is allocated. *)
Lemma accept_client_build a o :
  fresh_calls a o -> 0 <= ret_accept a -> 0 <= setnonblock (ret_getfl a) (ret_setfl a) ->
  new_client a <> NULL -> buffers o !! NULL = None -> bevs o !! NULL = None ->
  accept_client a o =
    if negb (new_buffer a =? NULL) && negb (new_base a =? NULL) && negb (new_bev a =? NULL) &&
       negb (new_job a =? NULL)
    then Ret (Some (new_job a))
           (upd_jobs (<[new_job a := new_client a]>) (with_client (new_client a) (accepted_client a) o))
    else Ret None o.
Proof.
  intros (Hf & Hc & Hu & Hb & Hv & Hj) H0 H1 H2 Hu0 Hv0. unfold accept_client.
  rewrite (proj2 (Z.ltb_ge _ _) H0). erewrite bind_Ret by reflexivity.
  rewrite (proj2 (Z.ltb_ge _ _) H1), (proj2 (Z.eqb_neq _ _) H2).
  assert (Hg : (ret_accept a >=? 0) = true) by (rewrite Z.geb_leb; by apply Z.leb_le).
  erewrite bind_Ret by reflexivity.
  change (upd_clients (<[new_client a := mkClient 0 NULL NULL NULL]>) ?x)
    with (at_client (new_client a) (mkClient 0 NULL NULL NULL) x).
  client_sets.
  destruct (Z.eqb_spec (new_buffer a) NULL) as [E3|H3].
  { eapply (accept_undo _ (mkClient (ret_accept a) NULL NULL NULL)); rewrite ?E3; try done;
      unfold with_client, fd_set, base_set; cbn; rewrite Hg, ?union_empty_l_L; [done|set_solver]. }
  erewrite bind_Ret by reflexivity. rewrite upd_buffers_at. client_sets.
  destruct (Z.eqb_spec (new_base a) NULL) as [E4|H4].
  { eapply (accept_undo _ (mkClient (ret_accept a) NULL NULL (new_buffer a))); rewrite ?E4; try done;
      unfold with_client, fd_set, base_set; cbn; rewrite Hg, ?union_empty_l_L; [|set_solver].
    by rewrite (proj2 (Z.eqb_neq _ _) H3). }
  erewrite bind_Ret by reflexivity. rewrite upd_bases_at. client_sets.
  destruct (Z.eqb_spec (new_bev a) NULL) as [E5|H5].
  { eapply (accept_undo _ (mkClient (ret_accept a) (new_base a) NULL (new_buffer a)));
      rewrite ?E5; try done; unfold with_client, fd_set, base_set; cbn;
      rewrite ?Hg, ?(proj2 (Z.eqb_neq _ _) H4), ?(proj2 (Z.eqb_neq _ _) H3); [done|set_solver..]. }
  do 2 erewrite bind_Ret by reflexivity.
  assert (Es : with_client (new_client a) (accepted_client a) o =
    upd_bevs (<[new_bev a := mkBufferevent (new_base a) [] [] []]>)
      (upd_bevs (<[new_bev a := mkBufferevent NULL [] [] []]>) (at_client (new_client a) (accepted_client a)
        (upd_bases ({[new_base a]} ∪.) (upd_buffers (<[new_buffer a := []]>) (upd_fds ({[ret_accept a]} ∪.) o)))))).
  { unfold with_client, accepted_client, fd_set, base_set, upd_bevs. cbn.
    rewrite Hg, (proj2 (Z.eqb_neq _ _) H4), (proj2 (Z.eqb_neq _ _) H3), (proj2 (Z.eqb_neq _ _) H5).
    by rewrite insert_insert_eq. }
  destruct (Z.eqb_spec (new_job a) NULL) as [E6|H6]; cbn [negb andb].
  - eapply (accept_undo _ (accepted_client a)); try done; unfold fd_set, base_set; cbn;
      rewrite ?Hg, ?(proj2 (Z.eqb_neq _ _) H4); set_solver.
  - erewrite bind_Ret by reflexivity. by rewrite Es.
Qed.

Lemma accept_client_eq a o :
  fresh_calls a o -> buffers o !! NULL = None -> bevs o !! NULL = None ->
  accept_client a o =
    if accept_ok a
    then Ret (Some (new_job a))
           (upd_jobs (<[new_job a := new_client a]>) (with_client (new_client a) (accepted_client a) o))
    else Ret None o.
Proof.
  intros Hf Hu0 Hv0. unfold accept_ok.
  destruct (Z.leb_spec 0 (ret_accept a)) as [H0|H0]; cbn [andb].
  2:{ unfold accept_client. by rewrite (proj2 (Z.ltb_lt _ _) H0). }
  destruct (Z.leb_spec 0 (setnonblock (ret_getfl a) (ret_setfl a))) as [H1|H1]; cbn [andb].
  2:{ unfold accept_client. rewrite (proj2 (Z.ltb_ge _ _) H0). erewrite bind_Ret by reflexivity.
      rewrite (proj2 (Z.ltb_lt _ _) H1). by rewrite (bind_Ret _ _ _ _ _ (accept_close _ _ (proj1 Hf))). }
  destruct (Z.eqb_spec (new_client a) NULL) as [E2|H2]; cbn [negb andb].
  { unfold accept_client. rewrite (proj2 (Z.ltb_ge _ _) H0). erewrite bind_Ret by reflexivity.
    rewrite (proj2 (Z.ltb_ge _ _) H1), E2, Z.eqb_refl. by rewrite (bind_Ret _ _ _ _ _ (accept_close _ _ (proj1 Hf))). }
  by apply accept_client_build.
Qed.

(** ** The copy loop *)
Lemma i32_chunk n : 0 < i32 n -> 0 <= n -> i32 n <= n /\ (n < 2 ^ 31 -> i32 n = n).
Proof.
  intros H Hn. split.
  - unfold swrap in *. change (2 ^ (32 - 1)) with 2147483648 in *. change (2 ^ 32) with 4294967296 in *.
    pose proof (Z.mod_le (n + 2147483648) 4294967296 ltac:(lia) ltac:(lia)). lia.
  - intros Hs. apply swrap_small; [lia|]. split; [|done]. cbn. lia.
Qed.

Lemma copy_loop_spec l fuel inp out fl :
  evbuffer_laws l -> (length inp <= fuel)%nat ->
  exists inp' out' fl', copy_loop l fuel inp out fl = Some (inp', out', fl') /\
    (zlen inp < 2 ^ 31 -> inp' = []) /\
    (fl' = false -> fl = false /\ out' ++ inp' = out ++ inp) /\
    ((forall b d, is_Some (evbuffer_add l b d)) -> fl' = fl).
Proof.
  intros Hl. revert inp out fl. induction fuel as [|fuel IH]; intros inp out fl Hlen; cbn [copy_loop].
  all: destruct (Z.gtb_spec (i32 (zlen inp)) 0) as [Hp|Hp].
  - exfalso. destruct inp; [vm_compute in Hp; discriminate|cbn in Hlen; lia].
  - exists inp, out, fl. repeat split; try done. intros Hs.
    apply zlen_0_nil. rewrite swrap_small in Hp; [pose proof (zlen_nonneg inp); lia|lia|].
    split; [|done]. pose proof (zlen_nonneg inp). cbn. lia.
  - destruct (i32_chunk (zlen inp) Hp (zlen_nonneg _)) as [Hle Hs].
    set (n := if i32 (zlen inp) >? 4096 then 4096 else i32 (zlen inp)).
    assert (Hn : 0 < n <= zlen inp) by (unfold n; destruct (Z.gtb_spec (i32 (zlen inp)) 4096); lia).
    rewrite (remove_first _ Hl) by lia.
    assert (Hd : (length (zdrop n inp) <= fuel)%nat).
    { pose proof (zlen_zdrop n inp ltac:(lia)) as Hz. unfold zlen in Hz, Hn. lia. }
    destruct (evbuffer_add l out (ztake n inp)) as [out1|] eqn:Ea.
    + destruct (IH (zdrop n inp) out1 fl Hd) as (inp' & out' & fl' & E & Hi & Hf & Ht).
      exists inp', out', fl'. split; [done|]. split; [|split; [|done]].
      * intros Hz. apply Hi. rewrite zlen_zdrop; lia.
      * intros Hx. destruct (Hf Hx) as [-> ->]. split; [done|].
        apply (add_appends _ Hl) in Ea as ->. rewrite <- app_assoc. f_equal. apply ztake_drop.
    + destruct (IH (zdrop n inp) out true Hd) as (inp' & out' & fl' & E & Hi & Hf & Ht).
      exists inp', out', fl'. split; [done|]. split; [|split].
      * intros Hz. apply Hi. rewrite zlen_zdrop; lia.
      * intros Hx. by destruct (Hf Hx).
      * intros Ha. destruct (Ha out (ztake n inp)) as [x Hx]. congruence.
  - exists inp, out, fl. repeat split; try done. intros Hs.
    apply zlen_0_nil. rewrite swrap_small in Hp; [pose proof (zlen_nonneg inp); lia|lia|].
    split; [|done]. pose proof (zlen_nonneg inp). cbn. lia.
Qed.

(** ** Who owns what

    Every element of [X] is referred to by exactly one entry of [m]. *)
Definition owned {A} (f : A -> option Z) (m : gmap Z A) (X : gset Z) : Prop :=
  (forall x, x ∈ X <-> exists c a, m !! c = Some a /\ f a = Some x) /\
  (forall c1 c2 a1 a2 x, m !! c1 = Some a1 -> m !! c2 = Some a2 ->
    f a1 = Some x -> f a2 = Some x -> c1 = c2).

Section owned.
Context {A : Type} (f : A -> option Z).
Implicit Types (m : gmap Z A) (X : gset Z).

Lemma owned_empty : owned f ∅ ∅.
Proof. split; [|done]. intros x. split; [set_solver|]. by intros (c & a & H & _). Qed.

Lemma owned_insert m X c a x :
  owned f m X -> m !! c = None -> f a = Some x -> x ∉ X -> owned f (<[c := a]> m) ({[x]} ∪ X).
Proof.
  intros [H1 H2] Hc Ha Hx. split.
  - intros y. rewrite elem_of_union, elem_of_singleton, H1. split.
    + intros [->|(c1 & a1 & E1 & F1)]; [exists c, a; by rewrite lookup_insert_eq|].
      exists c1, a1. split; [|done]. rewrite lookup_insert_ne; congruence.
    + intros (c1 & a1 & [[<- <-]|[_ E1]]%lookup_insert_Some & F1); [left; congruence|right; eauto].
  - intros c1 c2 a1 a2 y [[<- <-]|[_ E1]]%lookup_insert_Some [[<- <-]|[_ E2]]%lookup_insert_Some F1 F2;
      [done| | |by eapply H2]; exfalso; apply Hx; apply H1.
    + exists c2, a2. split; [done|congruence].
    + exists c1, a1. split; [done|congruence].
Qed.

Lemma owned_delete m X c a x :
  owned f m X -> m !! c = Some a -> f a = Some x -> owned f (delete c m) (X ∖ {[x]}).
Proof.
  intros [H1 H2] Hc Ha. split.
  - intros y. rewrite elem_of_difference, elem_of_singleton, H1. split.
    + intros [(c1 & a1 & E1 & F1) Hn]. exists c1, a1. split; [|done]. rewrite lookup_delete_ne; [done|].
      intros ->. congruence.
    + intros (c1 & a1 & [Hn E1]%lookup_delete_Some & F1). split; [eauto|]. intros ->. apply Hn. by eapply H2.
  - intros c1 c2 a1 a2 y [_ E1]%lookup_delete_Some [_ E2]%lookup_delete_Some. by eapply H2.
Qed.

Lemma owned_delete_None m X c a :
  owned f m X -> m !! c = Some a -> f a = None -> owned f (delete c m) X.
Proof.
  intros [H1 H2] Hc Ha. split.
  - intros y. rewrite H1. split.
    + intros (c1 & a1 & E1 & F1). exists c1, a1. split; [|done]. rewrite lookup_delete_ne; [done|].
      intros ->. congruence.
    + intros (c1 & a1 & [Hn E1]%lookup_delete_Some & F1). eauto.
  - intros c1 c2 a1 a2 y [_ E1]%lookup_delete_Some [_ E2]%lookup_delete_Some. by eapply H2.
Qed.

Lemma owned_update m X c a a' :
  owned f m X -> m !! c = Some a -> f a' = f a -> owned f (<[c := a']> m) X.
Proof.
  intros [H1 H2] Hc Ha. split.
  - intros y. rewrite H1. split.
    + intros (c1 & a1 & E1 & F1). destruct (decide (c1 = c)) as [->|Hn].
      * exists c, a'. rewrite lookup_insert_eq. split; [done|congruence].
      * exists c1, a1. by rewrite lookup_insert_ne.
    + intros (c1 & a1 & [[<- <-]|[_ E1]]%lookup_insert_Some & F1); [|eauto].
      exists c, a. split; [done|congruence].
  - intros c1 c2 a1 a2 y [[<- <-]|[_ E1]]%lookup_insert_Some [[<- <-]|[_ E2]]%lookup_insert_Some F1 F2;
      [done| | |by eapply H2]; rewrite Ha in *; by eapply H2.
Qed.

Lemma owned_release m X c a a' x :
  owned f m X -> m !! c = Some a -> f a = Some x -> f a' = None ->
  owned f (<[c := a']> m) (X ∖ {[x]}).
Proof.
  intros Ho Hc Ha Ha'. rewrite <- insert_delete_eq. pose proof (owned_delete _ _ _ _ _ Ho Hc Ha) as [H1 H2].
  split.
  - intros y. rewrite H1. split.
    + intros (c1 & a1 & E1 & F1). exists c1, a1. split; [|done]. rewrite lookup_insert_ne; [done|].
      intros ->. by rewrite lookup_delete_eq in E1.
    + intros (c1 & a1 & [[<- <-]|[_ E1]]%lookup_insert_Some & F1); [congruence|eauto].
  - intros c1 c2 a1 a2 y [[<- <-]|[_ E1]]%lookup_insert_Some [[<- <-]|[_ E2]]%lookup_insert_Some F1 F2;
      [done|congruence|congruence|by eapply H2].
Qed.
End owned.

Definition fd_of (cl : client_t) : option Z := if fd cl >=? 0 then Some (fd cl) else None.

(** Every object that exists belongs to one client, and every client to one
    job; what came from a socket has been queued for it, or waits to be. *)
Record objects_inv (o : objects) : Prop := {
  oi_jobs : owned Some (jobs o) (dom (clients o));
  oi_fds : owned fd_of (clients o) (fds o);
  oi_bases : owned (fun cl => Some (evbase cl)) (clients o) (bases o);
  oi_buffers : owned (fun cl => Some (output_buffer cl)) (clients o) (dom (buffers o));
  oi_bevs : owned (fun cl => Some (buf_ev cl)) (clients o) (dom (bevs o));
  oi_null : clients o !! NULL = None /\ (NULL ∉ bases o) /\ buffers o !! NULL = None /\ bevs o !! NULL = None;
  oi_ebadf : ebadf o = 0%nat;
  oi_bytes c cl : clients o !! c = Some cl ->
    exists b out, bevs o !! buf_ev cl = Some b /\ buffers o !! output_buffer cl = Some out /\
      base b = evbase cl /\ (add_failed o = false -> arrived b = output b ++ out ++ input b);
}.

Lemma no_objects_inv : objects_inv no_objects.
Proof.
  split; cbn; rewrite ?dom_empty_L; try apply owned_empty; [|done|by intros].
  rewrite !lookup_empty. set_solver.
Qed.

Lemma fd_set_of cl x : x ∈ fd_set cl <-> fd_of cl = Some x.
Proof. unfold fd_set, fd_of. destruct (fd cl >=? 0); set_solver. Qed.

(** The members of a client that exists, exist and are not NULL. *)
Lemma inv_members o c cl :
  objects_inv o -> clients o !! c = Some cl ->
  c <> NULL /\ evbase cl <> NULL /\ buf_ev cl <> NULL /\ output_buffer cl <> NULL /\ refers cl o.
Proof.
  intros [_ Hf Hb _ _ (N1 & N2 & N3 & N4) _ Hs] E.
  assert (He : evbase cl ∈ bases o) by (apply Hb; eauto).
  destruct (Hs _ _ E) as (b & out & Eb & Eu & Hbase & _).
  split; [congruence|]. split; [intros H; by rewrite H in He|]. split; [congruence|]. split; [congruence|].
  split.
  - intros x Hx. apply fd_set_of in Hx. apply Hf. eauto.
  - unfold base_set. destruct (Z.eqb_spec (evbase cl) NULL); set_solver.
  - intros _. exists b. split; [done|]. left. by rewrite Hbase.
  - by intros _; rewrite Eu.
Qed.

Lemma with_client_inv a o :
  objects_inv o -> fresh_calls a o -> accept_ok a = true ->
  objects_inv (upd_jobs (<[new_job a := new_client a]>) (with_client (new_client a) (accepted_client a) o)).
Proof.
  intros [Hj Hf Hb Hu Hv (N1 & N2 & N3 & N4) He Hs] (F1 & F2 & F3 & F4 & F5 & F6) Hok.
  unfold accept_ok in Hok. rewrite !andb_true_iff, !negb_true_iff, !Z.eqb_neq, !Z.leb_le in Hok.
  destruct Hok as ((((((H0 & _) & Hc0) & Hu0) & Hb0) & Hv0) & Hj0).
  assert (Hg : (ret_accept a >=? 0) = true) by (rewrite Z.geb_leb; by apply Z.leb_le).
  unfold with_client, fd_set, base_set. cbn.
  rewrite Hg, (proj2 (Z.eqb_neq _ _) Hb0), (proj2 (Z.eqb_neq _ _) Hu0), (proj2 (Z.eqb_neq _ _) Hv0).
  split; cbn.
  - rewrite dom_insert_L. by apply owned_insert; [| |done|apply not_elem_of_dom].
  - apply owned_insert; [done..| |done]. unfold fd_of. cbn. by rewrite Hg.
  - by apply owned_insert.
  - rewrite dom_insert_L. by apply owned_insert; [| |done|apply not_elem_of_dom].
  - rewrite dom_insert_L. by apply owned_insert; [| |done|apply not_elem_of_dom].
  - rewrite !lookup_insert_ne by done. set_solver.
  - done.
  - intros c cl [[<- <-]|[Hn E]]%lookup_insert_Some.
    { cbn. eexists _, _. rewrite !lookup_insert_eq. done. }
    destruct (Hs _ _ E) as (b & out & Eb & Eu & Hx). exists b, out.
    rewrite !lookup_insert_ne by congruence. done.
Qed.

Lemma released_inv o job c cl :
  objects_inv o -> jobs o !! job = Some c -> clients o !! c = Some cl ->
  objects_inv (upd_jobs (delete job) (released c cl o)).
Proof.
  intros Hi Ej E. destruct (inv_members _ _ _ Hi E) as (Hc0 & Hb0 & Hv0 & Hu0 & _).
  destruct Hi as [Hj Hf Hb Hu Hv (N1 & N2 & N3 & N4) He Hs].
  unfold released, unless_null, base_set. cbn.
  rewrite (proj2 (Z.eqb_neq _ _) Hb0), (proj2 (Z.eqb_neq _ _) Hu0), (proj2 (Z.eqb_neq _ _) Hv0).
  split; cbn.
  - rewrite dom_delete_L. by eapply owned_delete.
  - unfold fd_set. destruct (fd cl >=? 0) eqn:Hg.
    + eapply owned_delete; [done..|]. unfold fd_of. by rewrite Hg.
    + rewrite difference_empty_L. eapply owned_delete_None; [done..|]. unfold fd_of. by rewrite Hg.
  - by eapply owned_delete.
  - rewrite dom_delete_L. by eapply owned_delete.
  - rewrite dom_delete_L. by eapply owned_delete.
  - rewrite !lookup_delete_None. set_solver.
  - done.
  - intros c1 cl1 [Hn E1]%lookup_delete_Some. destruct (Hs _ _ E1) as (b & out & Eb & Eu & Hx).
    exists b, out. rewrite !lookup_delete_ne; [done| |]; intros H; apply Hn.
    + eapply (proj2 Hu c c1 cl cl1); [done..|]. by rewrite H.
    + eapply (proj2 Hv c c1 cl cl1); [done..|]. by rewrite H.
Qed.

Lemma closeClient_inv o c cl :
  objects_inv o -> clients o !! c = Some cl ->
  exists o', closeClient c o = Ret tt o' /\ objects_inv o' /\ jobs o' = jobs o.
Proof.
  intros Hi E. destruct (inv_members _ _ _ Hi E) as (Hc0 & _ & _ & _ & Hr).
  rewrite (closeClient_Ret _ _ _ Hc0 E (rf_fd _ _ Hr)). eexists. split; [reflexivity|].
  destruct Hi as [Hj Hf Hb Hu Hv (N1 & N2 & N3 & N4) He Hs].
  split; [|done]. destruct (fd cl >=? 0) eqn:Hg.
  2:{ rewrite at_client_id by done. unfold upd_fds, fd_set. rewrite Hg, difference_empty_L.
      destruct o. by split. }
  unfold at_client, upd_clients, fd_set. rewrite Hg. split; cbn.
  - rewrite dom_insert_lookup_L by done. done.
  - eapply owned_release; [done..| |done]. unfold fd_of. by rewrite Hg.
  - by eapply owned_update.
  - by eapply owned_update.
  - by eapply owned_update.
  - rewrite lookup_insert_ne by done. done.
  - done.
  - intros c1 cl1 [[<- <-]|[_ E1]]%lookup_insert_Some; [by apply (Hs _ _ E)|by apply (Hs _ _ E1)].
Qed.

(** New contents of the buffers of a client. *)
Definition set_bytes (cl : client_t) (b : bufferevent) (out : list Z) (failed : bool) (o : objects) : objects :=
  mkObjects (jobs o) (clients o) (fds o) (bases o) (<[output_buffer cl := out]> (buffers o))
    (<[buf_ev cl := b]> (bevs o)) (ebadf o) failed.

Lemma set_bytes_inv o c cl b0 b out failed :
  objects_inv o -> clients o !! c = Some cl -> bevs o !! buf_ev cl = Some b0 -> base b = base b0 ->
  (failed = false -> add_failed o = false /\ arrived b = output b ++ out ++ input b) ->
  objects_inv (set_bytes cl b out failed o).
Proof.
  intros Hi E Eb Hbase Hx. destruct (inv_members _ _ _ Hi E) as (_ & _ & Hv0 & Hu0 & _).
  destruct Hi as [Hj Hf Hb Hu Hv (N1 & N2 & N3 & N4) He Hs].
  destruct (Hs _ _ E) as (b1 & out1 & Eb1 & Eu1 & Hb1 & _).
  split; cbn; try done.
  - by rewrite dom_insert_lookup_L.
  - by rewrite dom_insert_lookup_L.
  - by rewrite !lookup_insert_ne by done.
  - intros c1 cl1 E1. destruct (decide (c1 = c)) as [->|Hn].
    + simplify_eq. exists b, out. rewrite !lookup_insert_eq. rewrite Hbase. split; [done|].
      split; [done|]. split; [done|]. intros H. by apply Hx.
    + destruct (Hs _ _ E1) as (b2 & out2 & Eb2 & Eu2 & Hb2 & H2). exists b2, out2.
      rewrite !lookup_insert_ne.
      * split; [done|]. split; [done|]. split; [done|]. intros H. by apply H2, Hx.
      * intros H. apply Hn. eapply (proj2 Hu c1 c cl1 cl); [done..|]. by rewrite H.
      * intros H. apply Hn. eapply (proj2 Hv c1 c cl1 cl); [done..|]. by rewrite H.
Qed.

(** ** The steps of the server *)

(** Bytes come in on the socket of a buffered event. *)
Definition data_arrives (bev : Z) (data : list Z) : objects -> objects :=
  upd_bevs (alter (fun b => mkBufferevent (base b) (input b ++ data) (output b) (arrived b ++ data)) bev).

Definition pc_jobs (p : worker_pc) : list Z := match p with InJob j => [j] | _ => [] end.
Definition running (q : workqueue_t) : list Z := threads q ≫= fun w => pc_jobs (pc w).

Abbreviation server := (objects * workqueue_t)%type.

(** The main thread accepts; a worker takes a job or goes to wait; in the event
    loop of its job it calls the callbacks, and it ends the job. *)
Inductive server_step : server -> server -> Prop :=
| step_accept a o q s' :
    fresh_calls a o -> on_accept a (o, q) = Ret tt s' -> server_step (o, q) s'
| step_take i o q q' : worker_function i q = Some q' -> server_step (o, q) (o, q')
| step_wake i o q q' : wait_ends i q = Some q' -> server_step (o, q) (o, q')
| step_read i w job c cl data l o q o' :
    threads q !! i = Some w -> pc w = InJob job -> jobs o !! job = Some c -> clients o !! c = Some cl ->
    fd cl >= 0 -> evbuffer_laws l ->
    buffered_on_read l (buf_ev cl) c (data_arrives (buf_ev cl) data o) = Ret tt o' ->
    server_step (o, q) (o', q)
| step_error i w job c o q o' :
    threads q !! i = Some w -> pc w = InJob job -> jobs o !! job = Some c ->
    buffered_on_error c o = Ret tt o' -> server_step (o, q) (o', q)
| step_end i w job o q o' q' :
    threads q !! i = Some w -> pc w = InJob job ->
    server_job_function job o = Ret tt o' -> job_done i q = Some q' -> server_step (o, q) (o', q').

Record server_inv (s : server) (js : list Z) : Prop := {
  si_objects : objects_inv s.1;
  si_list : is_list (mem s.2) (waiting_jobs s.2) js;
  si_mutex : jobs_mutex s.2 = None;
  si_flags : Forall (fun w => terminate w = false) (threads s.2);
  si_nodup : NoDup (js ++ running s.2);
  si_jobs j : j ∈ js ++ running s.2 <-> is_Some (jobs s.1 !! j);
}.

Lemma running_set_pc i w p q :
  threads q !! i = Some w ->
  exists l1 l2, running q = l1 ++ pc_jobs (pc w) ++ l2 /\ running (set_pc i p q) = l1 ++ pc_jobs p ++ l2.
Proof.
  unfold running, set_pc. cbn. revert i. induction (threads q) as [|v ts IH]; intros [|i] E; try done.
  - injection E as ->. by exists [], (ts ≫= fun w => pc_jobs (pc w)).
  - destruct (IH _ E) as (l1 & l2 & E1 & E2). exists (pc_jobs (pc v) ++ l1), l2.
    change (alter ?f (S i) (v :: ts)) with (v :: alter f i ts).
    rewrite !bind_cons, E1, E2. by rewrite !app_assoc.
Qed.

Lemma running_same i w p q :
  threads q !! i = Some w -> pc_jobs (pc w) = pc_jobs p -> running (set_pc i p q) = running q.
Proof. intros (l1 & l2 & -> & ->)%(running_set_pc _ _ p) ->. done. Qed.

Lemma running_elem i w job q :
  threads q !! i = Some w -> pc w = InJob job -> job ∈ running q.
Proof.
  intros E Hp. destruct (running_set_pc i w AtLock q E) as (l1 & l2 & -> & _). rewrite Hp. cbn. set_solver.
Qed.

Lemma on_accept_inv a o q js s' :
  server_inv (o, q) js -> fresh_calls a o -> on_accept a (o, q) = Ret tt s' ->
  exists js', server_inv s' js'.
Proof.
  intros [Hi Hl Hm Hf Hn Hj] Ha. cbn in *. unfold on_accept. cbn.
  destruct (oi_null _ Hi) as (_ & _ & N3 & N4). rewrite (accept_client_eq _ _ Ha N3 N4).
  destruct (accept_ok a) eqn:Hok; [|intros [= <-]; exists js; by split].
  unfold workqueue_add_job. rewrite Hm. cbn. intros [= <-].
  assert (Hx : new_job a ∉ js ++ running q).
  { intros H%Hj. destruct Ha as (_ & _ & _ & _ & _ & Ha). rewrite Ha in H. by destruct H. }
  assert (Hz : new_job a <> NULL).
  { unfold accept_ok in Hok. rewrite !andb_true_iff, !negb_true_iff, !Z.eqb_neq in Hok. tauto. }
  exists (new_job a :: js). split; cbn; try done.
  - by apply with_client_inv.
  - apply (LL_ADD_list _ _ _ _ Hl); [done|set_solver].
  - by apply NoDup_cons.
  - intros j. rewrite elem_of_cons. unfold running in *. cbn in Hj |- *. rewrite Hj.
    rewrite lookup_insert_is_Some'. naive_solver.
Qed.

Lemma take_inv i o q js q' :
  server_inv (o, q) js -> worker_function i q = Some q' -> exists js', server_inv (o, q') js'.
Proof.
  intros [Hi Hl Hm Hf Hn Hj] E. cbn in *. pose proof E as E0. unfold worker_function in E0.
  destruct (threads q !! i) as [w|] eqn:Hw; [|done]. cbn [mbind option_bind] in E0.
  destruct (pc w) eqn:Hpc; try done. clear E0. pose proof (Forall_lookup_1 _ _ _ _ Hf Hw) as Ht.
  destruct js as [|job js].
  - rewrite (worker_function_empty q i w) in E by done. injection E as <-. exists [].
    split; cbn [fst snd]; rewrite ?(running_same i w InWait q Hw) by (by rewrite Hpc); try done.
    by apply Forall_set_pc.
  - destruct (worker_function_head q job js i w) as (h & p & Hl' & E'); try done.
    { by apply NoDup_app in Hn as [? _]. }
    rewrite E' in E. injection E as <-. exists js.
    destruct (running_set_pc i w (InJob job) (set_jobs h p (added q) (executed q ++ [job]) q) Hw)
      as (l1 & l2 & E1 & E2).
    rewrite Hpc in E1. change (running (set_jobs _ _ _ _ q)) with (running q) in E1. cbn in E1.
    assert (Hp : js ++ running (set_pc i (InJob job) (set_jobs h p (added q) (executed q ++ [job]) q))
                 ≡ₚ (job :: js) ++ running q).
    { rewrite E2, E1. cbn. rewrite !app_assoc. symmetry. apply Permutation_middle. }
    split; cbn [fst snd]; try done.
    + by apply Forall_set_pc.
    + by rewrite Hp.
    + intros j. by rewrite Hp.
Qed.

Lemma wake_inv i o q js q' :
  server_inv (o, q) js -> wait_ends i q = Some q' -> server_inv (o, q') js.
Proof.
  intros [Hi Hl Hm Hf Hn Hj] E. cbn in *. pose proof (wait_ends_eq _ _ _ E) as ->.
  unfold wait_ends in E. destruct (threads q !! i) as [w|] eqn:Hw; [|done]. cbn [mbind option_bind] in E.
  destruct (pc w) eqn:Hpc; try done.
  split; cbn [fst snd]; rewrite ?(running_same i w AtLock q Hw) by (by rewrite Hpc); try done.
  by apply Forall_set_pc.
Qed.

(** A callback keeps the jobs, so only the objects are to be looked at. *)
Lemma callback_inv o q js o' :
  server_inv (o, q) js -> objects_inv o' -> jobs o' = jobs o -> server_inv (o', q) js.
Proof. intros [Hi Hl Hm Hf Hn Hj] Ho E. split; cbn in *; try done. intros j. by rewrite E. Qed.

Lemma data_arrives_inv o c cl data :
  objects_inv o -> clients o !! c = Some cl -> objects_inv (data_arrives (buf_ev cl) data o).
Proof.
  intros Hi E. destruct (oi_bytes _ Hi _ _ E) as (b & out & Eb & Eu & Hb & Hx).
  replace (data_arrives (buf_ev cl) data o) with
    (set_bytes cl (mkBufferevent (base b) (input b ++ data) (output b) (arrived b ++ data)) out (add_failed o) o).
  - eapply set_bytes_inv; [done..|]. intros H. split; [done|]. cbn. rewrite (Hx H). by rewrite !app_assoc.
  - unfold data_arrives, set_bytes, upd_bevs. rewrite (insert_id (buffers o)) by done. f_equal.
    apply map_eq. intros k. destruct (decide (k = buf_ev cl)) as [->|Hn].
    + rewrite lookup_insert_eq, lookup_alter_eq, Eb. done.
    + by rewrite lookup_insert_ne, lookup_alter_ne by done.
Qed.

(** [buffered_on_read] returns; without a failure of libevent everything that
    was in the two buffers is queued, when less than 2 GiB came at once. *)
Lemma buffered_on_read_Ret l o c cl b out :
  objects_inv o -> clients o !! c = Some cl -> evbuffer_laws l ->
  bevs o !! buf_ev cl = Some b -> buffers o !! output_buffer cl = Some out ->
  exists o', buffered_on_read l (buf_ev cl) c o = Ret tt o' /\ objects_inv o' /\ jobs o' = jobs o /\
    (zlen (input b) < 2 ^ 31 -> (forall x d, is_Some (evbuffer_add l x d)) -> add_failed o = false ->
     (forall x y, is_Some (bufferevent_write_buffer l x y)) ->
     bevs o' !! buf_ev cl = Some (mkBufferevent (base b) [] (output b ++ out ++ input b) (arrived b)) /\
     buffers o' !! output_buffer cl = Some []).
Proof.
  intros Hi E Hl Eb Eu. unfold buffered_on_read.
  rewrite (bind_Ret _ _ _ _ _ (client_at_Ret _ _ _ E)). erewrite bind_Ret by reflexivity. rewrite Eb, Eu.
  destruct (copy_loop_spec l (length (input b)) (input b) out (add_failed o) Hl ltac:(lia))
    as (inp' & out' & fl' & -> & Hin & Hfl & Htot).
  erewrite bind_Ret by reflexivity.
  destruct (oi_bytes _ Hi _ _ E) as (b1 & out1 & Eb1 & Eu1 & Hb1 & Hx).
  assert (b1 = b) as -> by congruence. assert (out1 = out) as -> by congruence.
  destruct (bufferevent_write_buffer l (output b) out') as [[sent out2]|] eqn:Ew.
  - apply (write_moves _ Hl) in Ew. injection Ew as -> ->.
    exists (set_bytes cl (mkBufferevent (base b) inp' (output b ++ out') (arrived b)) [] fl' o).
    split; [done|]. split; [|split; [done|]].
    + eapply set_bytes_inv; [done..|]. intros H. destruct (Hfl H) as [Hf Ho]. split; [done|]. cbn.
      rewrite <- app_assoc, Ho. by apply Hx.
    + intros Hz Ha Hf _. cbn. rewrite !lookup_insert_eq. specialize (Htot Ha). rewrite Hf in Htot.
      destruct (Hfl Htot) as [_ Ho]. rewrite (Hin Hz) in *. rewrite app_nil_r in Ho. by rewrite Ho.
  - erewrite bind_Ret by reflexivity. erewrite bind_Ret by reflexivity.
    set (o1 := set_bytes cl (mkBufferevent (base b) inp' (output b) (arrived b)) out' fl' o).
    assert (Hi1 : objects_inv o1).
    { eapply set_bytes_inv; [done..|]. intros H. destruct (Hfl H) as [Hf Ho]. split; [done|]. cbn.
      rewrite Ho. by apply Hx. }
    destruct (closeClient_inv o1 c cl Hi1 E) as (o' & Ec & Hi' & Hj'). exists o'.
    split; [done|]. split; [done|]. split; [done|]. intros _ _ _ H. destruct (H (output b) out'). congruence.
Qed.

(** The client of a job exists. *)
Lemma inv_job_client o job c :
  objects_inv o -> jobs o !! job = Some c -> exists cl, clients o !! c = Some cl.
Proof.
  intros Hi E. assert (H : c ∈ dom (clients o)) by (apply (oi_jobs _ Hi); eauto).
  by apply elem_of_dom in H as [cl ?]; exists cl.
Qed.

Lemma running_client o q js i w job :
  server_inv (o, q) js -> threads q !! i = Some w -> pc w = InJob job ->
  exists c cl, jobs o !! job = Some c /\ clients o !! c = Some cl.
Proof.
  intros Hi Hw Hpc. assert (Hr : is_Some (jobs o !! job)).
  { apply (si_jobs _ _ Hi). apply elem_of_app. right. by eapply running_elem. }
  destruct Hr as [c Ec]. destruct (inv_job_client _ _ _ (si_objects _ _ Hi) Ec) as [cl Ecl]. eauto.
Qed.

Lemma end_inv o q js i w job :
  server_inv (o, q) js -> threads q !! i = Some w -> pc w = InJob job ->
  exists o' q', server_job_function job o = Ret tt o' /\ job_done i q = Some q' /\ server_inv (o', q') js.
Proof.
  intros Hi Hw Hpc. destruct (running_client _ _ _ _ _ _ Hi Hw Hpc) as (c & cl & Ec & Ecl).
  destruct Hi as [Ho Hl Hm Hf Hn Hj]. cbn [fst snd] in *.
  destruct (inv_members _ _ _ Ho Ecl) as (Hc0 & _ & _ & _ & Hr).
  exists (upd_jobs (delete job) (released c cl o)), (set_pc i AtLock q).
  split; [|split].
  - unfold server_job_function. erewrite bind_Ret by reflexivity. rewrite Ec.
    by rewrite (bind_Ret _ _ _ _ _ (closeAndFreeClient_Ret _ _ _ Hc0 Ecl Hr)).
  - unfold job_done. rewrite Hw. cbn [mbind option_bind]. by rewrite Hpc.
  - destruct (running_set_pc i w AtLock q Hw) as (l1 & l2 & E1 & E2). rewrite Hpc in E1.
    rewrite E1 in Hn, Hj.
    assert (Hp : js ++ l1 ++ pc_jobs (InJob job) ++ l2 ≡ₚ job :: (js ++ l1 ++ l2)).
    { cbn. rewrite !app_assoc. symmetry. apply Permutation_middle. }
    rewrite Hp in Hn. apply NoDup_cons in Hn as [Hn1 Hn2].
    split; cbn [fst snd]; rewrite ?E2; try done.
    + by apply released_inv.
    + by apply Forall_set_pc.
    + intros j. specialize (Hj j). rewrite Hp, elem_of_cons in Hj.
      change (jobs (upd_jobs (delete job) (released c cl o))) with (delete job (jobs o)).
      rewrite lookup_delete_is_Some, <- Hj. cbn. split; [|naive_solver].
      intros H. split; [by intros ->|by right].
Qed.

Lemma server_step_inv s js s' :
  server_inv s js -> server_step s s' -> exists js', server_inv s' js'.
Proof.
  intros Hi Hs.
  destruct Hs as [a o q s' Ha E|i o q q' E|i o q q' E|i w job c cl data l o q o' Hw Hpc Ec Ecl Hfd Hl E
                 |i w job c o q o' Hw Hpc Ec E|i w job o q o' q' Hw Hpc E E'].
  - by eapply on_accept_inv.
  - by eapply take_inv.
  - exists js. by eapply wake_inv.
  - exists js. pose proof (data_arrives_inv o c cl data (si_objects _ _ Hi) Ecl) as Hd.
    destruct (oi_bytes _ Hd c cl Ecl) as (b & out & Eb & Eu & _).
    destruct (buffered_on_read_Ret l _ c cl b out Hd Ecl Hl Eb Eu) as (o1 & E1 & H1 & Hj1 & _).
    assert (o1 = o') as -> by congruence. by eapply callback_inv.
  - exists js. destruct (inv_job_client _ _ _ (si_objects _ _ Hi) Ec) as [cl Ecl].
    destruct (closeClient_inv o c cl (si_objects _ _ Hi) Ecl) as (o1 & E1 & H1 & Hj1).
    unfold buffered_on_error in E. assert (o1 = o') as -> by congruence. by eapply callback_inv.
  - exists js. destruct (end_inv _ _ _ _ _ _ Hi Hw Hpc) as (o1 & q1 & E1 & E2 & H).
    assert (o1 = o') as <- by congruence. assert (q1 = q') as <- by congruence. done.
Qed.

(** The server after [runServer] has started its workers. *)
Definition started (created numWorkers : Z) : server := (no_objects, (workqueue_init created numWorkers).2).

Lemma server_steps_inv k n s : rtc server_step (started k n) s -> exists js, server_inv s js.
Proof.
  assert (H : exists js, server_inv (started k n) js).
  { exists []. destruct (workqueue_init_inv k n) as [Hl _ _ _ Hm Hf]. split; try done.
    - apply no_objects_inv.
    - unfold started, running. cbn. induction (Z.to_nat _); [constructor|done].
    - intros j. unfold started, running. cbn. rewrite lookup_empty.
      split; [|by intros []]. induction (Z.to_nat _); [set_solver|done]. }
  intros Hr. revert H. induction Hr as [|s1 s2 s3 Hs _ IH]; [done|].
  intros (js & Hi). apply IH. by eapply server_step_inv.
Qed.

(** C21: in every state that accepts, callbacks and workers can reach, in any
    order, each open socket, event base, buffer and buffered event belongs to
    exactly one client and each client to exactly one job; close was never called on a
    descriptor that was not open; and when no job waits or runs, everything has
    been closed and freed. *)
Theorem echo_server_owns k n o q :
  rtc server_step (started k n) (o, q) ->
  owned fd_of (clients o) (fds o) /\ owned (fun cl => Some (evbase cl)) (clients o) (bases o) /\
  owned (fun cl => Some (output_buffer cl)) (clients o) (dom (buffers o)) /\
  owned (fun cl => Some (buf_ev cl)) (clients o) (dom (bevs o)) /\
  owned Some (jobs o) (dom (clients o)) /\ ebadf o = 0%nat /\
  (waiting_jobs q = NULL -> running q = [] ->
   jobs o = ∅ /\ clients o = ∅ /\ fds o = ∅ /\ bases o = ∅ /\ buffers o = ∅ /\ bevs o = ∅).
Proof.
  intros (js & Hi)%server_steps_inv. destruct Hi as [Ho Hl _ _ _ Hj]. cbn [fst snd] in *.
  destruct Ho as [H1 H2 H3 H4 H5 _ H6 _]. repeat (split; [done|]). intros Hw Hr.
  assert (js = []) as -> by (rewrite Hw in Hl; inversion Hl; congruence). rewrite Hr in Hj.
  assert (Ej : jobs o = ∅).
  { apply map_eq. intros j. rewrite lookup_empty. apply eq_None_not_Some. rewrite <- Hj. set_solver. }
  assert (He : forall X (f : client_t -> option Z), clients o = ∅ -> owned f (clients o) X -> X = ∅).
  { intros X f Ec [H _]. apply set_eq. intros x. rewrite H, Ec. split; [|set_solver]. by intros (? & ? & ? & _). }
  assert (Ec : clients o = ∅).
  { apply dom_empty_inv_L, set_eq. intros c. destruct H1 as [H1 _]. rewrite H1, Ej.
    split; [|set_solver]. by intros (? & ? & ? & _). }
  repeat split; try done; try (by eapply He); apply dom_empty_inv_L; by eapply He.
Qed.

(** C22: while a worker runs the job of a client, every callback of its event
    loop and the end of the job return without an access to an object that is gone;
    whatever came from the socket is what was queued for sending followed by what
    still waits, in order, unless libevent could not allocate memory; and when
    data arrives, less than 2 GiB at once, and libevent does not fail, the
    callback leaves both buffers empty with everything queued. *)
Theorem echo_server_echoes k n o q i w job :
  rtc server_step (started k n) (o, q) -> threads q !! i = Some w -> pc w = InJob job ->
  exists c cl b out,
    jobs o !! job = Some c /\ clients o !! c = Some cl /\
    bevs o !! buf_ev cl = Some b /\ buffers o !! output_buffer cl = Some out /\
    (add_failed o = false -> arrived b = output b ++ out ++ input b) /\
    (exists o', buffered_on_error c o = Ret tt o') /\
    (exists o' q', server_job_function job o = Ret tt o' /\ job_done i q = Some q') /\
    forall l data, evbuffer_laws l ->
      exists o', buffered_on_read l (buf_ev cl) c (data_arrives (buf_ev cl) data o) = Ret tt o' /\
        (zlen (input b ++ data) < 2 ^ 31 -> add_failed o = false ->
         (forall x d, is_Some (evbuffer_add l x d)) ->
         (forall x y, is_Some (bufferevent_write_buffer l x y)) ->
         buffers o' !! output_buffer cl = Some [] /\
         bevs o' !! buf_ev cl = Some (mkBufferevent (base b) [] (arrived b ++ data) (arrived b ++ data))).
Proof.
  intros (js & Hi)%server_steps_inv Hw Hpc.
  destruct (running_client _ _ _ _ _ _ Hi Hw Hpc) as (c & cl & Ec & Ecl). pose proof (si_objects _ _ Hi : objects_inv o) as Ho.
  destruct (oi_bytes _ Ho _ _ Ecl) as (b & out & Eb & Eu & _ & Hx). exists c, cl, b, out.
  repeat (split; [done|]). split.
  { destruct (closeClient_inv o c cl Ho Ecl) as (o' & E & _). by exists o'. }
  split.
  { destruct (end_inv _ _ _ _ _ _ Hi Hw Hpc) as (o' & q' & E & E' & _). by exists o', q'. }
  intros l data Hl. set (b1 := mkBufferevent (base b) (input b ++ data) (output b) (arrived b ++ data)).
  destruct (buffered_on_read_Ret l (data_arrives (buf_ev cl) data o) c cl b1 out) as (o' & E & _ & _ & H); try done.
  - by apply data_arrives_inv with c.
  - cbn. by rewrite lookup_alter_eq, Eb.
  - exists o'. split; [done|]. intros Hz Hf Ha Hwr. destruct (H Hz Ha Hf Hwr) as [H1 H2]. split; [done|].
    rewrite H1. subst b1. cbn. rewrite (Hx Hf). by rewrite !app_assoc.
Qed.

(** [on_accept], on every result of the calls it makes: when one of them
    fails it leaves everything as it was, and otherwise the new client with its
    objects belongs to a job at the head of the queue. *)
Theorem on_accept_all_or_nothing k n o q a :
  rtc server_step (started k n) (o, q) -> fresh_calls a o ->
  on_accept a (o, q) = Ret tt
    (if accept_ok a
     then (upd_jobs (<[new_job a := new_client a]>) (with_client (new_client a) (accepted_client a) o),
           set_jobs (<[new_job a := mkLinks NULL (waiting_jobs q)]> (mem q)) (new_job a)
             (added q ++ [new_job a]) (executed q) q)
     else (o, q)).
Proof.
  intros (js & Hi)%server_steps_inv Ha. destruct (oi_null _ (si_objects _ _ Hi)) as (_ & _ & N3 & N4).
  unfold on_accept. cbn [fst snd]. rewrite (accept_client_eq _ _ Ha N3 N4). destruct (accept_ok a); [|done].
  unfold workqueue_add_job. by rewrite (si_mutex _ _ Hi : jobs_mutex q = None).
Qed.

(** ** The process *)

(** [listening]: the listening socket while it is open; [loop_exits]: the accept
    loop was told to end. *)
Record process : Type := mkProcess {
  listening : option Z;
  evbase_accept : Z;
  loop_exits : bool;
  srv : server;
}.

(** What the calls of [runServer] return; [created]: see [workqueue_init]. *)
Record run_calls : Type := mkRunCalls {
  ret_socket : Z;
  ret_bind : Z;
  ret_listen : Z;
  run_getfl : Z;
  run_setfl : Z -> Z;
  accept_base : Z;
  created : Z;
}.

Definition NUM_THREADS : Z := 8.

(** [workqueue_shutdown]; [meanwhile]: what the workers do before it takes the
    lock. *)
Definition workqueue_shutdown (meanwhile : workqueue_t -> workqueue_t) : M process unit := fun p =>
  match shutdown_clear (meanwhile (shutdown_flags (srv p).2)) with
  | Some q => Ret tt (mkProcess (listening p) (evbase_accept p) (loop_exits p) ((srv p).1, q))
  | None => Throw "blocked in pthread_mutex_lock" p
  end.

(** [err(1, ...)] ends the process.  [dispatch]: what happens in the accept loop
    until it ends. *)
Definition runServer (r : run_calls) (meanwhile : workqueue_t -> workqueue_t) (dispatch : process -> process) :
  M process Z :=
  let listenfd := ret_socket r in
  if listenfd <? 0 then throw "exit(1)" else
  _ ← modify (fun p => mkProcess (Some listenfd) (evbase_accept p) (loop_exits p) (srv p));
  if ret_bind r <? 0 then throw "exit(1)" else
  if ret_listen r <? 0 then throw "exit(1)" else
  if setnonblock (run_getfl r) (run_setfl r) <? 0 then throw "exit(1)" else
  _ ← modify (fun p => mkProcess (listening p) (accept_base r) (loop_exits p) (srv p));
  if accept_base r =? NULL then
    _ ← modify (fun p => mkProcess None (evbase_accept p) (loop_exits p) (srv p));
    mret 1 else
  let '(failed, q) := workqueue_init (created r) NUM_THREADS in
  _ ← modify (fun p => mkProcess (listening p) (evbase_accept p) (loop_exits p) ((srv p).1, q));
  if negb (failed =? 0) then
    _ ← modify (fun p => mkProcess None (evbase_accept p) (loop_exits p) (srv p));
    _ ← workqueue_shutdown meanwhile;
    mret 1 else
  _ ← modify dispatch;
  (* event_base_free(evbase_accept); evbase_accept = NULL; close(listenfd) *)
  _ ← modify (fun p => mkProcess (listening p) NULL (loop_exits p) (srv p));
  _ ← modify (fun p => mkProcess None (evbase_accept p) (loop_exits p) (srv p));
  mret 0.

(** [exit_ok]: event_base_loopexit succeeds; a failure is only printed. *)
Definition killServer (exit_ok : bool) (meanwhile : workqueue_t -> workqueue_t) : M process unit :=
  _ ← modify (fun p => mkProcess (listening p) (evbase_accept p) (loop_exits p || exit_ok) (srv p));
  workqueue_shutdown meanwhile.

Lemma running_flags (f : worker_t -> worker_t) (l : list nat) ts :
  (forall w, pc (f w) = pc w) ->
  (foldl (fun ts i => alter f i ts) ts l ≫= fun w => pc_jobs (pc w)) = ts ≫= fun w => pc_jobs (pc w).
Proof.
  intros Hf. revert ts. induction l as [|i l IH]; intros ts; [done|]. cbn [foldl]. rewrite IH. clear IH l.
  revert i. induction ts as [|w ts IH]; intros i; [by destruct i|]. destruct i as [|i].
  - change (alter f 0%nat (w :: ts)) with (f w :: ts). by rewrite !bind_cons, Hf.
  - change (alter f (S i) (w :: ts)) with (w :: alter f i ts). by rewrite !bind_cons, IH.
Qed.

Lemma running_broadcast ts :
  (map broadcast ts ≫= fun w => pc_jobs (pc w)) = ts ≫= fun w => pc_jobs (pc w).
Proof.
  induction ts as [|w ts IH]; [done|]. cbn [map]. rewrite !bind_cons, IH. f_equal.
  destruct w as [[] ?]; done.
Qed.

(** A shutdown drops every job that has not been taken: afterwards it is
    neither in the queue nor run by a worker, but its client still exists with
    its objects, so that its connection stays open without an answer. *)
Theorem shutdown_drops_clients k n p ok job :
  rtc server_step (started k n) (srv p) -> waiting_jobs (srv p).2 = job -> job <> NULL ->
  exists p' c cl, killServer ok (fun q => q) p = Ret tt p' /\ waiting_jobs (srv p').2 = NULL /\
    (job ∉ running (srv p').2) /\ jobs (srv p').1 !! job = Some c /\ clients (srv p').1 !! c = Some cl /\
    fd_set cl ⊆ fds (srv p').1.
Proof.
  intros (js & Hi)%server_steps_inv Hw Hn. destruct (srv p) as [o q] eqn:Es. destruct Hi as [Ho Hl Hm _ Hd Hj].
  cbn [fst snd] in *.
  assert (Hin : job ∈ js) by (rewrite Hw in Hl; inversion Hl; [congruence|]; set_solver).
  destruct (proj1 (Hj job)) as [c Ec]; [set_solver|].
  destruct (inv_job_client _ _ _ Ho Ec) as [cl Ecl].
  destruct (inv_members _ _ _ Ho Ecl) as (_ & _ & _ & _ & Hr).
  eexists _, c, cl. split.
  { unfold killServer. erewrite bind_Ret by reflexivity. unfold workqueue_shutdown. cbn. rewrite Es. cbn.
    unfold shutdown_clear. cbn. rewrite Hm. reflexivity. }
  cbn. split; [done|]. split; [|by destruct Hr].
  unfold running. cbn. rewrite running_broadcast, running_flags by done.
  intros H. apply NoDup_app in Hd as (_ & Hd & _). by eapply Hd.
Qed.

(** ** A run: one worker, one connection *)
Definition example_calls : accept_calls := mkAcceptCalls 5 0 (fun _ => 0) 100 200 300 400 500.
Definition example_o : objects :=
  upd_jobs (<[500 := 100]>) (with_client 100 (accepted_client example_calls) no_objects).
Definition example_waits : workqueue_t :=
  set_jobs {[500 := mkLinks NULL NULL]} 500 [500] [] (workqueue_init 1 1).2.
Definition example_runs : workqueue_t :=
  default example_waits (worker_function 0 example_waits).

Definition plain_evbuffer : evbuffer_calls :=
  mkEvbuffer (fun b n => (ztake n b, zdrop n b)) (fun b d => Some (b ++ d)) (fun out b => Some (out ++ b, [])).

Lemma plain_evbuffer_laws : evbuffer_laws plain_evbuffer.
Proof. split; cbn; [done| |]; by intros ??? [= <-]. Qed.

Lemma example_fresh : fresh_calls example_calls no_objects.
Proof. repeat split; cbn; set_solver. Qed.

Lemma example_accepts : rtc server_step (started 1 1) (example_o, example_waits).
Proof. eapply rtc_once, (step_accept example_calls); [apply example_fresh|]. by vm_compute. Qed.

Lemma example_takes : rtc server_step (started 1 1) (example_o, example_runs).
Proof. eapply rtc_r; [apply example_accepts|]. by eapply (step_take 0). Qed.

Lemma echo_server_owns_witness :
  rtc server_step (started 1 1) (example_o, example_runs) /\ owned fd_of (clients example_o) (fds example_o).
Proof. split; [apply example_takes|]. apply (echo_server_owns 1 1 _ _ example_takes). Defined.

Lemma echo_server_echoes_witness :
  exists c cl b, jobs example_o !! 500 = Some c /\ clients example_o !! c = Some cl /\
    exists o', buffered_on_read plain_evbuffer (buf_ev cl) c (data_arrives (buf_ev cl) [104; 105] example_o) = Ret tt o' /\
      bevs o' !! buf_ev cl = Some (mkBufferevent (base b) [] (arrived b ++ [104; 105]) (arrived b ++ [104; 105])).
Proof.
  destruct (echo_server_echoes 1 1 _ _ 0 _ 500 example_takes eq_refl eq_refl)
    as (c & cl & b & out & Ec & Ecl & Eb & _ & _ & _ & _ & H).
  exists c, cl, b. split; [done|]. split; [done|].
  destruct (H plain_evbuffer [104; 105] plain_evbuffer_laws) as (o' & E & Hx). exists o'. split; [done|].
  assert (c = 100) as -> by (vm_compute in Ec; congruence).
  assert (cl = accepted_client example_calls) as -> by (vm_compute in Ecl; injection Ecl as <-; done).
  assert (b = mkBufferevent 300 [] [] []) as -> by (vm_compute in Eb; injection Eb as <-; done).
  apply Hx; [by vm_compute|done|by eexists|by eexists].
Defined.

Lemma on_accept_all_or_nothing_witness :
  on_accept example_calls (started 1 1) = Ret tt (example_o, example_waits).
Proof.
  unfold started. rewrite (on_accept_all_or_nothing 1 1 no_objects (workqueue_init 1 1).2 example_calls);
    [by vm_compute|apply rtc_refl|apply example_fresh].
Defined.

Lemma shutdown_drops_clients_witness :
  exists p', killServer true (fun q => q) (mkProcess (Some 3) 9 false (example_o, example_waits)) = Ret tt p' /\
    waiting_jobs (srv p').2 = NULL /\ jobs (srv p').1 !! 500 = Some 100.
Proof.
  destruct (shutdown_drops_clients 1 1 (mkProcess (Some 3) 9 false (example_o, example_waits)) true 500
    example_accepts eq_refl ltac:(done)) as (p' & c & cl & E & H1 & _).
  exists p'. split; [done|]. split; [done|]. vm_compute in E. injection E as <-. done.
Defined.
