(* ===== verification/Grpc.v ===== *)
(** * The asynchronous greeter

    src/grpc/src/greeter_async_server.cc and greeter_async_client2.cc, with the
    gRPC runtime between them.  Objects made by [new] are known by their address.
    The runtime is what the documentation of CompletionQueue::Next says: each
    operation puts its tag once in the queue it belongs to, in any order; the
    [ok] that comes with a tag is false for an answer of the server whose call has
    died, and a call that fails is completed at the client with an error status. *)
From S2P Require Import Prelude.

(** ** The server *)
Inductive CallStatus : Type := CREATE | PROCESS | FINISH.

(** [request_] is the call it serves, by the address of the call object of the
    client, and the name in the request. *)
Record CallData : Type := mkCallData {
  status_ : CallStatus;
  request_ : option (Z * string);
}.

(** [requested]: the tags given to RequestSayHello; [finishing]: the tags and
    messages given to Finish; both are with the runtime. *)
Record server : Type := mkServer {
  heap : gmap Z CallData;
  requested : list Z;
  finishing : list (Z * string);
  cq_ : list (Z * bool);
}.

Definition set_status (t : CallStatus) (d : CallData) : CallData := mkCallData t (request_ d).
Definition put_heap h s := mkServer h (requested s) (finishing s) (cq_ s).

Definition CallData_Proceed (new_CallData : M server unit) (this : Z) : M server unit :=
  s ← getS;
  match heap s !! this with
  | None => undef "CallData"
  | Some d =>
    match status_ d with
    | CREATE =>
      _ ← modify (fun s => put_heap (<[this := set_status PROCESS d]> (heap s)) s);
      modify (fun s => mkServer (heap s) (requested s ++ [this]) (finishing s) (cq_ s))
    | PROCESS =>
      _ ← new_CallData;
      match request_ d with
      | None => undef "request"
      | Some (_, name) =>
        let message := ("Hello " +:+ name)%string in
        _ ← modify (fun s => put_heap (<[this := set_status FINISH d]> (heap s)) s);
        modify (fun s => mkServer (heap s) (requested s) (finishing s ++ [(this, message)]) (cq_ s))
      end
    | FINISH => modify (fun s => put_heap (delete this (heap s)) s)
    end
  end.

(** The constructor at the address [p]; it calls [Proceed] in the state CREATE,
    which makes no further object. *)
Definition new_CallData (p : Z) : M server unit :=
  _ ← modify (fun s => put_heap (<[p := mkCallData CREATE None]> (heap s)) s);
  CallData_Proceed (undef "new") p.

Definition Proceed (p this : Z) : M server unit := CallData_Proceed (new_CallData p) this.

(** One turn of the loop of [HandleRpcs]; [p] is the address of a new object.
    GPR_ASSERT ends the process. *)
Definition HandleRpcs_turn (p : Z) : M server unit :=
  s ← getS;
  match cq_ s with
  | [] => throw "blocked in Next"
  | (tag, ok) :: rest =>
    _ ← modify (fun s => mkServer (heap s) (requested s) (finishing s) rest);
    if ok then Proceed p tag else throw "GPR_ASSERT(ok)"
  end.

(** [HandleRpcs] before its loop. *)
Definition HandleRpcs_start (p : Z) : M server unit := new_CallData p.
Definition no_server : server := mkServer ∅ [] [] [].

(** ** The client *)

(** [asked] is the name the call was made with; it is added by the model. *)
Record AsyncClientCall : Type := mkCall {
  reply : string;
  status_ok : bool;
  asked : string;
}.

(** [out]: what was printed, with the name of the call it is for. *)
Record client : Type := mkClient {
  calls : gmap Z AsyncClientCall;
  client_cq : list (Z * bool);
  out : list (string * string);
}.

(** [SayHello] with the call object at [p]; the request goes to the runtime. *)
Definition SayHello (p : Z) (user : string) (c : client) : client * (Z * string) :=
  (mkClient (<[p := mkCall "" true user]> (calls c)) (client_cq c) (out c), (p, user)).

(** One turn of the loop of [AsyncCompleteRpc]. *)
Definition AsyncCompleteRpc_turn : M client unit :=
  c ← getS;
  match client_cq c with
  | [] => throw "blocked in Next"
  | (got_tag, ok) :: rest =>
    _ ← modify (fun c => mkClient (calls c) rest (out c));
    if ok then
      match calls c !! got_tag with
      | None => undef "call"
      | Some call =>
        let line := if status_ok call then ("Greeter received: " +:+ reply call)%string else "RPC failed"%string in
        _ ← modify (fun c => mkClient (calls c) (client_cq c) (out c ++ [(asked call, line)]));
        modify (fun c => mkClient (delete got_tag (calls c)) (client_cq c) (out c))
      end
    else throw "GPR_ASSERT(ok)"
  end.

(** ** Both, and the runtime between them *)

(** [wire]: the calls started and not yet delivered; [said]: the names of all
    calls ever started; [dead]: the tags of the objects of the server whose call
    has ended while they work on it; [up]: the process of the server runs. *)
Record system : Type := mkSystem {
  srv : server;
  cli : client;
  wire : list (Z * string);
  said : list string;
  dead : list Z;
  up : bool;
}.

Definition no_client : client := mkClient ∅ [] [].

(** The call [p] is completed at the client, with a reply or with an error. *)
Definition complete (p : Z) (r : option string) (c : client) : client :=
  mkClient (alter (fun a => mkCall (default (reply a) r) (bool_decide (is_Some r)) (asked a)) p (calls c))
    (client_cq c ++ [(p, true)]) (out c).

(** The calls that are not completed at the client. *)
Definition unfinished (c : client) : list (Z * string) :=
  (fun x => (x.1, asked x.2)) <$> filter (fun x => x.1 ∉ (client_cq c).*1) (map_to_list (calls c)).

(** The runtime, by the documentation of CompletionQueue::Next.  Finish of a client
    always completes with [ok]; the status says whether the call failed.  A request
    of the server completes with [ok] when it is matched with a call, unless the
    server is shut down, which this one never is.  Finish of the server completes with
    [ok] when the answer is going to the wire, and without it when the call is
    already dead.
    [faulty]: calls may fail, before a server has them, while it has them, or with
    the answer on its way. *)
Inductive system_step (faulty : bool) : system -> system -> Prop :=
| step_say p user v c w d x u :
    calls c !! p = None ->
    system_step faulty (mkSystem v c w d x u)
      (mkSystem v (SayHello p user c).1 (w ++ [(SayHello p user c).2]) (d ++ [user]) x u)
| step_deliver t p user v c w1 w2 d x u r1 r2 :
    requested v = r1 ++ t :: r2 ->
    system_step faulty (mkSystem v c (w1 ++ (p, user) :: w2) d x u)
      (mkSystem (mkServer (alter (fun x => mkCallData (status_ x) (Some (p, user))) t (heap v)) (r1 ++ r2)
                   (finishing v) (cq_ v ++ [(t, true)])) c (w1 ++ w2) d x u)
| step_fail p user v c w1 w2 d x u :
    faulty = true ->
    system_step faulty (mkSystem v c (w1 ++ (p, user) :: w2) d x u)
      (mkSystem v (complete p None c) (w1 ++ w2) d x u)
| step_break t a p user v c w d x u :
    faulty = true -> heap v !! t = Some a -> request_ a = Some (p, user) -> t ∉ x ->
    status_ a = PROCESS \/ t ∈ (finishing v).*1 ->
    system_step faulty (mkSystem v c w d x u) (mkSystem v (complete p None c) w d (t :: x) u)
| step_server p v c w d x u v' :
    heap v !! p = None -> HandleRpcs_turn p v = Ret tt v' ->
    system_step faulty (mkSystem v c w d x u) (mkSystem v' c w d x u)
| step_abort p v c w d x v' :
    heap v !! p = None -> HandleRpcs_turn p v = Throw "GPR_ASSERT(ok)" v' ->
    system_step faulty (mkSystem v c w d x true) (mkSystem no_server c (unfinished c) d [] false)
| step_finish t message r a p user v c w d x u f1 f2 :
    finishing v = f1 ++ (t, message) :: f2 -> t ∉ x ->
    heap v !! t = Some a -> request_ a = Some (p, user) ->
    r = Some message \/ (faulty = true /\ r = None) ->
    system_step faulty (mkSystem v c w d x u)
      (mkSystem (mkServer (heap v) (requested v) (f1 ++ f2) (cq_ v ++ [(t, true)])) (complete p r c) w d x u)
| step_finish_dead t message v c w d x1 x2 u f1 f2 :
    finishing v = f1 ++ (t, message) :: f2 ->
    system_step faulty (mkSystem v c w d (x1 ++ t :: x2) u)
      (mkSystem (mkServer (heap v) (requested v) (f1 ++ f2) (cq_ v ++ [(t, false)])) c w d (x1 ++ x2) u)
| step_client v c w d x u c' :
    AsyncCompleteRpc_turn c = Ret tt c' ->
    system_step faulty (mkSystem v c w d x u) (mkSystem v c' w d x u).

(** The server has made its first object, and nothing was said yet. *)
Definition system_start (p : Z) : system :=
  mkSystem (mkServer {[p := mkCallData PROCESS None]} [p] [] []) no_client [] [] [] true.

Lemma HandleRpcs_start_Ret p :
  HandleRpcs_start p no_server = Ret tt (srv (system_start p)).
Proof.
  unfold HandleRpcs_start, new_CallData. erewrite bind_Ret by reflexivity. unfold CallData_Proceed.
  erewrite bind_Ret by reflexivity. cbn. rewrite lookup_insert_eq. cbn.
  unfold mbind, M_bind, modify, put_heap. cbn. by rewrite insert_insert_eq.
Qed.

(** ** The invariant

    An object of the server that has a call is in one of three stages: its request
    is in the queue, its answer is with the runtime, or the end of its answer is in
    the queue.  In the first two its call may have died. *)
Definition greeting (user : string) : string := ("Hello " +:+ user)%string.

Inductive stage : Set := Got (live : bool) | Answered (live : bool) | Gone (ok : bool).
Record obj : Type := mkObj { o_tag : Z; o_call : Z * string; o_stage : stage }.

Definition entry (o : obj) : Z * CallData :=
  (o_tag o, mkCallData (match o_stage o with Got _ => PROCESS | _ => FINISH end) (Some (o_call o))).
Definition event (o : obj) : option (Z * bool) :=
  match o_stage o with Got _ => Some (o_tag o, true) | Answered _ => None | Gone ok => Some (o_tag o, ok) end.
Definition answer (o : obj) : option (Z * string) :=
  match o_stage o with Answered _ => Some (o_tag o, greeting (o_call o).2) | _ => None end.
Definition dead_tag (o : obj) : option Z :=
  match o_stage o with Got false | Answered false => Some (o_tag o) | _ => None end.
Definition new_call (r : Z * string) : Z * AsyncClientCall := (r.1, mkCall "" true r.2).
Definition open_call (o : obj) : option (Z * AsyncClientCall) :=
  match o_stage o with Got true | Answered true => Some (new_call (o_call o)) | _ => None end.
Definition got (o : obj) : option unit := match o_stage o with Got _ => Some tt | _ => None end.
Definition sound (o : obj) : bool :=
  match o_stage o with Got live | Answered live => live | Gone ok => ok end.

(** [L]: the objects that have a call; [C]: the calls completed at the client. *)
Record grpc_inv (faulty : bool) (y : system) (L : list obj) (C : list (Z * AsyncClientCall)) : Prop := {
  gi_heap : map_to_list (heap (srv y)) ≡ₚ
    ((fun t => (t, mkCallData PROCESS None)) <$> requested (srv y)) ++ (entry <$> L);
  gi_cq : cq_ (srv y) ≡ₚ omap event L;
  gi_finishing : finishing (srv y) ≡ₚ omap answer L;
  gi_dead : dead y ≡ₚ omap dead_tag L;
  gi_one : (length (requested (srv y)) + length (omap got L) = if up y then 1 else 0)%nat;
  gi_sound : faulty = false -> up y = true /\ Forall (fun o => sound o = true) L;
  gi_calls : map_to_list (calls (cli y)) ≡ₚ (new_call <$> wire y) ++ omap open_call L ++ C;
  gi_client_cq : client_cq (cli y) = (fun x => (x.1, true)) <$> C;
  gi_done : Forall (fun x => if status_ok x.2 then reply x.2 = greeting (asked x.2) else faulty = true) C;
  gi_said : said y ≡ₚ ((fun x => asked x.2) <$> map_to_list (calls (cli y))) ++ (out (cli y)).*1;
  gi_out : Forall (fun x => x.2 = ("Greeter received: " +:+ greeting x.1)%string \/
                            (faulty = true /\ x.2 = "RPC failed"%string)) (out (cli y));
}.

Lemma system_start_inv b p : grpc_inv b (system_start p) [] [].
Proof.
  split; cbn; rewrite ?map_to_list_empty; try done. by rewrite map_to_list_singleton.
Qed.

(** The order of the objects does not matter. *)
Lemma grpc_inv_perm b y L L' C : L ≡ₚ L' -> grpc_inv b y L C -> grpc_inv b y L' C.
Proof. intros HL []. split; try done; by rewrite <- HL. Qed.

(** The object with a tag. *)
Lemma obj_unique b y o o' L C : grpc_inv b y (o :: L) C -> o' ∈ o :: L -> o_tag o' = o_tag o -> o' = o.
Proof.
  intros Hi [->|Hin]%elem_of_cons Ht; [done|exfalso].
  assert (NoDup (map_to_list (heap (srv y))).*1) as Hnd by apply NoDup_fst_map_to_list.
  rewrite (gi_heap _ _ _ _ Hi), fmap_app in Hnd. apply NoDup_app in Hnd as (_ & _ & Hnd).
  cbn in Hnd. apply NoDup_cons in Hnd as [Hn _]. apply Hn. rewrite <- Ht.
  apply list_elem_of_fmap. exists (entry o'). split; [done|]. by apply list_elem_of_fmap_2.
Qed.

Lemma obj_at b y L C t a r :
  grpc_inv b y L C -> heap (srv y) !! t = Some a -> request_ a = Some r ->
  exists o L', L ≡ₚ o :: L' /\ o_tag o = t /\ o_call o = r /\ grpc_inv b y (o :: L') C /\ a = (entry o).2.
Proof.
  intros Hi Ha Hr. apply elem_of_map_to_list in Ha. rewrite (gi_heap _ _ _ _ Hi), elem_of_app in Ha.
  destruct Ha as [(t' & [= -> ->] & _)%list_elem_of_fmap|(o & [= -> ->] & Hin)%list_elem_of_fmap]; [done|].
  apply elem_of_Permutation in Hin as [L' HL]. exists o, L'. injection Hr as <-.
  split_and!; try done. by eapply grpc_inv_perm.
Qed.

Lemma omap_obj b y L C {A} (f : obj -> option A) a l :
  grpc_inv b y L C -> l ≡ₚ omap f L -> a ∈ l ->
  exists o L', f o = Some a /\ grpc_inv b y (o :: L') C.
Proof.
  intros Hi -> (o & Hin & Ho)%list_elem_of_omap. apply elem_of_Permutation in Hin as [L' HL].
  exists o, L'. split; [done|]. by eapply grpc_inv_perm.
Qed.

Lemma step_say_inv b p user v c w d x u L C :
  grpc_inv b (mkSystem v c w d x u) L C -> calls c !! p = None ->
  grpc_inv b (mkSystem v (SayHello p user c).1 (w ++ [(SayHello p user c).2]) (d ++ [user]) x u) L C.
Proof.
  intros [] Hp. cbn in *. split; cbn; try done.
  - rewrite (entries_insert _ _ _ _ Hp gi_calls0), fmap_app. cbn.
    change (p, mkCall "" true user) with (new_call (p, user)). perm.
  - rewrite (map_to_list_insert _ _ _ Hp), gi_said0. cbn. perm.
Qed.

Lemma step_deliver_inv b t p user v c w1 w2 d x u r1 r2 L C :
  grpc_inv b (mkSystem v c (w1 ++ (p, user) :: w2) d x u) L C -> requested v = r1 ++ t :: r2 ->
  grpc_inv b (mkSystem (mkServer (alter (fun x => mkCallData (status_ x) (Some (p, user))) t (heap v)) (r1 ++ r2)
    (finishing v) (cq_ v ++ [(t, true)])) c (w1 ++ w2) d x u) (mkObj t (p, user) (Got true) :: L) C.
Proof.
  intros [] Hr. cbn in *. rewrite Hr in gi_heap0, gi_one0. rewrite length_app in gi_one0. cbn in gi_one0.
  split; cbn; try done.
  - assert (E : map_to_list (heap v) ≡ₚ (t, mkCallData PROCESS None) ::
      (((fun t => (t, mkCallData PROCESS None)) <$> r1 ++ r2) ++ (entry <$> L))).
    { rewrite gi_heap0, !fmap_app. cbn. perm. }
    rewrite (entries_alter _ _ _ _ _ E). apply Permutation_middle.
  - rewrite gi_cq0. perm.
  - rewrite length_app. lia.
  - intros Hb. destruct (gi_sound0 Hb) as [-> Hs]. split; [done|]. by constructor.
  - rewrite gi_calls0, !fmap_app. cbn. perm.
Qed.

(** The call of an object of the server, or one on the wire, is completed at the
    client. *)
Lemma complete_entries b v c w d x u L C p user r w' L' :
  grpc_inv b (mkSystem v c w d x u) L C ->
  (new_call <$> w) ++ omap open_call L ≡ₚ new_call (p, user) :: (new_call <$> w') ++ omap open_call L' ->
  r = Some (greeting user) \/ (b = true /\ r = None) ->
  exists C', map_to_list (calls (complete p r c)) ≡ₚ (new_call <$> w') ++ omap open_call L' ++ C' /\
    client_cq (complete p r c) = ((fun x => (x.1, true)) <$> C') /\
    Forall (fun x => if status_ok x.2 then reply x.2 = greeting (asked x.2) else b = true) C' /\
    d ≡ₚ ((fun x => asked x.2) <$> map_to_list (calls (complete p r c))) ++ (out (complete p r c)).*1.
Proof.
  intros [] Hm Hr. cbn in *.
  assert (E : map_to_list (calls c) ≡ₚ (p, mkCall "" true user) ::
    ((new_call <$> w') ++ omap open_call L' ++ C)).
  { rewrite gi_calls0, app_assoc, Hm. change (p, mkCall "" true user) with (new_call (p, user)). perm. }
  pose proof (entries_alter _ _ _
    (fun a => mkCall (default (reply a) r) (bool_decide (is_Some r)) (asked a)) _ E) as E'. cbn in E'.
  exists (C ++ [(p, mkCall (default "" r) (bool_decide (is_Some r)) user)]). split_and!.
  - rewrite E'. perm.
  - by rewrite gi_client_cq0, fmap_app.
  - apply Forall_app. split; [done|]. constructor; [|done].
    destruct Hr as [->|[-> ->]]; [by rewrite bool_decide_true by eauto|by rewrite bool_decide_false by (by intros [])].
  - rewrite E'. rewrite E in gi_said0. cbn in *. done.
Qed.

Lemma step_fail_inv p user v c w1 w2 d x u L C :
  grpc_inv true (mkSystem v c (w1 ++ (p, user) :: w2) d x u) L C ->
  exists C', grpc_inv true (mkSystem v (complete p None c) (w1 ++ w2) d x u) L C'.
Proof.
  intros Hi. destruct (complete_entries _ _ _ _ _ _ _ _ _ p user None (w1 ++ w2) L Hi)
    as (C' & H1 & H2 & H3 & H4); [|by right|].
  { rewrite !fmap_app. cbn. perm. }
  exists C'. destruct Hi. by split.
Qed.

(** The call of an object dies: the object goes on without it. *)
Definition kill (o : obj) : obj :=
  mkObj (o_tag o) (o_call o) (match o_stage o with Got _ => Got false | Answered _ => Answered false | st => st end).

Lemma kill_inv v c w d x u o L C :
  grpc_inv true (mkSystem v c w d x u) (o :: L) C -> is_Some (open_call o) ->
  exists C', grpc_inv true (mkSystem v (complete (o_call o).1 None c) w d (o_tag o :: x) u) (kill o :: L) C'.
Proof.
  intros Hi Ho. destruct o as [t [p user] st]. cbn in *.
  destruct (complete_entries _ _ _ _ _ _ _ _ _ p user None w (kill (mkObj t (p, user) st) :: L) Hi)
    as (C' & H1 & H2 & H3 & H4); [|by right|].
  { destruct st as [[]|[]|]; cbn in *; try by destruct Ho. all: perm. }
  exists C'. destruct Hi. destruct st as [[]|[]|]; cbn in *; try (by destruct Ho).
  all: split; cbn; try done; by rewrite gi_dead0.
Qed.

Lemma step_break_inv t a p user v c w d x u L C :
  grpc_inv true (mkSystem v c w d x u) L C -> heap v !! t = Some a -> request_ a = Some (p, user) -> t ∉ x ->
  status_ a = PROCESS \/ t ∈ (finishing v).*1 ->
  exists L' C', grpc_inv true (mkSystem v (complete p None c) w d (t :: x) u) L' C'.
Proof.
  intros Hi Ha Hr Hx Hst. destruct (obj_at _ _ _ _ _ _ _ Hi Ha Hr) as (o & L0 & _ & <- & Ho & Hi' & ->). clear Hi.
  assert (is_Some (open_call o)) as Hop.
  { assert (dead_tag o <> Some (o_tag o)) as Hd.
    { intros E. apply Hx. pose proof (gi_dead _ _ _ _ Hi') as Hdd. cbn in Hdd. rewrite Hdd. cbn. rewrite E. by left. }
    unfold open_call, dead_tag, entry in *. destruct (o_stage o) as [[]|[]|] eqn:Es; cbn in *; eauto; try done.
    destruct Hst as [[=]|Hin]. exfalso. apply list_elem_of_fmap in Hin as ([t' m] & Et & Hin). cbn in Et.
    pose proof (gi_finishing _ _ _ _ Hi') as Hfin. cbn [srv] in Hfin. rewrite Hfin in Hin.
    apply list_elem_of_omap in Hin as (o' & Hin & Eo).
    assert (o' = o) as -> by (eapply obj_unique; [done..|]; unfold answer in Eo; case_match; simplify_eq; done).
    unfold answer in Eo. by rewrite Es in Eo. }
  destruct (kill_inv _ _ _ _ _ _ _ _ _ Hi' Hop) as [C' H']. rewrite Ho in H'. eauto.
Qed.

(** The object [o] whose answer is with the runtime. *)
Lemma answer_obj b v c w d x u L C f1 t message f2 :
  grpc_inv b (mkSystem v c w d x u) L C -> finishing v = f1 ++ (t, message) :: f2 ->
  exists r live L', grpc_inv b (mkSystem v c w d x u) (mkObj t r (Answered live) :: L') C /\
    message = greeting r.2 /\ f1 ++ f2 ≡ₚ omap answer L'.
Proof.
  intros Hi Hf. destruct (omap_obj _ _ _ _ answer (t, message) _ Hi (gi_finishing _ _ _ _ Hi)) as (o & L' & Eo & Hi').
  { cbn. rewrite Hf. apply elem_of_app. right. by left. }
  destruct o as [t' r st]. unfold answer in Eo. cbn in Eo. destruct st as [|live|]; try done. injection Eo as -> <-.
  exists r, live, L'. split; [done|]. split; [done|]. pose proof (gi_finishing _ _ _ _ Hi') as H. cbn in H.
  rewrite Hf in H. apply (Permutation_cons_inv (a := (t, greeting r.2))). rewrite <- H. perm.
Qed.

Lemma step_finish_inv b t message r a p user v c w d x u f1 f2 L C :
  grpc_inv b (mkSystem v c w d x u) L C -> finishing v = f1 ++ (t, message) :: f2 -> t ∉ x ->
  heap v !! t = Some a -> request_ a = Some (p, user) -> r = Some message \/ (b = true /\ r = None) ->
  exists L' C', grpc_inv b (mkSystem (mkServer (heap v) (requested v) (f1 ++ f2) (cq_ v ++ [(t, true)]))
    (complete p r c) w d x u) L' C'.
Proof.
  intros Hi Hf Hx Ha Hr Hm. destruct (answer_obj _ _ _ _ _ _ _ _ _ _ _ _ _ Hi Hf) as (q & live & L' & Hi' & -> & Hf').
  clear Hi Hf. assert (q = (p, user)) as ->.
  { assert (heap v !! t = Some (mkCallData FINISH (Some q))) as E; [|rewrite E in Ha; by simplify_eq/=].
    apply elem_of_map_to_list. pose proof (gi_heap _ _ _ _ Hi') as H. cbn in H. rewrite H.
    apply elem_of_app. right. by left. }
  assert (live = true) as ->.
  { destruct live; [done|]. exfalso. apply Hx. pose proof (gi_dead _ _ _ _ Hi') as H. cbn in H. rewrite H. by left. }
  destruct (complete_entries _ _ _ _ _ _ _ _ _ p user r w (mkObj t (p, user) (Gone true) :: L') Hi')
    as (C' & H1 & H2 & H3 & H4); [cbn; perm|done|].
  exists (mkObj t (p, user) (Gone true) :: L'), C'. destruct Hi'. split; cbn in *; try done.
  - rewrite gi_cq0. perm.
  - intros Hb. destruct (gi_sound0 Hb) as [-> Hs]. apply Forall_cons in Hs as [_ Hs]. by repeat constructor.
Qed.

Lemma step_finish_dead_inv b t message v c w d x1 x2 u f1 f2 L C :
  grpc_inv b (mkSystem v c w d (x1 ++ t :: x2) u) L C -> finishing v = f1 ++ (t, message) :: f2 ->
  exists L', grpc_inv b (mkSystem (mkServer (heap v) (requested v) (f1 ++ f2) (cq_ v ++ [(t, false)]))
    c w d (x1 ++ x2) u) L' C.
Proof.
  intros Hi Hf. destruct (answer_obj _ _ _ _ _ _ _ _ _ _ _ _ _ Hi Hf) as (q & live & L' & Hi' & -> & Hf'). clear Hi Hf.
  assert (t ∈ omap dead_tag (mkObj t q (Answered live) :: L')) as Hin.
  { pose proof (gi_dead _ _ _ _ Hi') as H. cbn [dead] in H. rewrite <- H. apply elem_of_app. right. by left. }
  apply list_elem_of_omap in Hin as (o' & Hin & Eo).
  assert (o' = mkObj t q (Answered live)) as ->
    by (eapply obj_unique; [done..|]; unfold dead_tag in Eo; repeat case_match; by simplify_eq).
  destruct live; [done|]. clear Eo Hin. exists (mkObj t q (Gone false) :: L'). destruct Hi'. split; cbn in *; try done.
  - rewrite gi_cq0. perm.
  - apply (Permutation_cons_inv (a := t)). rewrite <- gi_dead0. perm.
  - intros Hb. destruct (gi_sound0 Hb) as [_ Hs]. by apply Forall_cons in Hs as [[=] _].
Qed.

(** [Proceed] on an object with a request, and on one whose answer has gone. *)
Lemma Proceed_process v p t r :
  heap v !! p = None -> heap v !! t = Some (mkCallData PROCESS (Some r)) ->
  Proceed p t v = Ret tt (mkServer
    (<[t := mkCallData FINISH (Some r)]> (<[p := mkCallData PROCESS None]> (heap v)))
    (requested v ++ [p]) (finishing v ++ [(t, greeting r.2)]) (cq_ v)).
Proof.
  intros Hp Ht. unfold Proceed, CallData_Proceed at 1. erewrite bind_Ret by reflexivity. rewrite Ht. cbn.
  unfold new_CallData, CallData_Proceed, mbind, M_bind, modify, getS, put_heap. cbn.
  rewrite lookup_insert_eq. cbn. rewrite insert_insert_eq. by destruct r.
Qed.

Lemma Proceed_finish v p t r :
  heap v !! t = Some (mkCallData FINISH r) -> Proceed p t v = Ret tt (put_heap (delete t (heap v)) v).
Proof.
  intros Ht. unfold Proceed, CallData_Proceed. erewrite bind_Ret by reflexivity. by rewrite Ht.
Qed.

(** The first event of the queue is a request, or the end of an answer. *)
Lemma queue_head b v c w d x u L C tag ok rest :
  grpc_inv b (mkSystem v c w d x u) L C -> cq_ v = (tag, ok) :: rest ->
  exists r st L', grpc_inv b (mkSystem v c w d x u) (mkObj tag r st :: L') C /\ rest ≡ₚ omap event L' /\
    (ok = true /\ (exists live, st = Got live) \/ st = Gone ok).
Proof.
  intros Hi E. destruct (omap_obj _ _ _ _ event (tag, ok) _ Hi (gi_cq _ _ _ _ Hi)) as (o & L' & Eo & Hi').
  { cbn. rewrite E. by left. }
  destruct o as [t r st]. assert (t = tag) as -> by (unfold event in Eo; cbn in Eo; by destruct st; simplify_eq).
  exists r, st, L'. split; [done|]. pose proof (gi_cq _ _ _ _ Hi') as H. cbn [srv] in H. rewrite E in H. split.
  - apply (Permutation_cons_inv (a := (tag, ok))). rewrite H. cbn. by rewrite Eo.
  - unfold event in Eo. cbn in Eo. destruct st; simplify_eq; eauto.
Qed.

(** A turn of the server: it blocks, goes on, or meets an answer that could not be
    sent. *)
Lemma step_server_inv b p v c w d x u L C :
  grpc_inv b (mkSystem v c w d x u) L C -> heap v !! p = None ->
  match cq_ v with
  | [] => True
  | (_, true) :: _ => exists v' L', HandleRpcs_turn p v = Ret tt v' /\ grpc_inv b (mkSystem v' c w d x u) L' C
  | (_, false) :: _ => b = true /\ exists v', HandleRpcs_turn p v = Throw "GPR_ASSERT(ok)" v'
  end.
Proof.
  intros Hi Hp. destruct (cq_ v) as [|[tag ok] rest] eqn:Eq; [done|].
  destruct (queue_head _ _ _ _ _ _ _ _ _ _ _ _ Hi Eq) as (r & st & L' & Hi' & Hr & Hst). clear Hi.
  pose proof Hi' as []. cbn in *. destruct Hst as [[-> [live ->]]| ->].
  - assert (Ht : map_to_list (heap v) ≡ₚ (tag, mkCallData PROCESS (Some r)) ::
      (((fun t => (t, mkCallData PROCESS None)) <$> requested v) ++ (entry <$> L')))
      by (rewrite gi_heap0; symmetry; apply Permutation_middle).
    unfold HandleRpcs_turn. erewrite bind_Ret by reflexivity. rewrite Eq. erewrite bind_Ret by reflexivity.
    rewrite (Proceed_process _ p tag r); [|done|by eapply entries_lookup].
    eexists _, (mkObj tag r (Answered live) :: L'). split; [reflexivity|]. split; cbn; try done.
    + erewrite entries_change; [|rewrite (entries_insert _ _ _ _ Hp Ht); apply perm_swap].
      rewrite fmap_app. unfold entry at 2. cbn. perm.
    + rewrite gi_finishing0. symmetry. apply Permutation_cons_append.
    + rewrite length_app. cbn in *. lia.
    + intros Hb. destruct (gi_sound0 Hb) as [-> [? ?]%Forall_cons]. by repeat constructor.
  - destruct ok.
    + assert (Ht : map_to_list (heap v) ≡ₚ (tag, mkCallData FINISH (Some r)) ::
        (((fun t => (t, mkCallData PROCESS None)) <$> requested v) ++ (entry <$> L')))
        by (rewrite gi_heap0; symmetry; apply Permutation_middle).
      unfold HandleRpcs_turn. erewrite bind_Ret by reflexivity. rewrite Eq. erewrite bind_Ret by reflexivity.
      rewrite (Proceed_finish _ p tag (Some r)) by (by eapply entries_lookup).
      eexists _, L'. split; [reflexivity|]. split; cbn; try done.
      * by rewrite (entries_delete _ _ _ _ Ht).
      * intros Hb. destruct (gi_sound0 Hb) as [-> [? ?]%Forall_cons]. done.
    + split.
      * destruct b; [done|]. destruct (gi_sound0 eq_refl) as [_ [[=] _]%Forall_cons].
      * unfold HandleRpcs_turn. erewrite bind_Ret by reflexivity. rewrite Eq. erewrite bind_Ret by reflexivity.
        by eexists.
Qed.

Lemma step_client_inv b v c w d x u L C :
  grpc_inv b (mkSystem v c w d x u) L C ->
  client_cq c = [] \/ exists c' C', AsyncCompleteRpc_turn c = Ret tt c' /\
    grpc_inv b (mkSystem v c' w d x u) L C'.
Proof.
  intros []. cbn in *. destruct C as [|[p a] C]; [by left|right]. cbn in gi_client_cq0.
  apply Forall_cons in gi_done0 as [Ha Hd].
  set (E := (new_call <$> w) ++ omap open_call L ++ C).
  assert (Hp : map_to_list (calls c) ≡ₚ (p, a) :: E) by (rewrite gi_calls0; subst E; perm).
  unfold AsyncCompleteRpc_turn. erewrite bind_Ret by reflexivity. rewrite gi_client_cq0.
  erewrite bind_Ret by reflexivity. rewrite (entries_lookup _ _ _ _ Hp). erewrite bind_Ret by reflexivity.
  eexists _, C. split; [reflexivity|]. split; cbn; try done.
  - by rewrite (entries_delete _ _ _ _ Hp).
  - rewrite gi_said0, (entries_delete _ _ _ _ Hp), Hp, fmap_app. cbn. perm.
  - apply Forall_app. split; [done|]. constructor; [|done]. cbn in *.
    destruct (status_ok a); [left; by rewrite Ha|by right].
Qed.

Lemma filter_all {A} (P : A -> Prop) `{!forall x, Decision (P x)} l : Forall P l -> filter P l = l.
Proof. induction 1 as [|x l Hx _ IH]; [done|]. by rewrite filter_cons_True, IH. Qed.
Lemma filter_none {A} (P : A -> Prop) `{!forall x, Decision (P x)} l : Forall (fun x => ~ P x) l -> filter P l = [].
Proof. induction 1 as [|x l Hx _ IH]; [done|]. by rewrite filter_cons_False. Qed.

(** When the server has gone, every call that was not completed can only fail. *)
Lemma unfinished_calls b y L C :
  grpc_inv b y L C -> exists A, new_call <$> unfinished (cli y) ≡ₚ A /\ map_to_list (calls (cli y)) ≡ₚ A ++ C.
Proof.
  intros []. exists ((new_call <$> wire y) ++ omap open_call L). split; [|by rewrite <- app_assoc].
  assert (NoDup (map_to_list (calls (cli y))).*1) as Hnd by apply NoDup_fst_map_to_list.
  assert (Forall (fun x => x = new_call (x.1, asked x.2)) ((new_call <$> wire y) ++ omap open_call L)) as Hnew.
  { apply Forall_app. split; [by apply Forall_fmap, Forall_true|]. apply Forall_forall. intros x (o & _ & E)%list_elem_of_omap.
    unfold open_call in E. repeat case_match; by simplify_eq. }
  unfold unfinished. rewrite gi_calls0, app_assoc in Hnd |- *. rewrite gi_client_cq0.
  revert Hnd Hnew. generalize ((new_call <$> wire y) ++ omap open_call L). intros A Hnd Hnew.
  rewrite <- list_fmap_compose, filter_app. rewrite fmap_app in Hnd. apply NoDup_app in Hnd as (_ & Hd & _).
  assert (((fun x => (x.1, true)) <$> C).*1 = C.*1) as -> by by rewrite <- list_fmap_compose.
  rewrite (filter_none _ C), (filter_all _ A), app_nil_r.
  - clear Hd. induction Hnew as [|x A Hx _ IH]; [done|]. cbn. by rewrite IH, <- Hx.
  - apply Forall_forall. intros x Hin. by apply Hd, list_elem_of_fmap_2.
  - apply Forall_forall. intros x Hin Hn. by apply Hn, list_elem_of_fmap_2.
Qed.

Lemma step_abort_inv b p v c w d x v' L C :
  grpc_inv b (mkSystem v c w d x true) L C -> heap v !! p = None ->
  HandleRpcs_turn p v = Throw "GPR_ASSERT(ok)" v' ->
  grpc_inv b (mkSystem no_server c (unfinished c) d [] false) [] C.
Proof.
  intros Hi Hp Ht. assert (b = true) as ->.
  { pose proof (step_server_inv _ p _ _ _ _ _ _ _ _ Hi Hp) as Hs.
    destruct (cq_ v) as [|[tag []] rest] eqn:Eq; [|destruct Hs as (? & ? & ? & _); congruence|apply Hs].
    unfold HandleRpcs_turn in Ht. erewrite bind_Ret in Ht by reflexivity. by rewrite Eq in Ht. }
  destruct (unfinished_calls _ _ _ _ Hi) as (A & EA & EC). destruct Hi. split; cbn in *; try done.
  by rewrite EC, EA.
Qed.

Lemma system_step_inv b y y' :
  (exists L C, grpc_inv b y L C) -> system_step b y y' -> exists L C, grpc_inv b y' L C.
Proof.
  intros (L & C & Hi) Hs. destruct Hs as [| |? ? ? ? ? ? ? ? ? Hb|? ? ? ? ? ? ? ? ? ? Hb|p v c w d x u v' Hp E| | | |v c w d x u c' E].
  - eexists _, _. by apply step_say_inv.
  - eexists _, _. by eapply step_deliver_inv.
  - subst b. destruct (step_fail_inv _ _ _ _ _ _ _ _ _ _ _ Hi) as [C' ?]. eauto.
  - subst b. by eapply step_break_inv.
  - pose proof (step_server_inv _ p _ _ _ _ _ _ _ _ Hi Hp) as Hs.
    destruct (cq_ v) as [|[tag []] rest] eqn:Eq.
    + unfold HandleRpcs_turn in E. erewrite bind_Ret in E by reflexivity. by rewrite Eq in E.
    + destruct Hs as (v2 & L' & E2 & H2). exists L', C. congruence.
    + destruct Hs as (_ & v2 & E2). congruence.
  - eexists _, _. by eapply step_abort_inv.
  - by eapply step_finish_inv.
  - destruct (step_finish_dead_inv _ _ _ _ _ _ _ _ _ _ _ _ _ _ Hi ltac:(done)) as [L' ?]. eauto.
  - destruct (step_client_inv _ _ _ _ _ _ _ _ _ Hi) as [Ec|(c2 & C' & E2 & H2)].
    + unfold AsyncCompleteRpc_turn in E. erewrite bind_Ret in E by reflexivity. by rewrite Ec in E.
    + exists L, C'. congruence.
Qed.

Lemma system_steps_inv b p y : rtc (system_step b) (system_start p) y -> exists L C, grpc_inv b y L C.
Proof.
  intros Hr. apply (rtc_ind_r (fun y => exists L C, grpc_inv b y L C) (system_start p)) in Hr; [done|..].
  - exists [], []. apply system_start_inv.
  - intros y1 y2 _ Hs Hi. by eapply system_step_inv.
Qed.

(** C23: for every order in which calls are made, delivered, answered, lost and
    completed.  Each line the client prints is the greeting of the name it is for,
    or, when calls can fail, that the call failed.  No turn of either loop touches
    an object that was deleted: a turn of the client ends, and so does a turn of
    the server unless it meets an answer for a call that has died, at which its
    assertion ends the process; where calls cannot fail this does not happen.  A
    call that waits can be delivered, or the server has an event to work on, or
    the server has gone.  When nothing is under way, every call made has been
    answered by exactly one line and the client holds no call object; and the
    server, if it still runs, holds one object, which waits for the next call. *)
Theorem greeter_answers b p y :
  rtc (system_step b) (system_start p) y ->
  Forall (fun x => x.2 = ("Greeter received: Hello " +:+ x.1)%string \/
                   (b = true /\ x.2 = "RPC failed"%string)) (out (cli y)) /\
  (forall q, heap (srv y) !! q = None ->
     match cq_ (srv y) with
     | [] => True
     | (_, true) :: _ => exists v', HandleRpcs_turn q (srv y) = Ret tt v'
     | (_, false) :: _ => b = true /\ exists v', HandleRpcs_turn q (srv y) = Throw "GPR_ASSERT(ok)" v'
     end) /\
  (client_cq (cli y) <> [] -> exists c', AsyncCompleteRpc_turn (cli y) = Ret tt c') /\
  (wire y <> [] -> requested (srv y) <> [] \/ cq_ (srv y) <> [] \/ (b = true /\ up y = false)) /\
  (wire y = [] -> cq_ (srv y) = [] -> finishing (srv y) = [] -> client_cq (cli y) = [] ->
   (out (cli y)).*1 ≡ₚ said y /\ calls (cli y) = ∅ /\
   (up y = true -> exists t, heap (srv y) = {[t := mkCallData PROCESS None]} /\ requested (srv y) = [t])).
Proof.
  intros (L & C & Hi)%system_steps_inv. destruct y as [v c w d x u].
  split; [exact (gi_out _ _ _ _ Hi)|]. split; [|split; [|split]].
  - intros q Hq. pose proof (step_server_inv _ q _ _ _ _ _ _ _ _ Hi Hq) as Hs. cbn in *.
    destruct (cq_ v) as [|[tag []] rest]; [done| |done]. destruct Hs as (v' & _ & E & _). by exists v'.
  - intros Hn. destruct (step_client_inv _ _ _ _ _ _ _ _ _ Hi) as [|(c' & _ & E & _)]; [done|]. by exists c'.
  - intros _. destruct Hi. cbn in *. destruct (requested v); [right|by left].
    destruct u; [left|right; split; [|done]; destruct b; [done|by destruct (gi_sound0 eq_refl)]].
    destruct (omap got L) as [|o L'] eqn:Eg; [done|]. intros E. rewrite E in gi_cq0.
    assert (o ∈ omap got L) as (o' & Hin & Ho)%list_elem_of_omap by (rewrite Eg; by left).
    apply Permutation_nil in gi_cq0. unfold got in Ho. destruct (o_stage o') as [live| |] eqn:Es; try done.
    assert ((o_tag o', true) ∈ omap event L) as Hev; [|rewrite gi_cq0 in Hev; by apply elem_of_nil in Hev].
    apply list_elem_of_omap. exists o'. split; [done|]. unfold event. by rewrite Es.
  - destruct Hi. cbn in *. intros -> Eq Ef Ec. rewrite Eq in gi_cq0. rewrite Ef in gi_finishing0.
    apply Permutation_nil in gi_cq0, gi_finishing0. rewrite Ec in gi_client_cq0. symmetry in gi_client_cq0.
    apply fmap_nil_inv in gi_client_cq0 as ->.
    assert (L = []) as ->.
    { destruct L as [|[t r []] L]; [done|..]; cbn in *; discriminate. }
    cbn in *. rewrite app_nil_r in gi_heap0. apply Permutation_nil_r in gi_calls0. apply map_to_list_empty_iff in gi_calls0.
    rewrite gi_calls0, map_to_list_empty in gi_said0. cbn in gi_said0. split; [by rewrite gi_said0|]. split; [done|].
    intros ->. destruct (requested v) as [|t [|]]; cbn in gi_one0; [done| |lia]. exists t. split; [|done].
    cbn in gi_heap0. apply map_to_list_inj. by rewrite gi_heap0, map_to_list_singleton.
Qed.

(** A run with one call, from start to end. *)
Definition example_end : system :=
  mkSystem (mkServer {[8 := mkCallData PROCESS None]} [8] [] [])
    (mkClient ∅ [] [("world 0"%string, "Greeter received: Hello world 0"%string)]) [] ["world 0"%string] [] true.

Lemma greeter_example_run : rtc (system_step false) (system_start 7) example_end.
Proof.
  eapply rtc_l; [by apply (step_say _ 3 "world 0")|].
  eapply rtc_l; [by apply (step_deliver _ 7 3 "world 0" _ _ [] [] _ _ _ [] [])|].
  eapply rtc_l; [by eapply (step_server _ 8); [|vm_compute; reflexivity]|].
  eapply rtc_l; [by eapply (step_finish _ 7 _ _ _ 3 _ _ _ _ _ _ _ [] []); [done|apply not_elem_of_nil|done|done|left]|].
  eapply rtc_l; [by eapply (step_server _ 9); [|vm_compute; reflexivity]|].
  eapply rtc_once. by eapply step_client.
Qed.

Lemma greeter_answers_witness :
  (out (cli example_end)).*1 ≡ₚ said example_end /\ calls (cli example_end) = ∅.
Proof.
  destruct (greeter_answers false 7 example_end greeter_example_run) as (_ & _ & _ & _ & H).
  destruct (H eq_refl eq_refl eq_refl eq_refl) as (H1 & H2 & _). done.
Defined.

(** A run in which the call is lost while the server works on it: the server meets
    its answer, which was not sent, and its assertion ends the process. *)
Lemma dead_call_aborts :
  exists y q v', rtc (system_step true) (system_start 7) y /\ up y = true /\
    HandleRpcs_turn q (srv y) = Throw "GPR_ASSERT(ok)" v'.
Proof.
  eexists _, 9, _. split; [|split].
  - eapply rtc_l; [by apply (step_say _ 3 "world 0")|].
    eapply rtc_l; [by apply (step_deliver _ 7 3 "world 0" _ _ [] [] _ _ _ [] [])|].
    eapply rtc_l; [by eapply (step_break _ 7 _ 3 "world 0"); [done|done|done|apply not_elem_of_nil|left]|].
    eapply rtc_l; [by eapply (step_server _ 8); [|vm_compute; reflexivity]|].
    eapply rtc_once. by eapply (step_finish_dead _ 7 _ _ _ _ _ [] [] _ [] []).
  - done.
  - vm_compute. reflexivity.
Qed.

(** ** The synchronous service and clients *)
Definition GreeterServiceImpl_SayHello (request_name : string) : string :=
  let prefix := "Hello "%string in (prefix +:+ request_name)%string.

(** [GreeterImpl::SayHello] of src/brpc/server.cpp. *)
Definition GreeterImpl_SayHello (name : string) : string := ("Hello " +:+ name)%string.

(** [GreeterClient::SayHello] of greeter_client.cc: [stub] makes the call; it
    returns the reply, or a status that is not OK. *)
Definition client_SayHello (stub : string -> option string) (user : string) : string :=
  match stub user with
  | Some message => message
  | None => "RPC failed"
  end.

(** The one of greeter_async_client.cc: [Next] returns the tag and [ok], or that the queue
    is shut down; GPR_ASSERT ends the process. *)
Definition async_client_SayHello (stub : string -> option string) (Next : option (Z * bool)) (user : string) :
  option string :=
  match Next with
  | None => None
  | Some (got_tag, ok) =>
    if (got_tag =? 1) && ok then
      Some (match stub user with Some message => message | None => "RPC failed"%string end)
    else None
  end.

Lemma sync_greeting user :
  GreeterImpl_SayHello user = greeting user /\
  client_SayHello (fun u => Some (GreeterServiceImpl_SayHello u)) user = greeting user /\
  async_client_SayHello (fun u => Some (GreeterServiceImpl_SayHello u)) (Some (1, true)) user = Some (greeting user).
Proof. done. Qed.
