(* ===== verification/Asio.v ===== *)
(** * The asio echo servers and their client

    src/asio/asioserver.cpp (a thread per connection),
    src/asio/async_tcp_echo_server.cpp (completion handlers) and
    src/asio/asioclient.cpp.  What a session does after a read and after a write
    is the class [Session], with an instance for each server.  A connection is
    two streams of bytes, each of which holds at most what the socket buffers of
    its direction hold; a read or write moves any number of bytes that fits. *)
From S2P Require Import Prelude.

(** ** Sessions *)
Inductive read_result : Type :=
| ReadSome (data : list Z)
| ReadEof
| ReadError.

Inductive session_pc : Type :=
| SReading
| SWriting (rest : list Z)
| SEnded.

Class Session : Type := {
  max_length : Z;
  after_read : read_result -> session_pc;
  after_write : bool -> session_pc; (* whether the write succeeded *)
}.

(** asioserver.cpp: the turn of the loop of [session]; exceptions end it. *)
Definition session_after_read (r : read_result) : session_pc :=
  match r with
  | ReadEof => SEnded
  | ReadError => SEnded
  | ReadSome data => SWriting data
  end.
Definition session_after_write (ok : bool) : session_pc := if ok then SReading else SEnded.

Definition sync_session : Session :=
  {| max_length := 1024; after_read := session_after_read; after_write := session_after_write |}.

(** async_tcp_echo_server.cpp: the handlers of [do_read] and [do_write]; [ec] is
    whether there was an error, the end of the stream included. *)
Definition do_read_handler (ec : bool) (data : list Z) : session_pc := if negb ec then SWriting data else SEnded.
Definition do_write_handler (ec : bool) : session_pc := if negb ec then SReading else SEnded.

Definition async_session : Session :=
  {| max_length := 10240000;
     after_read := fun r =>
       match r with ReadSome data => do_read_handler false data | _ => do_read_handler true [] end;
     after_write := fun ok => do_write_handler (negb ok) |}.

(** What a client relies on. *)
Class EchoSession (s : Session) : Prop := {
  es_length : 0 < max_length;
  es_data data : data <> [] -> after_read (ReadSome data) = SWriting data;
  es_eof : after_read ReadEof = SEnded;
  es_again : after_write true = SReading;
}.

#[export] Instance sync_echo : EchoSession sync_session.
Proof. by split. Qed.
#[export] Instance async_echo : EchoSession async_session.
Proof. by split. Qed.

(** async_tcp_echo_server.cpp, [do_accept]: the sessions started so far; it
    accepts again after a failure too. *)
Definition do_accept_handler {socket : Type} (ec : bool) (s : socket) (sessions : list socket) : list socket :=
  if negb ec then sessions ++ [s] else sessions.

(** ** The client

    [sendData]: at the top of its loop, in the write, in the read, and after it. *)
Inductive client_pc : Type :=
| Checking
| Writing (rest : list Z)
| Reading (got : list Z)
| Closed.

Definition client_max_length : Z := 10240000.

(** [std::string request(Config::payloadSize, 'a')], and the part of it that
    [boost::asio::buffer(request, max_length)] covers; the read is as long. *)
Definition request (payloadSize : Z) : list Z := replicate (Z.to_nat payloadSize) 97.
Definition request_buffer (payloadSize : Z) : list Z := ztake client_max_length (request payloadSize).

(** [replies]: what the reads of the client returned, added by the model. *)
Record connection : Type := mkConnection {
  client : client_pc;
  server : session_pc;
  c2s : list Z;
  s2c : list Z;
  request_nbr : Z;
  replies : list (list Z);
}.

Section connection.
Context `{S : Session} (payloadSize cap1 cap2 : Z).

Inductive step : connection -> connection -> Prop :=
| c_start s a b n rs :
    step (mkConnection Checking s a b n rs)
      (mkConnection (Writing (request_buffer payloadSize)) s a b (u64 (n + 1)) rs)
| c_stop s a b n rs : step (mkConnection Checking s a b n rs) (mkConnection Closed s a b n rs)
| c_write k rest s a b n rs :
    0 < k <= zlen rest -> zlen a + k <= cap1 ->
    step (mkConnection (Writing rest) s a b n rs)
      (mkConnection (Writing (zdrop k rest)) s (a ++ ztake k rest) b n rs)
| c_written s a b n rs :
    step (mkConnection (Writing []) s a b n rs) (mkConnection (Reading []) s a b n rs)
| c_read k got s a b n rs :
    0 < k <= zlen b -> zlen got + k <= zlen (request_buffer payloadSize) ->
    step (mkConnection (Reading got) s a b n rs)
      (mkConnection (Reading (got ++ ztake k b)) s a (zdrop k b) n rs)
| c_done got s a b n rs :
    zlen got = zlen (request_buffer payloadSize) ->
    step (mkConnection (Reading got) s a b n rs) (mkConnection Checking s a b n (rs ++ [got]))
| s_read k c a b n rs :
    0 < k <= zlen a -> k <= max_length ->
    step (mkConnection c SReading a b n rs)
      (mkConnection c (after_read (ReadSome (ztake k a))) (zdrop k a) b n rs)
| s_eof b n rs :
    step (mkConnection Closed SReading [] b n rs) (mkConnection Closed (after_read ReadEof) [] b n rs)
| s_write k rest c a b n rs :
    0 < k <= zlen rest -> zlen b + k <= cap2 ->
    step (mkConnection c (SWriting rest) a b n rs)
      (mkConnection c (SWriting (zdrop k rest)) a (b ++ ztake k rest) n rs)
| s_written c a b n rs :
    step (mkConnection c (SWriting []) a b n rs) (mkConnection c (after_write true) a b n rs).

Definition accepted : connection := mkConnection Checking SReading [] [] 0 [].

(** What the session holds. *)
Definition held (s : session_pc) : list Z := match s with SWriting rest => rest | _ => [] end.

(** The bytes of a round are in the client, the streams and the session, in order. *)
Record echo_inv (y : connection) : Prop := {
  ei_bytes :
    match client y with
    | Checking | Closed => s2c y ++ held (server y) ++ c2s y = []
    | Writing rest => s2c y ++ held (server y) ++ c2s y ++ rest = request_buffer payloadSize
    | Reading got => got ++ s2c y ++ held (server y) ++ c2s y = request_buffer payloadSize
    end;
  ei_replies : Forall (eq (request_buffer payloadSize)) (replies y);
  ei_ended : server y = SEnded -> client y = Closed;
  ei_caps : zlen (c2s y) <= cap1 /\ zlen (s2c y) <= cap2 /\ zlen (held (server y)) <= max_length;
}.

Context `{!EchoSession S}.

Lemma accepted_inv : 0 <= cap1 -> 0 <= cap2 -> echo_inv accepted.
Proof. intros H1 H2. split; cbn; try done. pose proof (es_length (s := S)). rewrite !zlen_nil. lia. Qed.

(** A read takes some bytes, so the session writes them. *)
Lemma es_taken k a : 0 < k <= zlen a -> after_read (ReadSome (ztake k a)) = SWriting (ztake k a).
Proof.
  intros H. apply es_data. intros E. apply (f_equal zlen) in E.
  rewrite zlen_ztake, zlen_nil in E by lia. lia.
Qed.

Lemma round_start (a b h r : list Z) : b ++ h ++ a = [] -> b ++ h ++ a ++ r = r.
Proof. intros [-> [-> ->]%app_eq_nil]%app_eq_nil. done. Qed.

Lemma step_inv y y' : echo_inv y -> step y y' -> echo_inv y'.
Proof.
  intros [H1 H2 H3 (H4 & H5 & H6)] Hs. destruct Hs; cbn -[zlen] in *.
  - split; cbn -[zlen]; try done; [by apply round_start|naive_solver].
  - by split.
  - split; cbn -[zlen]; try done.
    + by rewrite <- app_assoc, ztake_drop.
    + naive_solver.
    + rewrite zlen_app, zlen_ztake by lia. done.
  - split; cbn -[zlen]; try done; [|naive_solver]. rewrite app_nil_r in H1. done.
  - split; cbn -[zlen]; try done.
    + by rewrite <- app_assoc, (app_assoc (ztake k b)), ztake_drop.
    + naive_solver.
    + split; [done|]. split; [|done]. rewrite zlen_zdrop; lia.
  - assert (E : b ++ held s ++ a = []).
    { apply zlen_0_nil. apply (f_equal zlen) in H1. rewrite zlen_app in H1. lia. }
    split; cbn -[zlen]; try done; [|naive_solver].
    apply Forall_app. split; [done|]. constructor; [|done]. rewrite <- H1, E. by rewrite app_nil_r.
  - split; cbn -[zlen]; rewrite ?es_taken by done; cbn -[zlen]; try done.
    + rewrite <- (ztake_drop k a) in H1. destruct c; by rewrite <- ?app_assoc in *.
    + rewrite zlen_zdrop, zlen_ztake by lia. lia.
  - split; cbn -[zlen]; rewrite ?(es_eof (s := S)); cbn -[zlen]; done.
  - split; cbn -[zlen]; try done.
    + rewrite <- (ztake_drop k rest) in H1. destruct c; by rewrite <- ?app_assoc in *.
    + rewrite zlen_app, zlen_zdrop, zlen_ztake by lia. lia.
  - split; cbn -[zlen]; rewrite ?(es_again (s := S)); cbn -[zlen]; done.
Qed.

Lemma steps_inv y : 0 <= cap1 -> 0 <= cap2 -> rtc step accepted y -> echo_inv y.
Proof.
  intros H1 H2 Hr. assert (Hi : echo_inv accepted) by (by apply accepted_inv). revert Hi.
  induction Hr as [|y1 y2 y3 Hs _ IH]; [done|]. intros Hi. apply IH. by eapply step_inv.
Qed.

(** ** Rounds end *)

(** A bound on the steps left until the client is at the top of its loop. *)
Definition work (y : connection) : Z :=
  match client y with
  | Checking => 1
  | Writing rest => 3 + 7 * zlen rest
  | Reading got => 2
  | Closed => 0
  end +
  match server y with SReading => 1 | SWriting rest => 2 + 3 * zlen rest | SEnded => 0 end +
  5 * zlen (c2s y) + zlen (s2c y).

Lemma step_work y y' : step y y' -> client y <> Checking -> 0 <= work y' < work y.
Proof.
  intros Hs Hc. unfold work.
  pose proof (zlen_nonneg (c2s y')). pose proof (zlen_nonneg (s2c y')).
  destruct Hs; cbn -[zlen Z.mul] in *; rewrite ?es_taken by done; rewrite ?(es_eof (s := S)), ?(es_again (s := S));
    rewrite ?zlen_app, ?zlen_zdrop, ?zlen_ztake, ?zlen_nil in * by lia; try done.
  all: repeat match goal with
    | |- context [zlen ?l] => lazymatch goal with H : 0 <= zlen l |- _ => fail | _ => pose proof (zlen_nonneg l) end
    | |- context [match ?x with _ => _ end] => destruct x; try done
    end; lia.
Qed.

(** While a round is under way and the reply fits in the buffers of its
    direction, something can happen. *)
Lemma step_exists y :
  echo_inv y -> 0 < cap1 -> 0 < cap2 -> zlen (request_buffer payloadSize) <= cap2 ->
  (client y = Closed /\ server y = SEnded) \/ exists y', step y y'.
Proof.
  intros [H1 _ H3 (H4 & H5 & H6)] C1 C2 C3. destruct y as [c s a b n rs]. cbn -[zlen] in *.
  pose proof (es_length (s := S)) as Hl. pose proof (zlen_nonneg a) as Ha. pose proof (zlen_nonneg b) as Hb.
  destruct s as [|rest|].
  - destruct (decide (zlen a = 0)) as [Ez|Ez].
    2:{ right. eexists. apply (s_read 1); lia. }
    apply zlen_0_nil in Ez as ->. right. destruct c as [|rest|got|].
    + eexists. apply c_start.
    + destruct (decide (zlen rest = 0)) as [->%zlen_0_nil|E]; [eexists; apply c_written|].
      pose proof (zlen_nonneg rest). eexists. apply (c_write 1); [lia|]. rewrite zlen_nil. lia.
    + destruct (decide (zlen got = zlen (request_buffer payloadSize))) as [E|E]; [eexists; by apply c_done|].
      apply (f_equal zlen) in H1. cbn in H1. rewrite !zlen_app, zlen_nil in H1.
      eexists. apply (c_read 1); lia.
    + eexists. apply s_eof.
  - right. destruct (decide (zlen rest = 0)) as [->%zlen_0_nil|E]; [eexists; apply s_written|].
    pose proof (zlen_nonneg rest) as Hr. cbn -[zlen] in *.
    destruct c as [|r|got|].
    + apply (f_equal zlen) in H1. rewrite !zlen_app, zlen_nil in H1. lia.
    + apply (f_equal zlen) in H1. rewrite !zlen_app in H1. pose proof (zlen_nonneg r).
      eexists. apply (s_write 1); lia.
    + apply (f_equal zlen) in H1. rewrite !zlen_app in H1. pose proof (zlen_nonneg got).
      eexists. apply (s_write 1); lia.
    + apply (f_equal zlen) in H1. rewrite !zlen_app, zlen_nil in H1. lia.
  - rewrite (H3 eq_refl). by left.
Qed.

(** With each server, every reply the client has read is its request; and
    when the buffers of the way back hold a whole reply, no state of client
    and server is stuck before both have ended, and every step of a round brings
    its end nearer, so that each round ends. *)
Theorem echo_rounds y :
  rtc step accepted y -> 0 < cap1 -> 0 < cap2 -> zlen (request_buffer payloadSize) <= cap2 ->
  Forall (eq (request_buffer payloadSize)) (replies y) /\
  ((client y = Closed /\ server y = SEnded) \/ exists y', step y y') /\
  (forall y', step y y' -> client y <> Checking -> 0 <= work y' < work y).
Proof.
  intros Hr C1 C2 C3. assert (Hi : echo_inv y) by (apply steps_inv; [lia..|done]).
  split; [apply (ei_replies _ Hi)|]. split; [by apply step_exists|]. intros y'. apply step_work.
Qed.

(** The client does not read before it has written all of its request: when
    this is more than the two directions and the session hold together, its
    first write never ends, and it never gets a reply. *)
Theorem large_request_blocks y :
  rtc step accepted y -> 0 <= cap1 -> 0 <= cap2 ->
  cap1 + cap2 + max_length < zlen (request_buffer payloadSize) ->
  replies y = [] /\
  (client y = Checking \/ client y = Closed \/ exists rest, client y = Writing rest /\ rest <> []).
Proof.
  intros Hr C1 C2 C3. revert y Hr. apply rtc_ind_r; [by split; [|left]|].
  intros y1 y2 Hx Hs [I1 I2].
  assert (Hi : echo_inv y2) by (eapply step_inv; [|done]; by apply steps_inv).
  assert (Hw : forall rest, client y2 = Writing rest -> rest <> []).
  { intros rest E ->. destruct Hi as [H1 _ _ (H4 & H5 & H6)]. rewrite E in H1.
    apply (f_equal zlen) in H1. rewrite !zlen_app, zlen_nil in H1. lia. }
  destruct Hs; cbn in *; try (split; [done|]); try naive_solver.
Qed.
End connection.

Lemma echo_rounds_witness :
  rtc (step (S := sync_session) 3 16 16) accepted accepted /\
  exists y', step (S := sync_session) 3 16 16 accepted y'.
Proof.
  split; [apply rtc_refl|].
  destruct (echo_rounds (S := sync_session) 3 16 16 accepted (rtc_refl _ _)) as (_ & [[H _]|H] & _);
    [by vm_compute..|done].
Defined.

Lemma large_request_blocks_witness :
  let y := mkConnection (Writing (request_buffer 2000)) SReading [] [] 1 [] in
  rtc (step (S := sync_session) 2000 400 400) accepted y /\ replies y = [].
Proof.
  assert (H : rtc (step (S := sync_session) 2000 400 400) accepted
    (mkConnection (Writing (request_buffer 2000)) SReading [] [] 1 [])).
  { apply rtc_once. apply (c_start (S := sync_session) 2000 400 400 SReading [] [] 0 []). }
  split; [exact H|].
  apply (large_request_blocks (S := sync_session) 2000 400 400 _ H); by vm_compute.
Defined.
