(* ===== verification/TlsEcho.v ===== *)
(** * The TLS echo server

    src/seastar/include/tls_echo_server.h.  A session is a third instance of the
    class of echo sessions of Asio.v.  The loop of [listen] runs in the
    background: it accepts, runs the session of the connection to its end, and
    starts over.  The reactor completes an accept or ends a session at any time;
    [stop] makes a pending accept fail and closes the gate; it needs the socket
    that [listen] makes. *)
From S2P Require Import Prelude Asio.

(** ** A session *)

(** What is done with a buffer that was read: an empty one is the end of the
    stream; an exception ends the session as well.  [write] and [flush] then
    succeed or raise. *)
Definition tls_after_read (r : read_result) : session_pc :=
  match r with
  | ReadSome [] => SEnded
  | ReadSome tmp => SWriting tmp
  | ReadEof => SEnded
  | ReadError => SEnded
  end.
Definition tls_after_write (ok : bool) : session_pc := if ok then SReading else SEnded.

(** [n]: the size of the buffers of the stream. *)
Definition tls_session (n : Z) : Session :=
  {| max_length := n; after_read := tls_after_read; after_write := tls_after_write |}.

(** ** The accept loop *)
Inductive loop_pc : Type :=
| NotListening
| Top
| Accepting
| InSession (connection : Z)
| LoopEnded.

(** [entered]: how often the gate has been entered and not left; [accepted] and
    [ended] are the connections in their order, added by the model. *)
Record echoserver : Type := mkServer {
  _stopped : bool;
  gate_closed : bool;
  entered : Z;
  loop : loop_pc;
  accepted : list Z;
  ended : list Z;
}.

Definition new_echoserver : echoserver := mkServer false false 0 NotListening [] [].

(** [listen], after the certificate has been read. *)
Definition listen (s : echoserver) : echoserver :=
  mkServer (_stopped s) (gate_closed s) (entered s) Top (accepted s) (ended s).

(** The body of the repeat: entering a closed gate raises, which ends the loop. *)
Definition loop_top (s : echoserver) : echoserver :=
  if _stopped s then mkServer (_stopped s) (gate_closed s) (entered s) LoopEnded (accepted s) (ended s)
  else if gate_closed s then mkServer (_stopped s) (gate_closed s) (entered s) LoopEnded (accepted s) (ended s)
  else mkServer (_stopped s) (gate_closed s) (entered s + 1) Accepting (accepted s) (ended s).

(** The end of the function in the gate, which is left. *)
Definition next_turn (s : echoserver) : echoserver :=
  mkServer (_stopped s) (gate_closed s) (entered s - 1) (if _stopped s then LoopEnded else Top)
    (accepted s) (ended s).

(** The accept completes, with a connection or an exception. *)
Definition accept_done (r : option Z) (s : echoserver) : echoserver :=
  match r with
  | Some c => mkServer (_stopped s) (gate_closed s) (entered s) (InSession c) (accepted s ++ [c]) (ended s)
  | None => next_turn s
  end.

(** The session has ended and its input is closed. *)
Definition session_done (c : Z) (s : echoserver) : echoserver :=
  next_turn (mkServer (_stopped s) (gate_closed s) (entered s) (loop s) (accepted s) (ended s ++ [c])).

Definition stop (s : echoserver) : echoserver :=
  let s := mkServer true (gate_closed s) (entered s) (loop s) (accepted s) (ended s) in
  let s := match loop s with Accepting => accept_done None s | _ => s end in
  mkServer true true (entered s) (loop s) (accepted s) (ended s).

(** The future of [_gate.close()] is complete. *)
Definition stop_done (s : echoserver) : bool := gate_closed s && (entered s =? 0).

Inductive echoserver_step : echoserver -> echoserver -> Prop :=
| t_listen s : loop s = NotListening -> echoserver_step s (listen s)
| t_top s : loop s = Top -> echoserver_step s (loop_top s)
| t_accept s r : loop s = Accepting -> echoserver_step s (accept_done r s)
| t_session s c : loop s = InSession c -> echoserver_step s (session_done c s)
| t_stop s : loop s <> NotListening -> echoserver_step s (stop s).

(** ** Properties *)
#[export] Instance tls_echo p : EchoSession (tls_session (Zpos p)).
Proof. split; [done| |done|done]. by intros [|x data]. Qed.

(** The connections whose session is running. *)
Definition running (p : loop_pc) : list Z := match p with InSession c => [c] | _ => [] end.

Record loop_inv (s : echoserver) : Prop := {
  li_order : accepted s = ended s ++ running (loop s);
  li_gate : gate_closed s = _stopped s;
  li_entered : entered s = match loop s with Accepting | InSession _ => 1 | _ => 0 end;
  li_stopped : _stopped s = true -> loop s <> Accepting;
}.

Lemma loop_step_inv s s' : echoserver_step s s' -> loop_inv s -> loop_inv s'.
Proof.
  intros Hs [H1 H2 H3 H4]. destruct Hs as [s E|s E|s r E|s c E|s E];
    destruct s as [st gc en lp ac en']; cbn in *; subst.
  - split; done.
  - unfold loop_top. cbn. destruct st; split; done.
  - destruct r as [c|]; cbn; [|by destruct st; split]. split; cbn; try done.
    by rewrite app_nil_r.
  - unfold session_done, next_turn. cbn. destruct st; split; cbn; rewrite ?app_nil_r; done.
  - destruct lp; cbn; split; cbn; try done.
Qed.

(** The server serves one connection at a time and in the order in which it
    accepts them; after a stop it accepts none, and the stop is complete at once
    or when the session that is running ends. *)
Theorem tls_serves_in_turn s :
  rtc echoserver_step new_echoserver s ->
  accepted s = ended s ++ running (loop s) /\
  (_stopped s = true ->
   (forall s', echoserver_step s s' -> accepted s' = accepted s) /\
   (stop_done s = true \/ exists c, loop s = InSession c /\ stop_done (session_done c s) = true)).
Proof.
  intros Hr. assert (Hi : loop_inv s).
  { revert s Hr. apply rtc_ind_r; [by split|]. intros s1 s2 _ Hs. by apply loop_step_inv. }
  destruct Hi as [H1 H2 H3 H4]. split; [done|]. intros Hst. split.
  - intros s' Hs. destruct Hs as [s E|s E|s r E|s c E|s E]; try done.
    + unfold loop_top. by rewrite Hst.
    + by destruct (H4 Hst).
    + unfold stop. cbn. by destruct (loop s).
  - unfold stop_done, session_done, next_turn. cbn. rewrite H2, H3, Hst.
    destruct (loop s) as [| | |c|] eqn:E; try (by left).
    + by destruct (H4 Hst).
    + right. by exists c.
Qed.

Lemma tls_serves_in_turn_witness :
  let s := stop (accept_done (Some 7) (loop_top (listen new_echoserver))) in
  rtc echoserver_step new_echoserver s /\ accepted s = [7] /\
  exists c, loop s = InSession c /\ stop_done (session_done c s) = true.
Proof.
  set (s := stop _).
  assert (Hr : rtc echoserver_step new_echoserver s).
  { eapply rtc_l; [by apply t_listen|]. eapply rtc_l; [by apply t_top|].
    eapply rtc_l; [by apply (t_accept _ (Some 7))|]. apply rtc_once. by apply t_stop. }
  split; [done|]. split; [done|].
  destruct (tls_serves_in_turn s Hr) as [_ H]. destruct (H eq_refl) as [_ [H'|H']]; [discriminate H'|done].
Defined.
