(* ===== verification/Benchmark.v ===== *)
(** * The loop of the benchmark clients

    The clients of src/grpc (greeter_client.cc), src/brpc (client.cpp),
    src/zeromq (hwclient.cpp) and src/asio (asioclient.cpp) have the same
    function [sendData]: one thread for each client calls the server in a loop
    until the execution time is over and then prints its throughput and latency;
    the threads share a counter.  What the call does is not looked at.  Times are
    in nanoseconds. *)
From Stdlib Require Import SpecFloat.
From S2P Require Import Prelude FloatConvert.

(** ** One thread *)
Inductive bench_pc : Type :=
| AtTop
| Calling (startTime : Z)
| Reported (throughput : option Z) (latency : spec_float)
| Caught.

(** [request_nbr] is a size_t, [latency] a float. *)
Record bench : Type := mkBench {
  pc : bench_pc;
  executionStartTime : Z;
  request_nbr : Z;
  latency : spec_float;
}.

Definition new_bench (now : Z) : bench := mkBench AtTop now 0 (float32 0).

(** [request_nbr / Config::executionTime] in 64 bits; a division by zero is
    undefined. *)
Definition per_second (request_nbr executionTime : Z) : option Z :=
  if executionTime =? 0 then None else Some (request_nbr / u64 executionTime).

(** [duration_cast<seconds>(d).count()]. *)
Definition seconds (d : Z) : Z := Z.quot d 1000000000.

(** A double stored in a float. *)
Definition DoubleToFloat (v : spec_float) : spec_float :=
  match v with
  | S754_finite s m e => binary_normalize 24 128 (if s then Zneg m else Zpos m) e s
  | _ => v
  end.

(** [duration_ms.count()] and [latency += duration_ms.count()]. *)
Definition milliseconds (d : Z) : spec_float := SFdiv 53 1024 (float64 d) (float64 1000000).
Definition add_latency (latency : spec_float) (d : Z) : spec_float :=
  DoubleToFloat (SFadd 53 1024 (FloatToDouble latency) (milliseconds d)).

(** [latency / request_nbr]: the size_t becomes a float. *)
Definition mean_latency (latency : spec_float) (request_nbr : Z) : spec_float :=
  SFdiv 24 128 latency (float32 request_nbr).

(** The top of the loop up to the call; the second result is what is added to
    the counter the threads share. *)
Definition turn (executionTime now : Z) (b : bench) : bench * Z :=
  if seconds (now - executionStartTime b) >? executionTime
  then (mkBench (Reported (per_second (request_nbr b) executionTime) (mean_latency (latency b) (request_nbr b)))
          (executionStartTime b) (request_nbr b) (latency b), 0)
  else (mkBench (Calling now) (executionStartTime b) (u64 (request_nbr b + 1)) (latency b), 1).

(** After the call. *)
Definition call_returns (startTime now : Z) (b : bench) : bench :=
  mkBench AtTop (executionStartTime b) (request_nbr b) (add_latency (latency b) (now - startTime)).

(** ** The threads *)
Record benchmark : Type := mkBenchmark {
  now : Z;
  throughput : Z; (* std::atomic_int64_t *)
  threads : list bench;
}.

(** What [main] prints: the counter is signed. *)
Definition total_per_second (executionTime : Z) (y : benchmark) : option Z :=
  if executionTime =? 0 then None else Some (Z.quot (throughput y) executionTime).

Section run.
Context (executionTime : Z).

(** Time passes; a thread is started; a thread takes its turn; a call returns;
    an exception ends a thread of asioclient.cpp. *)
Inductive bench_step : benchmark -> benchmark -> Prop :=
| b_time d t p bs : 0 < d -> bench_step (mkBenchmark t p bs) (mkBenchmark (t + d) p bs)
| b_thread t p bs : bench_step (mkBenchmark t p bs) (mkBenchmark t p (bs ++ [new_bench t]))
| b_turn i b b' n t p bs :
    bs !! i = Some b -> pc b = AtTop -> turn executionTime t b = (b', n) ->
    bench_step (mkBenchmark t p bs) (mkBenchmark t (i64 (p + n)) (<[i := b']> bs))
| b_return i b st t p bs :
    bs !! i = Some b -> pc b = Calling st ->
    bench_step (mkBenchmark t p bs) (mkBenchmark t p (<[i := call_returns st t b]> bs))
| b_throw i b st t p bs :
    bs !! i = Some b -> pc b = Calling st ->
    bench_step (mkBenchmark t p bs)
      (mkBenchmark t p (<[i := mkBench Caught (executionStartTime b) (request_nbr b) (latency b)]> bs)).

Definition no_threads (t : Z) : benchmark := mkBenchmark t 0 [].

Definition requests (bs : list bench) : Z := foldr (fun b n => request_nbr b + n) 0 bs.
#[local] Arguments requests : simpl never.

(** A thread that has reported ran for a second more than the execution time. *)
Definition reported_ok (t : Z) (b : bench) : Prop :=
  executionStartTime b <= t /\
  match pc b with
  | Reported r l => (executionTime + 1) * 1000000000 <= t - executionStartTime b /\
                    r = per_second (request_nbr b) executionTime
  | _ => True
  end.

Record bench_inv (y : benchmark) : Prop := {
  bi_count : throughput y = i64 (requests (threads y));
  bi_threads : Forall (reported_ok (now y)) (threads y);
}.

Lemma seconds_above d : 0 <= d -> 0 <= executionTime -> seconds d > executionTime ->
  (executionTime + 1) * 1000000000 <= d.
Proof. unfold seconds. intros Hd He H. rewrite Z.quot_div_nonneg in H by lia. Z.div_mod_to_equations. lia. Qed.

Lemma requests_app a b : requests (a ++ b) = requests a + requests b.
Proof. unfold requests. induction a as [|x a IH]; cbn; [done|]. rewrite IH. lia. Qed.

Lemma requests_insert bs i b b' :
  bs !! i = Some b -> requests (<[i := b']> bs) = requests bs - request_nbr b + request_nbr b'.
Proof.
  intros H. rewrite insert_take_drop by (by eapply lookup_lt_Some).
  rewrite <- (take_drop_middle _ _ _ H) at 3. rewrite !requests_app. unfold requests. cbn. lia.
Qed.

(** Adding 1 to a 64-bit counter and to a sum of 64-bit counters. *)
Lemma i64_add s n : i64 (i64 s + n) = i64 (s + n).
Proof. unfold swrap. f_equal. Z.div_mod_to_equations. lia. Qed.

Lemma i64_count s x n : i64 (i64 s + n) = i64 (s - x + u64 (x + n)).
Proof.
  unfold swrap, uwrap. f_equal. Z.div_mod_to_equations. lia.
Qed.

Lemma bench_step_inv y y' : 0 <= executionTime -> bench_step y y' -> bench_inv y -> bench_inv y'.
Proof.
  intros He Hs [H1 H2]. destruct Hs as [d t p bs Hd|t p bs|i b b' n t p bs Hb Hp E|i b st t p bs Hb Hp|i b st t p bs Hb Hp];
    cbn in *; split; cbn; try done.
  - eapply Forall_impl; [exact H2|]. intros b [I1 I2]. split; [lia|]. destruct (pc b); try done.
    destruct I2. split; [lia|done].
  - rewrite requests_app. change (requests [new_bench t]) with 0. by rewrite Z.add_0_r.
  - apply Forall_app. split; [done|]. repeat constructor; cbn; lia.
  - rewrite (requests_insert _ _ _ _ Hb), H1. unfold turn in E.
    destruct (_ >? _); injection E as <- <-; cbn; [|apply i64_count].
    rewrite i64_add. f_equal. lia.
  - apply Forall_insert; [done|]. destruct (proj1 (Forall_lookup _ _) H2 _ _ Hb) as [I1 _].
    unfold turn in E. destruct (Z.gtb_spec (seconds (t - executionStartTime b)) executionTime) as [G|G];
      injection E as <- <-; split; cbn; try done; split; [|done]. apply seconds_above; lia.
  - rewrite (requests_insert _ _ _ _ Hb), H1. cbn. f_equal. lia.
  - apply Forall_insert; [done|]. destruct (proj1 (Forall_lookup _ _) H2 _ _ Hb) as [I1 _]. by split.
  - rewrite (requests_insert _ _ _ _ Hb), H1. cbn. f_equal. lia.
  - apply Forall_insert; [done|]. destruct (proj1 (Forall_lookup _ _) H2 _ _ Hb) as [I1 _]. by split.
Qed.

(** In every interleaving of the threads the counter they share is the sum
    of the requests each of them has made; and a thread prints its throughput
    only after it has made requests for a second more than the time it divides
    by. *)
Theorem benchmark_counts t0 y :
  0 <= executionTime -> rtc bench_step (no_threads t0) y ->
  throughput y = i64 (requests (threads y)) /\
  forall i b r l, threads y !! i = Some b -> pc b = Reported r l ->
    r = per_second (request_nbr b) executionTime /\
    (executionTime + 1) * 1000000000 <= now y - executionStartTime b.
Proof.
  intros He Hr. assert (Hi : bench_inv y).
  { revert y Hr. apply rtc_ind_r; [by split; [|constructor]|]. intros y1 y2 _ Hs. by apply bench_step_inv. }
  split; [apply (bi_count _ Hi)|]. intros i b r l Hb Hp.
  destruct (proj1 (Forall_lookup _ _) (bi_threads _ Hi) _ _ Hb) as [_ H]. rewrite Hp in H. by destruct H.
Qed.

(** ** A run of one thread *)

(** Every call takes [d] and the loop itself no time; the requests that were
    made when the thread reports. *)
Fixpoint run_calls (fuel : nat) (d t : Z) (b : bench) : option bench :=
  match fuel with
  | O => None
  | S fuel =>
    let '(b', _) := turn executionTime t b in
    match pc b' with
    | Calling st => run_calls fuel d (t + d) (call_returns st (t + d) b')
    | _ => Some b'
    end
  end.

Lemma run_calls_spec d fuel k b :
  0 < d -> 0 <= executionTime -> executionStartTime b = 0 -> request_nbr b = k -> 0 <= k ->
  let n := ((executionTime + 1) * 1000000000 + d - 1) / d in
  n < 2 ^ 64 -> k <= n -> (Z.to_nat (n - k) < fuel)%nat ->
  exists b', run_calls fuel d (k * d) b = Some b' /\
    request_nbr b' = n /\ exists l, pc b' = Reported (per_second n executionTime) l.
Proof.
  intros Hd He. revert k b. induction fuel as [|fuel IH]; intros k b H0 Hk Hk0 n Hn Hkn Hf; [lia|].
  cbn [run_calls]. unfold turn. rewrite H0, Z.sub_0_r. unfold seconds. rewrite Z.quot_div_nonneg by lia.
  assert (Hiff : executionTime < k * d / 1000000000 <-> k = n).
  { subst n. split; intros H; Z.div_mod_to_equations; nia. }
  destruct (Z.gtb_spec (k * d / 1000000000) executionTime) as [G|G]; cbn [pc].
  - apply Hiff in G. eexists. split; [done|]. cbn. rewrite Hk, G. split; [done|]. by eexists.
  - assert (k < n) by lia.
    replace (k * d + d) with ((k + 1) * d) by lia. apply IH; cbn; try done; try lia.
    rewrite Hk, uwrap_small; [done|]. unfold in_u. lia.
Qed.

(** The thread of a server that takes [d] for every call ends; it has then
    made all the requests of [executionTime + 1] seconds, and it prints their
    number divided by [executionTime]. *)
Theorem throughput_overstated d :
  0 < d -> 0 < executionTime ->
  let n := ((executionTime + 1) * 1000000000 + d - 1) / d in
  n < 2 ^ 64 ->
  exists fuel b l, run_calls fuel d 0 (new_bench 0) = Some b /\ request_nbr b = n /\
    pc b = Reported (per_second n executionTime) l.
Proof.
  intros Hd He n Hn. exists (S (Z.to_nat n)).
  destruct (run_calls_spec d (S (Z.to_nat n)) 0 (new_bench 0)) as (b & E & E2 & l & E3); try done; try lia.
  - fold n. subst n. apply Z.div_pos; lia.
  - exists b, l. done.
Qed.
End run.

Lemma benchmark_counts_witness :
  let b := mkBench (Calling 7) 7 1 (float32 0) in
  rtc (bench_step 10) (no_threads 7) (mkBenchmark 7 1 [b]) /\ 1 = i64 (requests [b]).
Proof.
  set (b := mkBench (Calling 7) 7 1 (float32 0)).
  assert (Hr : rtc (bench_step 10) (no_threads 7) (mkBenchmark 7 1 [b])).
  { eapply rtc_l; [apply b_thread|]. apply rtc_once.
    by apply (b_turn 10 0 (new_bench 7) b 1 7 0 [new_bench 7]). }
  split; [done|]. exact (proj1 (benchmark_counts 10 7 _ ltac:(lia) Hr)).
Defined.

(** One call a second, measured over one second: the thread prints two. *)
Lemma throughput_overstated_witness :
  exists fuel b l, run_calls 1 fuel 1000000000 0 (new_bench 0) = Some b /\ request_nbr b = 2 /\
    pc b = Reported (Some 2) l.
Proof. exact (throughput_overstated 1 1000000000 ltac:(lia) ltac:(lia) ltac:(vm_compute; reflexivity)). Defined.
