(* ===== verification/Seastar.v ===== *)
(** * The seastar throughput test

    src/seastar/tcp_sctp_client_demo.cpp and tcp_sctp_server_demo.cpp.  A chain
    of futures is a program counter: the point at which the next future completes.
    Both sides of a connection run interleaved; [write] fills the buffer of the
    output stream, [flush] sends it, [close] also ends the stream, and
    [read_exactly n] completes with [n] bytes, or with fewer at the end of the
    stream. *)
From S2P Require Import Prelude.

(** ** One side of a connection *)

(** [rbuf]: the bytes sent by the other side and not read yet; [shut]: this side
    has ended its output; [eof]: a read has met the end of the input. *)
Record conn (PC : Type) : Type := mkConn {
  pc : PC;
  _write_buf : list Z;
  rbuf : list Z;
  shut : bool;
  eof : bool;
}.
Arguments mkConn {PC} _ _ _ _ _.
Arguments pc {PC} _.
Arguments _write_buf {PC} _.
Arguments rbuf {PC} _.
Arguments shut {PC} _.
Arguments eof {PC} _.

Section streams.
Context {PC : Type}.
(** Each goes on at [p]; the second component is what is sent. *)
Definition write (b : list Z) (p : PC) (c : conn PC) : conn PC * list Z :=
  (mkConn p (_write_buf c ++ b) (rbuf c) (shut c) (eof c), []).
Definition flush (p : PC) (c : conn PC) : conn PC * list Z :=
  (mkConn p [] (rbuf c) (shut c) (eof c), _write_buf c).
Definition close (p : PC) (c : conn PC) : conn PC * list Z :=
  (mkConn p [] (rbuf c) true (eof c), _write_buf c).
(** [make_ready_future()]: the connection is deleted, which ends its output. *)
Definition finish (p : PC) (c : conn PC) : conn PC * list Z :=
  (mkConn p (_write_buf c) (rbuf c) true (eof c), []).
(** [ended]: the other side has ended its output.  [None]: it waits. *)
Definition read_exactly (n : Z) (ended : bool) (c : conn PC) : option (list Z * conn PC) :=
  if n <=? zlen (rbuf c) then
    Some (ztake n (rbuf c), mkConn (pc c) (_write_buf c) (zdrop n (rbuf c)) (shut c) (eof c))
  else if ended then Some (rbuf c, mkConn (pc c) (_write_buf c) [] (shut c) true)
  else None.
Definition goto (p : PC) (c : conn PC) : conn PC * list Z :=
  (mkConn p (_write_buf c) (rbuf c) (shut c) (eof c), []).
End streams.

(** ** The client's connection *)
Module Client.
Definition rx_msg_size : Z := 100.
Definition tx_msg_total_size : Z := 100 * 1024 * 1024.
Definition tx_msg_size : Z := 100.
Definition tx_msg_nr : Z := tx_msg_total_size / tx_msg_size.
Definition str_txbuf : list Z := replicate (Z.to_nat tx_msg_size) 88.
End Client.

Inductive client_pc : Type :=
| Ping (times : Z) | PingFlush (times : Z) | PingRead (times : Z)
| Rxrx | RxrxFlush | DoWrite (end_ : Z) | DoWriteFlush (end_ : Z) | CloseWrite
| Txtx | TxtxFlush | DoRead
| Done.

(** [pongs] counts the pongs, and is added by the model. *)
Record counters : Type := mkCounters {
  _bytes_read : Z;
  _bytes_write : Z;
  pongs : Z;
}.

Abbreviation client_state := (conn client_pc * counters)%type.

(** [ping], [rxrx] with [do_write], and [txtx] with [do_read], up to the next
    future. *)
Definition client_step (ended : bool) (s : client_state) : option (client_state * list Z) :=
  let c := s.1 in let k := s.2 in
  let on k (r : conn client_pc * list Z) := Some ((r.1, k), r.2) in
  match pc c with
  | Ping times => on k (write (bytes_of "ping") (PingFlush times) c)
  | PingFlush times => on k (flush (PingRead times) c)
  | PingRead times =>
    '(buf, c) ← read_exactly 4 ended c;
    if negb (zlen buf =? 4) then on k (finish Done c)
    else if negb (bool_decide (buf = bytes_of "pong")) then on k (finish Done c)
    else
      let k := mkCounters (_bytes_read k) (_bytes_write k) (pongs k + 1) in
      if times >? 0 then on k (goto (Ping (times - 1)) c) else on k (finish Done c)
  | Rxrx => on k (write (bytes_of "rxrx") RxrxFlush c)
  | RxrxFlush => on k (flush (DoWrite Client.tx_msg_nr) c)
  | DoWrite end_ =>
    if end_ =? 0 then on k (goto CloseWrite c)
    else on (mkCounters (_bytes_read k) (u64 (_bytes_write k + Client.tx_msg_size)) (pongs k))
            (write Client.str_txbuf (DoWriteFlush end_) c)
  | DoWriteFlush end_ => on k (flush (DoWrite (end_ - 1)) c)
  | CloseWrite => on k (close Done c)
  | Txtx => on k (write (bytes_of "txtx") TxtxFlush c)
  | TxtxFlush => on k (flush DoRead c)
  | DoRead =>
    '(buf, c) ← read_exactly Client.rx_msg_size ended c;
    let k := mkCounters (u64 (_bytes_read k + zlen buf)) (_bytes_write k) (pongs k) in
    if zlen buf =? 0 then on k (finish Done c) else on k (goto DoRead c)
  | Done => None
  end.

(** ** The server's connection *)
Module Server.
Definition tx_msg_total_size : Z := 100 * 1024 * 1024.
Definition tx_msg_size : Z := 4 * 1024.
Definition tx_msg_nr : Z := tx_msg_total_size / tx_msg_size.
Definition rx_msg_size : Z := 4 * 1024.
Definition str_txbuf : list Z := replicate (Z.to_nat tx_msg_size) 88.
End Server.

Inductive server_pc : Type :=
| SRead | SPong | SPongFlush | SUnknown | SUnknownFlush
| STx (end_ : Z) | STxFlush (end_ : Z) | STxClose
| SRx
| SDone.

(** [read], [tx_test] with [do_write], and [rx_test] with [do_read], up to the
    next future. *)
Definition server_step (ended : bool) (c : conn server_pc) : option (conn server_pc * list Z) :=
  match pc c with
  | SRead =>
    if eof c then Some (finish SDone c) else
    '(buf, c) ← read_exactly 4 ended c;
    if zlen buf =? 0 then Some (finish SDone c)
    else if bool_decide (buf = bytes_of "ping") then Some (goto SPong c)
    else if bool_decide (buf = bytes_of "txtx") then Some (goto (STx Server.tx_msg_nr) c)
    else if bool_decide (buf = bytes_of "rxrx") then Some (goto SRx c)
    else Some (goto SUnknown c)
  | SPong => Some (write (bytes_of "pong") SPongFlush c)
  | SPongFlush => Some (flush SRead c)
  | SUnknown => Some (write (bytes_of "unknow cmd") SUnknownFlush c)
  | SUnknownFlush => Some (let '(c, b) := flush SDone c in ((finish SDone c).1, b))
  | STx end_ =>
    if end_ =? 0 then Some (goto STxClose c) else Some (write Server.str_txbuf (STxFlush end_) c)
  | STxFlush end_ => Some (flush (STx (end_ - 1)) c)
  | STxClose => Some (close SDone c)
  | SRx =>
    '(buf, c) ← read_exactly Server.rx_msg_size ended c;
    if zlen buf =? 0 then Some (finish SDone c) else Some (goto SRx c)
  | SDone => None
  end.

(** ** Both sides *)
Record link : Type := mkLink { cli : client_state; srv : conn server_pc }.

Definition receive {PC} (b : list Z) (c : conn PC) : conn PC :=
  mkConn (pc c) (_write_buf c) (rbuf c ++ b) (shut c) (eof c).

Inductive link_step : link -> link -> Prop :=
| client_moves l c b :
    client_step (shut (srv l)) (cli l) = Some (c, b) -> link_step l (mkLink c (receive b (srv l)))
| server_moves l s b :
    server_step (shut (cli l).1) (srv l) = Some (s, b) ->
    link_step l (mkLink (receive b (cli l).1, (cli l).2) s).

Definition fresh {PC} (p : PC) : conn PC := mkConn p [] [] false false.
Definition connected (test : client_pc) : link := mkLink (fresh test, mkCounters 0 0 0) (fresh SRead).

(** ** Ping *)
Section ping.
Context (n : Z) (n_pos : 0 <= n).

Definition client_at (p : client_pc) (w r : list Z) (sh : bool) (k : Z) : client_state :=
  (mkConn p w r sh false, mkCounters 0 0 k).
Definition server_at (p : server_pc) (w r : list Z) : conn server_pc := mkConn p w r false false.

(** The states of the test, with [t] more pings to come after the one under way. *)
Inductive ping_inv : link -> Prop :=
| ping_write t : 0 <= t <= n ->
    ping_inv (mkLink (client_at (Ping t) [] [] false (n - t)) (server_at SRead [] []))
| ping_flush t : 0 <= t <= n ->
    ping_inv (mkLink (client_at (PingFlush t) (bytes_of "ping") [] false (n - t)) (server_at SRead [] []))
| ping_sent t : 0 <= t <= n ->
    ping_inv (mkLink (client_at (PingRead t) [] [] false (n - t)) (server_at SRead [] (bytes_of "ping")))
| pong_write t : 0 <= t <= n ->
    ping_inv (mkLink (client_at (PingRead t) [] [] false (n - t)) (server_at SPong [] []))
| pong_flush t : 0 <= t <= n ->
    ping_inv (mkLink (client_at (PingRead t) [] [] false (n - t)) (server_at SPongFlush (bytes_of "pong") []))
| pong_sent t : 0 <= t <= n ->
    ping_inv (mkLink (client_at (PingRead t) [] (bytes_of "pong") false (n - t)) (server_at SRead [] []))
| ping_done :
    ping_inv (mkLink (client_at Done [] [] true (n + 1)) (server_at SRead [] []))
| ping_closed :
    ping_inv (mkLink (client_at Done [] [] true (n + 1)) (mkConn SDone [] [] true true)).

Lemma ping_start : ping_inv (connected (Ping n)).
Proof.
  pose proof (ping_write n ltac:(lia)) as H. unfold client_at in H. by rewrite Z.sub_diag in H.
Qed.

Lemma ping_step l l' : ping_inv l -> link_step l l' -> ping_inv l'.
Proof.
  intros Hi Hs. destruct Hs as [l c b E|l s b E]; destruct Hi as [t Ht|t Ht|t Ht|t Ht|t Ht|t Ht| |]; cbn in E;
    try discriminate E; try (injection E as <- <-; cbn; by constructor).
  destruct (Z.gtb_spec t 0) as [Hg|Hg]; injection E as <- <-.
  - replace (n - t + 1) with (n - (t - 1)) by lia. by apply ping_write; lia.
  - replace t with 0 by lia. rewrite Z.sub_0_r. apply ping_done.
Qed.

Lemma ping_progress l :
  ping_inv l -> (exists l', link_step l l') \/
    (l = mkLink (client_at Done [] [] true (n + 1)) (mkConn SDone [] [] true true)).
Proof.
  intros Hi. destruct Hi as [t Ht|t Ht|t Ht|t Ht|t Ht|t Ht| |]; [left..|by right].
  - eexists. by eapply client_moves.
  - eexists. by eapply client_moves.
  - eexists. by eapply server_moves.
  - eexists. by eapply server_moves.
  - eexists. by eapply server_moves.
  - destruct (t >? 0) eqn:Et; eexists; eapply client_moves; cbn; rewrite Et; reflexivity.
  - eexists. by eapply server_moves.
Qed.
End ping.

(** ** The transfers *)
Definition total : Z := 100 * 1024 * 1024.

(** The server sends ([txtx]): what the client has counted and what is on the
    way are the messages the server has flushed. *)
Definition sent_by_server (p : server_pc) : option Z :=
  match p with
  | STx e | STxFlush e => if (0 <=? e) && (e <=? Server.tx_msg_nr) then Some (Server.tx_msg_size * (Server.tx_msg_nr - e)) else None
  | STxClose | SDone => Some total
  | _ => None
  end.

Definition tx_inv (l : link) : Prop :=
  let c := (cli l).1 in let k := (cli l).2 in let s := srv l in
  eof s = false /\ shut s = (match pc s with SDone => true | _ => false end) /\
  match pc c with
  | Txtx => l = connected Txtx
  | TxtxFlush => s = fresh SRead /\ c = mkConn TxtxFlush (bytes_of "txtx") [] false false /\ _bytes_read k = 0
  | DoRead =>
    0 <= _bytes_read k /\ _write_buf c = [] /\
    ((s = mkConn SRead [] (bytes_of "txtx") false false /\ rbuf c = [] /\ _bytes_read k = 0) \/
     (rbuf s = [] /\ sent_by_server (pc s) = Some (_bytes_read k + zlen (rbuf c)) /\
      match pc s with
      | STxFlush e => _write_buf s = Server.str_txbuf /\ 0 < e
      | _ => _write_buf s = []
      end))
  | Done => pc s = SDone /\ _bytes_read k = total /\ rbuf c = []
  | _ => False
  end.

Lemma zlen_txbuf : zlen Server.str_txbuf = 4096.
Proof. by vm_compute. Qed.

Lemma tx_read_inv k w r sh e s c' b :
  sent_by_server (pc s) = Some (_bytes_read k + zlen r) -> 0 <= _bytes_read k ->
  client_step (shut s) (mkConn DoRead w r sh e, k) = Some (c', b) ->
  shut s = (match pc s with SDone => true | _ => false end) ->
  b = [] /\ (pc c'.1 = DoRead \/ (pc c'.1 = Done /\ pc s = SDone /\ rbuf c'.1 = [])) /\
  _write_buf c'.1 = w /\ 0 <= _bytes_read c'.2 /\
  sent_by_server (pc s) = Some (_bytes_read c'.2 + zlen (rbuf c'.1)).
Proof.
  intros Hs Hk E Hsh. pose proof (zlen_nonneg r) as Hr.
  assert (Ht : _bytes_read k + zlen r <= total).
  { unfold sent_by_server in Hs. destruct (pc s); try discriminate Hs.
    1,2: destruct (0 <=? end_) eqn:E1; [|discriminate Hs]; destruct (end_ <=? Server.tx_msg_nr) eqn:E2; [|discriminate Hs];
      injection Hs as <-; change Server.tx_msg_size with 4096; change Server.tx_msg_nr with 25600 in *;
      change total with 104857600; lia.
    all: injection Hs as <-; lia. }
  assert (Hu : forall x, 0 <= x <= total -> u64 x = x).
  { intros x Hx. apply uwrap_small. unfold in_u. change total with 104857600 in Hx.
    change (2 ^ 64) with 18446744073709551616. lia. }
  unfold client_step, read_exactly in E. cbn -[zlen] in E. change Client.rx_msg_size with 100 in E.
  destruct (Z.leb_spec 100 (zlen r)) as [Hl|Hl]; cbn -[zlen] in E.
  - rewrite zlen_ztake in E by lia. change (100 =? 0) with false in E. injection E as <- <-. cbn -[zlen].
    rewrite Hu by lia. rewrite zlen_zdrop by lia. repeat split; [by left|lia|]. rewrite Hs. f_equal. lia.
  - destruct (shut s) eqn:Es; [|discriminate E]. cbn -[zlen] in E.
    destruct (Z.eqb_spec (zlen r) 0) as [Hz|Hz]; injection E as <- <-; cbn -[zlen];
      rewrite (Hu _) by lia; change (zlen (@nil Z)) with 0; repeat split; try lia; try (rewrite Hs; f_equal; lia).
    + right. destruct (pc s); done.
    + by left.
Qed.

Lemma tx_step l l' : tx_inv l -> link_step l l' -> tx_inv l'.
Proof.
  intros (He & Hsh & Hi) Hs. destruct Hs as [l c' b E|l s' b E]; destruct l as [[[p w r sh ef] k] [q sw sr ssh se]]; cbn in *.
  - subst se. destruct p; try done.
    + injection Hi as -> -> -> -> -> -> -> -> ->. cbn in E. injection E as <- <-. by repeat split.
    + destruct Hi as ([= -> -> -> ->] & [= -> -> -> ->] & Hk). cbn in E. injection E as <- <-.
      split; [done|]. split; [done|]. cbn. split; [lia|]. split; [done|]. by left.
    + destruct Hi as (Hk & -> & [([= -> -> -> ->] & -> & Hk0)|(-> & Hq & Hw)]).
      { vm_compute in E. done. }
      destruct (tx_read_inv k [] r sh ef (mkConn q sw [] ssh false) c' b Hq Hk E Hsh) as (-> & Hp & Hw' & Hk' & Hq').
      destruct c' as [[p' w' r' sh' ef'] k']. cbn in *. subst w'.
      destruct Hp as [->|(-> & -> & ->)]; cbn.
      * repeat split; try done. right. by repeat split.
      * repeat split; try done. cbn [cli snd]. unfold sent_by_server in Hq'.
        change (zlen []) with 0 in Hq'. rewrite Z.add_0_r in Hq'. congruence.
  - subst se. destruct p; try done.
    + by injection Hi as -> -> -> -> -> -> -> -> ->.
    + by destruct Hi as ([= -> -> -> ->] & [= -> -> -> ->] & Hk).
    + destruct Hi as (Hk & -> & [([= -> -> -> ->] & -> & Hk0)|(-> & Hq & Hw)]).
      { cbn in E. injection E as <- <-. unfold tx_inv. cbn -[zlen]. repeat split; try done. right. by rewrite Hk0. }
      destruct q; try done; cbn in E.
      * destruct (Z.eqb_spec end_ 0) as [->|Hn]; injection E as <- <-; cbn -[zlen] in *; subst sw.
        -- unfold tx_inv; cbn -[zlen]; repeat split; try done. right. rewrite app_nil_r. repeat split. rewrite <- Hq. done.
        -- unfold tx_inv; cbn -[zlen]; repeat split; try done. right. rewrite app_nil_r. repeat split; [done|].
           destruct (Z.leb_spec 0 end_); [lia|done].
      * injection E as <- <-. destruct Hw as [-> Hpos]. cbn -[zlen] in *.
        unfold tx_inv; cbn -[zlen]; repeat split; try done. right. repeat split. rewrite zlen_app, zlen_txbuf.
        destruct (Z.leb_spec 0 end_) as [H0|]; [|done]. destruct (Z.leb_spec end_ Server.tx_msg_nr) as [H1|]; [|done].
        destruct (Z.leb_spec 0 (end_ - 1)); [|lia]. destruct (Z.leb_spec (end_ - 1) Server.tx_msg_nr); [|lia].
        cbn in *. injection Hq as Hq. f_equal. rewrite Z.add_assoc, <- Hq. change Server.tx_msg_size with 4096. lia.
      * injection E as <- <-. cbn -[zlen] in *. subst sw. unfold tx_inv; cbn -[zlen]; repeat split; try done. right. by rewrite app_nil_r.
    + destruct Hi as (-> & _). done.
Qed.

#[local] Arguments bytes_of : simpl never.
#[local] Arguments zlen : simpl never.

(** The client sends ([rxrx]). *)
Definition server_reads (l : link) : Prop :=
  (pc (srv l) = SRead /\ eof (srv l) = false /\ exists x, rbuf (srv l) = bytes_of "rxrx" ++ x) \/
  pc (srv l) = SRx \/ (pc (srv l) = SDone /\ pc (cli l).1 = Done).

Definition rx_inv (l : link) : Prop :=
  let c := (cli l).1 in let n := _bytes_write (cli l).2 in
  _write_buf (srv l) = [] /\ rbuf c = [] /\
  match pc c with
  | Rxrx => l = connected Rxrx
  | RxrxFlush => srv l = fresh SRead /\ c = mkConn RxrxFlush (bytes_of "rxrx") [] false false /\ n = 0
  | DoWrite e =>
    _write_buf c = [] /\ 0 <= e <= Client.tx_msg_nr /\ n = Client.tx_msg_size * (Client.tx_msg_nr - e) /\
    shut c = false /\ server_reads l
  | DoWriteFlush e =>
    0 < e <= Client.tx_msg_nr /\ n = Client.tx_msg_size * (Client.tx_msg_nr - (e - 1)) /\
    shut c = false /\ server_reads l
  | CloseWrite => _write_buf c = [] /\ n = total /\ shut c = false /\ server_reads l
  | Done => n = total /\ shut c = true /\ server_reads l
  | _ => False
  end.

Lemma server_reads_step l s b :
  server_reads l -> server_step (shut (cli l).1) (srv l) = Some (s, b) -> _write_buf (srv l) = [] ->
  (shut (cli l).1 = true -> pc (cli l).1 = Done) ->
  b = [] /\ _write_buf s = [] /\ server_reads (mkLink (receive b (cli l).1, (cli l).2) s).
Proof.
  destruct l as [[c k] [p w r sh ef]]. unfold server_reads. cbn. intros Hr E -> Hsh.
  destruct Hr as [(-> & -> & x & ->)|[->|[-> Hd]]]; cbn -[zlen] in E; [| |done].
  - unfold read_exactly in E. cbn -[zlen] in E. rewrite zlen_app in E. change (zlen (bytes_of "rxrx")) with 4 in E.
    pose proof (zlen_nonneg x). destruct (Z.leb_spec 4 (4 + zlen x)); [|lia]. cbn -[zlen ztake zdrop] in E.
    rewrite ztake_app_exact, zdrop_app_exact in E by done. vm_compute in E. injection E as <- <-.
    repeat split. by right; left.
  - unfold read_exactly in E. cbn -[zlen] in E. destruct (Server.rx_msg_size <=? zlen r) eqn:El; cbn -[zlen] in E.
    + apply Z.leb_le in El. rewrite zlen_ztake in E by (change Server.rx_msg_size with 4096 in *; lia).
      injection E as <- <-. repeat split. by right; left.
    + destruct (shut c) eqn:Es; [|done]. cbn -[zlen] in E. destruct (zlen r =? 0); injection E as <- <-;
        repeat split; cbn; [right; right; by split; [|apply Hsh]|by right; left].
Qed.

Lemma server_reads_receive c k c' k' s b :
  server_reads (mkLink (c, k) s) -> pc c <> Done -> server_reads (mkLink (c', k') (receive b s)).
Proof.
  unfold server_reads. cbn. intros [(H1 & H2 & x & H3)|[H|[_ H]]] Hn; [left|by right; left|done].
  repeat split; try done. exists (x ++ b). by rewrite H3, app_assoc.
Qed.

Lemma rx_step l l' : rx_inv l -> link_step l l' -> rx_inv l'.
Proof.
  intros (Hw & Hr & Hi) Hs. destruct Hs as [l c' b E|l s' b E].
  - destruct l as [[[p w r sh ef] k] s]. cbn in *. subst r. destruct p; try done.
    + injection Hi as -> -> -> -> ->. injection E as <- <-. done.
    + destruct Hi as (-> & [= -> -> ->] & Hk). injection E as <- <-. unfold rx_inv. cbn.
      repeat split; try done. by left; repeat split; exists [].
    + destruct Hi as (-> & He & Hk & -> & Hrd). cbn in E. destruct (Z.eqb_spec end_ 0) as [->|Hn]; injection E as <- <-;
        unfold rx_inv; cbn; repeat split; try done; try lia; try (by eapply server_reads_receive).
      rewrite Hk. change Client.tx_msg_size with 100. change Client.tx_msg_nr with 1048576 in *.
      rewrite uwrap_small; [lia|]. unfold in_u. change (2 ^ 64) with 18446744073709551616. lia.
    + destruct Hi as (He & Hk & -> & Hrd). injection E as <- <-. unfold rx_inv; cbn; repeat split; try done; try lia.
      by eapply server_reads_receive.
    + destruct Hi as (-> & Hk & -> & Hrd). injection E as <- <-. unfold rx_inv; cbn; repeat split; try done.
      by eapply server_reads_receive.
  - destruct (pc (cli l).1) eqn:Hp; try done.
    + subst l. vm_compute in E. done.
    + destruct Hi as (Hs & Hc & _). rewrite Hs, Hc in E. vm_compute in E. done.
    + destruct Hi as (H1 & H2 & H3 & H4 & Hrd).
      destruct (server_reads_step _ _ _ Hrd E Hw) as (-> & H5 & H6); [by rewrite H4|].
      unfold rx_inv. cbn. rewrite Hr, Hp. repeat split; first [done|lia].
    + destruct Hi as (H2 & H3 & H4 & Hrd).
      destruct (server_reads_step _ _ _ Hrd E Hw) as (-> & H5 & H6); [by rewrite H4|].
      unfold rx_inv. cbn. rewrite Hr, Hp. repeat split; first [done|lia].
    + destruct Hi as (H1 & H3 & H4 & Hrd).
      destruct (server_reads_step _ _ _ Hrd E Hw) as (-> & H5 & H6); [by rewrite H4|].
      unfold rx_inv. cbn. rewrite Hr, Hp. repeat split; first [done|lia].
    + destruct Hi as (H3 & H4 & Hrd).
      destruct (server_reads_step _ _ _ Hrd E Hw) as (-> & H5 & H6); [done|].
      unfold rx_inv. cbn. rewrite Hr, Hp. repeat split; first [done|lia].
Qed.

(** ** Every run ends *)
Definition W : Z := 1000000000.

Definition client_weight (p : client_pc) : Z :=
  match p with
  | Ping t => (4 * W + 3) * (t + 1) + 1
  | PingFlush t => (4 * W + 3) * t + 3
  | PingRead t => (4 * W + 3) * t + 2
  | Rxrx => (100 * W + 2) * Client.tx_msg_nr + 4 * W + 5
  | RxrxFlush => (100 * W + 2) * Client.tx_msg_nr + 4
  | DoWrite e => (100 * W + 2) * e + 3
  | DoWriteFlush e => (100 * W + 2) * (e - 1) + 4
  | CloseWrite => 2
  | Txtx => 4 * W + 3
  | TxtxFlush => 2
  | DoRead => 1
  | Done => 0
  end.

Definition server_weight (p : server_pc) : Z :=
  match p with
  | SRead => 1
  | SPong => 20 | SPongFlush => 15
  | SUnknown => 30 | SUnknownFlush => 19
  | STx e => 4098 * e + 3
  | STxFlush e => 4098 * (e - 1) + 4
  | STxClose => 2
  | SRx => 1
  | SDone => 0
  end.

(** Bytes on the way to the server weigh more than all it can send for them. *)
Definition weight (l : link) : Z :=
  client_weight (pc (cli l).1) + server_weight (pc (srv l)) +
  W * (zlen (_write_buf (cli l).1) + zlen (rbuf (srv l))) + zlen (_write_buf (srv l)) + zlen (rbuf (cli l).1).

Definition counts_ok (l : link) : Prop :=
  match pc (cli l).1 with
  | Ping t | PingFlush t | PingRead t => 0 <= t
  | DoWrite e => 0 <= e
  | DoWriteFlush e => 0 < e
  | _ => True
  end /\
  match pc (srv l) with STx e => 0 <= e | STxFlush e => 0 < e | _ => True end.

Lemma read_exactly_len {PC} n ended (c c' : conn PC) buf :
  0 < n -> read_exactly n ended c = Some (buf, c') ->
  rbuf c = buf ++ rbuf c' /\ pc c' = pc c /\ _write_buf c' = _write_buf c.
Proof.
  intros Hn. unfold read_exactly. destruct (n <=? zlen (rbuf c)).
  - intros [= <- <-]. cbn. by rewrite ztake_drop.
  - destruct ended; [|done]. intros [= <- <-]. cbn. by rewrite app_nil_r.
Qed.

Lemma zlen_ping : zlen (bytes_of "ping") = 4. Proof. done. Qed.
Lemma zlen_pong : zlen (bytes_of "pong") = 4. Proof. done. Qed.
Lemma zlen_rxrx : zlen (bytes_of "rxrx") = 4. Proof. done. Qed.
Lemma zlen_txtx : zlen (bytes_of "txtx") = 4. Proof. done. Qed.
Lemma zlen_unknow : zlen (bytes_of "unknow cmd") = 10. Proof. done. Qed.
Lemma zlen_client_txbuf : zlen Client.str_txbuf = 100. Proof. by vm_compute. Qed.

Ltac weigh :=
  cbn -[Z.mul Z.add Z.sub Z.lt Z.le]; unfold W; rewrite ?zlen_app, ?zlen_ping, ?zlen_pong, ?zlen_rxrx, ?zlen_txtx, ?zlen_unknow, ?zlen_client_txbuf,
    ?zlen_txbuf; change (zlen (@nil Z)) with 0 in *; change Client.tx_msg_nr with 1048576 in *;
  change Server.tx_msg_nr with 25600 in *; repeat split; first [done|lia].

(** A step keeps the counts in range and makes the weight smaller. *)
Lemma client_weighs l c b :
  client_step (shut (srv l)) (cli l) = Some (c, b) -> counts_ok l ->
  counts_ok (mkLink c (receive b (srv l))) /\ weight (mkLink c (receive b (srv l))) < weight l.
Proof.
  intros E [Hc Hs]. destruct l as [[[p w r sh ef] k] s]. unfold counts_ok, weight in *. cbn -[Z.mul Z.add Z.sub Z.lt Z.le] in *.
  destruct p as [t|t|t| | |e|e| | | | |]; cbn in E; try discriminate E.
  1,2,4,5,7,8,9,10: injection E as <- <-; weigh.
  - destruct (read_exactly 4 (shut s) _) as [[buf c1]|] eqn:Er; [|done]. cbn in E.
    apply read_exactly_len in Er as (Hr & _ & Hw); [|lia]. cbn in Hr, Hw. subst r w.
    pose proof (zlen_nonneg buf).
    destruct (negb (zlen buf =? 4)), (negb (bool_decide (buf = bytes_of "pong"))); cbn in E;
      try (injection E as <- <-; weigh).
    destruct (Z.gtb_spec t 0); injection E as <- <-; weigh.
  - destruct (Z.eqb_spec e 0) as [->|Hn]; injection E as <- <-; weigh.
  - destruct (read_exactly Client.rx_msg_size (shut s) _) as [[buf c1]|] eqn:Er; [|done]. cbn in E.
    apply read_exactly_len in Er as (Hr & _ & Hw); [|done]. cbn in Hr, Hw. subst r w.
    pose proof (zlen_nonneg buf). destruct (Z.eqb_spec (zlen buf) 0); injection E as <- <-; weigh.
Qed.

Lemma server_weighs l s b :
  server_step (shut (cli l).1) (srv l) = Some (s, b) -> counts_ok l ->
  counts_ok (mkLink (receive b (cli l).1, (cli l).2) s) /\
  weight (mkLink (receive b (cli l).1, (cli l).2) s) < weight l.
Proof.
  intros E [Hc Hs]. destruct l as [[c k] [p w r sh ef]]. unfold counts_ok, weight in *. cbn -[Z.mul Z.add Z.sub Z.lt Z.le] in *.
  destruct p as [| | | | |e|e| | |]; cbn in E; try discriminate E.
  2,3,4,5,7,8: injection E as <- <-; weigh.
  - destruct ef; [injection E as <- <-; weigh|].
    destruct (read_exactly 4 (shut c) _) as [[buf c1]|] eqn:Er; [|done]. cbn in E.
    apply read_exactly_len in Er as (Hr & _ & Hw); [|lia]. cbn in Hr, Hw. subst r w.
    pose proof (zlen_nonneg buf). destruct (Z.eqb_spec (zlen buf) 0); [injection E as <- <-; weigh|].
    repeat case_bool_decide; cbn in E; injection E as <- <-; weigh.
  - destruct (Z.eqb_spec e 0) as [->|Hn]; injection E as <- <-; weigh.
  - destruct (read_exactly Server.rx_msg_size (shut c) _) as [[buf c1]|] eqn:Er; [|done]. cbn in E.
    apply read_exactly_len in Er as (Hr & _ & Hw); [|done]. cbn in Hr, Hw. subst r w.
    pose proof (zlen_nonneg buf). destruct (Z.eqb_spec (zlen buf) 0); injection E as <- <-; weigh.
Qed.

Lemma weight_nonneg l : counts_ok l -> 0 <= weight l.
Proof.
  intros [Hc Hs]. unfold weight.
  assert (0 <= client_weight (pc (cli l).1)) by (unfold client_weight, W; destruct (pc (cli l).1); weigh).
  assert (0 <= server_weight (pc (srv l))) by (unfold server_weight; destruct (pc (srv l)); weigh).
  pose proof (zlen_nonneg (_write_buf (cli l).1)). pose proof (zlen_nonneg (rbuf (srv l))).
  pose proof (zlen_nonneg (_write_buf (srv l))). pose proof (zlen_nonneg (rbuf (cli l).1)). unfold W. lia.
Qed.

Lemma link_step_weighs l l' :
  link_step l l' -> counts_ok l -> counts_ok l' /\ 0 <= weight l' < weight l.
Proof.
  intros Hs Hc. assert (H : counts_ok l' /\ weight l' < weight l).
  { destruct Hs; [by apply client_weighs|by apply server_weighs]. }
  destruct H as [H1 H2]. pose proof (weight_nonneg l' H1). done.
Qed.

Lemma tx_progress l :
  tx_inv l -> (exists l', link_step l l') \/
    (pc (cli l).1 = Done /\ pc (srv l) = SDone /\ _bytes_read (cli l).2 = total).
Proof.
  intros (He & Hsh & Hi). destruct (pc (cli l).1) eqn:Hp; try done.
  - subst l. left. eexists. by eapply client_moves.
  - left. destruct Hi as (_ & Hc & _). eexists. eapply client_moves. unfold client_step. rewrite Hc. reflexivity.
  - left. destruct Hi as (_ & _ & [(Hs & _)|(Hr & Hq & Hw)]).
    { eexists. eapply server_moves. rewrite Hs. unfold server_step. vm_compute. reflexivity. }
    destruct (pc (srv l)) eqn:Hps; try done.
    + destruct (end_ =? 0) eqn:Ee; eexists; eapply server_moves; unfold server_step; rewrite Hps, Ee; reflexivity.
    + eexists. eapply server_moves. unfold server_step. rewrite Hps. reflexivity.
    + eexists. eapply server_moves. unfold server_step. rewrite Hps. reflexivity.
    + destruct (read_exactly Client.rx_msg_size true (cli l).1) as [[buf c]|] eqn:Er.
      2:{ unfold read_exactly in Er. by destruct (_ <=? _). }
      destruct (zlen buf =? 0) eqn:Ez; eexists; eapply client_moves; unfold client_step;
        rewrite Hp, Hsh, Er; cbn; rewrite Ez; reflexivity.
  - right. destruct Hi as (Hs & Hk & _). done.
Qed.

Lemma rx_progress l :
  rx_inv l -> (exists l', link_step l l') \/
    (pc (cli l).1 = Done /\ pc (srv l) = SDone /\ _bytes_write (cli l).2 = total).
Proof.
  intros (Hw & Hr & Hi). destruct (pc (cli l).1) eqn:Hp; try done;
    try (left; eexists; eapply client_moves; unfold client_step; rewrite Hp; reflexivity).
  - left. destruct (end_ =? 0) eqn:Ee; eexists; eapply client_moves; unfold client_step; rewrite Hp, Ee; reflexivity.
  - destruct Hi as (Hk & Hsh & [(Hs & He & x & Hx)|[Hs|[Hs _]]]); [left|left|by right].
    + eexists. eapply server_moves. unfold server_step. rewrite Hs, He. unfold read_exactly. rewrite Hx, zlen_app, zlen_rxrx.
      pose proof (zlen_nonneg x). destruct (Z.leb_spec 4 (4 + zlen x)); [|lia].
      cbn [mbind option_bind]. rewrite ztake_app_exact by done. reflexivity.
    + destruct (read_exactly Server.rx_msg_size true (srv l)) as [[buf c]|] eqn:Er.
      2:{ unfold read_exactly in Er. by destruct (_ <=? _). }
      destruct (zlen buf =? 0) eqn:Ez; eexists; eapply server_moves; unfold server_step;
        rewrite Hs, Hsh, Er; cbn; rewrite Ez; reflexivity.
Qed.

(** What a test has counted when it is over. *)
Definition counted (test : client_pc) (k : counters) : Prop :=
  match test with
  | Ping n => pongs k = n + 1
  | Rxrx => _bytes_write k = total
  | Txtx => _bytes_read k = total
  | _ => False
  end.

Definition is_test (test : client_pc) : Prop :=
  match test with Ping n => 0 <= n | Rxrx | Txtx => True | _ => False end.

Lemma rtc_preserves {A} (R : A -> A -> Prop) (P : A -> Prop) x y :
  (forall a b, P a -> R a b -> P b) -> P x -> rtc R x y -> P y.
Proof. intros HR Hx H. revert Hx. induction H; eauto. Qed.

(** C30: in each of the three tests, however the steps of client and server are
    interleaved, no state is stuck before both have ended, every step makes the
    weight smaller, so that both do end, and then the client has counted what it
    should: 100 MiB received or sent, and in the ping test one pong more than the
    [times] it was called with. *)
Theorem tests_end test l :
  is_test test -> rtc link_step (connected test) l ->
  (forall l', link_step l l' -> 0 <= weight l' < weight l) /\
  ((exists l', link_step l l') \/
   (pc (cli l).1 = Done /\ pc (srv l) = SDone /\ counted test (cli l).2)).
Proof.
  intros Ht Hr. split.
  - intros l' Hs. apply link_step_weighs; [done|].
    apply (rtc_preserves link_step counts_ok (connected test)); [|by destruct test|done].
    intros a b Ha Hb. by apply (link_step_weighs a b).
  - destruct test as [n| | | | | | | | | | |]; try done.
    + assert (Hi : ping_inv n l) by
        (apply (rtc_preserves link_step (ping_inv n) (connected (Ping n))); [by intros; eapply ping_step|by apply ping_start|done]).
      destruct (ping_progress n l Hi) as [H| ->]; [by left|by right].
    + assert (Hi : rx_inv l) by
        (apply (rtc_preserves link_step rx_inv (connected Rxrx)); [by intros; eapply rx_step|done|done]).
      by apply rx_progress.
    + assert (Hi : tx_inv l) by
        (apply (rtc_preserves link_step tx_inv (connected Txtx)); [by intros; eapply tx_step|done|done]).
      by apply tx_progress.
Qed.

Lemma tests_end_witness :
  is_test (Ping 10000) /\ exists l', link_step (connected (Ping 10000)) l'.
Proof.
  split; [done|]. destruct (tests_end (Ping 10000) (connected (Ping 10000)) ltac:(done) (rtc_refl _ _)) as [_ [H|[H _]]];
    done.
Defined.

(** ** The client object *)

(** A printed summary: the connections, the count (pings, or MiB) and the time
    from the first start to the last end. *)
Record summary : Type := mkSummary { connections : Z; count : Z; elapsed : Z }.

(** [None] stands for time_point::max() and time_point::min().  [printed] is
    added by the model. *)
Record client : Type := mkClient {
  _total_pings : Z;
  _concurrent_connections : Z;
  _earliest_started : option Z;
  _latest_finished : option Z;
  _processed_bytes : Z;
  _num_reported : Z;
  printed : list summary;
}.

Definition _pings_per_connection : Z := 10000.

Definition new_client : client := mkClient 0 0 None None 0 0 [].

(** [client::start], without the connections it opens: those are [ncon] links
    that run the test. *)
Definition start (ncon smp_count : Z) (s : client) : client :=
  let conns := u32 (ncon * smp_count) in
  mkClient (u32 (_pings_per_connection * conns)) conns (_earliest_started s) (_latest_finished s)
    (_processed_bytes s) (_num_reported s) (printed s).

Definition earlier (a : option Z) (t : Z) : option Z :=
  Some (match a with None => t | Some a => if a >? t then t else a end).
Definition later (a : option Z) (t : Z) : option Z :=
  Some (match a with None => t | Some a => if a <? t then t else a end).

Definition ping_report (r : Z * Z) (s : client) : client :=
  let e := earlier (_earliest_started s) r.1 in
  let f := later (_latest_finished s) r.2 in
  let n := u32 (_num_reported s + 1) in
  mkClient (_total_pings s) (_concurrent_connections s) e f (_processed_bytes s) n
    (if n =? _concurrent_connections s
     then printed s ++ [mkSummary (_concurrent_connections s) (_total_pings s) (default 0 f - default 0 e)]
     else printed s).

Definition rxtx_report (r : Z * Z * Z) (s : client) : client :=
  let e := earlier (_earliest_started s) r.1.1 in
  let f := later (_latest_finished s) r.1.2 in
  let p := u64 (_processed_bytes s + r.2) in
  let n := u32 (_num_reported s + 1) in
  mkClient (_total_pings s) (_concurrent_connections s) e f p n
    (if n =? _concurrent_connections s
     then printed s ++ [mkSummary (_concurrent_connections s) (p / 1024 / 1024) (default 0 f - default 0 e)]
     else printed s).

(** The checks of main: the test to run, or exit(1). *)
Definition client_main (proto test : string) : option client_pc :=
  if bool_decide (proto = "tcp"%string) || bool_decide (proto = "sctp"%string) then
    if bool_decide (test = "ping"%string) then Some (Ping _pings_per_connection)
    else if bool_decide (test = "rxrx"%string) then Some Rxrx
    else if bool_decide (test = "txtx"%string) then Some Txtx
    else None
  else None.

Definition run_ping_reports (rs : list (Z * Z)) (s : client) : client := foldl (fun s r => ping_report r s) s rs.

(** While fewer connections than there are have reported, nothing is printed. *)
Lemma ping_reports_before rs s :
  _num_reported s = 0 -> printed s = [] -> zlen rs < _concurrent_connections s < 2 ^ 32 ->
  let s' := run_ping_reports rs s in
  _num_reported s' = zlen rs /\ printed s' = [] /\
  _concurrent_connections s' = _concurrent_connections s /\ _total_pings s' = _total_pings s /\
  _earliest_started s' = foldl earlier (_earliest_started s) rs.*1 /\
  _latest_finished s' = foldl later (_latest_finished s) rs.*2.
Proof.
  intros H0 Hp. induction rs as [|r rs IH] using rev_ind; intros Hl; [done|].
  rewrite zlen_snoc in Hl. destruct IH as (I1 & I2 & I3 & I4 & I5 & I6); [lia|].
  unfold run_ping_reports in *. rewrite foldl_app. cbn. rewrite !fmap_app, !foldl_app. cbn.
  rewrite I1, I2, I3, I4, I5, I6, zlen_snoc. pose proof (zlen_nonneg rs).
  rewrite uwrap_small by (unfold in_u; lia). destruct (Z.eqb_spec (zlen rs + 1) (_concurrent_connections s)); [lia|].
  done.
Qed.

(** The ping test prints its summary exactly once, when the last connection
    reports; the time is from the earliest start to the latest end; and the pings
    it counts are 10000 for each connection (in 32 bits), where each connection makes
    one more. *)
Theorem ping_summary ncon smp rs r :
  0 < ncon -> 0 < smp -> ncon * smp < 2 ^ 32 -> zlen rs + 1 = ncon * smp ->
  printed (run_ping_reports (rs ++ [r]) (start ncon smp new_client)) =
    [mkSummary (ncon * smp) (u32 (10000 * (ncon * smp)))
       (default 0 (foldl later None (rs ++ [r]).*2) - default 0 (foldl earlier None (rs ++ [r]).*1))] /\
  forall l, rtc link_step (connected (Ping _pings_per_connection)) l -> (~ exists l', link_step l l') ->
    pongs (cli l).2 = 10001.
Proof.
  intros Hn Hs Hb Hl. split.
  - assert (Hc : u32 (ncon * smp) = ncon * smp) by (apply uwrap_small; unfold in_u; lia).
    destruct (ping_reports_before rs (start ncon smp new_client)) as (I1 & I2 & I3 & I4 & I5 & I6);
      [done..|cbn; rewrite Hc; lia|].
    unfold run_ping_reports in *. rewrite foldl_app. cbn. rewrite !fmap_app, !foldl_app. cbn.
    rewrite I1, I2, I3, I4, I5, I6. cbn. rewrite Hc. rewrite (uwrap_small 32 (zlen rs + 1)) by (unfold in_u; lia).
    rewrite (proj2 (Z.eqb_eq _ _) Hl). done.
  - intros l Hr Hstuck.
    assert (Hi : ping_inv 10000 l) by
      (apply (rtc_preserves link_step (ping_inv 10000) (connected (Ping 10000)));
       [by intros; eapply ping_step|by apply ping_start|done]).
    destruct (ping_progress 10000 l Hi) as [H| ->]; done.
Qed.

Lemma ping_summary_witness :
  printed (run_ping_reports [(5, 90); (3, 70)] (start 2 1 new_client)) = [mkSummary 2 20000 87].
Proof.
  destruct (ping_summary 2 1 [(5, 90)] (3, 70)) as [H _]; [lia..|done|]. cbn [app] in H. rewrite H. by vm_compute.
Defined.

(** ** The server object *)

(** [accepting]: the listeners with an accept under way, by their position;
    [served]: the connections made so far.  Both are added by the model. *)
Record listeners : Type := mkListeners {
  sockets : list Z;
  accepting : list Z;
  served : list Z;
}.

Record tcp_server : Type := mkServer { _tcp_listeners : listeners; _sctp_listeners : listeners }.

Definition do_accepts (l : listeners) : listeners :=
  let which := zlen (sockets l) - 1 in
  mkListeners (sockets l) (accepting l ++ [which]) (served l).

(** The accept of the listener at the head completes with a connection, or fails. *)
Definition accept_completes (r : option Z) (l : listeners) : option listeners :=
  match accepting l with
  | [] => None
  | _ :: rest =>
    let l := mkListeners (sockets l) rest (served l) in
    Some (match r with
          | Some conn => do_accepts (mkListeners (sockets l) (accepting l) (served l ++ [conn]))
          | None => l (* printed, and the chain ends *)
          end)
  end.

Definition listen (enable_tcp enable_sctp : bool) (tcp_socket sctp_socket : Z) (s : tcp_server) : tcp_server :=
  let push x l := do_accepts (mkListeners (sockets l ++ [x]) (accepting l) (served l)) in
  mkServer (if enable_tcp then push tcp_socket (_tcp_listeners s) else _tcp_listeners s)
    (if enable_sctp then push sctp_socket (_sctp_listeners s) else _sctp_listeners s).

(** The results of successive accepts; after the chain has ended there are none. *)
Definition accepts (rs : list (option Z)) (l : listeners) : listeners :=
  foldl (fun l r => default l (accept_completes r l)) l rs.

Lemma accepts_all sock cs done_ :
  accepts (Some <$> cs) (mkListeners [sock] [0] done_) = mkListeners [sock] [0] (done_ ++ cs).
Proof.
  unfold accepts. revert done_. induction cs as [|c cs IH]; intros d; cbn; [by rewrite app_nil_r|].
  change (do_accepts (mkListeners [sock] [] (d ++ [c]))) with (mkListeners [sock] [0] (d ++ [c])).
  rewrite IH. by rewrite <- app_assoc.
Qed.

(** As long as accepts succeed the server serves every connection; after the
    first accept that fails it serves no further one. *)
Theorem failed_accept_is_last sock cs more :
  let l := do_accepts (mkListeners [sock] [] []) in
  served (accepts (Some <$> cs) l) = cs /\
  accepts ((Some <$> cs) ++ None :: more) l = mkListeners [sock] [] cs.
Proof.
  change (do_accepts (mkListeners [sock] [] [])) with (mkListeners [sock] [0] []). cbv zeta.
  split; [by rewrite accepts_all|]. unfold accepts. rewrite foldl_app.
  change (foldl _ _ (Some <$> cs)) with (accepts (Some <$> cs) (mkListeners [sock] [0] [])).
  rewrite accepts_all. cbn. induction more as [|r more IH]; [done|]. cbn. apply IH.
Qed.
