(* ===== verification/Rot13.v ===== *)
(** * The rot13 servers

    src/libevent-example/example/server2.cpp (a process per connection, one byte
    at a time) and server3.cpp (one process, select, a buffer per connection), with
    the turn of its loop that accepts a connection and serves the others.
    The results of select, accept, recv and send are given; a char is a number from -128 to 127. *)
From S2P Require Import Prelude.

Definition MAX_LINE : Z := 16384.
Definition NL : Z := 10.

Definition between (lo c hi : Z) : bool := (lo <=? c) && (c <=? hi).

(** The letters are those of ASCII: a is 97 and A is 65. *)
Definition rot13_char (c : Z) : Z :=
  if between 97 c 109 || between 65 c 77 then c + 13
  else if between 110 c 122 || between 78 c 90 then c - 13
  else c.

(** ** server2.cpp *)

(** One turn of the loop of [child] on a byte that came: the buffer, and what is
    sent. *)
Definition child_byte (outbuf : list Z) (ch : Z) : list Z * option (list Z) :=
  let outbuf := if zlen outbuf <? MAX_LINE + 1 then outbuf ++ [rot13_char ch] else outbuf in
  if ch =? NL then ([], Some outbuf) else (outbuf, None).

(** [child] on the bytes that come before the end of the stream or an error: the
    arguments of its sends. *)
Fixpoint child (outbuf : list Z) (input : list Z) : list (list Z) :=
  match input with
  | [] => []
  | ch :: input =>
    match child_byte outbuf ch with
    | (outbuf, Some line) => line :: child outbuf input
    | (outbuf, None) => child outbuf input
    end
  end.

(** ** server3.cpp *)

(** [buffer] holds the first [buffer_used] bytes of the array.  [received],
    [sent] and [lost] are added by the model: the bytes that came, those that
    went, and how many were not stored. *)
Record fd_state : Type := mkFdState {
  buffer : list Z;
  writing : bool;
  n_written : Z;
  write_upto : Z;
  received : list Z;
  sent : list Z;
  lost : Z;
}.

Definition alloc_fd_state : fd_state := mkFdState [] false 0 0 [] [] 0.

Inductive recv_result : Type :=
| Got (data : list Z) (* some bytes, at most 1024 *)
| End
| RecvFails (errno : Z).

Definition EAGAIN : Z := 11.

Definition read_byte (s : fd_state) (c : Z) : fd_state :=
  let fits := zlen (buffer s) <? MAX_LINE in
  let buf := if fits then buffer s ++ [rot13_char c] else buffer s in
  let lost := if fits then lost s else lost s + 1 in
  if c =? NL
  then mkFdState buf true (n_written s) (zlen buf) (received s ++ [c]) (sent s) lost
  else mkFdState buf (writing s) (n_written s) (write_upto s) (received s ++ [c]) (sent s) lost.

(** The results of the successive calls of recv; [None]: there are too few. *)
Fixpoint do_read (rs : list recv_result) (s : fd_state) : option (Z * fd_state) :=
  match rs with
  | [] => None
  | Got data :: rs => do_read rs (foldl read_byte s data)
  | End :: _ => Some (1, s)
  | RecvFails errno :: _ => Some (if errno =? EAGAIN then 0 else -1, s)
  end.

Inductive send_result : Type :=
| Sent (k : Z)
| SendFails (errno : Z).

(** The end of [do_write]. *)
Definition written (s : fd_state) : fd_state :=
  if n_written s =? zlen (buffer s)
  then mkFdState [] false 0 0 (received s) (sent s) (lost s)
  else mkFdState (buffer s) false (n_written s) (write_upto s) (received s) (sent s) (lost s).

(** [send i len]: the [i]-th call of send with [len] bytes.  [None]: the fuel is
    not enough, or the assertion fails. *)
Fixpoint do_write (fuel : nat) (send : nat -> Z -> send_result) (i : nat) (s : fd_state) : option (Z * fd_state) :=
  if n_written s <? write_upto s then
    match fuel with
    | O => None
    | S fuel =>
      match send i (write_upto s - n_written s) with
      | SendFails errno => Some (if errno =? EAGAIN then 0 else -1, s)
      | Sent k =>
        if k =? 0 then None else
        do_write fuel send (S i)
          (mkFdState (buffer s) (writing s) (n_written s + k) (write_upto s) (received s)
             (sent s ++ ztake k (zdrop (n_written s) (buffer s))) (lost s))
      end
    end
  else Some (0, written s).

Definition write_fuel (s : fd_state) : nat := Z.to_nat (write_upto s - n_written s).

Definition FD_SETSIZE : Z := 1024.

(** A new connection in [run]; [None]: a write outside the array. *)
Definition accept_fd (fd : Z) (state : list (option fd_state)) : option (list (option fd_state)) :=
  if fd <? 0 then Some state
  else if fd >? FD_SETSIZE then Some state (* closed *)
  else zset state fd (Some alloc_fd_state).

(** The loop over the descriptors in [run], for one of them: what recv and send
    return when select says that it is readable and writable.  The result is
    [None] inside when the connection is closed. *)
Definition serve_fd (rd : option (list recv_result)) (wr : option (nat -> Z -> send_result)) (s : fd_state) :
  option (option fd_state) :=
  '(r, s) ← match rd with Some rs => do_read rs s | None => Some (0, s) end;
  '(r, s) ← match wr with
            | Some send => if r =? 0 then do_write (write_fuel s) send 0 s else Some (r, s)
            | None => Some (r, s)
            end;
  Some (if r =? 0 then Some s else None).

(** *** The loop of [run] *)
Abbreviation table := (list (option fd_state)).
Definition used (state : table) (i : Z) : bool :=
  match zget state i with Some (Some _) => true | _ => false end.
(** The largest descriptor, from index [i] of the array on. *)
Fixpoint max_used (state : table) (i maxfd : Z) : Z :=
  match state with
  | [] => maxfd
  | Some _ :: state => max_used state (i + 1) (if i >? maxfd then i else maxfd)
  | None :: state => max_used state (i + 1) maxfd
  end.
Definition maxfd (listener : Z) (state : table) : Z := max_used state 0 listener.
(** The sets given to select. *)
Definition readset (listener : Z) (state : table) (i : Z) : bool := (i =? listener) || used state i.
Definition writeset (state : table) (i : Z) : bool :=
  match zget state i with Some (Some s) => writing s | _ => false end.

(** What the system calls of a turn return; of its sets select leaves those that
    are ready. *)
Record turn : Type := mkTurn {
  selected : Z;
  can_read : Z -> bool;
  can_write : Z -> bool;
  accepted : Z;
  recvs : Z -> list recv_result;
  sends : Z -> nat -> Z -> send_result;
}.

(** A descriptor in the second loop; [rd] and [wr] are FD_ISSET after select.
    [None]: a null state or an index outside the array. *)
Definition serve_at (t : turn) (rd wr : bool) (i : Z) (state : table) : option table :=
  if negb rd && negb wr then Some state else
  match zget state i with
  | Some (Some s) =>
    s' ← serve_fd (if rd then Some (recvs t i) else None) (if wr then Some (sends t i) else None) s;
    zset state i s'
  | _ => None
  end.
Fixpoint serve_from (t : turn) (rd wr : Z -> bool) (listener : Z) (n : nat) (i : Z) (state : table)
    : option table :=
  match n with
  | O => Some state
  | S n =>
    state ← (if i =? listener then Some state else serve_at t (rd i) (wr i) i state);
    serve_from t rd wr listener n (i + 1) state
  end.

(** A turn: the table after it, or nothing when select failed and [run] returns. *)
Definition run_turn (listener : Z) (t : turn) (state : table) : option (option table) :=
  if selected t <? 0 then Some None else
  let rd i := readset listener state i && can_read t i in
  let wr i := writeset state i && can_write t i in
  let top := maxfd listener state in
  state ← (if rd listener then accept_fd (accepted t) state else Some state);
  Some <$> serve_from t rd wr listener (Z.to_nat (top + 1)) 0 state.

(** ** rot13 *)
Definition rot13 (l : list Z) : list Z := rot13_char <$> l.

Lemma rot13_char_cases c :
  (97 <= c <= 109 \/ 65 <= c <= 77) /\ rot13_char c = c + 13 \/
  (110 <= c <= 122 \/ 78 <= c <= 90) /\ rot13_char c = c - 13 \/
  (c < 65 \/ 90 < c < 97 \/ 122 < c) /\ rot13_char c = c.
Proof.
  unfold rot13_char, between. destruct (Z.leb_spec 97 c), (Z.leb_spec c 109), (Z.leb_spec 65 c), (Z.leb_spec c 77);
    cbn [andb orb]; try lia.
  all: destruct (Z.leb_spec 110 c), (Z.leb_spec c 122), (Z.leb_spec 78 c), (Z.leb_spec c 90); cbn [andb orb]; lia.
Qed.

Lemma rot13_char_involutive c : rot13_char (rot13_char c) = c.
Proof. pose proof (rot13_char_cases c). pose proof (rot13_char_cases (rot13_char c)). lia. Qed.

Lemma rot13_char_newline c : rot13_char c = NL <-> c = NL.
Proof. pose proof (rot13_char_cases c). unfold NL. lia. Qed.

Lemma rot13_char_range c : -128 <= c < 128 -> -128 <= rot13_char c < 128.
Proof. pose proof (rot13_char_cases c). lia. Qed.

(** ** server2.cpp answers lines *)

(** The complete lines of a stream, each with its newline. *)
Fixpoint lines (line : list Z) (input : list Z) : list (list Z) :=
  match input with
  | [] => []
  | c :: input => if c =? NL then (line ++ [c]) :: lines [] input else lines (line ++ [c]) input
  end.

Lemma child_lines line input :
  child (ztake (MAX_LINE + 1) (rot13 line)) input =
    (fun l => ztake (MAX_LINE + 1) (rot13 l)) <$> lines line input.
Proof.
  revert line. induction input as [|c input IH]; intros line; [done|]. cbn [child lines].
  assert (E : (if zlen (ztake (MAX_LINE + 1) (rot13 line)) <? MAX_LINE + 1
               then ztake (MAX_LINE + 1) (rot13 line) ++ [rot13_char c] else ztake (MAX_LINE + 1) (rot13 line)) =
              ztake (MAX_LINE + 1) (rot13 (line ++ [c]))).
  { unfold rot13. rewrite fmap_app. cbn [fmap list_fmap]. destruct (Z.le_gt_cases (MAX_LINE + 1) (zlen (rot13_char <$> line))) as [H|H].
    - rewrite zlen_ztake by (unfold MAX_LINE in *; lia). rewrite Z.ltb_irrefl. by rewrite ztake_app_le.
    - rewrite ztake_all by lia. rewrite (proj2 (Z.ltb_lt _ _) H). rewrite ztake_all; [done|].
      rewrite zlen_app. change (zlen [rot13_char c]) with 1. lia. }
  unfold child_byte. rewrite E. destruct (c =? NL); cbn; [f_equal|]; rewrite <- IH; done.
Qed.

(** The server with a process per connection answers each line that comes, in
    order, with its rot13, of which it keeps the first 16385 bytes; a line that
    is no longer than that gets its own rot13, newline included. *)
Theorem child_answers input :
  child [] input = (fun l => ztake (MAX_LINE + 1) (rot13 l)) <$> lines [] input /\
  (Forall (fun l => zlen l <= MAX_LINE + 1) (lines [] input) -> child [] input = rot13 <$> lines [] input) /\
  (forall l, rot13 (rot13 l) = l).
Proof.
  assert (E : child [] input = (fun l => ztake (MAX_LINE + 1) (rot13 l)) <$> lines [] input)
    by apply (child_lines []).
  split; [done|]. split.
  - intros H. rewrite E. apply list_fmap_ext. intros i l Hl. apply ztake_all.
    unfold rot13, zlen. rewrite length_fmap. by apply (Forall_lookup_1 _ _ _ _ H Hl).
  - unfold rot13. induction l as [|c l IH]; cbn; [done|]. by rewrite rot13_char_involutive, IH.
Qed.

(** ** server3.cpp answers lines *)
Record conn_inv (s : fd_state) : Prop := {
  ci_bounds : 0 <= n_written s <= write_upto s /\ write_upto s <= zlen (buffer s) <= MAX_LINE;
  ci_done : writing s = false -> n_written s = write_upto s;
  ci_lost : 0 <= lost s;
  ci_bytes : lost s = 0 -> exists full part,
    received s = full ++ part /\ (NL ∉ part) /\ (full = [] \/ last full = Some NL) /\
    sent s ++ zdrop (n_written s) (ztake (write_upto s) (buffer s)) = rot13 full /\
    zdrop (write_upto s) (buffer s) = rot13 part;
}.

Lemma alloc_inv : conn_inv alloc_fd_state.
Proof.
  split; cbn; [by vm_compute; repeat split|done|lia|]. intros _. exists [], []. repeat split; [|by left].
  by apply not_elem_of_nil.
Qed.

Lemma zdrop_split {A} n w (l : list A) :
  0 <= n <= w -> w <= zlen l -> zdrop n l = zdrop n (ztake w l) ++ zdrop w l.
Proof.
  intros H1 H2. rewrite <- (ztake_drop w l) at 1. apply zdrop_app_le. rewrite zlen_ztake; lia.
Qed.

Lemma rot13_app l k : rot13 (l ++ k) = rot13 l ++ rot13 k.
Proof. apply fmap_app. Qed.

Lemma read_byte_inv s c : conn_inv s -> conn_inv (read_byte s c).
Proof.
  intros [(B1 & B2) Hd Hl Hb]. unfold read_byte. destruct (Z.ltb_spec (zlen (buffer s)) MAX_LINE) as [Hf|Hf].
  - assert (Hz : zlen (buffer s ++ [rot13_char c]) = zlen (buffer s) + 1) by apply zlen_snoc.
    destruct (Z.eqb_spec c NL) as [->|Hc]; split; cbn -[zlen rot13_char]; try done; try lia.
    + intros H0. destruct (Hb H0) as (full & part & E & Hp & Hn & Hs & Hr).
      exists (received s ++ [NL]), []. rewrite app_nil_r. repeat split.
      * by apply not_elem_of_nil.
      * right. apply last_snoc.
      * rewrite ztake_all by lia. rewrite zdrop_app_le, (zdrop_split _ (write_upto s)) by lia.
        rewrite E, !rot13_app, <- Hs, <- Hr. by rewrite !app_assoc.
      * by rewrite zdrop_all by lia.
    + intros H0. destruct (Hb H0) as (full & part & E & Hp & Hn & Hs & Hr).
      exists full, (part ++ [c]). rewrite E, <- app_assoc. repeat split; try done.
      * apply not_elem_of_app. split; [done|]. by apply not_elem_of_cons; split; [|apply not_elem_of_nil].
      * by rewrite ztake_app_le by lia.
      * rewrite zdrop_app_le, Hr, rot13_app by lia. done.
  - destruct (c =? NL); split; cbn -[zlen rot13_char]; try done; lia.
Qed.

Lemma do_read_inv rs s r s' : conn_inv s -> do_read rs s = Some (r, s') -> conn_inv s'.
Proof.
  revert s. induction rs as [|[data| |e] rs IH]; intros s Hi; cbn; [done| |by intros [= <- <-]|by intros [= <- <-]].
  apply IH. clear IH. revert s Hi. induction data as [|c data IH]; intros s Hi; [done|]. cbn. apply IH.
  by apply read_byte_inv.
Qed.

(** send(2): it sends at least one byte and at most those it is given, or it
    fails. *)
Definition send_law (send : nat -> Z -> send_result) : Prop :=
  forall i len, 0 < len -> match send i len with Sent k => 0 < k <= len | SendFails _ => True end.

Lemma send_inv s k :
  conn_inv s -> 0 < k <= write_upto s - n_written s ->
  conn_inv (mkFdState (buffer s) (writing s) (n_written s + k) (write_upto s) (received s)
    (sent s ++ ztake k (zdrop (n_written s) (buffer s))) (lost s)).
Proof.
  intros [(B1 & B2) Hd Hl Hb] Hk. split; cbn -[zlen]; [lia|intros H; specialize (Hd H); lia|done|].
  intros H0. destruct (Hb H0) as (full & part & E & Hp & Hn & Hs & Hr). exists full, part.
  repeat split; try done. rewrite <- Hs, <- app_assoc. f_equal.
  rewrite <- zdrop_zdrop by lia. rewrite (zdrop_split (n_written s) (write_upto s) (buffer s)) by lia.
  rewrite ztake_app_le by (rewrite zlen_zdrop; rewrite zlen_ztake; lia). apply ztake_drop.
Qed.

Lemma written_inv s : conn_inv s -> n_written s = write_upto s -> conn_inv (written s).
Proof.
  intros [(B1 & B2) Hd Hl Hb] E0. unfold written.
  destruct (Z.eqb_spec (n_written s) (zlen (buffer s))) as [E|E]; split; cbn -[zlen]; try done.
  - intros H0. destruct (Hb H0) as (full & part & Er & Hp & Hn & Hs & Hr).
    assert (part = []) as ->.
    { rewrite zdrop_all in Hr by lia. symmetry in Hr. by apply fmap_nil_inv in Hr. }
    exists full, []. repeat split; try done. rewrite <- Hs. f_equal.
    rewrite (ztake_all (write_upto s)) by lia. by rewrite (zdrop_all (n_written s)) by lia.
Qed.

Lemma do_write_returns fuel send i s :
  conn_inv s -> send_law send -> (write_fuel s <= fuel)%nat ->
  exists r s', do_write fuel send i s = Some (r, s') /\ conn_inv s' /\ received s' = received s /\
    lost s' = lost s /\
    (r = 0 -> (exists j len, send j len = SendFails EAGAIN) \/ writing s' = false).
Proof.
  intros Hi Hsend. revert i s Hi. induction fuel as [|fuel IH]; intros i s Hi Hf; cbn [do_write];
    destruct (Z.ltb_spec (n_written s) (write_upto s)) as [H|H].
  1: unfold write_fuel in Hf; lia.
  1,3: assert (En : n_written s = write_upto s) by (destruct Hi as [(B1 & B2) _ _ _]; lia);
    exists 0, (written s); split; [done|]; split; [by apply written_inv|]; unfold written;
    destruct (n_written s =? zlen (buffer s)); repeat split; by right.
  pose proof (Hsend i (write_upto s - n_written s) ltac:(lia)) as Hk.
  destruct (send i (write_upto s - n_written s)) as [k|e] eqn:Es.
  - destruct (Z.eqb_spec k 0); [lia|].
    destruct (IH (S i) (mkFdState (buffer s) (writing s) (n_written s + k) (write_upto s) (received s)
      (sent s ++ ztake k (zdrop (n_written s) (buffer s))) (lost s))) as (r & s' & E & H1 & H2 & H3 & H4).
    + by apply send_inv.
    + unfold write_fuel in *. cbn. lia.
    + exists r, s'. exact (conj E (conj H1 (conj H2 (conj H3 H4)))).
  - eexists _, s. split; [reflexivity|].
    split; [done|]. split; [done|]. split; [done|]. destruct (Z.eqb_spec e EAGAIN) as [->|]; [|done].
    intros _. left. eauto.
Qed.

(** What the loop of [run] does with a connection that stays open. *)
Inductive conn_step : fd_state -> fd_state -> Prop :=
| conn_served rd wr s s' :
    match wr with Some send => send_law send | None => True end ->
    serve_fd rd wr s = Some (Some s') -> conn_step s s'.

Lemma conn_step_inv s s' : conn_inv s -> conn_step s s' -> conn_inv s'.
Proof.
  intros Hi Hs. destruct Hs as [rd wr s1 s2 Hw E]. unfold serve_fd in E.
  destruct (match rd with Some rs => do_read rs s1 | None => Some (0, s1) end) as [[r s3]|] eqn:E3; [|done].
  assert (H3 : conn_inv s3).
  { destruct rd; [by eapply do_read_inv|]. by injection E3 as <- <-. }
  cbn in E. destruct wr as [send|].
  - destruct (r =? 0).
    + destruct (do_write_returns _ send 0 s3 H3 Hw (le_n _)) as (r' & s4 & E4 & H4 & _).
      rewrite E4 in E. cbn in E. destruct (r' =? 0); [|done]. by injection E as <-.
    + cbn in E. destruct (r =? 0); [|done]. by injection E as <-.
  - cbn in E. destruct (r =? 0); [|done]. by injection E as <-.
Qed.

Lemma reached_inv s : rtc conn_step alloc_fd_state s -> conn_inv s.
Proof.
  intros Hr. apply (rtc_ind_r conn_inv alloc_fd_state) in Hr; [done|apply alloc_inv|].
  intros s1 s2 _ Hs H1. by eapply conn_step_inv.
Qed.

(** For any data and any partial sends, the server with select never writes
    outside the buffer of a connection; a write ends; and as long as no byte was
    dropped, what it has sent is the rot13 of the first bytes that came, and once
    a write is done it is the rot13 of all complete lines. *)
Theorem select_answers s :
  rtc conn_step alloc_fd_state s ->
  zlen (buffer s) <= MAX_LINE /\
  (forall send, send_law send -> exists r s', do_write (write_fuel s) send 0 s = Some (r, s')) /\
  (lost s = 0 -> exists full part, received s = full ++ part /\ (NL ∉ part) /\
    (full = [] \/ last full = Some NL) /\ sent s `prefix_of` rot13 full /\
    (writing s = false -> sent s = rot13 full)).
Proof.
  intros Hr. pose proof (reached_inv s Hr) as Hi.
  split; [apply (ci_bounds _ Hi)|]. split.
  - intros send Hs. destruct (do_write_returns _ send 0 s Hi Hs (le_n _)) as (r & s' & E & _). eauto.
  - destruct Hi as [(B1 & B2) Hd _ Hb]. intros H0. destruct (Hb H0) as (full & part & E & Hp & Hn & Hs & _).
    exists full, part. repeat split; try done; [by eexists|]. intros Hw. rewrite <- Hs, (Hd Hw).
    rewrite zdrop_all by (rewrite zlen_ztake; lia). by rewrite app_nil_r.
Qed.

(** The guard of [run] on the descriptor lets through one too many: with the
    array of 1024 entries an accept that returns 1024 writes behind it, and every
    other result is handled. *)
Lemma accept_out_of_range fd state :
  zlen state = FD_SETSIZE -> (accept_fd fd state = None <-> fd = FD_SETSIZE).
Proof.
  intros Hl. unfold accept_fd. destruct (Z.ltb_spec fd 0); [unfold FD_SETSIZE in *; split; [done|lia]|].
  rewrite Z.gtb_ltb. destruct (Z.ltb_spec FD_SETSIZE fd); [split; [done|lia]|]. unfold zset.
  rewrite (proj2 (Z.leb_le 0 fd)) by done. cbn. rewrite Hl. destruct (Z.ltb_spec fd FD_SETSIZE); split; (done || lia).
Qed.

Lemma select_answers_witness :
  exists s, conn_step alloc_fd_state s /\ sent s = [117; 118; 10].
Proof.
  set (send := fun (_ : nat) (len : Z) => Sent (Z.min len 2)).
  assert (Hlaw : send_law send) by (intros i len H; unfold send; lia).
  destruct (serve_fd (Some [Got [104; 105; 10; 106]; RecvFails EAGAIN]) (Some send) alloc_fd_state) as [[s|]|] eqn:E;
    [|by vm_compute in E..].
  assert (Hs : conn_step alloc_fd_state s) by (by eapply (conn_served _ (Some send))).
  exists s. split; [exact Hs|].
  destruct (select_answers s (rtc_once _ _ Hs)) as (_ & _ & H).
  vm_compute in E. injection E as <-. destruct (H eq_refl) as (full & part & _). done.
Defined.

(** ** The whole server *)
Lemma zset_zget {A} (l : list A) i x :
  0 <= i < zlen l ->
  exists l', zset l i x = Some l' /\ zlen l' = zlen l /\
    forall k, zget l' k = if decide (k = i) then Some x else zget l k.
Proof.
  intros Hi. unfold zset. rewrite (proj2 (Z.leb_le 0 i)), (proj2 (Z.ltb_lt i _)) by lia. cbn [andb].
  eexists. split; [reflexivity|]. unfold zlen in *. rewrite length_insert. split; [done|].
  intros k. unfold zget. destruct (Z.ltb_spec k 0) as [Hk|Hk]; [destruct (decide (k = i)); [lia|done]|].
  destruct (decide (k = i)) as [->|Hne].
  - apply list_lookup_insert_eq. lia.
  - apply list_lookup_insert_ne. lia.
Qed.

(** recv comes to an end: of the connection, of what has arrived, or with an
    error. *)
Fixpoint reads_end (rs : list recv_result) : bool :=
  match rs with [] => false | Got _ :: rs => reads_end rs | _ => true end.

Lemma do_read_returns rs : forall s, reads_end rs = true -> exists r s', do_read rs s = Some (r, s').
Proof.
  induction rs as [|[data| |e] rs IH]; intros s Hr; cbn in *; [done|by apply IH|eauto..].
Qed.

Record turn_law (t : turn) : Prop := mkTurnLaw {
  tl_send i : send_law (sends t i);
  tl_recv i : reads_end (recvs t i) = true;
}.

(** Every entry is a connection as [conn_step] leads to it. *)
Definition table_inv (state : table) : Prop :=
  zlen state = FD_SETSIZE /\ forall i s, zget state i = Some (Some s) -> rtc conn_step alloc_fd_state s.

(** What a turn makes of an entry; [rd] and [wr] as above. *)
Definition entry_after (t : turn) (rd wr : bool) (i : Z) (o : option (option fd_state))
    : option (option fd_state) :=
  match o with
  | Some (Some s) => serve_fd (if rd then Some (recvs t i) else None) (if wr then Some (sends t i) else None) s
  | _ => o
  end.

Lemma serve_fd_returns t (rd wr : bool) i s :
  turn_law t -> conn_inv s ->
  exists o, serve_fd (if rd then Some (recvs t i) else None) (if wr then Some (sends t i) else None) s = Some o /\
    forall s', o = Some s' -> conn_step s s'.
Proof.
  intros [Hs Hr] Hi.
  assert (exists o, serve_fd (if rd then Some (recvs t i) else None) (if wr then Some (sends t i) else None) s = Some o)
    as [o E].
  { unfold serve_fd. destruct rd.
    - destruct (do_read_returns (recvs t i) s (Hr i)) as (r & s1 & E1). rewrite E1. cbn.
      pose proof (do_read_inv _ _ _ _ Hi E1) as H1. destruct wr; [|by eexists].
      destruct (r =? 0); [|by eexists].
      destruct (do_write_returns _ (sends t i) 0 s1 H1 (Hs i) (le_n _)) as (r2 & s2 & E2 & _).
      rewrite E2. by eexists.
    - cbn. destruct wr; [|by eexists].
      destruct (do_write_returns _ (sends t i) 0 s Hi (Hs i) (le_n _)) as (r2 & s2 & E2 & _).
      rewrite E2. by eexists. }
  exists o. split; [exact E|]. intros s' ->.
  eapply conn_served; [|exact E]. by destruct wr.
Qed.

Lemma serve_at_spec t (rd wr : bool) i state :
  turn_law t -> table_inv state -> (rd || wr = true -> used state i = true) ->
  exists state', serve_at t rd wr i state = Some state' /\ table_inv state' /\
    forall k, zget state' k = if decide (k = i) then entry_after t rd wr i (zget state i) else zget state k.
Proof.
  intros Ht Hinv Hu. unfold serve_at. destruct (negb rd && negb wr) eqn:Eb.
  - apply andb_true_iff in Eb as [->%negb_true_iff ->%negb_true_iff]. exists state. split; [done|].
    split; [done|]. intros k. case_decide as Hd; [subst k|done]. by destruct (zget state i) as [[]|].
  - assert (used state i = true) as Hus by (apply Hu; by destruct rd, wr). unfold used in Hus.
    destruct (zget state i) as [[s|]|] eqn:Eg; try done. destruct Hinv as [Hl Hi].
    destruct (serve_fd_returns t rd wr i s Ht (reached_inv _ (Hi _ _ Eg))) as (o & Eo & Hstep). rewrite Eo. cbn [mbind option_bind].
    assert (0 <= i < zlen state) as Hr.
    { unfold zget, zlen in *. destruct (Z.ltb_spec i 0); [done|]. apply lookup_lt_Some in Eg. lia. }
    destruct (zset_zget state i o Hr) as (state' & Es & Hl' & Hk). exists state'.
    split; [done|]. split; [split; [lia|]|].
    + intros k s'. rewrite Hk. case_decide as Hd; [|apply Hi]. intros [= ->].
      eapply rtc_r; [|by apply Hstep]. by eapply Hi.
    + intros k. rewrite Hk. cbn [entry_after]. by rewrite Eo.
Qed.

(** The loop from [i] on serves [n] descriptors and leaves the others alone. *)
Lemma serve_from_spec t rd wr listener n : forall i state,
  turn_law t -> table_inv state ->
  (forall k, i <= k < i + Z.of_nat n -> k <> listener -> rd k || wr k = true -> used state k = true) ->
  exists state', serve_from t rd wr listener n i state = Some state' /\ table_inv state' /\
    forall k, zget state' k = if decide (i <= k < i + Z.of_nat n /\ k <> listener)
                              then entry_after t (rd k) (wr k) k (zget state k) else zget state k.
Proof.
  induction n as [|n IH]; intros i state Ht Hinv Hu; cbn [serve_from].
  { exists state. split; [done|]. split; [done|]. intros k. by rewrite decide_False by lia. }
  assert (exists state1, (if i =? listener then Some state else serve_at t (rd i) (wr i) i state) = Some state1 /\
    table_inv state1 /\
    forall k, zget state1 k = if decide (k = i /\ k <> listener)
                              then entry_after t (rd k) (wr k) k (zget state k) else zget state k)
    as (state1 & E1 & Hinv1 & Hk1).
  { destruct (Z.eqb_spec i listener) as [->|Hne].
    { exists state. split; [done|]. split; [done|]. intros k. by rewrite decide_False by tauto. }
    destruct (serve_at_spec t (rd i) (wr i) i state Ht Hinv) as (state1 & E1 & Hinv1 & Hk1);
      [apply Hu; lia|].
    exists state1. split; [done|]. split; [done|]. intros k. rewrite Hk1.
    destruct (decide (k = i)) as [->|Hn]; [by rewrite decide_True|by rewrite decide_False by tauto]. }
  rewrite E1. cbn [mbind option_bind].
  destruct (IH (i + 1) state1 Ht Hinv1) as (state' & E & Hinv' & Hk').
  - intros k Hr Hn Hs. unfold used. rewrite Hk1, decide_False by lia. apply Hu; [lia|done|done].
  - exists state'. split; [done|]. split; [done|]. intros k. rewrite Hk', Hk1.
    destruct (decide (k = i)) as [->|Hn].
    + rewrite decide_False by lia. destruct (decide (i = listener)) as [->|Hne].
      * by rewrite !decide_False by tauto.
      * by rewrite !decide_True by (split; [lia|done]).
    + rewrite (decide_False (P := k = i /\ _)) by tauto.
      by rewrite (decide_ext (i + 1 <= k < i + 1 + Z.of_nat n /\ k <> listener)
        (i <= k < i + Z.of_nat (S n) /\ k <> listener)) by lia.
Qed.

Lemma max_used_le state : forall i m, m <= max_used state i m.
Proof.
  induction state as [|[s|] state IH]; intros i m; cbn; [lia| |apply IH].
  etrans; [|apply IH]. destruct (Z.gtb_spec i m); lia.
Qed.
Lemma max_used_bound state : forall i m k s,
  state !! k = Some (Some s) -> i + Z.of_nat k <= max_used state i m.
Proof.
  induction state as [|o state IH]; intros i m k s Hk; [done|]. destruct k as [|k]; cbn in Hk.
  - injection Hk as ->. cbn. etrans; [|apply max_used_le]. destruct (Z.gtb_spec i m); lia.
  - destruct o; cbn; specialize (IH (i + 1)); [specialize (IH (if i >? m then i else m) k s Hk)|specialize (IH m k s Hk)]; lia.
Qed.
Lemma used_maxfd listener state i : used state i = true -> 0 <= i <= maxfd listener state.
Proof.
  unfold used, zget. destruct (Z.ltb_spec i 0); [done|].
  destruct (state !! Z.to_nat i) as [[s|]|] eqn:E; try done. intros _.
  pose proof (max_used_bound state 0 listener _ s E). unfold maxfd. lia.
Qed.

Definition vacant (state : table) (i : Z) : bool := match zget state i with Some None => true | _ => false end.

Lemma accept_table t (can : bool) state :
  table_inv state -> (can = true -> accepted t <> FD_SETSIZE) -> used state (accepted t) = false ->
  exists state1, (if can then accept_fd (accepted t) state else Some state) = Some state1 /\ table_inv state1 /\
    forall k, zget state1 k = if decide (can = true /\ k = accepted t /\ vacant state k = true)
                              then Some (Some alloc_fd_state) else zget state k.
Proof.
  intros [Hl Hi] Hne Hfree. destruct can; [specialize (Hne eq_refl)|].
  2: { exists state. split; [done|]. split; [done|]. intros k. by rewrite decide_False by (intros [[=] _]). }
  unfold accept_fd. rewrite Z.gtb_ltb.
  destruct (Z.ltb_spec (accepted t) 0) as [H0|H0], (Z.ltb_spec FD_SETSIZE (accepted t)) as [H1|H1].
  1-3: exists state; split; [done|]; split; [done|]; intros k; rewrite decide_False; [done|];
    intros (_ & -> & Eg); unfold vacant, zget in Eg; destruct (Z.ltb_spec (accepted t) 0); [done|];
    destruct (state !! Z.to_nat (accepted t)) as [[]|] eqn:El; try done;
    apply lookup_lt_Some in El; unfold zlen in Hl; lia.
  destruct (zset_zget state (accepted t) (Some alloc_fd_state)) as (state1 & E & Hl1 & Hk); [lia|].
  exists state1. split; [done|]. split; [split; [lia|]|].
  - intros k s. rewrite Hk. case_decide; [intros [= <-]; apply rtc_refl|apply Hi].
  - intros k. rewrite Hk. destruct (decide (k = accepted t)) as [->|Hn]; [|by rewrite decide_False by tauto].
    rewrite decide_True; [done|]. split; [done|]. split; [done|].
    destruct (zget_Some state (accepted t)) as [o Eo]; [lia|]. unfold used, vacant in *. rewrite Eo in Hfree |- *.
    by destruct o.
Qed.

(** C18: a turn of the server with select, in which recv, send and accept keep
    to their documentation and the listening descriptor fits into an fd_set.
    When the descriptor accepted is 1024 the turn writes behind the array. In
    every other case no null state is used and nothing is written outside the
    array; each open connection that is ready is served exactly once, and kept
    or closed as serving it says; the accepted connection is entered; no other
    entry changes; and so every entry is again a connection of which
    [select_answers] speaks. *)
Theorem run_turn_serves listener t state :
  0 <= selected t -> turn_law t -> table_inv state -> 0 <= listener < FD_SETSIZE -> used state listener = false ->
  accepted t <> listener -> used state (accepted t) = false ->
  (can_read t listener = true -> accepted t = FD_SETSIZE -> run_turn listener t state = None) /\
  (~ (can_read t listener = true /\ accepted t = FD_SETSIZE) ->
   exists state', run_turn listener t state = Some (Some state') /\ table_inv state' /\
    used state' listener = false /\
    (forall i s, zget state i = Some (Some s) ->
       exists o, serve_fd (if can_read t i then Some (recvs t i) else None)
                   (if writing s && can_write t i then Some (sends t i) else None) s = Some o /\
         zget state' i = Some o) /\
    (forall i, zget state i = Some None ->
       zget state' i = Some (if can_read t listener && (i =? accepted t) then Some alloc_fd_state else None))).
Proof.
  intros Hsel Ht Hinv _ Hlis Hnl Hfree. unfold run_turn. rewrite (proj2 (Z.ltb_ge _ 0)) by done.
  split.
  { intros Hc Ha. unfold readset at 2. rewrite Z.eqb_refl, Hc. cbn [orb andb].
    by rewrite (proj2 (accept_out_of_range _ _ (proj1 Hinv)) Ha). }
  intros Hne. assert (can_read t listener = true -> accepted t <> FD_SETSIZE) as Hne' by tauto.
  unfold readset at 2. rewrite Z.eqb_refl. cbn [orb andb].
  destruct (accept_table t (can_read t listener) state Hinv Hne' Hfree) as (state1 & E1 & Hinv1 & Hk1).
  rewrite E1. cbn [mbind option_bind].
  assert (forall k, used state k = true -> zget state1 k = zget state k) as Hsame.
  { intros k Hu. rewrite Hk1, decide_False; [done|]. intros (_ & _ & E). unfold used, vacant in *. by destruct (zget state k) as [[]|]. }
  assert (forall k, k <> listener -> (readset listener state k && can_read t k) || (writeset state k && can_write t k) = true ->
    used state k = true) as Hset.
  { intros k Hn. unfold readset, writeset, used. rewrite (proj2 (Z.eqb_neq k listener)) by done.
    by destruct (zget state k) as [[]|]. }
  edestruct (serve_from_spec t) as (state' & E & Hinv' & Hk); [exact Ht|exact Hinv1| |].
  { intros k _ Hn Hs. apply Hset in Hs; [|done]. unfold used. rewrite Hsame by done. exact Hs. }
  rewrite E. exists state'. split; [done|]. split; [done|]. split; [|split].
  - unfold used. rewrite Hk, decide_False, Hk1 by tauto. rewrite decide_False by (intros (_ & ? & _); congruence).
    exact Hlis.
  - intros i s Ei. assert (used state i = true) as Hu by (unfold used; by rewrite Ei).
    assert (i <> listener) as Hn by congruence. pose proof (used_maxfd listener state i Hu) as Hm.
    destruct (serve_fd_returns t (can_read t i) (writing s && can_write t i) i s Ht) as (o & Eo & _);
      [by eapply reached_inv, (proj2 Hinv)|]. exists o. split; [exact Eo|].
    rewrite Hk, decide_True by (split; [lia|done]). rewrite Hsame by done. rewrite Ei. cbn [entry_after].
    unfold readset, writeset. rewrite Hu, Ei, orb_true_r. exact Eo.
  - intros i Ei. assert (used state i = false) as Hu by (unfold used; by rewrite Ei).
    assert (zget state1 i = Some (if can_read t listener && (i =? accepted t) then Some alloc_fd_state else None)) as E1i.
    { rewrite Hk1.
      destruct (decide (can_read t listener = true /\ i = accepted t /\ vacant state i = true)) as [Hd|Hd].
      - destruct Hd as (Hc & -> & _). by rewrite Hc, Z.eqb_refl.
      - rewrite Ei. destruct (can_read t listener), (Z.eqb_spec i (accepted t)); cbn; try done.
        exfalso. apply Hd. unfold vacant. by rewrite Ei. }
    rewrite Hk. destruct (decide (0 <= i < _ /\ i <> listener)) as [Hd|Hd]; rewrite E1i; [|done]. unfold readset, writeset. rewrite Hu, Ei.
    rewrite (proj2 (Z.eqb_neq i listener)) by tauto. cbn [orb andb]. unfold entry_after.
    by destruct (can_read t listener && (i =? accepted t)).
Qed.

Definition example_turn (fd : Z) : turn :=
  mkTurn 1 (fun i => i =? 3) (fun _ => false) fd (fun _ => [RecvFails EAGAIN]) (fun _ _ len => Sent len).

Lemma empty_table_inv : table_inv (replicate 1024 None).
Proof.
  split; [reflexivity|]. intros i s. unfold zget. destruct (i <? 0); [discriminate|].
  rewrite lookup_replicate. intros [[=] _].
Qed.

Lemma run_turn_serves_witness :
  (exists state', run_turn 3 (example_turn 4) (replicate 1024 None) = Some (Some state') /\
     zget state' 4 = Some (Some alloc_fd_state)) /\
  run_turn 3 (example_turn 1024) (replicate 1024 None) = None.
Proof.
  assert (forall fd, turn_law (example_turn fd)) as Hlaw
    by (intros fd; split; [intros i j len Hl; cbn; lia|reflexivity]).
  split.
  - destruct (run_turn_serves 3 (example_turn 4) (replicate 1024 None)) as [_ H].
    + discriminate.
    + apply Hlaw.
    + apply empty_table_inv.
    + unfold FD_SETSIZE. lia.
    + reflexivity.
    + discriminate.
    + reflexivity.
    + destruct H as (state' & E & _ & _ & _ & Hk); [intros [_ H]; discriminate H|].
      exists state'. split; [exact E|]. exact (Hk 4 eq_refl).
  - destruct (run_turn_serves 3 (example_turn 1024) (replicate 1024 None)) as [H _].
    + discriminate.
    + apply Hlaw.
    + apply empty_table_inv.
    + unfold FD_SETSIZE. lia.
    + reflexivity.
    + discriminate.
    + reflexivity.
    + apply H; reflexivity.
Defined.
