(* ===== verification/Router.v ===== *)
(** * The message router

    src/libevent-example/message.{h,cpp}: clients send packets of a header and a
    payload, and the router passes them on to the client the header names.
    Buffered events are known by number; the model keeps those that exist.  The
    file uses names that only a Windows build has (S_un, Sleep) and the undeclared
    TIME_INTERVAL, which is an argument here. *)
From S2P Require Import Prelude.

Definition HEADER_LENGTH : Z := 12.
Definition BUFFER_SIZE : Z := 16 * 1024.
Definition MAX_PACKET_SIZE : Z := 256.

Record Header : Type := mkHeader { targetID : Z; sourceID : Z; length_ : Z }.

(** The bytes of a header in memory, and a header read from memory. *)
Definition header_bytes (h : Header) : list Z :=
  le_bytes 4 (targetID h) ++ le_bytes 4 (sourceID h) ++ le_bytes 4 (length_ h).
Definition read_header (b : list Z) : Header :=
  mkHeader (le_val (ztake 4 b)) (le_val (ztake 4 (zdrop 4 b))) (le_val (ztake 4 (zdrop 8 b))).

Record bufferevent : Type := mkBev { input : list Z; output : list Z }.

(** [ClientMap] in the order of its keys. *)
Record router : Type := mkRouter {
  ClientMap : list (Z * Z);
  conectNumber : Z;
  dataSize : Z;
  lastTime : Z;
  receiveNumber : Z;
  sendNumber : Z;
  bevs : gmap Z bufferevent;
}.

Definition put_bevs b s :=
  mkRouter (ClientMap s) (conectNumber s) (dataSize s) (lastTime s) (receiveNumber s) (sendNumber s) b.

(** bufferevent_write, and bufferevent_read of at most [n] bytes. *)
Definition bufferevent_write (p : Z) (data : list Z) : M router unit :=
  s ← getS;
  match bevs s !! p with
  | Some b => modify (put_bevs (<[p := mkBev (input b) (output b ++ data)]> (bevs s)))
  | None => undef "bufferevent_write"
  end.

Definition bufferevent_read (p n : Z) : M router (list Z) :=
  s ← getS;
  match bevs s !! p with
  | Some b =>
    _ ← modify (put_bevs (<[p := mkBev (zdrop n (input b)) (output b)]> (bevs s)));
    mret (ztake n (input b))
  | None => undef "bufferevent_read"
  end.

Definition input_length (p : Z) : M router Z :=
  s ← getS;
  match bevs s !! p with Some b => mret (zlen (input b)) | None => undef "evbuffer_get_length" end.

Definition get_client_id (bev : Z) : M router Z :=
  s ← getS;
  mret (match filter (fun p => p.2 = bev) (ClientMap s) with p :: _ => p.1 | [] => 0 end).

Definition find_client (id : Z) (s : router) : option Z :=
  match filter (fun p => p.1 = id) (ClientMap s) with p :: _ => Some p.2 | [] => None end.

(** The local array has [BUFFER_SIZE] bytes. *)
Definition write_buffer (msg : list Z) (bev : Z) (header : Header) : M router unit :=
  if HEADER_LENGTH + zlen msg <=? BUFFER_SIZE
  then bufferevent_write bev (header_bytes header ++ msg)
  else undef "memcpy".

(** [p]: the new bufferevent, 0 when it could not be made. *)
Definition listener_cb (p : Z) : M router unit :=
  if p =? 0 then mret tt else
  _ ← modify (fun s => put_bevs (<[p := mkBev [] []]> (bevs s)) s);
  s ← getS;
  if conectNumber s =? 2 ^ 31 - 1 then undef "++conectNumber" else
  let n := conectNumber s + 1 in
  _ ← modify (fun s => mkRouter (ClientMap s ++ [(n, p)]) n (dataSize s) (lastTime s) (receiveNumber s)
                         (sendNumber s) (bevs s));
  let msg := bytes_of "connedted" in
  write_buffer msg p (mkHeader n 0 (zlen msg)).

(** [inttostr]: the loop on a positive number, which has at most ten digits. *)
Fixpoint digits (fuel : nat) (num : Z) (result : list Z) : list Z :=
  match fuel with
  | O => result
  | S fuel => if num >? 0 then digits fuel (num / 10) ((num mod 10 + 48) :: result) else result
  end.

(** [-num] overflows for the smallest int. *)
Definition inttostr (num : Z) : option (list Z) :=
  if num =? - 2 ^ 31 then None else
  let neg := num <? 0 in
  let num := if neg then - num else num in
  let result := if num =? 0 then [48] else digits 10 num [] in
  Some (if neg then 45 :: result else result).

Definition conn_writecb (bev : Z) : M router unit :=
  toID ← get_client_id bev;
  match inttostr (i32 toID) with
  | None => undef "inttostr"
  | Some n =>
    let msg := bytes_of "hello client " ++ n in
    write_buffer msg bev (mkHeader toID 0 (zlen msg))
  end.

(** A packet is taken from the input into [msg], which has [MAX_PACKET_SIZE]
    bytes, and passed on.  [false]: the loop ends by its break. *)
Definition forward (bev sourceID sz : Z) : M router bool :=
  b ← bufferevent_read bev HEADER_LENGTH;
  let h := read_header b in
  let len := length_ h in
  if sz <? u32 (len + HEADER_LENGTH) then mret false else
  payload ← bufferevent_read bev len;
  if zlen payload >? MAX_PACKET_SIZE - HEADER_LENGTH then undef "bufferevent_read past the end of msg" else
  let msg := header_bytes (mkHeader (targetID h) sourceID len) ++ payload in
  _ ← modify (fun s => mkRouter (ClientMap s) (conectNumber s) (i32 (dataSize s + len + HEADER_LENGTH)) (lastTime s)
                         (i32 (receiveNumber s + 1)) (sendNumber s) (bevs s));
  s ← getS;
  match find_client (targetID h) s with
  | Some target =>
    _ ← modify (fun s => mkRouter (ClientMap s) (conectNumber s) (dataSize s) (lastTime s) (receiveNumber s)
                           (i32 (sendNumber s + 1)) (bevs s));
    if u32 (len + HEADER_LENGTH) >? zlen msg then undef "bufferevent_write past the end of msg" else
    _ ← bufferevent_write target (ztake (u32 (len + HEADER_LENGTH)) msg);
    mret true
  | None => mret true
  end.

(** The loop of [conn_readcb]; each turn takes a header at least. *)
Fixpoint read_loop (fuel : nat) (bev sourceID sz : Z) : M router unit :=
  if sz >=? MAX_PACKET_SIZE then
    match fuel with
    | O => fun _ => Fuel
    | S fuel =>
      go ← forward bev sourceID sz;
      if go : bool then sz ← input_length bev; read_loop fuel bev sourceID sz else mret tt
    end
  else mret tt.

(** The statistics; what is printed is left out. *)
Definition speed (TIME_INTERVAL nowtime : Z) (s : router) : router :=
  if lastTime s =? 0
  then mkRouter (ClientMap s) (conectNumber s) (dataSize s) (i32 nowtime) (receiveNumber s) (sendNumber s) (bevs s)
  else if nowtime - lastTime s >? TIME_INTERVAL
  then mkRouter (ClientMap s) (conectNumber s) 0 (i32 nowtime) 0 0 (bevs s)
  else s.

Definition conn_readcb (TIME_INTERVAL nowtime bev : Z) : M router unit :=
  sz ← input_length bev;
  sourceID ← get_client_id bev;
  _ ← read_loop (Z.to_nat sz) bev sourceID sz;
  modify (speed TIME_INTERVAL nowtime).

(** The client stays in [ClientMap]. *)
Definition conn_eventcb (bev : Z) : M router unit :=
  s ← getS;
  match bevs s !! bev with
  | Some _ => modify (put_bevs (delete bev (bevs s)))
  | None => undef "bufferevent_free"
  end.

(** ** Packets that fit are passed on *)
Record packet : Type := mkPacket { p_target : Z; p_source : Z; p_payload : list Z }.

Definition packet_ok (k : packet) : Prop :=
  in_u 32 (p_target k) /\ in_u 32 (p_source k) /\ zlen (p_payload k) <= MAX_PACKET_SIZE - HEADER_LENGTH.

Definition encode (k : packet) : list Z :=
  header_bytes (mkHeader (p_target k) (p_source k) (zlen (p_payload k))) ++ p_payload k.

(** The packet with the identity of its sender. *)
Definition from (src : Z) (k : packet) : packet := mkPacket (p_target k) src (p_payload k).

(** What passing a packet on does to the buffered events. *)
Definition find_in (cm : list (Z * Z)) (id : Z) : option Z :=
  match filter (fun p => p.1 = id) cm with p :: _ => Some p.2 | [] => None end.
Definition pass (cm : list (Z * Z)) (src : Z) (m : gmap Z bufferevent) (k : packet) : gmap Z bufferevent :=
  match find_in cm (p_target k) with
  | Some t => alter (fun b => mkBev (input b) (output b ++ encode (from src k))) t m
  | None => m
  end.
Definition consume (p : Z) (rest : list Z) (m : gmap Z bufferevent) : gmap Z bufferevent :=
  alter (fun b => mkBev rest (output b)) p m.

Lemma zlen_header h : zlen (header_bytes h) = 12.
Proof. unfold header_bytes, zlen. rewrite !length_app, !length_le_bytes. done. Qed.

Lemma packet_header_read h rest :
  in_u 32 (targetID h) -> in_u 32 (sourceID h) -> in_u 32 (length_ h) ->
  read_header (ztake 12 (header_bytes h ++ rest)) = h.
Proof.
  intros H1 H2 H3. rewrite ztake_app_exact by apply zlen_header.
  assert (L : forall z, zlen (le_bytes 4 z) = 4) by (intros; unfold zlen; by rewrite length_le_bytes).
  unfold read_header, header_bytes.
  rewrite (ztake_app_exact 4) by apply L. rewrite (zdrop_app_exact 4), (ztake_app_exact 4) by apply L.
  rewrite app_assoc, (zdrop_app_exact 8) by (by rewrite zlen_app, !L).
  rewrite ztake_all by (by rewrite L). rewrite !le_val_le_bytes_small by done. by destruct h.
Qed.

Lemma consume_insert p rest b m :
  m !! p = Some b -> <[p := mkBev rest (output b)]> m = consume p rest m.
Proof.
  intros E. apply map_eq. intros q. unfold consume. destruct (decide (q = p)) as [->|Hn].
  - by rewrite lookup_insert_eq, lookup_alter_eq, E.
  - by rewrite lookup_insert_ne, lookup_alter_ne by done.
Qed.

Lemma consume_twice p r1 r2 m : consume p r2 (consume p r1 m) = consume p r2 m.
Proof.
  apply map_eq. intros q. unfold consume. destruct (decide (q = p)) as [->|Hn].
  - rewrite !lookup_alter_eq. by destruct (m !! p).
  - by rewrite !lookup_alter_ne by done.
Qed.

Lemma consume_pass p rest cm src m k :
  consume p rest (pass cm src m k) = pass cm src (consume p rest m) k.
Proof.
  unfold pass, consume. destruct (find_in cm (p_target k)) as [t|]; [|done].
  apply map_eq. intros q. destruct (decide (q = p)) as [->|Hp], (decide (p = t)) as [->|Ht];
    try destruct (decide (q = t)) as [->|Hq]; rewrite ?lookup_alter_eq, ?lookup_alter_ne by done;
    rewrite ?lookup_alter_eq, ?lookup_alter_ne by done; rewrite ?lookup_alter_eq by done; try done;
    by destruct (m !! _).
Qed.

Lemma pass_lookup cm src m k q b :
  m !! q = Some b -> exists out, pass cm src m k !! q = Some (mkBev (input b) out).
Proof.
  intros E. unfold pass. destruct (find_in cm (p_target k)) as [t|]; [|by exists (output b); destruct b].
  destruct (decide (q = t)) as [->|Hn].
  - rewrite lookup_alter_eq, E. by eexists.
  - rewrite lookup_alter_ne by done. exists (output b). by destruct b.
Qed.

(** Every client in the map has a buffered event that exists. *)
Definition clients_live (s : router) : Prop :=
  forall id t, find_in (ClientMap s) id = Some t -> is_Some (bevs s !! t).

Lemma bufferevent_read_Ret p n s b :
  bevs s !! p = Some b ->
  bufferevent_read p n s = Ret (ztake n (input b)) (put_bevs (consume p (zdrop n (input b)) (bevs s)) s).
Proof.
  intros E. unfold bufferevent_read. erewrite bind_Ret by reflexivity. rewrite E.
  erewrite bind_Ret by reflexivity. by rewrite (consume_insert _ _ b).
Qed.

(** A packet that fits is taken from the input and handed to bufferevent_write. *)
Lemma forward_packet p src k rest out s sz :
  packet_ok k -> bevs s !! p = Some (mkBev (encode k ++ rest) out) -> zlen (encode k ++ rest) <= sz ->
  exists s1, ClientMap s1 = ClientMap s /\ bevs s1 = consume p rest (bevs s) /\
    forward p src sz s =
      match find_in (ClientMap s) (p_target k) with
      | Some t => (bufferevent_write t (encode (from src k)) ≫= fun _ => mret true) s1
      | None => Ret true s1
      end.
Proof.
  intros (Ht & Hs & Hl) E Hsz. unfold forward, MAX_PACKET_SIZE, HEADER_LENGTH in *.
  pose proof (zlen_nonneg (p_payload k)) as Hp.
  assert (Hu : in_u 32 (zlen (p_payload k))) by (unfold in_u; change (2 ^ 32) with 4294967296; lia).
  assert (H12 : u32 (zlen (p_payload k) + 12) = zlen (p_payload k) + 12)
    by (apply uwrap_small; unfold in_u; change (2 ^ 32) with 4294967296; lia).
  assert (Eh : read_header (ztake 12 (encode k ++ rest)) = mkHeader (p_target k) (p_source k) (zlen (p_payload k))).
  { unfold encode. rewrite <- app_assoc. by apply packet_header_read. }
  rewrite (bind_Ret _ _ _ _ _ (bufferevent_read_Ret p 12 s _ E)). cbn [input]. cbv beta zeta.
  rewrite !Eh. cbn [length_ targetID]. rewrite H12.
  unfold encode in Hsz. rewrite !zlen_app, zlen_header in Hsz. pose proof (zlen_nonneg rest).
  destruct (Z.ltb_spec sz (zlen (p_payload k) + 12)); [lia|].
  unfold encode at 1. rewrite <- app_assoc, zdrop_app_exact by apply zlen_header.
  set (s1 := put_bevs (consume p (p_payload k ++ rest) (bevs s)) s).
  assert (E1 : bevs s1 !! p = Some (mkBev (p_payload k ++ rest) out))
    by (unfold s1, consume; cbn; by rewrite lookup_alter_eq, E).
  rewrite (bind_Ret _ _ _ _ _ (bufferevent_read_Ret p (zlen (p_payload k)) s1 _ E1)). cbn [input].
  rewrite ztake_app_exact, zdrop_app_exact by done.
  destruct (Z.gtb_spec (zlen (p_payload k)) (256 - 12)); [lia|].
  erewrite bind_Ret by reflexivity. erewrite bind_Ret by reflexivity.
  unfold s1. cbn [bevs put_bevs]. rewrite consume_twice. unfold find_client, find_in. cbn [ClientMap put_bevs].
  destruct (filter (fun p => p.1 = p_target k) (ClientMap s)) as [|[i t] l].
  { eexists. split; [|split; [|reflexivity]]; done. }
  cbn [snd]. erewrite bind_Ret by reflexivity. rewrite zlen_app, zlen_header.
  destruct (Z.gtb_spec (zlen (p_payload k) + 12) (12 + zlen (p_payload k))); [lia|].
  rewrite ztake_all by (rewrite zlen_app, zlen_header; lia).
  eexists. split; [|split; [|reflexivity]]; done.
Qed.

Lemma forward_Ret p src k rest out s sz :
  packet_ok k -> clients_live s ->
  bevs s !! p = Some (mkBev (encode k ++ rest) out) -> zlen (encode k ++ rest) <= sz ->
  exists s', forward p src sz s = Ret true s' /\ ClientMap s' = ClientMap s /\
    bevs s' = pass (ClientMap s) src (consume p rest (bevs s)) k.
Proof.
  intros Hok Hlive E Hsz. destruct (forward_packet p src k rest out s sz Hok E Hsz) as (s1 & C1 & B1 & ->).
  unfold pass. specialize (Hlive (p_target k)). destruct (find_in (ClientMap s) (p_target k)) as [t|]; [|by exists s1].
  assert (Eb : exists b', bevs s1 !! t = Some b').
  { destruct (Hlive t eq_refl) as [b Hb]. rewrite B1. unfold consume.
    destruct (decide (t = p)) as [->|Hn]; [rewrite lookup_alter_eq, Hb; eauto|].
    rewrite lookup_alter_ne by done. eauto. }
  destruct Eb as [b' Eb]. erewrite bind_Ret.
  2:{ unfold bufferevent_write. erewrite bind_Ret by reflexivity. rewrite Eb. reflexivity. }
  eexists. split; [reflexivity|]. split; [done|]. cbn [bevs put_bevs]. rewrite <- B1.
  apply map_eq. intros q. destruct (decide (q = t)) as [->|Hn].
  - by rewrite lookup_insert_eq, lookup_alter_eq, Eb.
  - by rewrite lookup_insert_ne, lookup_alter_ne by done.
Qed.

Lemma is_Some_pass cm src m k q : is_Some (m !! q) -> is_Some (pass cm src m k !! q).
Proof. intros [b E]. destruct (pass_lookup cm src m k q b E) as [out ->]. eauto. Qed.

Lemma is_Some_consume p rest m q : is_Some (m !! q) -> is_Some (consume p rest m !! q).
Proof.
  intros [b E]. unfold consume. destruct (decide (q = p)) as [->|Hn].
  - rewrite lookup_alter_eq, E. eauto.
  - rewrite lookup_alter_ne by done. eauto.
Qed.

Lemma consume_same p b m : m !! p = Some b -> consume p (input b) m = m.
Proof. intros E. rewrite <- (consume_insert p _ b) by done. destruct b. by apply insert_id. Qed.

Lemma consume_foldl p rest cm src m ks :
  consume p rest (foldl (pass cm src) m ks) = foldl (pass cm src) (consume p rest m) ks.
Proof. revert m. induction ks as [|k ks IH]; intros m; [done|]. cbn. by rewrite IH, consume_pass. Qed.

Lemma zlen_encode k : zlen (encode k) = 12 + zlen (p_payload k).
Proof. unfold encode. by rewrite zlen_app, zlen_header. Qed.

Lemma input_length_Ret p s b : bevs s !! p = Some b -> input_length p s = Ret (zlen (input b)) s.
Proof. intros E. unfold input_length. erewrite bind_Ret by reflexivity. by rewrite E. Qed.

Definition stream (ks : list packet) (tail : list Z) : list Z := concat (encode <$> ks) ++ tail.

Lemma read_loop_Ret p src ks tail fuel s out :
  Forall packet_ok ks -> clients_live s -> zlen tail < MAX_PACKET_SIZE ->
  bevs s !! p = Some (mkBev (stream ks tail) out) -> zlen (stream ks tail) <= Z.of_nat fuel ->
  exists n s', read_loop fuel p src (zlen (stream ks tail)) s = Ret tt s' /\ ClientMap s' = ClientMap s /\
    bevs s' = consume p (stream (drop n ks) tail) (foldl (pass (ClientMap s) src) (bevs s) (take n ks)) /\
    zlen (stream (drop n ks) tail) < MAX_PACKET_SIZE /\
    forall m, (m < n)%nat -> MAX_PACKET_SIZE <= zlen (stream (drop m ks) tail).
Proof.
  intros Hk. revert fuel s out. induction Hk as [|k ks Hok Hk IH]; intros fuel s out Hlive Ht E Hf.
  - exists 0%nat, s. unfold stream in *. cbn in *. split; [|split; [done|]]; [|split; [|split; [done|lia]]].
    + destruct fuel; cbn; rewrite Z.geb_leb, (proj2 (Z.leb_gt _ _)) by done; done.
    + symmetry. exact (consume_same p _ (bevs s) E).
  - destruct (Z.lt_ge_cases (zlen (stream (k :: ks) tail)) MAX_PACKET_SIZE) as [Hlt|Hge].
    { exists 0%nat, s. split; [|split; [done|]]; [|split; [|split; [done|lia]]].
      - destruct fuel; cbn [read_loop]; rewrite Z.geb_leb, (proj2 (Z.leb_gt _ _)) by done; done.
      - symmetry. exact (consume_same p _ (bevs s) E). }
    assert (Es : stream (k :: ks) tail = encode k ++ stream ks tail) by (unfold stream; cbn; by rewrite app_assoc).
    rewrite Es in *. rewrite zlen_app, zlen_encode in Hf. pose proof (zlen_nonneg (p_payload k)).
    pose proof (zlen_nonneg (stream ks tail)). destruct fuel as [|fuel]; [lia|]. cbn [read_loop].
    rewrite Z.geb_leb, (proj2 (Z.leb_le _ _) Hge).
    destruct (forward_Ret p src k (stream ks tail) out s _ Hok Hlive E (Z.le_refl _)) as (s1 & E1 & C1 & B1).
    rewrite (bind_Ret _ _ _ _ _ E1).
    assert (Hp : exists out1, bevs s1 !! p = Some (mkBev (stream ks tail) out1)).
    { rewrite B1. apply (pass_lookup (ClientMap s) src (consume p (stream ks tail) (bevs s)) k p (mkBev (stream ks tail) out)).
      unfold consume. by rewrite lookup_alter_eq, E. }
    destruct Hp as [out1 Hp]. rewrite (bind_Ret _ _ _ _ _ (input_length_Ret _ _ _ Hp)). cbn [input].
    destruct (IH fuel s1 out1) as (n & s' & E2 & C2 & B2 & H2 & M2); [|done|done|lia|].
    { intros id t Hid. rewrite C1 in Hid. rewrite B1. by apply is_Some_pass, is_Some_consume, (Hlive id). }
    exists (S n), s'. split; [done|]. split; [congruence|]. split; [|split; [done|]].
    2:{ intros [|m] Hm; cbn [drop]; [by rewrite Es|]. apply M2. lia. }
    rewrite B2, B1, C1. cbn [take drop foldl]. rewrite <- consume_pass, <- consume_foldl. by rewrite consume_twice.
Qed.

(** C24: packets of at most 256 bytes come in from a client, and no client of the
    map has been closed.  Of the packets in the buffer the callback passes on, in
    order, exactly those that begin while at least 256 bytes wait, each to the
    client its header names with the identity of the sender filled in; those for
    clients it does not know it drops.  The rest, which is less than 256 bytes and
    may hold whole packets, stays in the buffer from the start of a packet on. *)
Theorem packets_forwarded p ks tail out s interval now :
  Forall packet_ok ks -> clients_live s -> zlen tail < MAX_PACKET_SIZE ->
  bevs s !! p = Some (mkBev (stream ks tail) out) ->
  exists n s' src, conn_readcb interval now p s = Ret tt s' /\
    get_client_id p s = Ret src s /\ ClientMap s' = ClientMap s /\
    bevs s' = consume p (stream (drop n ks) tail) (foldl (pass (ClientMap s) src) (bevs s) (take n ks)) /\
    zlen (stream (drop n ks) tail) < MAX_PACKET_SIZE /\
    (forall m, (m < n)%nat -> MAX_PACKET_SIZE <= zlen (stream (drop m ks) tail)).
Proof.
  intros Hk Hlive Ht E. unfold conn_readcb.
  rewrite (bind_Ret _ _ _ _ _ (input_length_Ret _ _ _ E)). cbn [input].
  set (src := match filter (fun c => c.2 = p) (ClientMap s) with c :: _ => c.1 | [] => 0 end).
  assert (Eid : get_client_id p s = Ret src s) by done.
  rewrite (bind_Ret _ _ _ _ _ Eid).
  destruct (read_loop_Ret p src ks tail (Z.to_nat (zlen (stream ks tail))) s out) as (n & s' & E1 & C1 & B1 & H1 & M1);
    [done..|rewrite Z2Nat.id by apply zlen_nonneg; lia|].
  rewrite (bind_Ret _ _ _ _ _ E1). exists n, (speed interval now s'), src. split; [done|]. split; [done|].
  unfold speed. destruct (lastTime s' =? 0); [done|]. by destruct (now - lastTime s' >? interval).
Qed.

(** A whole packet of less than 256 bytes waits until more has come. *)
Lemma small_packet_waits p k out s interval now :
  packet_ok k -> clients_live s -> zlen (encode k) < MAX_PACKET_SIZE -> bevs s !! p = Some (mkBev (encode k) out) ->
  exists s', conn_readcb interval now p s = Ret tt s' /\ bevs s' = bevs s.
Proof.
  intros Hk Hl Hs E. unfold conn_readcb. rewrite (bind_Ret _ _ _ _ _ (input_length_Ret _ _ _ E)).
  erewrite (bind_Ret (get_client_id p)) by reflexivity. cbn [input].
  erewrite bind_Ret; cycle 1.
  { destruct (Z.to_nat _); cbn [read_loop]; rewrite Z.geb_leb, (proj2 (Z.leb_gt _ _)) by done; reflexivity. }
  eexists. split; [reflexivity|]. unfold speed. by repeat case_match.
Qed.

(** A packet whose header announces more than 244 bytes, all of them there,
    overruns the local buffer. *)
Theorem oversized_packet_overruns p src h rest out s :
  in_u 32 (targetID h) -> in_u 32 (sourceID h) ->
  MAX_PACKET_SIZE - HEADER_LENGTH < length_ h < 2 ^ 32 - HEADER_LENGTH -> length_ h <= zlen rest ->
  bevs s !! p = Some (mkBev (header_bytes h ++ rest) out) ->
  exists why, forward p src (zlen (header_bytes h ++ rest)) s = Undef why.
Proof.
  intros Ht Hs Hl Hr E. unfold forward, MAX_PACKET_SIZE, HEADER_LENGTH in *.
  assert (Hu : in_u 32 (length_ h)) by (unfold in_u; lia).
  rewrite (bind_Ret _ _ _ _ _ (bufferevent_read_Ret p 12 s _ E)). cbn [input]. cbv beta zeta.
  rewrite !packet_header_read by done. rewrite zlen_app, zlen_header.
  rewrite uwrap_small by (unfold in_u; lia). destruct (Z.ltb_spec (12 + zlen rest) (length_ h + 12)); [lia|].
  rewrite zdrop_app_exact by apply zlen_header.
  set (s1 := put_bevs (consume p rest (bevs s)) s).
  assert (E1 : bevs s1 !! p = Some (mkBev rest out)) by (unfold s1, consume; cbn; by rewrite lookup_alter_eq, E).
  rewrite (bind_Ret _ _ _ _ _ (bufferevent_read_Ret p (length_ h) s1 _ E1)). cbn [input].
  rewrite zlen_ztake by lia. destruct (Z.gtb_spec (length_ h) (256 - 12)); [eauto|lia].
Qed.

(** ** A client that is gone *)

(** When a connection ends, its buffered event is freed but the client stays
    in the map: the next packet for it is written to the freed object. *)
Theorem closed_client_dangles p q src k rest out b s :
  packet_ok k -> p <> q -> find_in (ClientMap s) (p_target k) = Some q ->
  bevs s !! p = Some (mkBev (encode k ++ rest) out) -> bevs s !! q = Some b ->
  exists s' why, conn_eventcb q s = Ret tt s' /\ find_in (ClientMap s') (p_target k) = Some q /\
    forward p src (zlen (encode k ++ rest)) s' = Undef why.
Proof.
  intros Hok Hn Hq Ep Eq. unfold conn_eventcb. erewrite bind_Ret by reflexivity. rewrite Eq.
  set (s1 := put_bevs (delete q (bevs s)) s). eexists s1, _. split; [done|]. split; [done|].
  assert (E1 : bevs s1 !! p = Some (mkBev (encode k ++ rest) out)) by (cbn; by rewrite lookup_delete_ne).
  destruct (forward_packet p src k rest out s1 _ Hok E1 (Z.le_refl _)) as (s2 & C2 & B2 & ->).
  change (ClientMap s1) with (ClientMap s). rewrite Hq. unfold bufferevent_write, mbind, M_bind, getS.
  rewrite B2. unfold consume, s1. cbn [bevs put_bevs]. rewrite lookup_alter_ne, lookup_delete_eq by done. reflexivity.
Qed.

(** ** Numbers as text *)
Definition dec_value (l : list Z) : Z := foldl (fun a d => 10 * a + (d - 48)) 0 l.
Definition parse_int (l : list Z) : Z :=
  match l with 45 :: l => - dec_value l | _ => dec_value l end.

Lemma digits_value fuel num l :
  0 <= num < 10 ^ Z.of_nat fuel ->
  dec_value (digits fuel num l) = foldl (fun a d => 10 * a + (d - 48)) num l.
Proof.
  revert num l. induction fuel as [|fuel IH]; intros num l Hn; cbn [digits].
  { change (10 ^ Z.of_nat 0) with 1 in Hn. by replace num with 0 by lia. }
  destruct (Z.gtb_spec num 0) as [H|H]; [|by replace num with 0 by lia].
  rewrite IH.
  - cbn [foldl]. f_equal. pose proof (Z.div_mod num 10 ltac:(lia)). lia.
  - rewrite Nat2Z.inj_succ, Z.pow_succ_r in Hn by lia. split; [apply Z.div_pos; lia|].
    apply Z.div_lt_upper_bound; lia.
Qed.

Lemma digits_head fuel num l :
  0 <= num < 10 ^ Z.of_nat fuel -> (l = [] -> 0 < num) ->
  match l with [] => True | d :: _ => 48 <= d < 58 end ->
  match digits fuel num l with [] => False | d :: _ => 48 <= d < 58 end.
Proof.
  revert num l. induction fuel as [|fuel IH]; intros num l Hn Hl Hd; cbn [digits].
  { change (10 ^ Z.of_nat 0) with 1 in Hn. destruct l; [specialize (Hl eq_refl); lia|done]. }
  destruct (Z.gtb_spec num 0) as [H|H]; [|destruct l; [specialize (Hl eq_refl); lia|done]].
  apply IH; [|done|].
  - rewrite Nat2Z.inj_succ, Z.pow_succ_r in Hn by lia. split; [apply Z.div_pos; lia|].
    apply Z.div_lt_upper_bound; lia.
  - pose proof (Z.mod_pos_bound num 10 ltac:(lia)). lia.
Qed.

(** [inttostr] prints every int in decimal, so that reading the text back gives
    the number, except for the smallest, which it negates. *)
Theorem inttostr_roundtrip num :
  in_s 32 num ->
  match inttostr num with
  | Some l => parse_int l = num
  | None => num = - 2 ^ 31
  end.
Proof.
  unfold in_s. change (2 ^ (32 - 1)) with 2147483648. intros Hn. unfold inttostr. change (2 ^ 31) with 2147483648.
  destruct (Z.eqb_spec num (- (2147483648))) as [|Hm]; [done|].
  assert (H : forall m, 0 <= m < 2147483648 -> let l := if m =? 0 then [48] else digits 10 m [] in
    dec_value l = m /\ match l with 45 :: _ => False | _ => True end).
  { intros m Hmm. cbv zeta. destruct (Z.eqb_spec m 0) as [->|Hz]; [done|].
    assert (Hb : 0 <= m < 10 ^ Z.of_nat 10) by (change (10 ^ Z.of_nat 10) with 10000000000; lia).
    split; [by rewrite digits_value|]. pose proof (digits_head 10 m [] Hb ltac:(lia) I) as Hd.
    destruct (digits 10 m []) as [|d l]; [done|]. repeat case_match; try done; lia. }
  destruct (Z.ltb_spec num 0) as [Hneg|Hpos].
  - destruct (H (- num) ltac:(lia)) as [H1 _]. cbn [parse_int]. rewrite H1. lia.
  - destruct (H num ltac:(lia)) as [H1 H2]. unfold parse_int. repeat case_match; try done.
Qed.

(** ** Two clients *)
Definition example_packet : packet := mkPacket 2 0 (replicate 244 7).
Definition example_router (inp : list Z) : router :=
  mkRouter [(1, 10); (2, 20)] 2 0 0 0 0 {[10 := mkBev inp []; 20 := mkBev [] []]}.

Lemma example_packet_ok : packet_ok example_packet.
Proof. by repeat split. Qed.

Lemma example_live inp : clients_live (example_router inp).
Proof.
  intros id t. unfold find_in, example_router. cbn. repeat case_decide; cbn; intros [= <-]; by eexists.
Qed.

(** A whole packet and a short one: the first is passed on, the other waits. *)
Definition short_packet : packet := mkPacket 2 0 [1; 2; 3].

Lemma packets_forwarded_witness :
  exists n s', conn_readcb 5000 1 10 (example_router (stream [example_packet; short_packet] [])) = Ret tt s' /\
    bevs s' !! 20 = Some (mkBev [] (encode (mkPacket 2 1 (replicate 244 7)))) /\
    zlen (stream (drop n [example_packet; short_packet]) []) < 256 /\ n = 1%nat.
Proof.
  destruct (packets_forwarded 10 [example_packet; short_packet] [] []
    (example_router (stream [example_packet; short_packet] [])) 5000 1)
    as (n & s' & src & E & _ & _ & _ & H1 & H2); [|apply example_live|done|done|].
  { constructor; [apply example_packet_ok|]. constructor; [by repeat split|constructor]. }
  exists n, s'. split; [exact E|]. split; [vm_compute in E; injection E as <-; done|]. split; [exact H1|].
  destruct n as [|[|n]]; [vm_compute in H1; discriminate|reflexivity|].
  specialize (H2 1%nat ltac:(lia)). vm_compute in H2. destruct (H2 eq_refl).
Defined.

Lemma oversized_packet_overruns_witness :
  exists why, forward 10 1 512 (example_router (header_bytes (mkHeader 2 0 300) ++ replicate 500 7)) = Undef why.
Proof.
  apply (oversized_packet_overruns 10 1 (mkHeader 2 0 300) (replicate 500 7) []); by vm_compute.
Defined.

Lemma closed_client_dangles_witness :
  exists s' why, conn_eventcb 20 (example_router (encode example_packet)) = Ret tt s' /\
    forward 10 1 256 s' = Undef why.
Proof.
  destruct (closed_client_dangles 10 20 1 example_packet [] [] (mkBev [] []) (example_router (encode example_packet)))
    as (s' & why & E & _ & H); [apply example_packet_ok|done|done|done|done|].
  exists s', why. split; [exact E|exact H].
Defined.

Lemma inttostr_roundtrip_witness : in_s 32 (-205) /\ inttostr (-205) = Some [45; 50; 48; 53] /\ parse_int [45; 50; 48; 53] = -205.
Proof. split; [done|]. split; [done|]. apply (inttostr_roundtrip (-205)). done. Defined.
