(* ===== verification/PingPong.v ===== *)
(** * The ping-pong benchmark

    src/libevent-example/server4.cpp echoes what it reads, and
    src/libevent-example/client4.cpp sends one block, sends back all it reads
    and counts it.  example/tcp_echo_example.cpp has the same echo callbacks.
    Each end is a bufferevent with an input and an output buffer; between them
    are the bytes on the way in each direction.  libevent moves bytes from an
    output buffer to the network and from the network to an input buffer, and
    then calls the read callback. *)
From S2P Require Import Prelude Convert.

Record bufferevent : Type := mkBev { input : list Z; output : list Z }.

(** [evbuffer_add_buffer(output, input)]: all bytes move, the input is empty. *)
Definition add_buffer (b : bufferevent) : bufferevent := mkBev [] (output b ++ input b).

(** ** The server *)
Definition echo_read_cb (b : bufferevent) : bufferevent := add_buffer b.

(** What is left of the connection: [None] when it has been freed. *)
Definition echo_event_cb (events : Z) (b : bufferevent) : option bufferevent :=
  if has events (Z.lor BEV_EVENT_EOF BEV_EVENT_ERROR) then None else Some b.

(** [main]: the port to listen on, given the value of the first argument. *)
Definition server_port (arg : option Z) : option Z :=
  let port := default 9876 arg in
  if (port <=? 0) || (port >? 65535) then None else Some port.

(** ** The client *)
Record client : Type := mkClient {
  bev : bufferevent;
  total_bytes_read : Z;
  total_messages_read : Z;
}.

(** A 64-bit signed sum, undefined when it does not fit. *)
Definition sadd64 {S} (a b : Z) : M S Z :=
  if a + b <=? INT64_MAX then mret (a + b) else undef "signed integer overflow".

Definition readcb : M client unit :=
  c ← getS;
  messages ← sadd64 (total_messages_read c) 1;
  bytes ← sadd64 (total_bytes_read c) (zlen (input (bev c)));
  modify (fun _ => mkClient (add_buffer (bev c)) bytes messages).

(** Whether [TCP_NODELAY] is set on the socket. *)
Definition eventcb (events : Z) : bool := has events BEV_EVENT_CONNECTED.

(** [message[i] = i % 128] for the bytes of a block. *)
Definition message (block_size : Z) : list Z :=
  (fun i => Z.of_nat i mod 128) <$> seq 0 (Z.to_nat block_size).

(** [main] up to the connection: the port and the client, given the number of
    arguments and the value of the second one.  The other arguments but the last
    are not used. *)
Definition client_start (argc block_size : Z) : option (Z * client) :=
  if negb (argc =? 5) then None
  else Some (5555, mkClient (mkBev [] (message block_size)) 0 0).

(** ** Client, network and server *)

(** [heard]: all that the client has read, added by the model. *)
Record link : Type := mkLink {
  cli : client;
  c2s : list Z;
  srv : bufferevent;
  s2c : list Z;
  heard : list Z;
}.

Definition arrives (data : list Z) (b : bufferevent) : bufferevent := mkBev (input b ++ data) (output b).
Definition sent (k : Z) (b : bufferevent) : bufferevent := mkBev (input b) (zdrop k (output b)).
Definition with_bev (b : bufferevent) (c : client) : client :=
  mkClient b (total_bytes_read c) (total_messages_read c).

Inductive link_step : link -> link -> Prop :=
| client_sends k c a s b h :
    0 < k <= zlen (output (bev c)) ->
    link_step (mkLink c a s b h)
      (mkLink (with_bev (sent k (bev c)) c) (a ++ ztake k (output (bev c))) s b h)
| server_reads k c a s b h :
    0 < k <= zlen a ->
    link_step (mkLink c a s b h) (mkLink c (zdrop k a) (echo_read_cb (arrives (ztake k a) s)) b h)
| server_sends k c a s b h :
    0 < k <= zlen (output s) ->
    link_step (mkLink c a s b h) (mkLink c a (sent k s) (b ++ ztake k (output s)) h)
| client_reads k c c' a s b h :
    0 < k <= zlen b ->
    readcb (with_bev (arrives (ztake k b) (bev c)) c) = Ret tt c' ->
    link_step (mkLink c a s b h) (mkLink c' a s (zdrop k b) (h ++ ztake k b)).

Definition connected (c : client) : link := mkLink c [] (mkBev [] []) [] [].

(** The bytes of the block in the order in which the client will read them. *)
Definition ring (l : link) : list Z :=
  s2c l ++ output (srv l) ++ c2s l ++ output (bev (cli l)).

(** The block, over and over. *)
Definition cyclic (m l : list Z) : Prop :=
  forall j x, l !! j = Some x -> m !! (j mod length m)%nat = Some x.

Record pp_inv (m : list Z) (l : link) : Prop := {
  pp_ring : length (ring l) = length m;
  pp_cyclic : cyclic m (heard l ++ ring l);
  pp_inputs : input (bev (cli l)) = [] /\ input (srv l) = [];
  pp_bytes : total_bytes_read (cli l) = zlen (heard l);
  pp_messages : 0 <= total_messages_read (cli l) <= total_bytes_read (cli l);
}.

Lemma cyclic_more m l d r :
  length (d ++ r) = length m -> cyclic m (l ++ d ++ r) -> cyclic m ((l ++ d) ++ r ++ d).
Proof.
  intros Hl Hc j x Hj.
  replace ((l ++ d) ++ r ++ d) with ((l ++ d ++ r) ++ d) in Hj by (by rewrite <- !app_assoc).
  destruct (decide (j < length (l ++ d ++ r))%nat) as [L|L].
  - apply Hc. by rewrite lookup_app_l in Hj by done.
  - rewrite lookup_app_r in Hj by lia. rewrite !length_app in *.
    assert (m !! ((length l + (j - (length l + (length d + length r)))) mod length m)%nat = Some x) as E.
    { apply Hc. rewrite lookup_app_r by lia.
      rewrite lookup_app_l by (apply lookup_lt_Some in Hj; rewrite ?length_app in *; lia).
      rewrite <- Hj. f_equal. lia. }
    rewrite <- E. f_equal.
    replace j with (length l + (j - (length l + (length d + length r))) + 1 * length m)%nat at 1 by lia.
    destruct (decide (length m = 0)%nat) as [Z0|Z0]; [apply lookup_lt_Some in Hj; lia|].
    by rewrite Nat.Div0.mod_add.
Qed.

Lemma readcb_spec c c' :
  readcb c = Ret tt c' ->
  c' = mkClient (add_buffer (bev c)) (total_bytes_read c + zlen (input (bev c))) (total_messages_read c + 1).
Proof.
  unfold readcb, sadd64. intros E.
  erewrite bind_Ret in E by reflexivity. cbv beta in E.
  destruct (total_messages_read c + 1 <=? INT64_MAX); [|discriminate E].
  erewrite bind_Ret in E by reflexivity. cbv beta in E.
  destruct (total_bytes_read c + zlen (input (bev c)) <=? INT64_MAX); [|discriminate E].
  by injection E as <-.
Qed.

(** A step that only moves bytes along the ring. *)
Lemma pp_moves m l l' :
  pp_inv m l -> ring l' = ring l -> heard l' = heard l ->
  input (bev (cli l')) = [] -> input (srv l') = [] ->
  total_bytes_read (cli l') = total_bytes_read (cli l) ->
  total_messages_read (cli l') = total_messages_read (cli l) -> pp_inv m l'.
Proof. intros [H1 H2 H3 H4 H5] E1 E2 E3 E4 E5 E6. split; rewrite ?E1, ?E2, ?E5, ?E6; try done; by split. Qed.

Lemma link_step_inv m l l' : link_step l l' -> pp_inv m l -> pp_inv m l'.
Proof.
  intros Hs Hi. pose proof Hi as [H1 H2 [H3 H4] H5 H6]. destruct Hs; cbn in *.
  - apply (pp_moves _ _ _ Hi); try done. unfold ring; cbn. by rewrite <- (app_assoc a), ztake_drop.
  - apply (pp_moves _ _ _ Hi); try done. unfold ring; cbn. rewrite H4; cbn.
    by rewrite <- (app_assoc (output s)), (app_assoc (ztake k a)), ztake_drop.
  - apply (pp_moves _ _ _ Hi); try done. unfold ring; cbn.
    by rewrite <- (app_assoc b), (app_assoc (ztake k _)), ztake_drop.
  - apply readcb_spec in H0 as ->. unfold ring in *; cbn in *.
    set (d := ztake k b) in *. set (r := zdrop k b ++ output s ++ a ++ output (bev c)).
    assert (b ++ output s ++ a ++ output (bev c) = d ++ r) as E.
    { unfold r, d. by rewrite (app_assoc (ztake k b)), ztake_drop. }
    assert (zlen d = k) by (apply zlen_ztake; lia). rewrite E in *.
    split; unfold ring; cbn; rewrite ?H3; cbn.
    + fold d. rewrite !length_app in *. unfold r in H1. rewrite !length_app in H1. lia.
    + replace (zdrop k b ++ output s ++ a ++ output (bev c) ++ d) with (r ++ d)
        by (unfold r; by rewrite <- !app_assoc). by apply cyclic_more.
    + done.
    + rewrite zlen_app. lia.
    + lia.
Qed.

Lemma connected_inv m c :
  c = mkClient (mkBev [] m) 0 0 -> pp_inv m (connected c).
Proof.
  intros ->. split; unfold ring; cbn; try done; try lia.
  intros j x Hj. rewrite Nat.mod_small; [done|]. by apply lookup_lt_Some in Hj.
Qed.

(** ** Progress *)

(** How far the bytes still have to go to the client. *)
Definition distance (l : link) : Z :=
  4 * zlen (output (bev (cli l))) + 3 * zlen (c2s l) + 2 * zlen (output (srv l)) + zlen (s2c l).

Lemma link_step_distance m l l' :
  pp_inv m l -> link_step l l' ->
  0 <= distance l' /\
  (distance l' < distance l \/ total_bytes_read (cli l) < total_bytes_read (cli l')).
Proof.
  intros [_ _ [H3 H4] _ _] Hs. split.
  { unfold distance. repeat match goal with |- context[zlen ?x] => pose proof (zlen_nonneg x); generalize dependent (zlen x) end. lia. }
  destruct Hs; unfold distance; cbn in *.
  - left. rewrite zlen_app, zlen_ztake, zlen_zdrop by lia. lia.
  - left. rewrite H4. cbn. rewrite zlen_app, zlen_ztake, zlen_zdrop by lia. lia.
  - left. rewrite zlen_app, zlen_ztake, zlen_zdrop by lia. lia.
  - right. apply readcb_spec in H0 as ->. cbn. rewrite H3. cbn. rewrite zlen_ztake by lia. lia.
Qed.

Lemma readcb_returns c :
  0 <= total_messages_read c <= total_bytes_read c -> 0 < zlen (input (bev c)) ->
  total_bytes_read c + zlen (input (bev c)) <= INT64_MAX -> exists c', readcb c = Ret tt c'.
Proof.
  intros H1 H2 H3. unfold readcb, sadd64. eexists.
  erewrite bind_Ret by reflexivity. cbv beta. rewrite !(proj2 (Z.leb_le _ _)) by lia.
  reflexivity.
Qed.

Lemma link_can_step m l :
  pp_inv m l -> m <> [] -> total_bytes_read (cli l) < INT64_MAX -> exists l', link_step l l'.
Proof.
  intros [H1 _ [H3 H4] _ H6] Hm Hb. destruct l as [c a s b h]; cbn in *. unfold ring in *; cbn in *.
  destruct b as [|x b]; [|].
  2:{ destruct (readcb_returns (with_bev (arrives (ztake 1 (x :: b)) (bev c)) c)) as [c' E]; cbn.
      - done.
      - by rewrite H3.
      - rewrite H3. change (zlen ([] ++ ztake 1 (x :: b))) with 1. lia.
      - eexists. apply (client_reads 1 _ c'); [|done]. rewrite zlen_cons. pose proof (zlen_nonneg b). lia. }
  destruct (output s) as [|x o] eqn:E; [|].
  2:{ eexists. apply (server_sends 1). rewrite E, zlen_cons. pose proof (zlen_nonneg o). lia. }
  destruct a as [|x a]; [|].
  2:{ eexists. apply (server_reads 1). rewrite zlen_cons. pose proof (zlen_nonneg a). lia. }
  destruct (output (bev c)) as [|x o] eqn:E'; [by destruct m|].
  eexists. apply (client_sends 1). rewrite E', zlen_cons. pose proof (zlen_nonneg o). lia.
Qed.

(** The benchmark runs for ever on its one block: what the client reads is
    the block over and over, no byte is lost or added, the counter of bytes is
    what was read and that of messages is never above it; while the counter does
    not reach its maximum some end can proceed, and every step brings the bytes
    nearer to the client or is a read of the client. *)
Theorem block_goes_round argc block_size port c l :
  client_start argc block_size = Some (port, c) -> 0 < block_size -> rtc link_step (connected c) l ->
  (forall j x, heard l !! j = Some x -> x = (Z.of_nat j mod block_size) mod 128) /\
  zlen (ring l) = block_size /\
  total_bytes_read (cli l) = zlen (heard l) /\
  0 <= total_messages_read (cli l) <= total_bytes_read (cli l) /\
  (total_bytes_read (cli l) < INT64_MAX -> exists l', link_step l l') /\
  (forall l', link_step l l' -> 0 <= distance l' /\
    (distance l' < distance l \/ total_bytes_read (cli l) < total_bytes_read (cli l'))).
Proof.
  unfold client_start. intros E Hb Hr. destruct (negb (argc =? 5)); [done|]. injection E as <- <-.
  assert (Hl : length (message block_size) = Z.to_nat block_size)
    by (unfold message; by rewrite length_fmap, length_seq).
  assert (Hi : pp_inv (message block_size) l).
  { revert l Hr. apply rtc_ind_r; [by apply connected_inv|]. intros l1 l2 _ Hs. by apply link_step_inv. }
  split; [|split; [|split; [|split; [|split]]]].
  - intros j x Hj. assert ((heard l ++ ring l) !! j = Some x) as Hj' by by apply lookup_app_l_Some.
    apply (pp_cyclic _ _ Hi) in Hj'. unfold message in Hj'. rewrite list_lookup_fmap in Hj'.
    apply fmap_Some in Hj' as (i & Hi' & ->). apply lookup_seq in Hi' as [-> _].
    fold (message block_size). rewrite Hl. cbn. rewrite Nat2Z.inj_mod, Z2Nat.id by lia. done.
  - unfold zlen. rewrite (pp_ring _ _ Hi), Hl. lia.
  - apply (pp_bytes _ _ Hi).
  - apply (pp_messages _ _ Hi).
  - apply (link_can_step _ _ Hi). intros E. rewrite E in Hl. cbn in Hl. lia.
  - intros l'. by apply link_step_distance with (m := message block_size).
Qed.

Lemma block_goes_round_witness :
  let c := mkClient (mkBev [] [0; 1; 2]) 0 0 in
  let l := mkLink (mkClient (mkBev [] [0; 1]) 2 1) [] (mkBev [] []) [2] [0; 1] in
  client_start 5 3 = Some (5555, c) /\ rtc link_step (connected c) l /\
  (exists l', link_step l l') /\ zlen (ring l) = 3.
Proof.
  set (c := mkClient (mkBev [] [0; 1; 2]) 0 0).
  set (l := mkLink (mkClient (mkBev [] [0; 1]) 2 1) [] (mkBev [] []) [2] [0; 1]).
  assert (Hr : rtc link_step (connected c) l).
  { eapply rtc_l; [apply (client_sends 3); by vm_compute|].
    eapply rtc_l; [apply (server_reads 3); by vm_compute|].
    eapply rtc_l; [apply (server_sends 3); by vm_compute|].
    apply rtc_once. apply (client_reads 2); by vm_compute. }
  split; [done|]. split; [done|].
  destruct (block_goes_round 5 3 5555 c l) as (_ & H1 & _ & _ & H2 & _); [done|done|done|].
  split; [by apply H2|done].
Defined.
