(* ===== verification/Replies.v ===== *)
(** * The small libevent servers and clients

    src/libevent-example/server1.cpp with client1.cpp (events on plain sockets),
    server3.cpp with client3.cpp (bufferevents) and test1.cpp, which sends a
    fixed text (hello-world.cpp is the same program).  A buffer on the stack is
    the bytes that have been put in it together with its size; a store outside
    it is undefined. *)
From S2P Require Import Prelude.

(** [msg[len] = '\0'] in an array of [size] bytes whose first ones are [data];
    the result is the string it then holds. *)
Definition terminate {S} (size : Z) (data : list Z) : M S (list Z) :=
  if zlen data <? size then mret (c_string data) else undef "msg[len]".

(** What a call of [read] gives: the bytes, none of them at the end of the
    stream, or an error. *)
Definition read_result : Type := option (list Z).

(** The result of [read] counts as a failure. *)
Definition read_len (r : read_result) : Z := match r with Some d => zlen d | None => -1 end.

(** [write] takes as many bytes as there is room for. *)
Definition write_some (room : Z) (data : list Z) : list Z := ztake (Z.min room (zlen data)) data.

(** ** server1.cpp *)
Module Server1.
(** A client: its event is registered, its socket is open, what was sent to it. *)
Record conn : Type := mkConn { event : bool; is_open : bool; sent : list Z }.

Definition msg_size : Z := 4096.
Definition reply_text : list Z := bytes_of "I have recvieced the msg: ".

(** [strcat] appends [src] and its zero to a string [dst] in an array of [size]
    bytes. *)
Definition strcat {S} (size : Z) (dst src : list Z) : M S (list Z) :=
  if zlen dst + zlen src + 1 <=? size then mret (dst ++ src) else undef "strcat".

Definition socket_read_cb (r : read_result) (room : Z) : M conn unit :=
  if read_len r <=? 0 then modify (fun c => mkConn false false (sent c))
  else
    msg ← terminate msg_size (default [] r);
    reply_msg ← strcat msg_size reply_text msg;
    modify (fun c => mkConn (event c) (is_open c) (sent c ++ write_some room reply_msg)).

(** [accept_cb]: the result of [accept] is used as it is. *)
Definition accept_cb (sockfd : Z) : Z * conn := (sockfd, mkConn true true []).

(** [tcp_server_init]: the results of [socket], [bind] and [listen]; what is
    returned, and the descriptors left open. *)
Definition tcp_server_init (socket bind listen : Z) : Z * list Z :=
  if socket =? -1 then (-1, [])
  else if bind <? 0 then (-1, [])
  else if listen <? 0 then (-1, [])
  else (socket, [socket]).
End Server1.

(** ** client1.cpp *)
Module Client1.
(** [exited]: the process has called [exit(1)]. *)
Record client : Type := mkClient { exited : bool; sent : list Z; shown : list (list Z) }.

Definition cmd_msg_cb (r : read_result) (room : Z) : M client unit :=
  if read_len r <=? 0 then modify (fun c => mkClient true (sent c) (shown c))
  else modify (fun c => mkClient (exited c) (sent c ++ write_some room (default [] r)) (shown c)).

Definition socket_read_cb (r : read_result) : M client unit :=
  if read_len r <=? 0 then modify (fun c => mkClient true (sent c) (shown c))
  else
    msg ← terminate 1024 (default [] r);
    modify (fun c => mkClient (exited c) (sent c) (shown c ++ [msg])).

(** [tcp_connect_server]: the results of [inet_aton], [socket] and [connect];
    what is returned, and the descriptors left open. *)
Definition tcp_connect_server (aton socket connect : Z) : Z * list Z :=
  if aton =? 0 then (-1, [])
  else if socket =? -1 then (socket, [])
  else if connect =? -1 then (-1, [])
  else (socket, [socket]).
End Client1.

(** ** server3.cpp *)
Module Server3.
Record bufferevent : Type := mkBev { input : list Z; output : list Z }.

Definition reply : list Z := bytes_of "I has read your data".

Definition socket_read_cb : M bufferevent unit :=
  b ← getS;
  _ ← terminate 4096 (ztake 4095 (input b));
  modify (fun b => mkBev (zdrop 4095 (input b)) (output b ++ reply)).

(** [listener_cb]: a new client; [socket_event_cb]: [None] is a freed one. *)
Definition listener_cb : bufferevent := mkBev [] [].
Definition socket_event_cb (events : Z) (b : bufferevent) : option bufferevent := None.
End Server3.

(** ** client3.cpp *)
Module Client3.
(** [bev]: the connection with its input and output, [None] when it has been
    freed; [ev_cmd]: the terminal event is registered. *)
Record client : Type := mkClient {
  bev : option (list Z * list Z);
  ev_cmd : bool;
  exited : bool;
  shown : list (list Z);
}.

Definition cmd_msg_cb (r : read_result) : M client unit :=
  if read_len r <? 0 then modify (fun c => mkClient (bev c) (ev_cmd c) true (shown c))
  else
    c ← getS;
    match bev c with
    | Some (i, o) => modify (fun c => mkClient (Some (i, o ++ default [] r)) (ev_cmd c) (exited c) (shown c))
    | None => undef "bufferevent_write"
    end.

Definition server_msg_cb : M client unit :=
  c ← getS;
  match bev c with
  | None => undef "bufferevent_read"
  | Some (i, o) =>
    msg ← terminate 1024 (ztake 1024 i);
    modify (fun c => mkClient (Some (zdrop 1024 i, o)) (ev_cmd c) (exited c) (shown c ++ [msg]))
  end.

Definition event_cb (event : Z) : M client unit :=
  if negb (has event BEV_EVENT_EOF) && negb (has event BEV_EVENT_ERROR) && has event BEV_EVENT_CONNECTED
  then mret tt
  else
    c ← getS;
    match bev c with
    | None => undef "bufferevent_free"
    | Some _ => modify (fun c => mkClient None false (exited c) (shown c))
    end.
End Client3.

(** ** test1.cpp *)
Module Hello.
Definition MESSAGE : list Z := bytes_of "Hello, World!" ++ [10].

(** A client: what waits to be sent to it, [None] once the bufferevent is freed. *)
Definition conn : Type := option (list Z).

(** [made]: whether bufferevent_socket_new succeeded; if not the loop is left. *)
Definition listener_cb (made : bool) : option conn := if made then Some (Some MESSAGE) else None.

Definition bufferevent_free : M conn unit :=
  c ← getS; match c with Some _ => modify (fun _ => None) | None => undef "bufferevent_free" end.

Definition conn_writecb : M conn unit :=
  c ← getS;
  match c with
  | None => undef "evbuffer_get_length"
  | Some output => if zlen output =? 0 then bufferevent_free else mret tt
  end.

Definition conn_eventcb (events : Z) : M conn unit := bufferevent_free.

(** libevent sends some of what waits, calls the write callback when nothing is
    left, and the event callback when the connection ends.  It calls nothing for
    a bufferevent that was freed.  [got] is what the client has been sent. *)
Inductive hello_step : conn * list Z -> conn * list Z -> Prop :=
| h_send k out got :
    0 < k < zlen out -> hello_step (Some out, got) (Some (zdrop k out), got ++ ztake k out)
| h_flush out got c :
    out <> [] -> conn_writecb (Some []) = Ret tt c -> hello_step (Some out, got) (c, got ++ out)
| h_event out got events c :
    conn_eventcb events (Some out) = Ret tt c -> hello_step (Some out, got) (c, got).
End Hello.

(** ** Strings in arrays *)
Definition no_nul (l : list Z) : Prop := Forall (fun c => c <> 0) l.

Lemma c_string_no_nul l : no_nul l -> c_string l = l.
Proof. induction 1 as [|c l Hc _ IH]; [done|]. cbn. rewrite (proj2 (Z.eqb_neq c 0) Hc). by rewrite IH. Qed.

Lemma terminate_fits {S} size l (s : S) :
  no_nul l -> terminate size l s = if zlen l <? size then Ret l s else Undef "msg[len]".
Proof. intros H. unfold terminate. rewrite c_string_no_nul by done. by destruct (zlen l <? size). Qed.

Lemma write_with_room room l : zlen l <= room -> write_some room l = l.
Proof. intros H. unfold write_some. apply ztake_all. lia. Qed.

(** ** server1.cpp and client1.cpp *)
Lemma server1_reads data room c :
  no_nul data -> 0 < zlen data < 4096 ->
  Server1.socket_read_cb (Some data) room c =
    if zlen data <=? 4069
    then Ret tt (Server1.mkConn (Server1.event c) (Server1.is_open c)
                   (Server1.sent c ++ write_some room (Server1.reply_text ++ data)))
    else Undef "strcat".
Proof.
  intros Hn [H1 H2]. unfold Server1.socket_read_cb. cbn [read_len default].
  rewrite (proj2 (Z.leb_gt _ _)) by done.
  pose proof (terminate_fits Server1.msg_size data c Hn) as E.
  rewrite (proj2 (Z.ltb_lt _ _)) in E by done. rewrite (bind_Ret _ _ _ _ _ E). cbv beta.
  unfold Server1.strcat. change (zlen Server1.reply_text) with 26. change Server1.msg_size with 4096.
  destruct (Z.leb_spec (26 + zlen data + 1) 4096), (Z.leb_spec (zlen data) 4069); try lia; done.
Qed.

(** Server1 answers a text of at most 4069 bytes with its greeting and the
    text, and client1 shows that answer when it is shorter than 1024 bytes; a
    text of 4070 to 4095 bytes, which the read accepts, makes [strcat] write past
    the reply. *)
Theorem server1_answers m room c k :
  no_nul m -> 0 < zlen m < 4096 -> 4096 <= room ->
  (zlen m <= 4069 -> exists c',
     Server1.socket_read_cb (Some m) room c = Ret tt c' /\
     Server1.sent c' = Server1.sent c ++ Server1.reply_text ++ m /\
     (zlen m <= 997 -> exists k',
        Client1.socket_read_cb (Some (Server1.reply_text ++ m)) k = Ret tt k' /\
        Client1.shown k' = Client1.shown k ++ [Server1.reply_text ++ m])) /\
  (4069 < zlen m -> Server1.socket_read_cb (Some m) room c = Undef "strcat").
Proof.
  intros Hn Hm Hr. rewrite server1_reads by done.
  assert (Hl : zlen (Server1.reply_text ++ m) = 26 + zlen m) by (by rewrite zlen_app).
  split; intros L; [rewrite (proj2 (Z.leb_le _ _)) by done|by rewrite (proj2 (Z.leb_gt _ _)) by done].
  eexists. split; [done|]. cbn [Server1.sent]. rewrite write_with_room by lia. split; [done|].
  intros L2. unfold Client1.socket_read_cb. cbn [read_len default].
  rewrite (proj2 (Z.leb_gt _ _)) by lia.
  assert (Hn' : no_nul (Server1.reply_text ++ m)).
  { apply Forall_app. split; [|done]. by vm_compute; repeat constructor. }
  pose proof (terminate_fits 1024 _ k Hn') as E. rewrite (proj2 (Z.ltb_lt _ _)) in E by lia.
  rewrite (bind_Ret _ _ _ _ _ E). by eexists.
Qed.

Lemma server1_answers_witness :
  let m := replicate 4070 97 in
  Server1.socket_read_cb (Some m) 4096 (Server1.mkConn true true []) = Undef "strcat" /\
  exists c', Server1.socket_read_cb (Some [104; 105]) 4096 (Server1.mkConn true true []) = Ret tt c' /\
    Server1.sent c' = Server1.reply_text ++ [104; 105].
Proof.
  split.
  - apply (server1_answers (replicate 4070 97) 4096 (Server1.mkConn true true []) (Client1.mkClient false [] []));
      [by apply Forall_replicate|done|done|done].
  - destruct (server1_answers [104; 105] 4096 (Server1.mkConn true true []) (Client1.mkClient false [] []))
      as [H _]; [by repeat constructor|done|done|].
    destruct H as (c' & H1 & H2 & _); [done|]. by exists c'.
Defined.

(** ** server3.cpp and client3.cpp *)

(** [k] callbacks of the server, each for some bytes that have arrived. *)
Fixpoint server3_run (chunks : list (list Z)) (b : Server3.bufferevent) : outcome Server3.bufferevent unit :=
  match chunks with
  | [] => Ret tt b
  | d :: ds =>
    match Server3.socket_read_cb (Server3.mkBev (Server3.input b ++ d) (Server3.output b)) with
    | Ret _ b' => server3_run ds b'
    | o => o
    end
  end.

Lemma server3_reads b :
  Server3.socket_read_cb b =
    Ret tt (Server3.mkBev (zdrop 4095 (Server3.input b)) (Server3.output b ++ Server3.reply)).
Proof.
  unfold Server3.socket_read_cb. erewrite bind_Ret by reflexivity. cbv beta.
  unfold terminate. rewrite (proj2 (Z.ltb_lt _ _)); [done|].
  pose proof (firstn_le_length (Z.to_nat 4095) (Server3.input b)). unfold zlen, ztake. lia.
Qed.

Lemma server3_runs chunks b :
  exists i, server3_run chunks b =
    Ret tt (Server3.mkBev i (Server3.output b ++ concat (replicate (length chunks) Server3.reply))).
Proof.
  revert b. induction chunks as [|d ds IH]; intros b; cbn -[Server3.reply].
  - exists (Server3.input b). rewrite app_nil_r. by destruct b.
  - rewrite server3_reads. cbn -[Server3.reply]. destruct (IH (Server3.mkBev (zdrop 4095 (Server3.input b ++ d))
      (Server3.output b ++ Server3.reply))) as [i E].
    exists i. rewrite E. cbn -[Server3.reply]. by rewrite <- app_assoc.
Qed.

Lemma zlen_replies k : zlen (concat (replicate k Server3.reply)) = 20 * Z.of_nat k.
Proof. induction k as [|k IH]; [done|]. cbn [replicate concat]. rewrite zlen_app, IH. change (zlen Server3.reply) with 20. lia. Qed.

Lemma no_nul_replies k : no_nul (concat (replicate k Server3.reply)).
Proof. induction k as [|k IH]; [constructor|]. apply Forall_app. split; [|done]. by vm_compute; repeat constructor. Qed.

(** Server3 answers every read with the same text and never overruns; when
    client3 is given the answers of [k] reads at once it shows them if [k] is at
    most 51, and otherwise writes the end of its string past the array. *)
Theorem client3_shows_51 chunks o ev exited shown :
  exists b, server3_run chunks Server3.listener_cb = Ret tt b /\
    let i := Server3.output b in
    Client3.server_msg_cb (Client3.mkClient (Some (i, o)) ev exited shown) =
      if (length chunks <=? 51)%nat
      then Ret tt (Client3.mkClient (Some ([], o)) ev exited (shown ++ [i]))
      else Undef "msg[len]".
Proof.
  destruct (server3_runs chunks Server3.listener_cb) as [i E]. eexists. split; [exact E|].
  cbn zeta. cbn [Server3.output Server3.listener_cb app].
  set (rs := concat _). assert (Hl : zlen rs = 20 * Z.of_nat (length chunks)) by apply zlen_replies.
  assert (Hn : no_nul rs) by apply no_nul_replies.
  unfold Client3.server_msg_cb. erewrite bind_Ret by reflexivity. cbn [Client3.bev].
  set (c1 := Client3.mkClient _ _ _ _).
  destruct (Nat.leb_spec (length chunks) 51) as [L|L].
  - rewrite ztake_all by lia. pose proof (terminate_fits 1024 rs c1 Hn) as T.
    rewrite (proj2 (Z.ltb_lt _ _)) in T by lia. rewrite (bind_Ret _ _ _ _ _ T). cbv beta.
    by rewrite zdrop_all by lia.
  - pose proof (terminate_fits 1024 (ztake 1024 rs) c1 (Forall_take _ _ _ Hn)) as T.
    rewrite zlen_ztake, Z.ltb_irrefl in T by lia.
    unfold mbind, M_bind. by rewrite T.
Qed.

(** ** test1.cpp *)

(** A client of test1 is sent a prefix of the message: while the connection
    lives the rest waits and both callbacks return; the connection can only be
    freed with the message sent or by an event. *)
Theorem hello_sends_message c got :
  rtc Hello.hello_step (Some Hello.MESSAGE, []) (c, got) ->
  (exists rest, got ++ rest = Hello.MESSAGE) /\
  (forall out, c = Some out -> out <> [] /\ got ++ out = Hello.MESSAGE /\
     Hello.hello_step (c, got) (None, Hello.MESSAGE)).
Proof.
  intros Hr.
  assert (forall s, rtc Hello.hello_step (Some Hello.MESSAGE, []) s ->
    (exists rest, s.2 ++ rest = Hello.MESSAGE) /\
    (forall out, s.1 = Some out -> out <> [] /\ s.2 ++ out = Hello.MESSAGE)) as Hi.
  { apply rtc_ind_r; [split; [by exists Hello.MESSAGE|by intros out [= <-]]|].
    intros s1 s2 _ Hs [[rest I1] I2].
    destruct Hs as [k out got' Hk|out got' c' Ho E|out got' ev c' E]; cbn in *;
      destruct (I2 out eq_refl) as [J1 J2].
    - split; [exists (zdrop k out); by rewrite <- app_assoc, ztake_drop|].
      intros out' [= <-]. split; [|by rewrite <- app_assoc, ztake_drop].
      intros E. apply (f_equal zlen) in E. rewrite zlen_zdrop, zlen_nil in E by lia. lia.
    - injection E as <-. split; [by exists []; rewrite app_nil_r|done].
    - injection E as <-. split; [by exists rest|done]. }
  destruct (Hi _ Hr) as [H1 H2]. split; [done|]. intros out ->.
  destruct (H2 out eq_refl) as [J1 J2]. split; [done|]. split; [done|].
  change (got ++ out = Hello.MESSAGE) in J2. rewrite <- J2. by apply Hello.h_flush.
Qed.

Lemma hello_sends_message_witness :
  rtc Hello.hello_step (Some Hello.MESSAGE, []) (Some (zdrop 5 Hello.MESSAGE), ztake 5 Hello.MESSAGE) /\
  Hello.hello_step (Some (zdrop 5 Hello.MESSAGE), ztake 5 Hello.MESSAGE) (None, Hello.MESSAGE).
Proof.
  assert (Hr : rtc Hello.hello_step (Some Hello.MESSAGE, [])
                 (Some (zdrop 5 Hello.MESSAGE), ztake 5 Hello.MESSAGE)).
  { apply rtc_once. apply (Hello.h_send 5 Hello.MESSAGE []). by vm_compute. }
  split; [done|].
  exact (proj2 (proj2 (proj2 (hello_sends_message _ _ Hr) _ eq_refl))).
Defined.
