(* ===== verification/ZHelpers.v ===== *)
(** * The ZeroMQ helpers

    src/zeromq/zhelpers.hpp.  A socket is the frames that have arrived and those
    that were sent, each with the flag that more frames of its message follow;
    the library delivers the frames of a message together and in order.  The
    output stream is the characters written to it and its base, which a
    manipulator changes until another one does. *)
From Stdlib Require Import SpecFloat.
From S2P Require Import Prelude FloatConvert.

Definition frame : Type := list Z * bool.

(** [out]: what was printed; [hex]: the base of integers is 16; [s_interrupted]
    is the flag of the signal handler. *)
Record program : Type := mkProgram {
  incoming : list frame;
  outgoing : list frame;
  out : list Z;
  hex : bool;
  s_interrupted : bool;
}.

Definition put_incoming fs s := mkProgram fs (outgoing s) (out s) (hex s) (s_interrupted s).
Definition print t s := mkProgram (incoming s) (outgoing s) (out s ++ t) (hex s) (s_interrupted s).
Definition set_hex s := mkProgram (incoming s) (outgoing s) (out s) true (s_interrupted s).

(** The receive waits for ever when nothing arrives; [waits] stands for that. *)
Definition waits {A} : M program A := fun _ => Fuel.

Definition recv : M program frame :=
  s ← getS;
  match incoming s with
  | [] => waits
  | f :: fs => _ ← modify (put_incoming fs); mret f
  end.

(** [ok]: the library takes the frame. *)
Definition send (ok more : bool) (data : list Z) : M program bool :=
  _ ← (if ok then modify (fun s => mkProgram (incoming s) (outgoing s ++ [(data, more)]) (out s) (hex s)
                                    (s_interrupted s)) else mret tt);
  mret ok.

Definition s_recv : M program (list Z) := f ← recv; mret f.1.
Definition s_send (ok : bool) (str : list Z) : M program bool := send ok false str.
Definition s_sendmore (ok : bool) (str : list Z) : M program bool := send ok true str.

(** ** Printed numbers *)
Definition digit (upper : bool) (d : Z) : Z := if d <? 10 then 48 + d else (if upper then 55 else 87) + d.

(** The digits of [n] in base [b], as the last of [fuel] ones. *)
Fixpoint digits (fuel : nat) (upper : bool) (b n : Z) (acc : list Z) : list Z :=
  match fuel with
  | O => acc
  | S fuel => if n =? 0 then acc else digits fuel upper b (n / b) (digit upper (n mod b) :: acc)
  end.

(** [setfill('0') << setw(w)] and then [n], below [2 ^ 32]. *)
Definition number (upper hexa : bool) (w n : Z) : list Z :=
  let ds := if n =? 0 then [48] else digits 32 upper (if hexa then 16 else 10) n [] in
  replicate (Z.to_nat (w - zlen ds)) 48 ++ ds.

(** ** s_dump *)
Definition is_text (data : list Z) : bool := forallb (fun byte => negb ((byte <? 32) || (byte >? 127))) data.

(** [(unsigned int) data[i]] where [char] is signed. *)
Definition char_to_uint (byte : Z) : Z := u32 (swrap 8 byte).

(** The line of one part, and the base afterwards. *)
Definition dump_part (hexa : bool) (data : list Z) : list Z * bool :=
  let size := number false hexa 3 (zlen data) in
  if is_text data then ([91] ++ size ++ [93] ++ data ++ [10], hexa)
  else ([91] ++ size ++ [93] ++ concat ((fun b => number false true 2 (char_to_uint b)) <$> data) ++ [10], true).

Definition print_part (data : list Z) : M program unit :=
  modify (fun s => let '(t, h) := dump_part (hex s) data in
    mkProgram (incoming s) (outgoing s) (out s ++ t) h (s_interrupted s)).

Fixpoint dump_loop (fuel : nat) : M program unit :=
  match fuel with
  | O => waits
  | S fuel =>
    f ← recv;
    _ ← print_part f.1;
    if negb (f.2 : bool) then mret tt else dump_loop fuel
  end.

Definition rule : list Z := replicate 40 45 ++ [10].

(** Every turn takes a frame, so one more turn than there are frames waits. *)
Definition s_dump : M program unit :=
  _ ← modify (print rule);
  s ← getS;
  dump_loop (S (length (incoming s))).

(** ** s_set_id *)

(** The macro [within(num)], with the value of [random()].  The product is a
    float, the quotient a double. *)
Definition RAND_MAX : Z := 2 ^ 31 - 1.
Definition within (num random : Z) : Z :=
  match SFdiv 53 1024 (FloatToDouble (SFmul 24 128 (float32 num) (float32 random))) (float64 (RAND_MAX + 1)) with
  | S754_finite false m e => trunc m e
  | _ => 0
  end.

Definition s_set_id (random1 random2 : Z) : list Z :=
  number true true 4 (within 65536 random1) ++ [45] ++ number true true 4 (within 65536 random2).

(** ** Versions, time and signals *)

(** Whether the program goes on. *)
Definition s_version_assert (want_major want_minor major minor : Z) : bool :=
  negb ((major <? want_major) || ((major =? want_major) && (minor <? want_minor))).

Definition s_clock (tv_sec tv_usec : Z) : Z := i64 (tv_sec * 1000 + Z.quot tv_usec 1000).

(** The seconds and nanoseconds given to nanosleep. *)
Definition s_sleep (msecs : Z) : Z * Z := (Z.quot msecs 1000, i32 (Z.rem msecs 1000 * 1000000)).

Definition s_signal_handler : M program unit :=
  modify (fun s => mkProgram (incoming s) (outgoing s) (out s) (hex s) true).

(** ** Messages of several parts *)

(** What a program that sends a message does, and the frames it sends. *)
Fixpoint send_parts (parts : list (list Z)) (last : list Z) : M program unit :=
  match parts with
  | [] => _ ← s_send true last; mret tt
  | p :: ps => _ ← s_sendmore true p; send_parts ps last
  end.

Definition frames (parts : list (list Z)) (last : list Z) : list frame :=
  ((fun p => (p, true)) <$> parts) ++ [(last, false)].

(** The lines of the parts, each in the base its predecessors leave. *)
Fixpoint dump_parts (hexa : bool) (parts : list (list Z)) : list Z * bool :=
  match parts with
  | [] => ([], hexa)
  | p :: ps => let '(t, h) := dump_part hexa p in let '(ts, h') := dump_parts h ps in (t ++ ts, h')
  end.

Lemma send_parts_frames parts last s :
  exists s', send_parts parts last s = Ret tt s' /\ outgoing s' = outgoing s ++ frames parts last.
Proof.
  revert s. induction parts as [|p ps IH]; intros s; cbn [send_parts].
  - eexists. split; [reflexivity|done].
  - erewrite bind_Ret by reflexivity. cbv beta.
    destruct (IH (mkProgram (incoming s) (outgoing s ++ [(p, true)]) (out s) (hex s) (s_interrupted s)))
      as (s' & E & O).
    exists s'. split; [exact E|]. rewrite O. cbn. by rewrite <- app_assoc.
Qed.

Lemma dump_loop_frames parts last rest s fuel :
  incoming s = frames parts last ++ rest -> (length parts < fuel)%nat ->
  dump_loop fuel s =
    Ret tt (mkProgram rest (outgoing s) (out s ++ (dump_parts (hex s) (parts ++ [last])).1)
              (dump_parts (hex s) (parts ++ [last])).2 (s_interrupted s)).
Proof.
  revert s fuel. induction parts as [|p ps IH]; intros s [|fuel] Hs Hf; cbn in Hf; try lia;
    destruct s as [inc o t h i]; cbn in Hs; subst inc; cbn [dump_loop app dump_parts];
    erewrite bind_Ret by reflexivity; cbv beta.
  - erewrite bind_Ret by reflexivity. cbn. destruct (dump_part h last) as [t1 h1]. cbn. by rewrite app_nil_r.
  - erewrite bind_Ret by reflexivity. cbn -[dump_loop]. destruct (dump_part h p) as [t1 h1].
    rewrite IH by (done || lia). cbn.
    destruct (dump_parts h1 (ps ++ [last])) as [t2 h2]. cbn. by rewrite <- app_assoc.
Qed.

(** A message sent part by part with s_sendmore and s_send is dumped by the
    receiver as one line for each part in order; s_dump then returns, and it
    leaves the frames that arrived after the message. *)
Theorem dump_multipart parts last rest s r :
  exists s', send_parts parts last s = Ret tt s' /\
    outgoing s' = outgoing s ++ frames parts last /\
    s_dump (put_incoming (frames parts last ++ rest) r) =
      Ret tt (mkProgram rest (outgoing r) (out r ++ rule ++ (dump_parts (hex r) (parts ++ [last])).1)
                (dump_parts (hex r) (parts ++ [last])).2 (s_interrupted r)).
Proof.
  destruct (send_parts_frames parts last s) as (s' & E & O). exists s'. split; [done|]. split; [done|].
  unfold s_dump. erewrite bind_Ret by reflexivity. erewrite bind_Ret by reflexivity. cbv beta.
  rewrite (dump_loop_frames parts last rest); [|done|].
  - cbn. by rewrite <- app_assoc.
  - cbn. unfold frames. rewrite !length_app, length_fmap. cbn. lia.
Qed.

(** The base stays hexadecimal after a part that is not text: the same part of
    sixteen letters is dumped with the size 016 and later with the size 010. *)
Lemma dump_size_changes_base :
  let part := replicate 16 97 in
  (dump_parts false [part; [0]; part]).1 =
    bytes_of "[016]aaaaaaaaaaaaaaaa" ++ [10] ++ bytes_of "[001]00" ++ [10] ++
    bytes_of "[010]aaaaaaaaaaaaaaaa" ++ [10].
Proof. by vm_compute. Qed.

(** ** Random identities *)
Lemma within_top :
  forallb (fun i => within 65536 (2 ^ 31 - 1 - Z.of_nat i) =? 65536) (seq 0 64) = true.
Proof. by vm_compute. Qed.

(** The macro [within(num)] is meant to give a number below [num].  The
    product is rounded to a float, so for the largest 64 values of random() it
    gives [num] itself, and the identity of s_set_id, meant to have four digits
    on each side, has five. *)
Theorem within_reaches_bound r :
  RAND_MAX - 64 < r <= RAND_MAX ->
  within 65536 r = 65536 /\ zlen (s_set_id r r) = 11.
Proof.
  unfold RAND_MAX. intros H.
  assert (within 65536 r = 65536) as E; [|unfold s_set_id; by rewrite E].
  pose proof within_top as F. rewrite forallb_forall in F.
  specialize (F (Z.to_nat (2 ^ 31 - 1 - r))).
  replace r with (2 ^ 31 - 1 - Z.of_nat (Z.to_nat (2 ^ 31 - 1 - r))) by lia.
  apply Z.eqb_eq, F, in_seq. lia.
Qed.

Lemma within_reaches_bound_witness : within 65536 (2 ^ 31 - 1) = 65536 /\ within 65536 (2 ^ 31 - 65) = 65535.
Proof. split; [apply (within_reaches_bound (2 ^ 31 - 1)); unfold RAND_MAX; lia|by vm_compute]. Defined.

(** ** Time *)

(** A delay that is not negative is split into seconds and nanoseconds below a
    second, without loss. *)
Lemma s_sleep_exact msecs :
  0 <= msecs < 2 ^ 31 ->
  0 <= (s_sleep msecs).2 < 1000000000 /\
  (s_sleep msecs).1 * 1000000000 + (s_sleep msecs).2 = msecs * 1000000.
Proof.
  intros H. unfold s_sleep. cbn [fst snd]. rewrite Z.quot_div_nonneg, Z.rem_mod_nonneg by lia.
  pose proof (Z.mod_pos_bound msecs 1000). pose proof (Z.div_mod msecs 1000).
  rewrite swrap_small by (unfold in_s; lia). lia.
Qed.
