(* ===== verification/LogText.v ===== *)
(** * Texts for the log

    src/log/utils/overload.h (printing of containers), ms_utils.cc (the ring of
    temporary strings) and ms_utils.h (environment variables).  How one element
    is printed or compared is a parameter, as it is in the templates. *)
From S2P Require Import Prelude.
#[local] Open Scope string_scope.

(** ** overload.h *)
Section containers.
Context {T : Type} (show : T -> string).

(** The loop over a vector from index [i]; [last] is the index of the last
    element, computed in 64 bits. *)
Fixpoint vector_loop (last : Z) (i : Z) (v : list T) (out : string) : string :=
  match v with
  | [] => out
  | x :: v =>
    let out := out +:+ show x in
    vector_loop last (i + 1) v (if negb (i =? last)%Z then out +:+ ", " else out)
  end.

Definition print_vector (v : list T) (out : string) : string :=
  let out := out +:+ "[const vector][" in
  let last := u64 (zlen v - 1) in
  vector_loop last 0 v out +:+ "]".

(** The loops over a list and over an initializer list are the same. *)
Fixpoint list_loop (begin : bool) (l : list T) (os : string) : string :=
  match l with
  | [] => os
  | item :: l => list_loop false l ((if negb begin then os +:+ ", " else os) +:+ show item)
  end.

Definition print_list (l : list T) (os : string) : string :=
  list_loop true l (os +:+ "[const list][") +:+ "]".

Definition print_initializer_list (l : list T) (os : string) : string :=
  list_loop true l (os +:+ "[") +:+ "]".

Definition ToString (v : list T) : string := print_vector v "".

Context (eq : T -> T -> bool).

Fixpoint equal_loop (lhs rhs : list T) : bool :=
  match lhs, rhs with
  | l :: lhs, r :: rhs => if negb (eq l r) then false else equal_loop lhs rhs
  | _, _ => true
  end.

Definition initializer_list_eq (lhs rhs : list T) : bool :=
  if negb (length lhs =? length rhs)%nat then false else equal_loop lhs rhs.
End containers.

(** ** ms_utils.cc *)
Definition CACHED_STR_NUM : Z := Z.shiftl 1 8.
Definition CACHED_STR_MASK : Z := CACHED_STR_NUM - 1.

(** [index] is the static counter; the strings are by their slot. *)
Record holder : Type := mkHolder { index : Z; STR_HOLDER : list string }.

Definition new_holder : holder := mkHolder 0 (replicate (Z.to_nat CACHED_STR_NUM) "").

(** The pointer that is returned is to the characters of a slot. *)
Definition SafeCStr (str : string) : M holder Z :=
  h ← getS;
  let cur_index := index h in
  let slot := Z.land cur_index CACHED_STR_MASK in
  _ ← modify (fun h => mkHolder (u32 (cur_index + 1)) (<[Z.to_nat slot := str]> (STR_HOLDER h)));
  mret slot.

(** ** ms_utils.h *)
Definition environment : Type := gmap string string.

Definition GetEnv (envvar : string) (e : environment) : string := default "" (e !! envvar).

(** setenv refuses a name that is empty or has the character [=]. *)
Definition env_name (name : string) : bool :=
  negb (bool_decide (name = "")) && negb (existsb (Z.eqb 61) (bytes_of name)).
Definition SetEnv (envname envvar : string) (overwrite : bool) (e : environment) : Z * environment :=
  if env_name envname
  then (0, if negb overwrite && bool_decide (is_Some (e !! envname)) then e else <[envname := envvar]> e)
  else (-1, e).

(** ** The printed text *)
Fixpoint join (l : list string) : string :=
  match l with
  | [] => ""
  | [x] => x
  | x :: l => x +:+ ", " +:+ join l
  end.

Section text.
Context {T : Type} (show : T -> string).

Lemma list_loop_rest l os :
  list_loop show false l os = os +:+ match l with [] => "" | _ => ", " +:+ join (show <$> l) end.
Proof.
  revert os. induction l as [|x l IH]; intros os; cbn [list_loop]; [by rewrite append_nil_r|].
  rewrite IH. cbn [negb]. destruct l as [|y l]; cbn [fmap list_fmap join];
    rewrite ?append_assoc, ?append_nil_r; done.
Qed.

Lemma list_loop_join l os : list_loop show true l os = os +:+ join (show <$> l).
Proof.
  destruct l as [|x l]; cbn [list_loop]; [by rewrite append_nil_r|]. rewrite list_loop_rest. cbn [negb].
  destruct l as [|y l]; cbn [fmap list_fmap join]; rewrite ?append_assoc, ?append_nil_r; done.
Qed.

Lemma vector_loop_join v i out :
  0 <= i -> i + zlen v < 2 ^ 64 ->
  vector_loop show (i + zlen v - 1) i v out = out +:+ join (show <$> v).
Proof.
  revert i out. induction v as [|x v IH]; intros i out Hi Hl; cbn [vector_loop]; [by rewrite append_nil_r|].
  rewrite zlen_cons in *. pose proof (zlen_nonneg v).
  replace (i + (1 + zlen v) - 1)%Z with (i + 1 + zlen v - 1)%Z by lia.
  rewrite IH by lia. destruct v as [|y v].
  - rewrite (proj2 (Z.eqb_eq _ _)) by (rewrite zlen_nil; lia). cbn [negb fmap list_fmap join]. by rewrite append_nil_r.
  - rewrite (proj2 (Z.eqb_neq _ _)) by (rewrite zlen_cons; pose proof (zlen_nonneg v); lia).
    cbn [negb fmap list_fmap join]. by rewrite !append_assoc.
Qed.

(** The three ways to print a sequence write the same elements in the same
    order with the same separator, and differ in the opening only; the last index
    of an empty vector wraps around, which does no harm. *)
Theorem containers_print_alike (l : list T) (out : string) :
  zlen l < 2 ^ 64 ->
  print_vector show l out = out +:+ "[const vector][" +:+ join (show <$> l) +:+ "]" /\
  print_list show l out = out +:+ "[const list][" +:+ join (show <$> l) +:+ "]" /\
  print_initializer_list show l out = out +:+ "[" +:+ join (show <$> l) +:+ "]".
Proof.
  intros Hl. unfold print_list, print_initializer_list. rewrite !list_loop_join, !append_assoc.
  split; [|done]. unfold print_vector. destruct l as [|x l]; [by cbn [vector_loop fmap list_fmap join]; rewrite !append_assoc|].
  rewrite uwrap_small by (unfold in_u; rewrite zlen_cons in *; pose proof (zlen_nonneg l); lia).
  pose proof (vector_loop_join (x :: l) 0 (out +:+ "[const vector][")) as E.
  rewrite Z.add_0_l in E. rewrite E by lia. by rewrite !append_assoc.
Qed.

Lemma initializer_list_eq_spec `{EqDecision T} (eq : T -> T -> bool) (a b : list T) :
  (forall x y, eq x y = bool_decide (x = y)) -> initializer_list_eq eq a b = bool_decide (a = b).
Proof.
  intros He. unfold initializer_list_eq. destruct (Nat.eqb_spec (length a) (length b)) as [L|L]; cbn [negb].
  - revert b L. induction a as [|x a IH]; intros [|y b] L; cbn in L |- *; try done.
    rewrite He. destruct (bool_decide_reflect (x = y)) as [->|N]; cbn.
    + rewrite IH by lia. apply bool_decide_ext. naive_solver.
    + symmetry. apply bool_decide_eq_false. naive_solver.
  - symmetry. apply bool_decide_eq_false. by intros ->.
Qed.
End text.

Lemma containers_print_alike_witness :
  print_vector (fun s : string => s) ["a"; "b"] "" = "[const vector][a, b]".
Proof. exact (proj1 (containers_print_alike (fun s => s) ["a"; "b"] "" ltac:(done))). Defined.

(** ** The ring of temporary strings *)
Fixpoint SafeCStr_many (strs : list string) : M holder unit :=
  match strs with
  | [] => mret tt
  | s :: strs => _ ← SafeCStr s; SafeCStr_many strs
  end.

Lemma slot_mod i : 0 <= i -> Z.land i CACHED_STR_MASK = i mod 256.
Proof. intros H. change CACHED_STR_MASK with (Z.ones 8). by rewrite Z.land_ones. Qed.

(** The holder after a call. *)
Definition stored (s : string) (h : holder) : holder :=
  mkHolder (u32 (index h + 1)) (<[Z.to_nat (index h mod 256) := s]> (STR_HOLDER h)).

Lemma SafeCStr_slot s h : 0 <= index h -> SafeCStr s h = Ret (index h mod 256) (stored s h).
Proof.
  intros H. unfold SafeCStr. erewrite bind_Ret by reflexivity. cbv zeta. by rewrite slot_mod by lia.
Qed.

(** Calls write the slots after the one of the counter. *)
Lemma SafeCStr_many_spec strs h :
  0 <= index h < 2 ^ 32 -> length (STR_HOLDER h) = 256%nat ->
  exists h', SafeCStr_many strs h = Ret tt h' /\
    index h' = u32 (index h + zlen strs) /\ length (STR_HOLDER h') = 256%nat /\
    forall slot, 0 <= slot < 256 -> (slot - index h) mod 256 >= zlen strs ->
      STR_HOLDER h' !! Z.to_nat slot = STR_HOLDER h !! Z.to_nat slot.
Proof.
  revert h. induction strs as [|s strs IH]; intros h Hi Hl; cbn [SafeCStr_many].
  { exists h. rewrite zlen_nil, Z.add_0_r, uwrap_small by done. naive_solver. }
  assert (Hm : 0 <= index h mod 256 < 256) by (apply Z.mod_pos_bound; lia).
  rewrite (bind_Ret _ _ _ _ _ (SafeCStr_slot s h ltac:(lia))). cbv beta. set (h1 := stored s h).
  assert (H1 : 0 <= index h1 < 2 ^ 32) by (cbn; unfold uwrap; apply Z.mod_pos_bound; lia).
  assert (H2 : length (STR_HOLDER h1) = 256%nat) by (cbn; by rewrite length_insert).
  destruct (IH h1 H1 H2) as (h' & E' & I1 & I2 & I3). exists h'. split; [done|].
  split; [rewrite I1, zlen_cons; cbn; unfold uwrap; rewrite Zplus_mod_idemp_l; f_equal; lia|].
  split; [done|]. intros slot Hs Hd. rewrite zlen_cons in Hd. pose proof (zlen_nonneg strs).
  assert (Hx : (slot - index h1) mod 256 = (slot - index h) mod 256 - 1).
  { cbn. unfold uwrap. Z.div_mod_to_equations. lia. }
  rewrite I3 by lia. cbn. apply list_lookup_insert_ne.
  intros E2. apply Z2Nat.inj in E2; [|lia..]. subst slot.
  rewrite Zminus_mod_idemp_l, Z.sub_diag in Hd. change (0 mod 256) with 0 in Hd. lia.
Qed.

(** The characters SafeCStr returns stay what they are during the next 255
    calls, also when the counter wraps around; the 256th call after it replaces
    them. *)
Theorem SafeCStr_lasts h str strs :
  0 <= index h < 2 ^ 32 -> length (STR_HOLDER h) = 256%nat ->
  exists slot h1 h2, SafeCStr str h = Ret slot h1 /\ SafeCStr_many strs h1 = Ret tt h2 /\
    STR_HOLDER h1 !! Z.to_nat slot = Some str /\
    (zlen strs <= 255 -> STR_HOLDER h2 !! Z.to_nat slot = Some str) /\
    (zlen strs = 255 -> forall s, exists h3, SafeCStr s h2 = Ret slot h3 /\ STR_HOLDER h3 !! Z.to_nat slot = Some s).
Proof.
  intros Hi Hl. assert (Hm : 0 <= index h mod 256 < 256) by (apply Z.mod_pos_bound; lia).
  destruct (SafeCStr_many_spec strs (stored str h)) as (h2 & E2 & I1 & I2 & I3).
  { cbn. unfold uwrap. apply Z.mod_pos_bound. lia. }
  { cbn. by rewrite length_insert. }
  exists (index h mod 256), (stored str h), h2. split; [apply SafeCStr_slot; lia|]. split; [done|].
  assert (Hst : STR_HOLDER (stored str h) !! Z.to_nat (index h mod 256) = Some str)
    by (cbn; apply list_lookup_insert_eq; lia).
  split; [done|]. split; intros Hz.
  - rewrite I3; [done|done|]. cbn. unfold uwrap. Z.div_mod_to_equations. lia.
  - intros s. assert (Hx : index h2 mod 256 = index h mod 256)
      by (rewrite I1, Hz; cbn; unfold uwrap; Z.div_mod_to_equations; lia).
    exists (stored s h2). rewrite SafeCStr_slot, Hx
      by (rewrite I1; unfold uwrap; apply Z.mod_pos_bound; lia).
    split; [done|]. cbn. rewrite Hx. apply list_lookup_insert_eq. lia.
Qed.

Lemma SafeCStr_lasts_witness :
  exists slot h1 h2, SafeCStr "a" new_holder = Ret slot h1 /\
    SafeCStr_many (replicate 255 "b") h1 = Ret tt h2 /\ STR_HOLDER h2 !! Z.to_nat slot = Some "a".
Proof.
  destruct (SafeCStr_lasts new_holder "a" (replicate 255 "b")) as (slot & h1 & h2 & E1 & E2 & _ & H & _);
    [done|done|]. exists slot, h1, h2. split; [done|]. split; [done|]. by apply H.
Defined.

(** A variable that is set has its value, and the others keep theirs. *)
Lemma SetEnv_GetEnv name value e other :
  env_name name = true ->
  GetEnv other (SetEnv name value true e).2 = if decide (other = name) then value else GetEnv other e.
Proof.
  intros H. unfold SetEnv, GetEnv, environment in *. rewrite H. cbn. destruct (decide (other = name)) as [->|N].
  - by rewrite lookup_insert_eq.
  - by rewrite lookup_insert_ne.
Qed.
