(* ===== verification/FileConfig.v ===== *)
(** * The configuration file

    src/even-http/ps/core/file_configuration.{h,cc}: a JSON document in memory
    and its file.  The JSON library is a parameter: the type of its values, its
    parser and its printer. *)
From Stdlib Require Import Ascii.
From S2P Require Import Prelude.

Section json.
Context {V : Type}.

(** A document: null (as constructed), an object, or any other value. *)
Inductive json : Type :=
| JNull
| JObject (m : gmap string V)
| JOther (v : V).

(** [parse_file old t] is what [json_file >> js] leaves in [js] and whether it
    raised no exception. *)
Class Json : Type := {
  parse_file : json -> string -> json * bool;
  dump_value : V -> string;
  dump : json -> string;
  of_string : string -> V;
}.

(** The documented behaviour the configuration relies on: an object that is
    printed parses to itself, an empty text does not parse, and a string is
    printed between quotes. *)
Class JsonLaws (J : Json) : Prop := {
  parse_dump js m : parse_file js (dump (JObject m)) = (JObject m, true);
  parse_empty js : (parse_file js EmptyString).2 = false;
  dump_string s : (String.length s + 2 <= String.length (dump_value (of_string s)))%nat;
}.

(** The fields, with the content of the file [file_path_] if it exists. *)
Record FileConfiguration : Type := mkFileConfiguration {
  file : option string;
  js : json;
}.

Definition FileConfiguration_init (f : option string) : FileConfiguration :=
  mkFileConfiguration f JNull.

Definition set_file (f : option string) (c : FileConfiguration) : FileConfiguration :=
  mkFileConfiguration f (js c).
Definition set_js (j : json) (c : FileConfiguration) : FileConfiguration :=
  mkFileConfiguration (file c) j.

Context `{J : Json}.

Definition Initialize : M FileConfiguration bool :=
  c ← getS;
  match file c with
  | None => mret false
  | Some text =>
    let '(j, ok) := parse_file (js c) text in
    _ ← modify (set_js j);
    mret ok
  end.

Definition Get (key defaultvalue : string) (c : FileConfiguration) : string :=
  match js c with
  | JObject m => match m !! key with Some v => dump_value v | None => defaultvalue end
  | _ => defaultvalue
  end.

(** [js[key] = value]: null becomes an object, what is not an object raises. *)
Definition assign (key : string) (v : V) (j : json) : option json :=
  match j with
  | JNull => Some (JObject {[ key := v ]})
  | JObject m => Some (JObject (<[key := v]> m))
  | JOther _ => None
  end.

(** Opening the file for writing empties it (or creates it). *)
Definition Put (key value : string) : M FileConfiguration unit :=
  _ ← modify (set_file (Some EmptyString));
  c ← getS;
  match assign key (of_string value) (js c) with
  | None => throw "type_error.305"
  | Some j =>
    _ ← modify (set_js j);
    modify (set_file (Some (dump j)))
  end.

Definition puts (kvs : list (string * string)) : M FileConfiguration unit :=
  foldr (fun kv k => _ ← Put kv.1 kv.2; k) (mret tt) kvs.

(** The object a list of [Put]s makes of another. *)
Definition put_all (kvs : list (string * string)) (m : gmap string V) : gmap string V :=
  foldl (fun m kv => <[kv.1 := of_string kv.2]> m) m kvs.

Definition is_object (j : json) (m : gmap string V) : Prop :=
  j = JObject m \/ (j = JNull /\ m = ∅).

Lemma Put_object key value c m :
  is_object (js c) m ->
  let m' := <[key := of_string value]> m in
  Put key value c = Ret tt (mkFileConfiguration (Some (dump (JObject m'))) (JObject m')).
Proof.
  destruct c as [f j]. intros Hj.
  unfold Put, mbind, M_bind, getS, modify. cbn in *. by destruct Hj as [->|[-> ->]].
Qed.

Lemma puts_object kvs c m :
  is_object (js c) m -> kvs <> [] ->
  puts kvs c = Ret tt (mkFileConfiguration (Some (dump (JObject (put_all kvs m)))) (JObject (put_all kvs m))).
Proof.
  revert c m. induction kvs as [|[k v] kvs IH]; intros c m Hj Hn; [done|]. cbn [puts foldr].
  erewrite bind_Ret by (by apply Put_object). fold (puts kvs).
  destruct kvs as [|kv kvs]; [done|]. apply IH; [by left|done].
Qed.

Context `{!JsonLaws J}.

(** The values of a list of [Put]s are in the file: a configuration that
    reads the file later has the same document, in which every key has the
    printed form of its last value. *)
Theorem config_survives_restart kvs c m key d :
  is_object (js c) m -> kvs <> [] ->
  exists c' c'', puts kvs c = Ret tt c' /\
    Initialize (FileConfiguration_init (file c')) = Ret true c'' /\ js c'' = js c' /\
    Get key d c'' = default d (dump_value <$> put_all kvs m !! key).
Proof.
  intros Hj Hn. rewrite (puts_object _ _ _ Hj Hn). do 2 eexists. split; [reflexivity|].
  unfold Initialize, mbind, M_bind, getS, modify. cbn. rewrite parse_dump. cbn.
  split; [reflexivity|]. split; [done|]. unfold Get. cbn. by destruct (put_all kvs m !! key).
Qed.

(** [Get] does not return what [Put] stored: it is the printed JSON string,
    with its quotes. *)
Theorem get_returns_quoted key value d c m :
  is_object (js c) m ->
  exists c', Put key value c = Ret tt c' /\
    Get key d c' = dump_value (of_string value) /\ Get key d c' <> value.
Proof.
  intros Hj. eexists. split; [by apply Put_object|]. unfold Get. cbn. rewrite lookup_insert_eq.
  split; [done|]. intros H. pose proof (dump_string value) as Hl. rewrite H in Hl. lia.
Qed.

(** When the file holds JSON that is not an object, [Put] raises after it
    has emptied the file, and the next start fails. *)
Theorem put_loses_file key value c v :
  js c = JOther v ->
  exists e c', Put key value c = Throw e c' /\ file c' = Some EmptyString /\
    exists c'', Initialize (FileConfiguration_init (file c')) = Ret false c''.
Proof.
  intros Hj. destruct c as [f j]. cbn in Hj. subst j.
  do 2 eexists. split; [reflexivity|]. split; [done|].
  unfold Initialize, mbind, M_bind, getS, modify. cbn.
  pose proof (parse_empty JNull) as H. destruct (parse_file _ _) as [j b]. cbn in *. subst b.
  by eexists.
Qed.
End json.
Arguments json : clear implicits.
Arguments Json : clear implicits.
Arguments FileConfiguration : clear implicits.

(** ** A library with these laws

    Values are strings; a document is printed as the bits of its code. *)
Definition quote : Ascii.ascii := Ascii.Ascii false true false false false true false false.

Fixpoint print_bits (p : positive) : string :=
  match p with
  | xH => String "."%char EmptyString
  | xO p => String "0"%char (print_bits p)
  | xI p => String "1"%char (print_bits p)
  end.

Fixpoint parse_bits (s : string) : option positive :=
  match s with
  | String "."%char EmptyString => Some xH
  | String "0"%char s => xO <$> parse_bits s
  | String "1"%char s => xI <$> parse_bits s
  | _ => None
  end.

Lemma parse_print_bits p : parse_bits (print_bits p) = Some p.
Proof. induction p as [p IH|p IH|]; cbn; by try rewrite IH. Qed.

#[local] Instance text_json : Json string := {
  parse_file old t :=
    match (p ← parse_bits t; decode p) with
    | Some m => (JObject m, true)
    | None => (old, false)
    end;
  dump_value s := String quote (s +:+ String quote EmptyString);
  dump j := match j with JObject m => print_bits (encode m) | _ => EmptyString end;
  of_string s := s;
}.

Lemma length_string_app (s t : string) :
  String.length (s +:+ t) = (String.length s + String.length t)%nat.
Proof. induction s as [|a s IH]; [done|]. apply (f_equal S), IH. Qed.

#[local] Instance text_json_laws : JsonLaws text_json.
Proof.
  split.
  - intros j m. cbn. rewrite parse_print_bits. cbn. by rewrite decode_encode.
  - done.
  - intros s. cbn. rewrite length_string_app. cbn. lia.
Qed.

Definition two_puts : list (string * string) :=
  [("worker_num", "8"); ("server_num", "4"); ("worker_num", "9")]%string.

Lemma config_survives_restart_witness :
  exists c' c'' : FileConfiguration string,
    puts two_puts (FileConfiguration_init None) = Ret tt c' /\
    Initialize (FileConfiguration_init (file c')) = Ret true c'' /\
    Get "worker_num" EmptyString c'' = String quote (String "9"%char (String quote EmptyString)).
Proof.
  destruct (config_survives_restart two_puts (FileConfiguration_init None) ∅ "worker_num" EmptyString)
    as (c' & c'' & H1 & H2 & _ & H3); [right; split; reflexivity|discriminate|].
  exists c', c''. split; [exact H1|]. split; [exact H2|]. rewrite H3. vm_compute. reflexivity.
Defined.

Lemma get_returns_quoted_witness :
  exists c' : FileConfiguration string,
    Put "scheduler_ip" "127.0.0.1" (FileConfiguration_init None) = Ret tt c' /\
    Get "scheduler_ip" EmptyString c' <> "127.0.0.1"%string.
Proof.
  destruct (get_returns_quoted "scheduler_ip" "127.0.0.1" EmptyString (FileConfiguration_init None) ∅)
    as (c' & H1 & _ & H2); [right; split; reflexivity|].
  exists c'. split; [exact H1|exact H2].
Defined.

Lemma put_loses_file_witness :
  exists e (c' : FileConfiguration string),
    Put "worker_num" "8" (mkFileConfiguration (Some "[1]"%string) (JOther "[1]"%string)) = Throw e c' /\
    file c' = Some EmptyString.
Proof.
  destruct (put_loses_file "worker_num" "8" (mkFileConfiguration (Some "[1]"%string) (JOther "[1]"%string))
    "[1]"%string) as (e & c' & H1 & H2 & _); [reflexivity|].
  exists e, c'. split; [exact H1|exact H2].
Defined.
