(* ===== verification/SmallPrograms.v ===== *)
(** * Small programs

    src/libevent-example/example/server1.cpp (an HTTP request over a blocking
    socket), src/even-http/ps/core/retry.cpp, src/builder (a configuration made
    step by step) and src/libevent-example/uuid.cpp.  The results of the system
    calls and the random draws are arguments. *)
From S2P Require Import Prelude Config.
From Stdlib Require Import Ascii.
#[local] Open Scope Z_scope.

(** ** A blocking HTTP request *)
Module BlockingGet.
Definition query : list Z :=
  bytes_of "GET / HTTP/1.0" ++ [13; 10] ++ bytes_of "Host: www.baidu.com" ++ [13; 10] ++ [13; 10].

(** The socket is closed or not, what was sent and printed, and what perror or
    fprintf reported. *)
Record world : Type := mkWorld {
  open_fds : Z;
  sent : list Z;
  printed : list Z;
  errors : list string;
}.
Definition world_init : world := mkWorld 0 [] [] [].

(** What the system does: the address, the socket, the connection; what each send
    returns; and what each recv gives, [None] for a failure. *)
Record system : Type := mkSystem {
  found : bool;
  ipv4 : bool;
  socket_ok : bool;
  connect_ok : bool;
  sends : list Z;
  recvs : list (option (list Z));
}.

Definition report (s : string) (w : world) : world :=
  mkWorld (open_fds w) (sent w) (printed w) (errors w ++ [s]).
Definition opened (w : world) : world := mkWorld (open_fds w + 1) (sent w) (printed w) (errors w).
Definition close (w : world) : world := mkWorld (open_fds w - 1) (sent w) (printed w) (errors w).

(** The loop that sends; [None] when [sends] has no result for a call.  A result
    tells how many of the bytes from [cp] on were taken. *)
Fixpoint send_loop (sends : list Z) (cp : list Z) (w : world) : option (bool * world) :=
  if zlen cp =? 0 then Some (true, w) else
  match sends with
  | [] => None
  | n_written :: sends =>
    if n_written <=? 0 then Some (false, report "send" w)
    else send_loop sends (zdrop n_written cp)
           (mkWorld (open_fds w) (sent w ++ ztake n_written cp) (printed w) (errors w))
  end.

Fixpoint recv_loop (recvs : list (option (list Z))) (w : world) : option (Z * world) :=
  match recvs with
  | [] => None
  | None :: _ => Some (1, close (report "recv" w))
  | Some [] :: _ => Some (0, close w)
  | Some d :: recvs => recv_loop recvs (mkWorld (open_fds w) (sent w) (printed w ++ d) (errors w))
  end.

Definition main (sys : system) : option (Z * world) :=
  let w := world_init in
  if negb (found sys) then Some (1, report "lookup" w) else
  if negb (ipv4 sys) then Some (1, report "ipv6" w) else
  if negb (socket_ok sys) then Some (1, report "socket" w) else
  let w := opened w in
  if negb (connect_ok sys) then Some (1, close (report "connect" w)) else
  '(ok, w) ← send_loop (sends sys) query w;
  if negb ok then Some (1, w) else recv_loop (recvs sys) w.

(** Results a socket can give: a send that succeeds takes at least one byte and
    at most those offered. *)
Fixpoint takes (sends : list Z) (n : Z) : Prop :=
  match sends with
  | [] => n = 0
  | k :: sends => 0 < k <= n /\ takes sends (n - k)
  end.

Lemma send_loop_sends l cp w :
  takes l (zlen cp) ->
  send_loop l cp w = Some (true, mkWorld (open_fds w) (sent w ++ cp) (printed w) (errors w)).
Proof.
  revert cp w. induction l as [|k l IH]; intros cp w; cbn [takes send_loop].
  - intros Hn. rewrite Hn. apply zlen_0_nil in Hn as ->. cbn. destruct w. by rewrite app_nil_r.
  - intros [Hk Ht]. rewrite (proj2 (Z.eqb_neq _ _)) by lia. rewrite (proj2 (Z.leb_gt _ _)) by lia.
    rewrite IH by (rewrite zlen_zdrop by lia; done). cbn.
    by rewrite <- app_assoc, ztake_drop.
Qed.

Lemma recv_loop_prints l chunks w :
  Forall (fun d => d <> []) chunks ->
  recv_loop ((Some <$> chunks) ++ Some [] :: l) w =
    Some (0, close (mkWorld (open_fds w) (sent w) (printed w ++ concat chunks) (errors w))).
Proof.
  intros Hc. revert w. induction Hc as [|d chunks Hd _ IH]; intros w; cbn.
  - destruct w. by rewrite app_nil_r.
  - destruct d as [|b d]; [done|]. rewrite IH. cbn. by rewrite <- app_assoc.
Qed.

(** The request from end to end: however the sends are cut and in whatever pieces
    the answer comes, the program sends its query once, prints the answer up to
    the end of the stream and closes the socket. *)
Theorem get_prints_answer sends chunks rest :
  takes sends (zlen query) -> Forall (fun d => d <> []) chunks ->
  main (mkSystem true true true true sends ((Some <$> chunks) ++ Some [] :: rest)) =
    Some (0, mkWorld 0 query (concat chunks) []).
Proof.
  intros Hs Hc. unfold main. cbn [found ipv4 socket_ok connect_ok negb BlockingGet.sends recvs].
  rewrite send_loop_sends by done. cbn [mbind option_bind negb]. by rewrite recv_loop_prints.
Qed.

Lemma get_prints_answer_witness :
  main (mkSystem true true true true [10; 29] [Some [1; 2]; Some [3]; Some []]) =
    Some (0, mkWorld 0 query [1; 2; 3] []).
Proof. apply (get_prints_answer [10; 29] [[1; 2]; [3]] []);
  [change (zlen query) with 39; cbn; lia|by repeat constructor]. Defined.

(** A send that fails leaves the socket open; after every other failure it is
    closed. *)
Lemma send_loop_fds l cp w b w' : send_loop l cp w = Some (b, w') -> open_fds w' = open_fds w.
Proof.
  revert cp w. induction l as [|k l IH]; intros cp w; cbn [send_loop].
  - destruct (zlen cp =? 0); [|done]. by intros [= <- <-].
  - destruct (zlen cp =? 0); [by intros [= <- <-]|]. destruct (k <=? 0); [by intros [= <- <-]|].
    intros E. by apply IH in E.
Qed.

Lemma recv_loop_fds l w r w' : recv_loop l w = Some (r, w') -> open_fds w' = open_fds w - 1.
Proof.
  revert w. induction l as [|[[|b d]|] l IH]; intros w; cbn [recv_loop]; [done|..].
  - by intros [= <- <-].
  - intros E. by apply IH in E.
  - by intros [= <- <-].
Qed.

Lemma main_fds sys r w :
  main sys = Some (r, w) ->
  open_fds w = if found sys && ipv4 sys && socket_ok sys && connect_ok sys &&
                  bool_decide (fst <$> send_loop (sends sys) query (opened world_init) = Some false)
               then 1 else 0.
Proof.
  unfold main. destruct (found sys), (ipv4 sys), (socket_ok sys), (connect_ok sys); cbn [negb andb];
    try (by intros [= <- <-]).
  destruct (send_loop _ _ _) as [[ok w1]|] eqn:E; [|done]. cbn [mbind option_bind fmap option_map].
  apply send_loop_fds in E. destruct ok; cbn [negb fst].
  - rewrite bool_decide_eq_false_2 by done. intros Er. apply recv_loop_fds in Er. rewrite Er, E. done.
  - intros [= <- <-]. by rewrite bool_decide_eq_true_2.
Qed.
End BlockingGet.

(** ** Retrying *)
Module Retries.
(** The attempts that are left; the calls of usleep are counted. *)
Fixpoint retry_loop {S} (func : M S bool) (n : nat) (sleeps : Z) : M S (bool * Z) :=
  match n with
  | O => mret (false, sleeps)
  | Datatypes.S n =>
    b ← func;
    if (b : bool) then mret (true, sleeps) else retry_loop func n (sleeps + 1)
  end.
Definition retry {S} (func : M S bool) (max_attempts : Z) : M S (bool * Z) :=
  retry_loop func (Z.to_nat max_attempts) 0.

(** The three functions of the program: [A] counts its calls in [m_cnt]. *)
Definition f {S} : M S bool := mret false.
Definition A_call : M Z bool :=
  _ ← modify (fun m_cnt => m_cnt + 1);
  m_cnt ← getS;
  if m_cnt >? 3 then mret true else mret false.

Definition main : M Z (bool * bool * bool) :=
  r1 ← retry f 3;
  r2 ← retry A_call 5;
  r3 ← retry f 5;
  mret (r1.1, r2.1, r3.1).

(** It is the Retry of comm_util.cc, with a sleep after each failure. *)
Lemma retry_loop_eq {S} (func : M S bool) n k s :
  match Config.retry_loop func n s with
  | Ret b s' => exists k', retry_loop func n k s = Ret (b, k') s' /\ k <= k' <= k + Z.of_nat n /\
                  (b = false -> k' = k + Z.of_nat n)
  | Throw e s' => retry_loop func n k s = Throw e s'
  | Undef w => retry_loop func n k s = Undef w
  | Fuel => retry_loop func n k s = Fuel
  end.
Proof.
  revert k s. induction n as [|n IH]; intros k s; cbn [Config.retry_loop retry_loop].
  - exists k. split; [done|]. lia.
  - unfold mbind, M_bind. destruct (func s) as [[] s'|e s'|w|]; try done.
    + exists k. split; [done|]. split; [lia|done].
    + specialize (IH (k + 1) s'). destruct (Config.retry_loop func n s'); try done.
      destruct IH as (k' & E & Hk & Hf). exists k'. split; [done|]. split; [lia|]. intros Hb.
      specialize (Hf Hb). lia.
Qed.

(** The second function succeeds at its fourth call. *)
Lemma main_result : main 0 = Ret (false, true, false) 4.
Proof. reflexivity. Qed.
End Retries.

(** ** A configuration made step by step *)
Module Builder.
(** The only object of the class; it is reached through GetInstance. *)
Record Config : Type := mkConfig {
  role_ : string;
  num_workers_ : Z;
  num_servers_ : Z;
  heartbeat_interval_ : Z;
  scheduler_host_ : string;
  scheduler_port_ : Z;
}.
Definition Config_init : Config := mkConfig "" 0 0 5 "" 0.

Definition create : M Config unit := mret tt.
Definition WithRole (role : string) : M Config unit := modify (fun c =>
  mkConfig role (num_workers_ c) (num_servers_ c) (heartbeat_interval_ c) (scheduler_host_ c) (scheduler_port_ c)).
Definition WithNumWorkers (num_workers : Z) : M Config unit := modify (fun c =>
  mkConfig (role_ c) num_workers (num_servers_ c) (heartbeat_interval_ c) (scheduler_host_ c) (scheduler_port_ c)).
Definition WithNumServers (num_servers : Z) : M Config unit := modify (fun c =>
  mkConfig (role_ c) (num_workers_ c) num_servers (heartbeat_interval_ c) (scheduler_host_ c) (scheduler_port_ c)).
Definition WithHeartbeatInterval (heartbeat_interval : Z) : M Config unit := modify (fun c =>
  mkConfig (role_ c) (num_workers_ c) (num_servers_ c) heartbeat_interval (scheduler_host_ c) (scheduler_port_ c)).
Definition WithSchedulerHost (scheduler_host : string) : M Config unit := modify (fun c =>
  mkConfig (role_ c) (num_workers_ c) (num_servers_ c) (heartbeat_interval_ c) scheduler_host (scheduler_port_ c)).
Definition WithSchedulerPort (port : Z) : M Config unit := modify (fun c =>
  mkConfig (role_ c) (num_workers_ c) (num_servers_ c) (heartbeat_interval_ c) (scheduler_host_ c) port).
Definition GetHeartbeatInterval : M Config Z := gets heartbeat_interval_.

(** What main prints. *)
Definition main : M Config (list Z) :=
  _ ← create;
  a ← GetHeartbeatInterval;
  _ ← create;
  _ ← WithHeartbeatInterval 100;
  b ← GetHeartbeatInterval;
  mret [a; b].

Lemma main_prints : main Config_init = Ret [5; 100] (mkConfig "" 0 0 100 "" 0).
Proof. reflexivity. Qed.

(** The builder is no object of its own: a second chain keeps what the first has
    set, and the setters of different fields commute. *)
Lemma settings_kept r w c :
  (_ ← WithRole r; _ ← create; WithNumWorkers w) c = (_ ← WithNumWorkers w; WithRole r) c.
Proof. reflexivity. Qed.
End Builder.

(** ** Identifiers *)
Module Uuid.
(** [ss << dis(gen)] for [n] draws from the [from]-th on. *)
Fixpoint put_draws (dis : nat -> Z) (from n : nat) (ss : list ascii) : list ascii :=
  match n with
  | O => ss
  | S n => put_draws dis (S from) n (ss ++ [hex_digit (dis from)])
  end.
Definition generate (dis dis2 : nat -> Z) : string :=
  let ss := put_draws dis 0 8 [] in
  let ss := ss ++ ["-"%char] in
  let ss := put_draws dis 8 4 ss in
  let ss := ss ++ ["-"%char; "4"%char] in
  let ss := put_draws dis 12 3 ss in
  let ss := ss ++ ["-"%char] in
  let ss := ss ++ [hex_digit (dis2 15%nat)] in
  let ss := put_draws dis 16 3 ss in
  let ss := ss ++ ["-"%char] in
  let ss := put_draws dis 19 12 ss in
  String.string_of_list_ascii ss.

Lemma generate_eq dis dis2 : generate dis dis2 = GenerateUUID dis dis2.
Proof. reflexivity. Qed.

Lemma generate_v4 dis dis2 : (forall n, 8 <= dis2 n <= 11) -> uuid_v4 (generate dis dis2) = true.
Proof. intros H. rewrite generate_eq. by apply GenerateUUID_v4. Qed.
End Uuid.
