(* ===== verification/UnitTests.v ===== *)
(** * The unit tests

    src/tests: the tests of the repository, run on the definitions of this
    development.  A test is a list of what its EXPECT and ASSERT macros compare,
    in their order, in the state the code left; [passed] says that the run came
    to its end and every comparison held.  Tests that only start threads and
    sleep are not here.  Where a parameter stands for a library, the test is
    stated for every such library. *)
From S2P Require Import Prelude Convert Securec Messages Framing Sending Config NodeManager Scheduler Collective.
From S2P Require Import Latch TcpClient PsWorker Http HttpPrograms.
#[local] Open Scope Z_scope.

Definition passed {S} (o : outcome S (list bool)) : bool :=
  match o with Ret l _ => forallb (fun b => b) l | _ => false end.
(** ASSERT_THROW *)
Definition throws {S A} (o : outcome S A) : bool := match o with Throw _ _ => true | _ => false end.
(** EXPECT_NO_THROW *)
Definition returns {S A} (o : outcome S A) : bool := match o with Ret _ _ => true | _ => false end.

(** ** worker_test.cc *)
Module TestWorker.
(** [messages.at(i)] *)
Definition first_at {A} (messages : list (bool * A)) (i : nat) : option bool := fst <$> messages !! i.
Definition size_at {A} (f : A -> list Z) (messages : list (bool * A)) (i : nat) : option Z :=
  (fun m => zlen (f m.2)) <$> messages !! i.

Definition LookUpSlice (set_order : list Z -> list Z) : outcome Worker (list bool) :=
  (_ ← AddEmbeddingTable 1 100;
   messages ← LookupIdSlicer set_order (mkLookup 1 [1; 34] []) [];
   mret [zlen messages =? 3;
         bool_decide (first_at messages 0 = Some true);
         bool_decide (first_at messages 2 = Some false);
         bool_decide (size_at lookup_keys messages 1 = Some 1);
         bool_decide (size_at lookup_keys messages 0 = Some 1)]) Worker_init.

Definition WorkerInitEmbeddingSlicer_test : outcome Worker (list bool) :=
  let fields := [1; 2; 8; 8; 8; 8; 8; 8; 8; 8] in
  (_ ← AddEmbeddingTable 1 10;
   messages ← WorkerInitEmbeddingSlicer (mkKV fields fields []) [];
   mret [zlen messages =? 3;
         bool_decide (first_at messages 0 = Some true);
         bool_decide (first_at messages 1 = Some true);
         bool_decide (first_at messages 2 = Some true);
         bool_decide (size_at values messages 0 = Some 4);
         bool_decide (size_at values messages 1 = Some 3);
         bool_decide (size_at values messages 2 = Some 3)]) Worker_init.

Definition RoundRobinSlicer_test : outcome Worker (list bool) :=
  (_ ← AddKeyToServerId 1;
   _ ← AddKeyToServerId 2;
   _ ← AddKeyToServerId 3;
   messages ← RoundRobinSlicer (mkKV [1; 2; 3] [1; 2; 3; 4; 5; 6; 7; 8; 9; 10] [1; 3; 6]) [];
   mret [zlen messages =? 3;
         bool_decide (first_at messages 0 = Some true);
         bool_decide (first_at messages 1 = Some true);
         bool_decide (first_at messages 2 = Some true);
         bool_decide (size_at values messages 0 = Some 6);
         bool_decide (size_at values messages 1 = Some 1);
         bool_decide (size_at values messages 2 = Some 3)]) Worker_init.

(** All three pass, in whatever order an unordered set is iterated. *)
Lemma worker_tests set_order :
  (forall l, set_order l ≡ₚ remove_dups l) ->
  passed (LookUpSlice set_order) = true /\ passed WorkerInitEmbeddingSlicer_test = true /\
  passed RoundRobinSlicer_test = true.
Proof.
  intros Hset. split; [|split; vm_compute; reflexivity].
  assert (set_order [1] = [1]) as E1 by (apply Permutation_length_1_inv; by rewrite Hset).
  assert (set_order [34] = [34]) as E34 by (apply Permutation_length_1_inv; by rewrite Hset).
  assert (set_order [] = []) as E0 by (apply Permutation_nil; by rewrite Hset).
  assert (exists w, AddEmbeddingTable 1 100 Worker_init = Ret tt w /\
    LookupIdSlicer set_order (mkLookup 1 [1; 34] []) [] w =
      Ret (map (fun ids => (not_empty ids, mkLookup 1 ids [])) [set_order [1]; set_order [34]; set_order []]) w)
    as (w & Ew & El) by (eexists; split; [vm_compute; reflexivity|reflexivity]).
  unfold LookUpSlice. rewrite (bind_Ret _ _ _ _ _ Ew), (bind_Ret _ _ _ _ _ El), E1, E34, E0.
  reflexivity.
Qed.
End TestWorker.

(** ** tcp_message_handler_test.cc *)
Module TestTcpMessageHandler.
Section tests.
Context {A : Type} `{Protobuf A} (max_alloc junk : Z).
(** A MessageMeta with request id 1. *)
Context (meta : A).

Definition data (n : nat) : list Z := replicate n 97.
Definition header (n : nat) : list Z :=
  header_bytes (mkMessageHeader (Protos_num RAW) (ByteSizeLong meta) (Z.of_nat n + ByteSizeLong meta)).
(** The parts of the array [result] that the calls of memcpy_s fill. *)
Definition message (n : nat) : list Z := header n ++ SerializeAsString meta ++ data n.

(** The contents of [result] at each call of ReceiveMessage. *)
Definition received_1000 : list (list Z) := [message 1000].
Definition received_1000_1000 : list (list Z) := [message 1000 ++ message 1000].
Definition received_8header_8header : list (list Z) :=
  [message 4070 ++ ztake 8 (header 4070); zdrop 8 (header 4070) ++ SerializeAsString meta ++ data 4070].
Definition received_16header : list (list Z) :=
  [message 4062 ++ header 4062; SerializeAsString meta ++ data 4062].

(** What the callback expects of each of its calls. *)
Definition EXPECT_size (n : nat) (d : delivery A) : bool :=
  (ByteSizeLong (d_meta d) =? 2) && (d_size d =? Z.of_nat n).

Definition handler_test (n : nat) (garbage : list Z) (chunks : list (list Z))
    : outcome (TcpMessageHandler A) (list bool) :=
  (_ ← SetCallback;
   _ ← receive_all max_alloc junk chunks;
   h ← getS;
   mret (EXPECT_size n <$> calls h)) (TcpMessageHandler_init garbage).
End tests.

Section passes.
Context {A : Type} `{ProtobufLaws A} (max_alloc junk : Z) (meta : A) (garbage : list Z).
Context (Hmax : 5000 <= max_alloc <= SIZE_MAX) (Hg : zlen garbage = kHeaderLen).
(** The first expectation of every test, on what protobuf writes. *)
Context (Hmeta : ByteSizeLong meta = 2).

Lemma message_frame n : message meta n = frame_of (meta, RAW, data n).
Proof.
  unfold message, header, frame_of, frame. rewrite size_serialize. unfold data, zlen.
  by rewrite length_replicate.
Qed.

(** However the bytes of [k] messages are cut, the callback is called [k] times
    and its expectations hold. *)
Lemma handler_test_cut n k chunks :
  (n <= 4096)%nat -> concat chunks = concat (replicate k (message meta n)) ->
  Forall (fun c => zlen c <= 5000) chunks ->
  exists h, handler_test max_alloc junk n garbage chunks = Ret (replicate k true) h.
Proof.
  intros Hn Hcut Hch. unfold handler_test. pose proof (size_serialize meta) as Hs.
  set (m := (meta, RAW, data n)).
  assert (Forall (msg_ok max_alloc) (replicate k m)) as Hok.
  { apply Forall_replicate. cbn. unfold size_ok, data, zlen, INT_MAX in *. rewrite length_replicate. lia. }
  rewrite (bind_Ret SetCallback _ _ tt _ eq_refl).
  edestruct (receive_all_holds max_alloc junk ltac:(lia) chunks) as (h & Er & Ec & _).
  - eapply Forall_impl; [exact Hch|]. unfold SECUREC_MEM_MAX_LEN. lia.
  - by eapply holds_init.
  - cbn [app]. rewrite Hcut, message_frame. fold m. rewrite <- fmap_replicate.
    apply decodes_frames; [lia|exact Hok].
  - rewrite (bind_Ret _ _ _ _ _ Er). exists h. unfold getS. unfold mbind at 1, M_bind. cbv beta iota.
    unfold mret, M_ret. f_equal. rewrite Ec. cbn [calls TcpMessageHandler_init app].
    rewrite !fmap_replicate. f_equal. unfold EXPECT_size, as_delivery, m. cbn [d_meta d_size].
    rewrite Hmeta. unfold data, zlen. by rewrite length_replicate, !Z.eqb_refl.
Qed.

Lemma zlen_data n : zlen (data n) = Z.of_nat n.
Proof. unfold data, zlen. by rewrite length_replicate. Qed.
Lemma zlen_test_header n : zlen (header meta n) = 16.
Proof. apply zlen_header_bytes. Qed.
Lemma zlen_message n : zlen (message meta n) = 18 + Z.of_nat n.
Proof. unfold message. rewrite !zlen_app, zlen_test_header, zlen_data, <- size_serialize, Hmeta. lia. Qed.
Lemma half_header n : zlen (ztake 8 (header meta n)) = 8 /\ zlen (zdrop 8 (header meta n)) = 8.
Proof. rewrite zlen_ztake, zlen_zdrop by (rewrite zlen_test_header; lia). by rewrite zlen_test_header. Qed.

Ltac lens :=
  rewrite ?zlen_app, ?zlen_message, ?(proj1 (half_header _)), ?(proj2 (half_header _)), ?zlen_test_header,
    ?zlen_data, <- ?size_serialize, ?Hmeta; lia.

(** All four tests pass: the callback is called once or twice, each time with a
    meta of two bytes and all the data.  The arrays have the sizes that the tests
    give to ReceiveMessage. *)
Theorem handler_tests :
  (exists h, handler_test max_alloc junk 1000 garbage (received_1000 meta) = Ret [true] h) /\
  (exists h, handler_test max_alloc junk 1000 garbage (received_1000_1000 meta) = Ret [true; true] h) /\
  (exists h, handler_test max_alloc junk 4070 garbage (received_8header_8header meta) =
     Ret [true; true] h) /\
  (exists h, handler_test max_alloc junk 4062 garbage (received_16header meta) = Ret [true; true] h) /\
  map zlen (received_1000 meta ++ received_1000_1000 meta ++ received_8header_8header meta ++
            received_16header meta) = [1018; 2036; 4096; 4080; 4096; 4064].
Proof.
  split_and!.
  - apply (handler_test_cut 1000 1); [lia|done|]. repeat constructor; lens.
  - apply (handler_test_cut 1000 2); [lia|cbn; by rewrite !app_nil_r|].
    repeat constructor; lens.
  - apply (handler_test_cut 4070 2); [lia| |].
    + cbn [received_8header_8header concat replicate]. rewrite !app_nil_r, <- app_assoc. unfold message at 3.
      by rewrite (app_assoc (ztake 8 _)), ztake_drop.
    + repeat constructor; lens.
  - apply (handler_test_cut 4062 2); [lia| |].
    + cbn [received_16header concat replicate]. by rewrite !app_nil_r, <- app_assoc.
    + repeat constructor; lens.
  - cbn [map app received_1000 received_1000_1000 received_8header_8header received_16header].
    repeat f_equal; lens.
Qed.
End passes.
End TestTcpMessageHandler.

(** ** tcp_kv_server_test.cc *)
Module TestTcpServer.
Section test.
Context {A : Type} `{Protobuf A} `{Protobuf KVMessage}.
Context (evbuffer_add : list Z -> list Z -> option (list Z)) (max_alloc junk : Z).

Definition kv_message : KVMessage := mkKV [1; 2] [3; 4] [].

(** The value of the protocol field, which the callbacks pass on. *)
Definition Protos_of (n : Z) : Protos := if n =? 1 then PROTOBUF else if n =? 2 then FLATBUFFERS else RAW.

(** The message callback of the server, after its expectation. *)
Definition server_callback (d : delivery A) : M bufferevent bool :=
  TcpServer_SendMessage evbuffer_add (Some true) (Some (d_meta d)) (Protos_of (d_proto d)) (Some (d_data d)) (d_size d).
Fixpoint server_callbacks (ds : list (delivery A)) : M bufferevent bool :=
  match ds with
  | [] => mret true
  | d :: ds => b ← server_callback d; bs ← server_callbacks ds; mret (b && bs)
  end.

(** EXPECT_EQ(2, kv_message.keys_size()) in both callbacks. *)
Definition EXPECT_two_keys (d : delivery A) : bool :=
  zlen (keys (ParseFromArray (d_data d))) =? 2.

Definition client_send (message_meta : A) : M bufferevent bool :=
  TcpClient_SendMessage evbuffer_add true (Some message_meta) RAW
    (Some (SerializeAsString kv_message)) (ByteSizeLong kv_message).

Definition receive (garbage : list Z) (chunks : list (list Z)) : outcome (TcpMessageHandler A) (list (delivery A)) :=
  (_ ← SetCallback; _ ← receive_all max_alloc junk chunks; h ← getS; mret (calls h))
    (TcpMessageHandler_init garbage).
End test.

Section echo.
Context {A : Type} `{ProtobufLaws A} `{ProtobufLaws KVMessage}.
Context (evbuffer_add : list Z -> list Z -> option (list Z)) (max_alloc junk : Z).
Context (Hadd : forall out d, evbuffer_add out d = Some (out ++ d)).
Context (Hmax : max_alloc <= SIZE_MAX).

Lemma receive_frames garbage chunks (msgs : list (A * Protos * list Z)) :
  zlen garbage = kHeaderLen -> Forall (msg_ok max_alloc) msgs ->
  Forall (fun c => zlen c <= SECUREC_MEM_MAX_LEN) chunks -> concat chunks = concat (frame_of <$> msgs) ->
  exists h, receive max_alloc junk garbage chunks = Ret (as_delivery <$> msgs) h.
Proof.
  intros Hg Hok Hch Hcut. unfold receive. rewrite (bind_Ret SetCallback _ _ tt _ eq_refl).
  edestruct (receive_all_holds (A := A) max_alloc junk Hmax chunks) as (h & Er & Ec & _);
    [exact Hch|by eapply holds_init| |].
  - cbn [app]. rewrite Hcut. apply (decodes_frames (A := A)); [exact Hmax|exact Hok].
  - rewrite (bind_Ret _ _ _ _ _ Er). exists h. unfold getS. unfold mbind at 1, M_bind. cbv beta iota.
    unfold mret, M_ret. f_equal. rewrite Ec. done.
Qed.

Lemma send_frame bev_conn (m : A * Protos * list Z) b :
  let '(meta, protos, data) := m in
  msg_ok max_alloc m ->
  (bev_conn : M bufferevent bool) = SendMessage_frame evbuffer_add true (Some meta) protos (Some data) (zlen data) ->
  bev_conn b = Ret true (mkBufferevent (output b ++ frame_of m) (locked b)).
Proof.
  destruct m as [[meta protos] data]. intros Hok ->.
  destruct (SendMessage_frame_spec (A := A) evbuffer_add ltac:(intros ? ? ? E; rewrite Hadd in E; by injection E)
    max_alloc meta protos data b Hmax Hok) as (r & [out lk] & E & L & O & S).
  rewrite S in E, O by (intros; rewrite Hadd; by eexists). rewrite E. cbn in L, O. by rewrite O, L.
Qed.

Lemma server_callbacks_echo (msgs : list (A * Protos * list Z)) : forall b,
  Forall (msg_ok max_alloc) msgs ->
  server_callbacks evbuffer_add (as_delivery <$> msgs) b =
    Ret true (mkBufferevent (output b ++ concat (frame_of <$> msgs)) (locked b)).
Proof.
  induction msgs as [|[[meta protos] data] msgs IH]; intros b Hok; cbn [fmap list_fmap server_callbacks].
  { cbn. rewrite app_nil_r. by destruct b. }
  apply Forall_cons_1 in Hok as [Hm Hms].
  erewrite bind_Ret; [|apply (send_frame _ (meta, protos, data)); [done|]].
  - erewrite bind_Ret by (by apply IH). cbn. by rewrite <- app_assoc.
  - unfold server_callback. cbn [as_delivery d_meta d_proto d_data d_size].
    replace (Protos_of (Protos_num protos)) with protos by by destruct protos. done.
Qed.

(** A message of the client comes back to it.  The test passes however the
    network cuts the two streams: the server's callback finds a message with two
    keys and sends the same bytes back, and the client's callback is called once,
    with the meta and the message that were sent. *)
Theorem server_echo_test (message_meta : A) garbage garbage' chunks chunks' :
  zlen garbage = kHeaderLen -> zlen garbage' = kHeaderLen ->
  size_ok max_alloc message_meta (SerializeAsString kv_message) ->
  Forall (fun c => zlen c <= SECUREC_MEM_MAX_LEN) (chunks ++ chunks') ->
  exists b, client_send evbuffer_add message_meta (mkBufferevent [] 0) = Ret true b /\
    (concat chunks = output b ->
     exists (ds : list (delivery A)) h b', receive max_alloc junk garbage chunks = Ret ds h /\
       forallb EXPECT_two_keys ds = true /\
       server_callbacks evbuffer_add ds (mkBufferevent [] 0) = Ret true b' /\ output b' = output b /\
       (concat chunks' = output b' ->
        exists h', receive max_alloc junk garbage' chunks' =
          Ret [mkDelivery message_meta (Protos_num RAW) (SerializeAsString kv_message) (ByteSizeLong kv_message)] h' /\
          ParseFromArray (SerializeAsString kv_message) = kv_message)).
Proof.
  intros Hg Hg' Hok [Hch Hch']%Forall_app. set (m := (message_meta, RAW, SerializeAsString kv_message)).
  assert (Forall (msg_ok max_alloc) [m]) as Hm by (apply Forall_singleton; exact Hok).
  eexists. split.
  { apply (send_frame _ m); [exact Hok|]. unfold client_send, TcpClient_SendMessage. by rewrite size_serialize. }
  cbn [output]. intros Hcut.
  assert (concat (frame_of <$> [m]) = [] ++ frame_of m) as Ef by (cbn; by rewrite app_nil_r).
  destruct (receive_frames garbage chunks [m]) as [h Er]; [done..|by rewrite Ef|].
  exists (as_delivery <$> [m]), h. eexists. split; [exact Er|]. split.
  { cbn. unfold EXPECT_two_keys. cbn [d_data]. by rewrite parse_serialize. }
  split; [by apply server_callbacks_echo|]. split; [cbn [output]; by rewrite Ef|].
  intros Hcut'. destruct (receive_frames garbage' chunks' [m]) as [h' Er']; [done..|].
  exists h'. split; [|apply parse_serialize]. rewrite Er', size_serialize. done.
Qed.
End echo.

Lemma server_echo_test_witness :
  let pb : Protobuf KVMessage := countable_protobuf KVMessage_default in
  let add out d := Some (out ++ d) in
  let sent := frame ([8; 5] : list Z) RAW (SerializeAsString kv_message) in
  exists b, client_send (A := list Z) add [8; 5] (mkBufferevent [] 0) = Ret true b /\
    (concat [ztake 5 sent; zdrop 5 sent] = output b -> exists ds h,
       receive (A := list Z) 1000 0 (replicate 16 0) [ztake 5 sent; zdrop 5 sent] = Ret ds h).
Proof.
  intros pb add sent. pose proof (countable_protobuf_laws KVMessage_default) as laws.
  destruct (server_echo_test (A := list Z) add 1000 0 (fun _ _ => eq_refl) ltac:(vm_compute; discriminate)
    [8; 5] (replicate 16 0) (replicate 16 0) [ztake 5 sent; zdrop 5 sent] []) as (b & E & R).
  - reflexivity.
  - reflexivity.
  - split; vm_compute; [discriminate|split; [reflexivity|discriminate]].
  - repeat constructor; vm_compute; discriminate.
  - exists b. split; [exact E|]. intros Hc. destruct (R Hc) as (ds & h & _ & Er & _). by exists ds, h.
Defined.
End TestTcpServer.

(** ** The tests of the cluster *)
Module TestCluster.
(** cluster_config_test.cc *)
Definition HeartbeatInterval (inet_addr : string -> Z) : outcome ClusterConfig (list bool) :=
  (_ ← ClusterConfig_Init inet_addr 2 2 "127.0.0.1" 8080;
   i1 ← gets heartbeat_interval_;
   _ ← set_heartbeat_interval 100;
   i2 ← gets heartbeat_interval_;
   host ← scheduler_host;
   port ← gets scheduler_port_;
   mret [i1 =? 3; i2 =? 100; bool_decide (host = "127.0.0.1"%string); port =? 8080]) ClusterConfig_init.

(** common_util_test.cc *)
Definition ValidateRankId_test (inet_addr : string -> Z) : outcome ClusterConfig (list bool) :=
  (_ ← ClusterConfig_Init inet_addr 3 2 "127.0.0.1" 9999;
   c ← getS;
   mret [ValidateRankId c WORKER 2; negb (ValidateRankId c WORKER 3);
         ValidateRankId c SERVER 1; negb (ValidateRankId c SERVER 2)]) ClusterConfig_init.

(** The operator of MockRetry; the state is [count_]. *)
Definition MockRetry : M Z bool := _ ← modify (fun n => n + 1); gets (fun n => n >? 3).
Definition Retry_test : outcome Z (list bool) :=
  (ret ← Retry (mret false) 5;
   mock_ret ← Retry MockRetry 5;
   mret [negb ret; mock_ret]) 0.

(** abstract_node_test.cc *)
Definition NextExpectedRankRequestId_test : outcome collective (list bool) :=
  (r1 ← NextExpectedRankRequestId 0;
   r2 ← NextExpectedRankRequestId 0;
   r3 ← NextExpectedRankRequestId 1;
   mret [r1 =? 1; r2 =? 2; r3 =? 1]) collective_init.

(** embedding_table_shard_metadata_test.cc *)
Definition EmbeddingTable_test : list bool :=
  let embedding_table_shard := mkShard 1 100 in
  [begin_ embedding_table_shard =? 1; end_ embedding_table_shard =? 100; shard_size embedding_table_shard =? 99].

(** tcp_client_tests.cc; the port is a uint16_t. *)
Definition InitClient (inet_addr : string -> Z) (ip : string) (port : Z) (r : client_init_results)
    : outcome TcpClient.state unit :=
  TcpClient.Init inet_addr r (statics_init, TcpClient_init ip (uwrap 16 port) []).

(** cluster_available_timeout_test.cc: a scheduler to which no node comes.  [c] is
    the configuration, which is static, as earlier tests left it.  The turns of
    the timer are the times since it began, before and after its sleep; Finish
    waits for what is polled. *)
Fixpoint timer_turns (cfg : ClusterConfig) (turns : list (Z * Z)) : M SchedulerNode unit :=
  match turns with
  | [] => mret tt
  | (elapsed, now) :: turns =>
    s ← getS;
    if is_finish_ s then mret tt else
    _ ← timer_before_sleep cfg elapsed;
    _ ← timer_after_sleep cfg now;
    timer_turns cfg turns
  end.
Definition lone_scheduler (c : ClusterConfig) (uuid : string) (turns : list (Z * Z))
    : outcome SchedulerNode bool :=
  match (_ ← set_cluster_available_timeout 3; getS) c with
  | Ret cfg _ => (_ ← Scheduler.Initialize cfg uuid;
                  _ ← timer_turns cfg turns;
                  gets Finish_poll) SchedulerNode_init
  | _ => Fuel
  end.

Section inet.
Context (inet_addr : string -> Z) (inet_addr_local : inet_addr "127.0.0.1" = 16777343).

Lemma CheckIp_local : CheckIp inet_addr "127.0.0.1" = true.
Proof. unfold CheckIp. rewrite inet_addr_local. vm_compute. reflexivity. Qed.

(** The tests that pass. *)
Lemma cluster_tests :
  passed (ValidateRankId_test inet_addr) = true /\ passed Retry_test = true /\
  passed NextExpectedRankRequestId_test = true /\ forallb (fun b => b) EmbeddingTable_test = true.
Proof.
  split; [|split_and!; vm_compute; reflexivity].
  unfold ValidateRankId_test, ClusterConfig_Init. rewrite CheckIp_local. vm_compute. reflexivity.
Qed.

(** The test of the configuration expects an interval of 3 seconds where the
    code has 1; its other expectations hold. *)
Lemma HeartbeatInterval_fails :
  exists c, HeartbeatInterval inet_addr = Ret [false; true; true; true] c.
Proof.
  unfold HeartbeatInterval, ClusterConfig_Init. rewrite CheckIp_local. eexists. vm_compute. reflexivity.
Qed.

(** A bad address is refused, and a port of -1 is taken as 65535. *)
Lemma client_init_tests r :
  throws (InitClient inet_addr "127.0.0.13543" 9000 r) = true /\
  (r = mkClientInit 0 true true 0 0 -> returns (InitClient inet_addr "127.0.0.1" (-1) r) = true).
Proof.
  split; [vm_compute; reflexivity|]. intros ->. unfold InitClient, TcpClient.Init.
  cbn -[CheckIp]. unfold mbind, M_bind. cbn -[CheckIp]. by rewrite CheckIp_local.
Qed.
End inet.

(** The scheduler has heard of no node and has not finished. *)
Definition quiet (s : SchedulerNode) : Prop :=
  let m := node_manager_ s in
  nodes_info_ m = ∅ /\ heartbeats_ m = ∅ /\ finish_nodes_id_ m = ∅ /\ is_cluster_ready_ m = false.

(** A manager without nodes finishes when no node or none at all is awaited. *)
Lemma update_no_nodes cfg now m :
  nodes_info_ m = ∅ -> heartbeats_ m = ∅ -> finish_nodes_id_ m = ∅ -> is_cluster_ready_ m = false ->
  exists m', UpdateClusterState cfg now m = Ret tt m' /\
    nodes_info_ m' = ∅ /\ heartbeats_ m' = ∅ /\ finish_nodes_id_ m' = ∅ /\
    (is_cluster_finish_ m' = false -> is_cluster_ready_ m' = false) /\
    (total_node_num_ m = 0 \/ current_node_num_ m = 0 -> is_cluster_finish_ m' = true).
Proof.
  destruct m as [r f t nt tot cur nw ns nodes hb hf to fn]. cbn. intros -> -> -> ->.
  unfold UpdateClusterState. erewrite bind_Ret by reflexivity. erewrite bind_Ret by reflexivity.
  cbn [set_timeout_nodes heartbeats_]. rewrite map_to_list_empty. cbn [note_timeouts].
  erewrite bind_Ret by reflexivity. erewrite bind_Ret by reflexivity.
  cbn [timeout_nodes_info_]. rewrite bool_decide_eq_true_2 by done.
  erewrite bind_Ret by reflexivity. nmcbn. rewrite size_empty. change (Z.of_nat 0) with 0.
  destruct (Z.eqb_spec 0 tot) as [<-|Ht].
  - erewrite bind_Ret by reflexivity. erewrite bind_Ret by reflexivity. eexists. split; [reflexivity|].
    nmcbn. by rewrite map_size_empty.
  - erewrite bind_assoc, bind_Ret by reflexivity. erewrite bind_Ret by reflexivity.
    change (i32 0) with 0. destruct (Z.eqb_spec 0 cur) as [<-|Hc]; erewrite bind_Ret by reflexivity; eexists; (split; [reflexivity|]);
      nmcbn; rewrite map_size_empty; rewrite (proj2 (Z.eqb_neq (Z.of_nat 0) tot)) by done; nmcbn; [done|].
    split_and!; [done..|]. intros [->| ->]; done.
Qed.

Lemma quiet_turn cfg elapsed now s :
  quiet s ->
  exists s', (_ ← timer_before_sleep cfg elapsed; timer_after_sleep cfg now) s = Ret tt s' /\
    (is_finish_ s' = false -> quiet s') /\
    (cluster_available_timeout_ cfg < elapsed -> is_finish_ s' = true).
Proof.
  intros (E1 & E2 & E3 & E4).
  assert (forall s1, quiet s1 ->
    exists s', timer_after_sleep cfg now s1 = Ret tt s' /\ (is_finish_ s' = false -> quiet s') /\
      (total_node_num_ (node_manager_ s1) = 0 \/ current_node_num_ (node_manager_ s1) = 0 ->
       is_finish_ s' = true)) as Hafter.
  { intros s1 (H1 & H2 & H3 & H4). destruct (update_no_nodes cfg now (node_manager_ s1) H1 H2 H3 H4)
      as (m' & E & N1 & N2 & N3 & Nr & Nf).
    unfold timer_after_sleep. erewrite bind_Ret by (unfold with_manager; rewrite E; reflexivity).
    erewrite bind_Ret by reflexivity. eexists. split; [reflexivity|].
    unfold quiet. cbn [node_manager_ set_manager].
    destruct (is_cluster_finish_ m') eqn:Ef.
    - destruct (is_cluster_ready_ m'); cbn; rewrite Ef; cbn; by split.
    - rewrite (Nr eq_refl). cbn. rewrite Ef. split; [intros _; split_and!; auto|].
      intros Hd%Nf. discriminate. }
  unfold timer_before_sleep. rewrite bind_assoc. erewrite bind_Ret by reflexivity. rewrite E4. cbn [negb andb].
  destruct (Z.gtb_spec elapsed (cluster_available_timeout_ cfg)) as [Hgt|Hle].
  - assert (exists s1, with_manager CheckClusterTimeout s = Ret tt s1 /\ quiet s1 /\
      (total_node_num_ (node_manager_ s1) = 0 \/ current_node_num_ (node_manager_ s1) = 0))
      as (s1 & Ec & Hq1 & H0).
    { unfold with_manager, CheckClusterTimeout, modify. eexists. split; [reflexivity|].
      unfold quiet. cbn [node_manager_ set_manager]. rewrite E1, map_size_empty. change (Z.of_nat 0) with 0.
      destruct (Z.eqb_spec (total_node_num_ (node_manager_ s)) 0); cbn; auto. }
    destruct (Hafter s1 Hq1) as (s' & E & Hq & Hf). exists s'. rewrite (bind_Ret _ _ _ _ _ Ec). auto.
  - destruct (Hafter s) as (s' & E & Hq & _); [done|]. exists s'. erewrite bind_Ret by reflexivity.
    split; [exact E|]. split; [done|lia].
Qed.

Lemma quiet_turns cfg turns elapsed now : forall s,
  quiet s -> cluster_available_timeout_ cfg < elapsed ->
  exists s', timer_turns cfg (turns ++ [(elapsed, now)]) s = Ret tt s' /\ is_finish_ s' = true.
Proof.
  induction turns as [|[e1 n1] turns IH]; intros s Hq He; cbn [app timer_turns];
    (erewrite bind_Ret by reflexivity); (destruct (is_finish_ s) eqn:Ef; [by exists s|]).
  - destruct (quiet_turn cfg elapsed now s Hq) as (s' & E & _ & Hf). exists s'.
    rewrite <- bind_assoc. rewrite (bind_Ret _ _ _ _ _ E). auto.
  - destruct (quiet_turn cfg e1 n1 s Hq) as (s1 & E & Hq1 & _).
    rewrite <- bind_assoc, (bind_Ret _ _ _ _ _ E). destruct (is_finish_ s1) eqn:Ef1; [|by apply IH; auto].
    exists s1. split; [|done]. destruct turns as [|[? ?] ?]; cbn [app timer_turns];
      (erewrite bind_Ret by reflexivity); by rewrite Ef1.
Qed.

(** The test with a lone scheduler does not set the address of the scheduler: on
    its own it dereferences a null pointer.  When another test has set it, Finish
    returns once a turn of the timer begins more than three seconds after the
    first. *)
Lemma lone_scheduler_cases c uuid turns elapsed now :
  match scheduler_host_ c with
  | None => lone_scheduler c uuid turns = Undef "null scheduler_host_"
  | Some _ => 3 < elapsed -> exists s, lone_scheduler c uuid (turns ++ [(elapsed, now)]) = Ret true s
  end.
Proof.
  destruct c as [wn sn [h|] p hi ht at_ ci st]; cbn [scheduler_host_]; [|reflexivity].
  intros He. set (cfg := mkClusterConfig wn sn (Some h) p hi ht 3 ci st).
  assert (exists s0, Scheduler.Initialize cfg uuid SchedulerNode_init = Ret tt s0 /\ quiet s0)
    as (s0 & E0 & Hq) by (eexists; split; [reflexivity|by split_and!]).
  destruct (quiet_turns cfg turns elapsed now s0 Hq He) as (s & Es & Hs). exists s.
  change ((_ ← Scheduler.Initialize cfg uuid; _ ← timer_turns cfg (turns ++ [(elapsed, now)]); gets Finish_poll)
    SchedulerNode_init = Ret true s).
  rewrite (bind_Ret _ _ _ _ _ E0), (bind_Ret _ _ _ _ _ Es). unfold gets, Finish_poll. by rewrite Hs.
Qed.
End TestCluster.

(** ** unit_tests.cpp: the HTTP server *)
Module TestHttpServer.
Section handlers.
Context (evhttp_parse_query_str : list Z -> option evkeyvalq).
Context (evhttp_find_header : evkeyvalq -> string -> option string).
Context (evhttp_add_header : evkeyvalq -> string -> string -> option evkeyvalq).
Context (evbuffer_add : list Z -> list Z -> option (list Z)).

Definition STREQ (s t : string) : bool := bool_decide (s = t).

Definition http_get_func : M HttpMessageHandler (list bool) :=
  path_param ← GetPathParam evhttp_find_header "key1";
  query ← GetUriQuery;
  uri ← GetRequestUri;
  path ← GetUriPath;
  _ ← QuickResponse evbuffer_add 200 (Some (ztake 22 get_ret));
  mret [STREQ path_param "value1"; STREQ query "key1=value1"; STREQ uri "/httpget?key1=value1";
        STREQ path "/httpget"].

(** The array [post_message] holds the body and a zero. *)
Definition http_handler_func : M HttpMessageHandler (list bool) :=
  host ← GetRequestHost;
  path_param ← GetPathParam evhttp_find_header "key1";
  header_param ← GetHeadParam evhttp_find_header "headerKey";
  post_param ← GetPostParam evhttp_parse_query_str evhttp_find_header "postKey";
  data ← GetPostMsg;
  let post_message := data ++ [0] in
  _ ← AddRespHeadParam evhttp_add_header "headKey" "headValue";
  _ ← AddRespString evbuffer_add rBody;
  _ ← SetRespCode 200;
  _ ← SendResponse;
  mret [STREQ host "127.0.0.1"; STREQ path_param "value1"; STREQ header_param "headerValue";
        STREQ post_param "postValue";
        bool_decide (c_string post_message = bytes_of "postKey=postValue")].

(** TransFunc of a handler with its expectations. *)
Definition serve {A} (func : M HttpMessageHandler A) (req : evhttp_request) : outcome HttpMessageHandler A :=
  (_ ← set_request (Some req); _ ← InitHttpMessage evhttp_parse_query_str; func) HttpMessageHandler_init.

(** What curl sends. *)
Definition get_request : evhttp_request :=
  mkRequest (Some "/httpget?key1=value1"%string) (Some "127.0.0.1"%string)
    (Some (mkUri None (-1) (Some "/httpget"%string) (Some "key1=value1"%string) None)) [] [] 0 0.
Definition post_request : evhttp_request :=
  mkRequest (Some "/handler?key1=value1"%string) (Some "127.0.0.1"%string)
    (Some (mkUri None (-1) (Some "/handler"%string) (Some "key1=value1"%string) None))
    [("Accept", "application/json"); ("headerKey", "headerValue")]%string (bytes_of "postKey=postValue") 17 0.

(** libevent's parser and search on what occurs in the tests. *)
Hypothesis parse_key1 : evhttp_parse_query_str (bytes_of "key1=value1") = Some [("key1", "value1")%string].
Hypothesis parse_post : evhttp_parse_query_str (bytes_of "postKey=postValue") = Some [("postKey", "postValue")%string].
Hypothesis find_first : forall k v l, evhttp_find_header ((k, v) :: l) k = Some v.
Hypothesis find_header : evhttp_find_header (input_headers post_request) "headerKey" = Some "headerValue"%string.
Hypothesis add_header_first : forall k v, evhttp_add_header [] k v = Some [(k, v)].
Hypothesis add_to_empty : forall l, evbuffer_add [] l = Some l.

(** Both requests are answered, all expectations hold, and what curl prints, up
    to the terminating zero that comes with the first answer, is what the tests
    compare with. *)
Lemma http_server_tests :
  (exists h body, serve http_get_func get_request = Ret [true; true; true; true] h /\
     replies h = [Reply 200 [] body] /\ c_string body = bytes_of "get request success!" ++ line_end) /\
  (exists h, serve http_handler_func post_request = Ret [true; true; true; true; true] h /\
     replies h = [Reply 200 [("headKey", "headValue")%string] (bytes_of "post request success!" ++ line_end)]).
Proof.
  pose proof parse_key1 as P1. pose proof find_header as F. cbn in P1, F. split.
  - eexists _, get_ret. unfold serve, http_get_func, get_request. hrun. rewrite P1. cbn.
    rewrite find_first. cbn. rewrite add_to_empty. done.
  - unfold serve, http_handler_func, post_request.
    set (body := bytes_of "postKey=postValue").
    assert ((zlen body =? 0) = false) as Hz by reflexivity.
    assert (evhttp_parse_query_str (c_string body) = Some [("postKey", "postValue")%string]) as P2
      by exact parse_post.
    assert (bool_decide (c_string (body ++ [0]) = body) = true) as Hb by reflexivity.
    clearbody body. eexists. hrun. rewrite P1. cbn. rewrite find_first. cbn. rewrite F. cbn. rewrite Hz, P2. cbn.
    rewrite find_first. cbn. rewrite Hz. cbn. rewrite add_header_first. cbn. rewrite add_to_empty, Hb.
    split; reflexivity.
Qed.
End handlers.

(** The test of a bad port passes.  The test of a bad address does not:
    RegisterRoute does not look at the address and does not raise. *)
Lemma register_tests function :
  returns (RegisterRoute "/handler" (Some function) (HttpServer_init "0.0.0.0" (-1) 10)) = true /\
  throws (RegisterRoute "/handler" (Some function) (HttpServer_init "12344.0.0.0" 9998 10)) = false.
Proof. by split. Qed.
End TestHttpServer.

(** ** count_down_latch_test.cc *)
Module TestCountDownLatch.
Lemma one_waiter ld : rtc latch_step (CountDownLatch_init 2 1, 0) ld -> length (waiters ld.1) = 1%nat.
Proof.
  intros Hr. apply (rtc_ind_r (fun ld => length (waiters ld.1) = 1%nat) (CountDownLatch_init 2 1, 0)) in Hr;
    [done..|].
  intros y z _ Hs Hl. destruct Hs as [i l l' d E|i l l' d E|i l l' d E|l l' d E]; revert E;
    unfold Wait_enter, Wait_wake, spurious, CountDown; intros E; repeat case_match; try done;
    injection E as <-; cbn in *; rewrite ?length_insert, ?length_map; done.
Qed.

(** The count is 2 at first.  The thread calls CountDown twice and the main thread
    Wait, in whatever order: when no step is left but spurious wakeups, Wait has
    returned. *)
Lemma latch_test l :
  GetCount (CountDownLatch_init 2 1) = 2 /\
  (rtc latch_step (CountDownLatch_init 2 1, 0) (l, 2) ->
   Wait_enter 0 l = None -> Wait_wake 0 l = None -> waiters l !! O = Some Returned).
Proof.
  split; [done|]. intros Hr. pose proof (one_waiter _ Hr) as Hl. cbn [fst] in Hl.
  destruct (latch_reachable_inv 2 1 (l, 2) ltac:(done) Hr) as [Hc _ Hb]. cbn [fst snd] in Hc, Hb.
  specialize (Hb O). unfold Wait_enter, Wait_wake. destruct (waiters l) as [|w [|]]; try done.
  cbn in *. destruct w; try done. exfalso. apply Hb; [done|lia].
Qed.
End TestCountDownLatch.
